(* ===== verification/_CoqProject ===== *)
-Q . S2P
Prelude.v
GoStrings.v
GoNet.v
GoFmt.v
Errors.v
IPv4.v
Types.v
Dhcpv4.v
Subnet.v
LeaseCache.v
Pool.v
SubnetProps.v
SubnetNet.v
Server.v
ServerProps.v
Responses.v
ServerGuarantees.v
ServerReach.v
SubnetMap.v
RequestProcessor.v
Pipeline.v
Socket.v
Client.v
Sender.v
LeaseSpec.v
PoolServes.v
Network.v
System.v
SystemLive.v
ApiTypes.v
Memory.v
DeepCopy.v
Controllers.v
ControllersProps.v
Arrival.v
Program.v
Persist.v
Descriptors.v
ClientMain.v
Restart.v
Atomic.v
Moving.v
Locks.v
Goroutines.v
RaceFree.v
Races.v
Logger.v
