(* ===== verification/Prelude.v ===== *)
(** * k8s-dhcp: a verified model of the DHCP server and its controllers

    The program is a DHCP server whose configuration lives in a Kubernetes
    cluster.  Requests come in on UDP sockets ([src/dhcp/socket.go]); a request
    processor ([src/dhcp/request_processor.go]) asks the server
    ([src/dhcp/server.go]) for a response; the server picks the subnet that is
    responsible and the subnet ([src/dhcp/subnet.go]) picks a lease, from its
    cache or from its range of addresses; the processor saves the lease in the
    cluster ([src/controllers/dhcpsubnet_controller.go], the callback) and then
    sends the response, to the relay or as a broadcast
    ([src/dhcp/broadcast_responder.go]).  Three reconcilers ([src/controllers/])
    carry subnets, hosts and listeners from the cluster's objects
    ([src/api/v1alpha1/]) to the server; [src/main.go] builds and connects
    them.  A load-testing client ([src/dhcp/client/client.go]) is a program of
    its own.

    ** Files

    - Prelude: machine integers, results and panics, bounded loops, the iteration
      order of Go maps, tactics.
    - GoStrings, GoNet: what the program uses of Go's [strings], [strconv], [fmt]
      and [net], with their specifications.
    - GoFmt: Go's [Sprintf] and [QuoteToASCII].
    - Errors: the errors, one constructor per place that makes one.
    - IPv4: [ipv4.go].  What [ParseIPv4] accepts; that it inverts printing.
    - Types: the structs of [api.go], and the store of leases.
    - Dhcpv4: the interface to the packet library, a class of operations and a
      class of laws, with a concrete instance for examples.
    - Subnet: [util.go] and [subnet.go], every operation.
    - LeaseCache: the invariant of a lease cache, [cache_ok], and which
      operations keep it.
    - Pool: the loop of [GetLeaseForRequest] over the range, against a
      specification of what it hands out, [pool_grants].
    - SubnetProps, SubnetNet: the properties of a subnet.
    - Server: [server.go], every operation.
    - ServerProps: the server's invariant [server_inv], the state machine
      [server_step], and that every step keeps the invariant.
    - Responses: the content of a response; the server of [server_test.go].
    - ServerGuarantees: the choice of a subnet; discover, then request.
    - ServerReach: what holds in every reachable state of the server.
    - SubnetMap: adding and deleting subnets; overlaps; hosts without address.
    - RequestProcessor: [request_processor.go].
    - Pipeline: its goroutines as the step relation [pipeline_step], and what
      holds in every state they reach.
    - Socket: [socket.go] and [broadcast_responder.go].
    - Client, Sender: [client.go]: the clients, what they do with responses, the
      frames they send and the goroutine that sends them.
    - LeaseSpec: an abstract book of leases, who is bound to which address, and
      that a subnet refines it.
    - PoolServes: counting the addresses of a range, as long as there are enough of
      them a client is served.
    - Network: the interface to the network between clients and server, a class of
      operations and a class of laws, with an instance.
    - System, SystemLive: the clients, the network and the server as one
      transition system [sys_step], its invariant, and what it guarantees.
    - ApiTypes, Controllers, ControllersProps: [api/v1alpha1] and [controllers].
    - Memory: a memory of arrays, variables and maps, and the contract of a deep
      copy; DeepCopy: [zz_generated.deepcopy.go], every function.
    - Arrival: the objects of a cluster arrive in any order.
    - Program: [main.go], the program that it starts.
    - Persist: the request processor and the controllers together.
    - Descriptors: [socket.go] and [broadcast_responder.go] with the table of open
      descriptors.
    - ClientMain: [main] of the client, from its flags to its last line.
    - Restart: what a new start of the program knows of the leases before it.
    - Atomic: requests that are handled at the same time, in steps as small as the
      mutexes make them, and that they are answered as if one after the other.
    - Moving: the same while subnets are added and deleted at any time, with the
      pointers that workers have to deleted subnets.
    - Locks: goroutines, mutexes and shared variables in general, the disciplines that
      exclude data races and deadlocks.
    - Goroutines: what every method locks, reads, writes and starts ([sync_...]);
      RaceFree: which discipline protects which variable; Races: the data races of
      the program, and that it does not deadlock.
    - Logger: [logger.go], the [Logger] of [main.go], [Request.ToString], and the log line
      of a request.

    ** How state and operations correspond

    A method of a struct is a function of the struct's record, which returns the
    new record beside its result; an assignment to a field is a [set_...]
    function.  Leases are reached through pointers: a cache finds one lease under
    two keys, a response carries the same pointer, and the code writes
    [ServerId] and [AckSent] through it.  So a [*Lease] is a location in a list
    of leases, the store, which is part of the server's state; [&Lease{...}]
    appends to it.  Subnets are reached through one map only, and are values in
    it.  A mutex makes the code it protects one step of a state machine.  The
    deep copies are about sharing, so there the structs are modelled with
    their slices, pointers and maps as references to an explicit memory.

    An error result is a value of [error]; a function that may panic, or may not
    return, returns an [outcome].  [range] over a map visits the entries in an
    order that is an argument of the definition, any permutation of the keys
    ([range_order]); the clock is an argument where the code reads it.  Integers
    of a width are [Z] with the wrap-around written where the code can leave the
    range: addresses are 32 bits wide and [Inc] wraps.

    The loop over a subnet's range has a fuel of 2^32 turns, the number of
    addresses: the proofs in Pool.v bound the turns by the size of the range and
    show that the loop always returns, for a range that ends before
    255.255.255.255.  The sender of a client is a machine that is run for a
    number of steps.  The other loops are structural recursions.

    ** What is shown

    - Subnets: no address is leased to two clients of the cache in any reachable
      state; the loop over the range refines its specification and returns; a
      client that comes back is given the same lease; a subnet's history is one of
      the abstract book of leases; what initialisation accepts, and that the subnet
      it makes of an IPv4 network contains exactly the addresses with its prefix;
      which local addresses are known.
    - The server: its state stays well formed; requests are answered or refused without a panic in every
      reachable state, each refusal with its error and without effect; the
      content of a response; the subnet that answers; the exchange of discover,
      offer, request and acknowledgement; the map of subnets.
    - The pipeline: responses are saved before they are sent, in order, each
      once; the channel drains; the address sent is the address of the lease.
    - The wire: which listen addresses are accepted, one raw socket for an
      interface, the frame that carries a broadcast answer.
    - The controllers: in whatever order and however often the objects of a
      cluster arrive, the server ends up with the declared subnets and hosts, unless
      the logger ends the program before, and when it does; what
      the callback writes; copies of objects share nothing with the original.
    - The client: its addresses are distinct, it sends discovers and then
      requests until it is acknowledged, and it waits for all clients.
    - The whole: clients and server together, over a network that may lose, repeat
      and reorder packets: no two clients are acknowledged the same address, and
      from every state in which each client can still be heard all can finish.  A
      response is on the wire only after its lease was written to the cluster.
    - Concurrency: a request is answered as if in one step, while the map of subnets stays;
      if it changes, every request in hand is answered still, and no subnet leases an
      address twice; which variables have a data
      race, exactly; the mutexes are taken in an order, so nobody waits for ever
      for one.
    - Logging: a request is logged as one printable line; it is the text of the request,
      with every option, if there is no percent sign in it.
    - Resources and restarts: the descriptors that a closed listener leaves open; the
      leases that a restart forgets.
    - Faults, each as a theorem about what the code does: an address that a
      client asks for is granted without being recorded; an expired lease or a
      static host's lease is handed out without being rebound; the last address
      of the address space; networks that parse but contain nothing; nested
      networks; an address that stays taken when a client becomes a host; a
      malformed packet; a subnet created again; a host deleted; a listener whose
      update failed; a request refused while its subnet is replaced, and an address
      acknowledged twice, by a subnet and the one that replaced it; a host that moves;
      a start address of eight bytes; the events that end the program: a host
      object, and a subnet for which a host waited.

    ** Hypotheses

    The state machines remove a host or a lease from an address only if the
    entry at that address belongs to the hardware address it is removed with.
    Hardware addresses hold no dot, so they are no texts of IPv4 addresses.  The laws of the packet library are in Dhcpv4.v and hold of the
    concrete instance there; so are those of the network in Network.v.  The
    The logger that the framework gives the reconcilers is a parameter
    (Controllers.v): in its production mode it writes, in the development mode that
    [main] asks for it panics if a key has no value; there is an instance of each.  The
    [DeepCopyInto] of the framework's own structs is assumed to keep the contract
    that is proved for the program's.  Where a theorem needs disjoint subnets it
    says so.

    ** What is not modelled

    What is logged, but for the requests and the one message of the subnet reconciler
    that can panic; what the controller framework does between the events it delivers;
    the system calls, the packet library and the frame serialisation, which are
    parameters; the parsing of the client's flags and how long its sleeps last.  The
    goroutine that serves a listener is modelled from the
    reads of its socket on.  In Goroutines.v a branch is a free choice, so that a race there
    is one as far as locks are concerned; what the channels order in addition is
    not in it, and neither are methods that nothing calls ([Server.AddLease],
    [Server.DeleteLease], [Server.GetLease]) nor [Server.Close], which runs after the
    controllers have stopped.  Atomic.v takes the writes to a lease after its choice,
    which no mutex protects, as one step, as does Moving.v. *)

From stdpp Require Export base gmap strings list fin_maps numbers option.
From Stdlib Require Export ZArith Lia Ascii.

(** ** Machine integers

    A Go integer of width w is a [Z]; every operation of the source that can
    leave the range of the type goes through one of these. *)

Definition wrap_u8 (x : Z) : Z := (x mod 2 ^ 8)%Z.
Definition wrap_u32 (x : Z) : Z := (x mod 2 ^ 32)%Z.
Definition wrap_u64 (x : Z) : Z := (x mod 2 ^ 64)%Z.
Definition wrap_i64 (x : Z) : Z := ((x + 2 ^ 63) mod 2 ^ 64 - 2 ^ 63)%Z.

Definition is_u8 (x : Z) : Prop := (0 <= x < 256)%Z.
Definition is_u32 (x : Z) : Prop := (0 <= x < 2 ^ 32)%Z.

#[global] Instance is_u8_dec x : Decision (is_u8 x).
Proof. unfold is_u8. apply _. Defined.
#[global] Instance is_u32_dec x : Decision (is_u32 x).
Proof. unfold is_u32. apply _. Defined.

(** ** Errors and panics

    A Go function with an [error] result is a function into [result]; one that
    may panic, or may not return, is a function into [outcome]. *)

Inductive result (E A : Type) : Type :=
  | Ok (a : A)
  | Err (e : E).
Arguments Ok {E A} a.
Arguments Err {E A} e.

Inductive outcome (A : Type) : Type :=
  | Ret (a : A)
  | Panic (why : string)
  | NoReturn.
Arguments Ret {A} a.
Arguments Panic {A} why.
Arguments NoReturn {A}.

#[global] Instance result_ret E : MRet (result E) := λ A a, Ok a.
#[global] Instance result_bind E : MBind (result E) := λ A B k r,
  match r with Ok a => k a | Err e => Err e end.
#[global] Instance outcome_ret : MRet outcome := λ A a, Ret a.
#[global] Instance outcome_bind : MBind outcome := λ A B k r,
  match r with Ret a => k a | Panic w => Panic w | NoReturn => NoReturn end.

Definition is_ok {E A} (r : result E A) : bool :=
  match r with Ok _ => true | Err _ => false end.

#[global] Instance result_eq_dec `{EqDecision E, EqDecision A} : EqDecision (result E A).
Proof. solve_decision. Defined.
#[global] Instance outcome_eq_dec `{EqDecision A} : EqDecision (outcome A).
Proof. solve_decision. Defined.

(** ** Bounded loops

    A Go [for {...}] is a body that either continues with a new loop state
    ([inl]) or leaves the loop with a result ([inr]).  The fuel is a binary
    number, so that a bound such as [2 ^ 32] can be written down and the loop
    still evaluates: the body runs only until it leaves. *)

Fixpoint iter_nat {S R : Type} (body : S → S + R) (n : nat) (s : S) : S + R :=
  match n with
  | O => inl s
  | Datatypes.S n =>
      match body s with
      | inl s' => iter_nat body n s'
      | inr r => inr r
      end
  end.

Fixpoint iter_pos {S R : Type} (body : S → S + R) (p : positive) (s : S) : S + R :=
  match p with
  | xH => body s
  | xO p =>
      match iter_pos body p s with
      | inl s' => iter_pos body p s'
      | inr r => inr r
      end
  | xI p =>
      match body s with
      | inl s' =>
          match iter_pos body p s' with
          | inl s'' => iter_pos body p s''
          | inr r => inr r
          end
      | inr r => inr r
      end
  end.

Section iter.
Context {S R : Type} (body : S → S + R).

Lemma iter_nat_add n m s :
  iter_nat body (n + m) s =
    match iter_nat body n s with
    | inl s' => iter_nat body m s'
    | inr r => inr r
    end.
Proof.
  revert s; induction n as [|n IH]; intros s; simpl; [done|].
  destruct (body s); [apply IH | done].
Qed.

Lemma iter_pos_nat p s : iter_pos body p s = iter_nat body (Pos.to_nat p) s.
Proof.
  revert s; induction p as [p IH|p IH|]; intros s; cbn [iter_pos].
  - rewrite Pos2Nat.inj_xI; cbn [iter_nat]. destruct (body s) as [s'|]; [|done].
    replace (2 * Pos.to_nat p) with (Pos.to_nat p + Pos.to_nat p) by lia.
    rewrite iter_nat_add, <- !IH. destruct (iter_pos body p s'); [apply IH | done].
  - rewrite Pos2Nat.inj_xO.
    replace (2 * Pos.to_nat p) with (Pos.to_nat p + Pos.to_nat p) by lia.
    rewrite iter_nat_add, <- !IH. destruct (iter_pos body p s); [apply IH | done].
  - change (Pos.to_nat 1) with 1. simpl. by destruct (body s).
Qed.

(** A body that leaves at once leaves the loop. *)
Lemma iter_pos_leave p s r : body s = inr r → iter_pos body p s = inr r.
Proof. intros H. induction p as [p IH|p IH|]; simpl; by rewrite ?H, ?IH. Qed.

(** A result does not depend on spare fuel. *)
Lemma iter_nat_mono n m s r :
  iter_nat body n s = inr r → n ≤ m → iter_nat body m s = inr r.
Proof.
  intros H Hle. replace m with (n + (m - n)) by lia.
  by rewrite iter_nat_add, H.
Qed.

(** The rule for a loop: an invariant indexed by a variant that counts down. *)
Lemma iter_nat_variant (I : nat → S → Prop) (Q : R → Prop) :
  (∀ v s, I v s →
     match body s with
     | inl s' => ∃ v', v = Datatypes.S v' ∧ I v' s'
     | inr r => Q r
     end) →
  ∀ v s, I v s → ∃ r, iter_nat body (Datatypes.S v) s = inr r ∧ Q r.
Proof.
  intros Hbody v. induction v as [|v IH]; intros s Hs;
    specialize (Hbody _ _ Hs) as Hb; simpl; destruct (body s) as [s'|r] eqn:E; eauto.
  - destruct Hb as (v' & ? & _); lia.
  - destruct Hb as (v' & [= <-] & Hs'). destruct (IH s' Hs') as (r & Hr & HQ).
    exists r. by simpl in Hr.
Qed.
End iter.

(** ** Go maps

    [for k, v := range m] visits the entries of a map in an order the language
    does not fix.  The order is an argument of every definition that ranges over
    a map: a list of keys, each key of the map once. *)

Definition range_order {V} (order : list string) (m : gmap string V) : Prop :=
  order ≡ₚ (map_to_list m).*1.

Definition range_values {V} (order : list string) (m : gmap string V) : list V :=
  omap (λ k, m !! k) order.

Section range.
Context {V : Type}.
Implicit Types (m : gmap string V) (order : list string).

Lemma range_order_elem order m k : range_order order m → k ∈ order ↔ is_Some (m !! k).
Proof.
  intros H. rewrite H, list_elem_of_fmap. split.
  - intros ([k' v] & -> & Hin). apply elem_of_map_to_list in Hin. by exists v.
  - intros [v Hv]. exists (k, v). split; [done|]. by apply elem_of_map_to_list.
Qed.

Lemma range_values_elem order m v :
  range_order order m → v ∈ range_values order m ↔ ∃ k, m !! k = Some v.
Proof.
  intros H. unfold range_values. rewrite list_elem_of_omap. split.
  - intros (k & _ & Hk). by exists k.
  - intros (k & Hk). exists k. split; [|done]. apply (range_order_elem _ _ _ H). by exists v.
Qed.

(** The order in which the map's own enumeration lists it. *)
Lemma range_order_self m : range_order (map_to_list m).*1 m.
Proof. unfold range_order. reflexivity. Qed.
End range.

(** Maps with the same keys are visited in the same orders. *)
Lemma range_order_dom {V V'} order (m : gmap string V) (m' : gmap string V') :
  range_order order m → (∀ k, is_Some (m !! k) ↔ is_Some (m' !! k)) → range_order order m'.
Proof.
  intros Ho Hk. pose proof Ho as Hp. unfold range_order in Hp |- *. apply NoDup_Permutation.
  - rewrite Hp. apply NoDup_fst_map_to_list.
  - apply NoDup_fst_map_to_list.
  - intros k. rewrite (range_order_elem _ _ _ Ho), Hk. symmetry. apply range_order_elem, range_order_self.
Qed.

(** ** Tactics *)

(** Split the goal's outermost [match]/[if] repeatedly and simplify. *)
Ltac go_cases := repeat (case_match; simplify_eq/=; try done).

(** Case analysis on a boolean comparison of integers, with its meaning. *)
Ltac bcase :=
  repeat match goal with
  | |- context [(?a =? ?b)%Z] => destruct (Z.eqb_spec a b)
  | |- context [(?a <? ?b)%Z] => destruct (Z.ltb_spec a b)
  | |- context [(?a <=? ?b)%Z] => destruct (Z.leb_spec a b)
  | H : context [(?a =? ?b)%Z] |- _ => destruct (Z.eqb_spec a b)
  | H : context [(?a <? ?b)%Z] |- _ => destruct (Z.ltb_spec a b)
  | H : context [(?a <=? ?b)%Z] |- _ => destruct (Z.leb_spec a b)
  end.

(** A universally quantified statement over bytes is checked by evaluation. *)
Lemma forall_u8 (P : Z → bool) :
  forallb P (seqZ 0 256) = true → ∀ b, is_u8 b → P b = true.
Proof.
  intros H b Hb. rewrite forallb_True, Forall_forall in H || rewrite forallb_forall in H.
  apply H. apply list_elem_of_In, elem_of_seqZ. unfold is_u8 in Hb. lia.
Qed.

(** ** Hint databases *)

Create HintDb dhcp.
