(* ===== verification/GoStrings.v ===== *)
(** * Go's [strings] and [strconv], as far as the program uses them

    A Go string is a sequence of bytes, here [String.string].  The file models
    [strings.Split] on a one-byte separator, [strings.Contains] of one byte,
    [strconv.ParseUint] and [strconv.ParseInt] in base 10, and the [%d] verb of
    [fmt.Sprintf] on an unsigned integer, and proves what the components need:
    splitting inverts joining, and parsing inverts printing. *)

From S2P Require Import Prelude.
Open Scope string_scope.
Open Scope list_scope.
Open Scope Z_scope.

(** ** [strings] *)

Fixpoint contains_char (c : ascii) (s : string) : bool :=
  match s with
  | EmptyString => false
  | String a s => Ascii.eqb a c || contains_char c s
  end.

(** [strings.Split(s, sep)] for a separator of one byte. *)
Fixpoint split (sep : ascii) (s : string) : list string :=
  match s with
  | EmptyString => [""]
  | String c s =>
      if Ascii.eqb c sep then "" :: split sep s
      else match split sep s with
           | w :: ws => String c w :: ws
           | [] => [String c ""]
           end
  end.

Fixpoint join (sep : ascii) (ws : list string) : string :=
  match ws with
  | [] => ""
  | [w] => w
  | w :: ws => w +:+ String sep (join sep ws)
  end.

Lemma contains_char_app c s1 s2 :
  contains_char c (s1 +:+ s2) = contains_char c s1 || contains_char c s2.
Proof. induction s1 as [|a s1 IH]; simpl; [done|]. by rewrite IH, orb_assoc. Qed.

Lemma split_nonempty sep s : split sep s ≠ [].
Proof. destruct s; simpl; [done|]. go_cases. Qed.

Lemma split_none sep s : contains_char sep s = false → split sep s = [s].
Proof.
  induction s as [|c s IH]; simpl; [done|]. intros [Hc Hs]%orb_false_iff.
  by rewrite Hc, (IH Hs).
Qed.

Lemma split_cons sep w rest :
  contains_char sep w = false → split sep (w +:+ String sep rest) = w :: split sep rest.
Proof.
  induction w as [|c w IH]; simpl.
  - by rewrite Ascii.eqb_refl.
  - intros [Hc Hs]%orb_false_iff. by rewrite Hc, (IH Hs).
Qed.

(** Splitting a joined list of separator-free words gives the words back. *)
Lemma split_join sep ws :
  ws ≠ [] → Forall (λ w, contains_char sep w = false) ws → split sep (join sep ws) = ws.
Proof.
  induction ws as [|w ws IH]; [done|]. intros _ [Hw Hws]%Forall_cons_1.
  destruct ws as [|w' ws]; simpl.
  - by apply split_none.
  - rewrite split_cons by done. f_equal. by apply IH.
Qed.

(** And joining the pieces of any string gives the string back. *)
Lemma join_split sep s : join sep (split sep s) = s.
Proof.
  induction s as [|c s IH]; simpl; [done|].
  pose proof (split_nonempty sep s) as Hne.
  destruct (Ascii.eqb_spec c sep) as [->|_]; destruct (split sep s) as [|w [|w' ws]];
    simpl in *; try done; by rewrite <- IH.
Qed.

Lemma split_pieces sep s : Forall (λ w, contains_char sep w = false) (split sep s).
Proof.
  induction s as [|c s IH]; simpl; [by repeat constructor|].
  destruct (Ascii.eqb c sep) eqn:E; [by constructor|].
  destruct (split sep s) as [|w ws]; inversion IH; subst; repeat constructor; simpl;
    by rewrite ?E.
Qed.

(** ** Digits *)

Definition byte_of (c : ascii) : Z := Z.of_nat (nat_of_ascii c).

Definition is_digit (c : ascii) : bool := (48 <=? byte_of c) && (byte_of c <=? 57).

(** The value of a byte as a digit in the sense of [ParseUint]: letters are
    digits above nine, anything else is no digit. *)
Definition digit_val (c : ascii) : option Z :=
  let b := byte_of c in
  let l := Z.lor b 32 in
  if (48 <=? b) && (b <=? 57) then Some (b - 48)
  else if (97 <=? l) && (l <=? 122) then Some (l - 97 + 10)
  else None.

Definition digit_char (d : Z) : ascii := ascii_of_nat (Z.to_nat (48 + d)).

(** ** [strconv] *)

Inductive num_error : Type :=
  | ErrSyntax (fn s : string)
  | ErrRange (fn s : string).

#[global] Instance num_error_eq_dec : EqDecision num_error.
Proof. solve_decision. Defined.

(** The loop of [ParseUint(s, 10, bitSize)]: [n] is the value read so far. *)
Fixpoint parse_uint_loop (fn s0 : string) (maxVal n : Z) (s : string) : result num_error Z :=
  match s with
  | EmptyString => Ok n
  | String c s =>
      match digit_val c with
      | None => Err (ErrSyntax fn s0)
      | Some d =>
          if 10 <=? d then Err (ErrSyntax fn s0)
          else if (2 ^ 64 - 1) / 10 + 1 <=? n then Err (ErrRange fn s0)
          else
            let n := n * 10 in
            let n1 := wrap_u64 (n + d) in
            if (n1 <? n) || (maxVal <? n1) then Err (ErrRange fn s0)
            else parse_uint_loop fn s0 maxVal n1 s
      end
  end.

Definition ParseUint (s : string) (bitSize : Z) : result num_error Z :=
  if String.eqb s "" then Err (ErrSyntax "ParseUint" s)
  else parse_uint_loop "ParseUint" s (2 ^ bitSize - 1) 0 s.

(** [ParseInt(s, 10, bitSize)].  On [ErrRange] [ParseUint] returns the largest
    value of the width, which is at or beyond [ParseInt]'s own cutoff. *)
Definition ParseInt (s : string) (bitSize : Z) : result num_error Z :=
  if String.eqb s "" then Err (ErrSyntax "ParseInt" s)
  else
    let '(neg, digits) :=
      match s with
      | String c rest =>
          if Ascii.eqb c "+" then (false, rest)
          else if Ascii.eqb c "-" then (true, rest)
          else (false, s)
      | EmptyString => (false, s)
      end in
    let cutoff := 2 ^ (bitSize - 1) in
    match ParseUint digits bitSize with
    | Err (ErrSyntax _ _) => Err (ErrSyntax "ParseInt" s)
    | Err (ErrRange _ _) => Err (ErrRange "ParseInt" s)
    | Ok un =>
        if negb neg && (cutoff <=? un) then Err (ErrRange "ParseInt" s)
        else if neg && (cutoff <? un) then Err (ErrRange "ParseInt" s)
        else Ok (if neg then - un else un)
    end.

(** The decimal value of a string of digits, without any bound. *)
Fixpoint dec_value_from (n : Z) (s : string) : option Z :=
  match s with
  | EmptyString => Some n
  | String c s => if is_digit c then dec_value_from (n * 10 + (byte_of c - 48)) s else None
  end.

Definition dec_value (s : string) : option Z :=
  if String.eqb s "" then None else dec_value_from 0 s.

Lemma byte_of_range c : 0 <= byte_of c < 256.
Proof. unfold byte_of. pose proof (nat_ascii_bounded c). lia. Qed.

Lemma digit_val_digit c d :
  digit_val c = Some d → 10 <= d ↔ is_digit c = false.
Proof.
  unfold digit_val, is_digit. pose proof (byte_of_range c).
  destruct ((48 <=? byte_of c) && (byte_of c <=? 57)) eqn:E.
  - intros [= <-]. apply andb_true_iff in E as [?%Z.leb_le ?%Z.leb_le]. split; [lia|done].
  - case_match eqn:E2; [|done]. intros [= <-].
    apply andb_true_iff in E2 as [?%Z.leb_le ?%Z.leb_le]. split; [done|lia].
Qed.

Lemma is_digit_val c : is_digit c = true → digit_val c = Some (byte_of c - 48).
Proof. unfold is_digit, digit_val. by intros ->. Qed.

Lemma digit_val_None c : digit_val c = None → is_digit c = false.
Proof. unfold is_digit, digit_val. intros. by case_match. Qed.

Lemma is_digit_range c : is_digit c = true → 0 <= byte_of c - 48 <= 9.
Proof. unfold is_digit. intros [?%Z.leb_le ?%Z.leb_le]%andb_true_iff. lia. Qed.

Lemma dec_value_from_mono s n v : 0 <= n → dec_value_from n s = Some v → n <= v.
Proof.
  revert n; induction s as [|c s IH]; simpl; intros n Hn; [intros [= ->]; lia|].
  case_match eqn:E; [|done]. apply is_digit_range in E.
  intros H%IH; lia.
Qed.

(** One turn of the loop on a digit, once the machine arithmetic is discharged. *)
Lemma parse_uint_loop_digit fn s0 maxVal n c s :
  0 <= n <= maxVal → maxVal < 2 ^ 64 → is_digit c = true →
  let v := n * 10 + (byte_of c - 48) in
  parse_uint_loop fn s0 maxVal n (String c s) =
    if v <=? maxVal then parse_uint_loop fn s0 maxVal v s else Err (ErrRange fn s0).
Proof.
  intros Hn Hm Hc v. pose proof (is_digit_range c Hc) as Hr.
  cbn [parse_uint_loop]. rewrite (is_digit_val c Hc).
  destruct (Z.leb_spec 10 (byte_of c - 48)) as [?|_]; [lia|].
  destruct (Z.leb_spec ((2 ^ 64 - 1) / 10 + 1) n) as [H|H].
  - destruct (Z.leb_spec v maxVal); [|done]. exfalso. subst v.
    change ((2 ^ 64 - 1) / 10 + 1) with 1844674407370955162 in H. lia.
  - change ((2 ^ 64 - 1) / 10 + 1) with 1844674407370955162 in H.
    unfold wrap_u64. fold v. destruct (decide (v < 2 ^ 64)) as [Hv|Hv].
    + rewrite Z.mod_small by (subst v; lia).
      destruct (Z.ltb_spec v (n * 10)); [subst v; lia|].
      destruct (Z.ltb_spec maxVal v), (Z.leb_spec v maxVal); simpl; done || lia.
    + assert (v mod 2 ^ 64 = v - 2 ^ 64) as ->.
      { symmetry; apply (Z.mod_unique_pos _ _ 1); subst v; lia. }
      destruct (Z.ltb_spec (v - 2 ^ 64) (n * 10)); [|subst v; lia].
      destruct (Z.leb_spec v maxVal); [lia|done].
Qed.

Lemma parse_uint_loop_spec fn s0 maxVal s n v :
  0 <= n <= maxVal → maxVal < 2 ^ 64 →
  parse_uint_loop fn s0 maxVal n s = Ok v ↔ dec_value_from n s = Some v ∧ v <= maxVal.
Proof.
  intros Hn Hm; revert n Hn; induction s as [|c s IH]; intros n Hn.
  - simpl. split; [intros [= ->]; split; [done|lia] | by intros [[= ->] _]].
  - destruct (is_digit c) eqn:Hc.
    + rewrite parse_uint_loop_digit by done. simpl. rewrite Hc.
      pose proof (is_digit_range c Hc).
      destruct (Z.leb_spec (n * 10 + (byte_of c - 48)) maxVal).
      * apply IH; lia.
      * split; [done|]. intros [Hd Hv]. apply dec_value_from_mono in Hd; lia.
    + simpl. rewrite Hc. split; [|by intros [? _]].
      destruct (digit_val c) as [d|] eqn:Hd; [|done].
      apply digit_val_digit in Hd. destruct (Z.leb_spec 10 d); [done|].
      destruct Hd as [_ Hd]. specialize (Hd Hc). lia.
Qed.

(** [ParseUint] accepts exactly the non-empty strings of decimal digits whose
    value fits the width. *)
Lemma ParseUint_spec s bitSize v :
  0 <= bitSize <= 64 →
  ParseUint s bitSize = Ok v ↔ dec_value s = Some v ∧ v < 2 ^ bitSize.
Proof.
  intros Hb. unfold ParseUint, dec_value. destruct (String.eqb s ""); [by split; [|intros []]|].
  assert (1 <= 2 ^ bitSize <= 2 ^ 64).
  { split; [apply (Z.pow_le_mono_r 2 0)|apply Z.pow_le_mono_r]; lia. }
  rewrite parse_uint_loop_spec by lia.
  split; intros [? ?]; (split; [done|lia]).
Qed.

(** ** Printing with [%d] *)

Fixpoint itoa_loop (fuel : nat) (n : Z) (acc : string) : string :=
  match fuel with
  | O => acc
  | S fuel =>
      let acc := String (digit_char (n mod 10)) acc in
      if n / 10 =? 0 then acc else itoa_loop fuel (n / 10) acc
  end.

(** A [uint64] has at most 20 decimal digits. *)
Definition itoa (n : Z) : string := itoa_loop 20 n "".
#[global] Arguments itoa : simpl never.

Lemma byte_of_digit_char d : 0 <= d <= 9 → byte_of (digit_char d) = 48 + d.
Proof.
  intros H. unfold byte_of, digit_char. rewrite nat_ascii_embedding; lia.
Qed.

Lemma is_digit_digit_char d : 0 <= d <= 9 → is_digit (digit_char d) = true.
Proof.
  intros H. unfold is_digit. rewrite byte_of_digit_char by done.
  apply andb_true_iff; split; apply Z.leb_le; lia.
Qed.

Lemma itoa_loop_value fuel n acc v :
  0 <= n < 10 ^ Z.of_nat fuel → (0 < fuel)%nat →
  dec_value_from n acc = Some v → dec_value_from 0 (itoa_loop fuel n acc) = Some v.
Proof.
  revert n acc; induction fuel as [|fuel IH]; intros n acc Hn Hf Hacc; [lia|].
  rewrite Nat2Z.inj_succ, Z.pow_succ_r in Hn by lia.
  assert (0 <= n mod 10 < 10) by (apply Z.mod_pos_bound; lia).
  cbn [itoa_loop].
  assert (dec_value_from (n / 10) (String (digit_char (n mod 10)) acc) = Some v) as Hs.
  { simpl. rewrite is_digit_digit_char, byte_of_digit_char by lia.
    rewrite <- Hacc. f_equal. rewrite (Z.div_mod n 10) at 3 by lia. lia. }
  destruct (Z.eqb_spec (n / 10) 0) as [H0|H0]; [by rewrite <- H0|].
  assert (0 <= n / 10 < 10 ^ Z.of_nat fuel).
  { split; [apply Z.div_pos; lia|apply Z.div_lt_upper_bound; lia]. }
  apply IH; try done. destruct fuel; [|lia]. change (10 ^ Z.of_nat 0) with 1 in *. lia.
Qed.

Lemma itoa_loop_nonempty fuel n c acc : itoa_loop fuel n (String c acc) ≠ "".
Proof. revert n c acc; induction fuel; intros; simpl; [done|]. case_match; [done|apply IHfuel]. Qed.

Lemma itoa_nonempty n : itoa n ≠ "".
Proof.
  unfold itoa. generalize 19%nat. intros fuel.
  change (itoa_loop (S fuel) n "" ≠ ""). cbn [itoa_loop].
  case_match; [done|]. apply itoa_loop_nonempty.
Qed.

Lemma dec_value_itoa n : 0 <= n < 2 ^ 64 → dec_value (itoa n) = Some n.
Proof.
  intros Hn. unfold dec_value. destruct (String.eqb_spec (itoa n) "") as [H|_].
  - by apply itoa_nonempty in H.
  - apply itoa_loop_value; [|lia|done]. change (10 ^ Z.of_nat 20) with 100000000000000000000. lia.
Qed.

(** Parsing what [%d] prints gives the number back. *)
Lemma ParseUint_itoa n bitSize :
  0 <= bitSize <= 64 → 0 <= n < 2 ^ bitSize → ParseUint (itoa n) bitSize = Ok n.
Proof.
  intros Hb Hn. apply ParseUint_spec; [done|]. split; [|lia].
  apply dec_value_itoa. assert (2 ^ bitSize <= 2 ^ 64) by (apply Z.pow_le_mono_r; lia). lia.
Qed.

Lemma itoa_inj n m : 0 <= n < 2 ^ 64 → 0 <= m < 2 ^ 64 → itoa n = itoa m → n = m.
Proof. intros Hn Hm H. apply (f_equal dec_value) in H. rewrite !dec_value_itoa in H by done. congruence. Qed.

(** A string of digits holds no separator. *)
Lemma dec_value_from_no_char c s n v :
  is_digit c = false → dec_value_from n s = Some v → contains_char c s = false.
Proof.
  intros Hc; revert n; induction s as [|a s IH]; simpl; intros n H; [done|].
  destruct (is_digit a) eqn:Ha; [|done]. apply orb_false_iff; split; [|by eapply IH].
  apply Ascii.eqb_neq. congruence.
Qed.

Lemma itoa_no_char c n : is_digit c = false → 0 <= n < 2 ^ 64 → contains_char c (itoa n) = false.
Proof.
  intros Hc Hn. pose proof (dec_value_itoa n Hn) as H. unfold dec_value in H.
  case_match; [done|]. by eapply dec_value_from_no_char.
Qed.

(** A number that does not fit is a range error, not a syntax error. *)
Lemma parse_uint_loop_range fn s0 maxVal s n v :
  0 <= n <= maxVal → maxVal < 2 ^ 64 → dec_value_from n s = Some v → maxVal < v →
  parse_uint_loop fn s0 maxVal n s = Err (ErrRange fn s0).
Proof.
  intros Hn Hm; revert n Hn; induction s as [|c s IH]; intros n Hn Hd Hv.
  - injection Hd as ->. lia.
  - cbn [dec_value_from] in Hd. destruct (is_digit c) eqn:Hc; [|done].
    rewrite parse_uint_loop_digit by done. pose proof (is_digit_range c Hc).
    destruct (Z.leb_spec (n * 10 + (byte_of c - 48)) maxVal); [|done]. apply IH; [lia|done..].
Qed.

Lemma ParseUint_itoa_range n bitSize :
  0 <= bitSize <= 64 → 2 ^ bitSize <= n < 2 ^ 64 →
  ParseUint (itoa n) bitSize = Err (ErrRange "ParseUint" (itoa n)).
Proof.
  intros Hb Hn. assert (1 <= 2 ^ bitSize) by (apply (Z.pow_le_mono_r 2 0); lia).
  pose proof (dec_value_itoa n ltac:(lia)) as Hd. unfold dec_value in Hd. unfold ParseUint.
  destruct (String.eqb (itoa n) ""); [done|]. eapply parse_uint_loop_range; [lia|lia|done|lia].
Qed.

(** A number is printed without a sign. *)
Lemma itoa_unsigned n :
  0 <= n < 2 ^ 64 → ∃ c s, itoa n = String c s ∧ Ascii.eqb c "+" = false ∧ Ascii.eqb c "-" = false.
Proof.
  intros Hn. pose proof (itoa_no_char "+" n eq_refl Hn) as Hp. pose proof (itoa_no_char "-" n eq_refl Hn) as Hm.
  pose proof (itoa_nonempty n) as Hne. destruct (itoa n) as [|c s]; [done|].
  cbn [contains_char] in Hp, Hm. apply orb_false_iff in Hp as [Hp _], Hm as [Hm _]. eauto.
Qed.

(** [ParseInt] of a printed number: the value, if it fits the signed width. *)
Lemma ParseInt_itoa n bitSize :
  1 <= bitSize <= 64 → 0 <= n < 2 ^ 64 →
  ParseInt (itoa n) bitSize =
    if n <? 2 ^ (bitSize - 1) then Ok n else Err (ErrRange "ParseInt" (itoa n)).
Proof.
  intros Hb Hn. destruct (itoa_unsigned n Hn) as (c & s & E & Hp & Hm).
  unfold ParseInt. assert (String.eqb (itoa n) "" = false) as -> by (rewrite E; done).
  assert ((let '(neg, digits) := match itoa n with
      | String c rest => if Ascii.eqb c "+" then (false, rest)
                         else if Ascii.eqb c "-" then (true, rest) else (false, itoa n)
      | EmptyString => (false, itoa n) end in (neg, digits)) = (false, itoa n)) as Hs
    by (rewrite E, Hp, Hm; done).
  destruct (match itoa n with EmptyString => _ | _ => _ end) as [neg digits].
  injection Hs as -> ->. cbn [negb andb].
  assert (2 ^ (bitSize - 1) < 2 ^ bitSize) by (apply Z.pow_lt_mono_r; lia).
  destruct (Z.ltb_spec n (2 ^ bitSize)).
  - rewrite ParseUint_itoa by lia.
    destruct (Z.leb_spec (2 ^ (bitSize - 1)) n), (Z.ltb_spec n (2 ^ (bitSize - 1))); done || lia.
  - rewrite ParseUint_itoa_range by lia. destruct (Z.ltb_spec n (2 ^ (bitSize - 1))); [lia|done].
Qed.

(** ** Hexadecimal digits (for hardware and IPv6 addresses) *)

Definition hex_digit (d : Z) : ascii :=
  if d <? 10 then digit_char d else ascii_of_nat (Z.to_nat (97 + (d - 10))).

Definition hex_byte (b : Z) : string :=
  String (hex_digit (Z.shiftr b 4)) (String (hex_digit (Z.land b 15)) "").

Definition hex_digit_val (c : ascii) : option Z :=
  let b := byte_of c in
  if (48 <=? b) && (b <=? 57) then Some (b - 48)
  else if (97 <=? b) && (b <=? 102) then Some (b - 97 + 10)
  else if (65 <=? b) && (b <=? 70) then Some (b - 65 + 10)
  else None.

Lemma hex_byte_read b :
  is_u8 b →
  match hex_byte b with
  | String h (String l EmptyString) =>
      d ← hex_digit_val h; e ← hex_digit_val l; Some (d * 16 + e)
  | _ => None
  end = Some b.
Proof.
  intros Hb. apply (bool_decide_unpack _), Is_true_true.
  pattern b. match goal with |- (fun x => _ = true) ?y => revert y Hb end.
  apply forall_u8. vm_compute. reflexivity.
Qed.

Lemma hex_byte_inj b1 b2 : is_u8 b1 → is_u8 b2 → hex_byte b1 = hex_byte b2 → b1 = b2.
Proof.
  intros H1%hex_byte_read H2%hex_byte_read E. rewrite E in H1. congruence.
Qed.

Lemma hex_byte_no_char c b :
  is_u8 b → c = "."%char ∨ c = ":"%char ∨ c = "/"%char → contains_char c (hex_byte b) = false.
Proof.
  intros Hb Hc. apply negb_true_iff.
  destruct Hc as [-> | [-> | ->]];
    revert b Hb; apply forall_u8; vm_compute; reflexivity.
Qed.
