(* ===== verification/GoNet.v ===== *)
(** * Go's [net], as far as the program uses it

    [net.IP] is a byte slice and may be nil, which the program tests for; it is
    [option (list Z)] with [None] for nil.  Modelled here: [To4], [Equal],
    [String], [ParseIP] (dotted and colon forms), [CIDRMask], [IPNet.Contains]
    and [HardwareAddr.String].  The lemmas at the end are what the lease cache
    relies on: the key of an IPv4 address determines the address, and no key of
    an IPv4 address is the key of a hardware address. *)

From S2P Require Import Prelude GoStrings.
Open Scope string_scope.
Open Scope list_scope.
Open Scope Z_scope.

(** ** Addresses *)

Definition net_IP : Type := option (list Z).
Definition HardwareAddr : Type := list Z.
Definition IPMask : Type := option (list Z).

#[global] Instance net_IP_eq_dec : EqDecision net_IP.
Proof. unfold net_IP. apply _. Defined.

(** The bytes of a slice; a nil slice has none. *)
Definition bytes_of (ip : net_IP) : list Z := default [] ip.

Definition v4InV6Prefix : list Z := [0; 0; 0; 0; 0; 0; 0; 0; 0; 0; 255; 255].

(** [net.IPv4(a, b, c, d)]: the 16-byte form. *)
Definition net_IPv4 (a b c d : Z) : net_IP := Some (v4InV6Prefix ++ [a; b; c; d]).

Definition IPv4zero : net_IP := net_IPv4 0 0 0 0.
Definition IPv4bcast : net_IP := net_IPv4 255 255 255 255.

Definition To4 (ip : net_IP) : net_IP :=
  let b := bytes_of ip in
  if (length b =? 4)%nat then ip
  else if (length b =? 16)%nat && bool_decide (take 12 b = v4InV6Prefix) then Some (drop 12 b)
  else None.

Definition IP_Equal (ip x : net_IP) : bool :=
  let b := bytes_of ip in
  let y := bytes_of x in
  if (length b =? length y)%nat then bool_decide (b = y)
  else if (length b =? 4)%nat && (length y =? 16)%nat then
    bool_decide (take 12 y = v4InV6Prefix) && bool_decide (b = drop 12 y)
  else if (length b =? 16)%nat && (length y =? 4)%nat then
    bool_decide (take 12 b = v4InV6Prefix) && bool_decide (drop 12 b = y)
  else false.

(** ** [IP.String] *)

Definition dotted (b : list Z) : string := join "." (itoa <$> b).

(** The sixteen-bit groups of an IPv6 address. *)
Fixpoint groups16 (b : list Z) : list Z :=
  match b with
  | x :: y :: b => (x * 256 + y) :: groups16 b
  | _ => []
  end.

Fixpoint itox_loop (fuel : nat) (n : Z) (acc : string) : string :=
  match fuel with
  | O => acc
  | S fuel =>
      let acc := String (hex_digit (n mod 16)) acc in
      if n / 16 =? 0 then acc else itox_loop fuel (n / 16) acc
  end.
Definition itox (n : Z) : string := itox_loop 8 n "".

(** The first longest run of zero groups of length at least two, as its start
    and its length; [i] is the index of the head of [gs]. *)
Fixpoint zero_prefix (gs : list Z) : nat :=
  match gs with
  | g :: gs => if g =? 0 then S (zero_prefix gs) else 0
  | [] => 0
  end.
Fixpoint longest_run (i : nat) (gs : list Z) (best : nat * nat) : nat * nat :=
  match gs with
  | [] => best
  | _ :: rest =>
      let n := zero_prefix gs in
      longest_run (S i) rest (if (snd best <? n)%nat then (i, n) else best)
  end.

Definition ipv6_string (b : list Z) : string :=
  let gs := groups16 b in
  let '(e0, n) := longest_run 0 gs (0%nat, 0%nat) in
  if (n <? 2)%nat then join ":" (itox <$> gs)
  else join ":" (itox <$> take e0 gs) +:+ "::" +:+ join ":" (itox <$> drop (e0 + n) gs).

Definition hex_string (b : list Z) : string := foldr (λ x s, hex_byte x +:+ s) "" b.

Definition IP_String (ip : net_IP) : string :=
  let b := bytes_of ip in
  if (length b =? 0)%nat then "<nil>"
  else match To4 ip with
       | Some b4 => dotted b4
       | None => if (length b =? 16)%nat then ipv6_string b else "?" +:+ hex_string b
       end.

(** ** [net.ParseIP] *)

(** [dtoi]: the leading decimal digits of a string as a number, what is left of
    the string, and how many bytes were read; [None] when there is no digit or
    the value reaches 0xFFFFFF. *)
Fixpoint dtoi_loop (n : Z) (count : nat) (s : string) : option (Z * nat * string) :=
  match s with
  | String c s' =>
      if is_digit c then
        let n := n * 10 + (byte_of c - 48) in
        if 16777215 <=? n then None else dtoi_loop n (S count) s'
      else Some (n, count, s)
  | EmptyString => Some (n, count, s)
  end.
Definition dtoi (s : string) : option (Z * nat * string) :=
  match dtoi_loop 0 0 s with
  | Some (n, S c, rest) => Some (n, S c, rest)
  | _ => None
  end.

Fixpoint xtoi_loop (n : Z) (count : nat) (s : string) : option (Z * nat * string) :=
  match s with
  | String c s' =>
      match hex_digit_val c with
      | Some d =>
          let n := n * 16 + d in
          if 16777215 <=? n then None else xtoi_loop n (S count) s'
      | None => Some (n, count, s)
      end
  | EmptyString => Some (n, count, s)
  end.
Definition xtoi (s : string) : option (Z * nat * string) :=
  match xtoi_loop 0 0 s with
  | Some (n, S c, rest) => Some (n, S c, rest)
  | _ => None
  end.

(** [parseIPv4]: [k] octets are still to be read; all but the first are
    preceded by a dot.  A component with a leading zero is refused. *)
Fixpoint parse_ipv4_octets (k : nat) (first : bool) (s : string) : option (list Z) :=
  match k with
  | O => if String.eqb s "" then Some [] else None
  | S k =>
      let after_dot :=
        match s with
        | String c s' => if first then Some s else if Ascii.eqb c "." then Some s' else None
        | EmptyString => None
        end in
      s ← after_dot;
      '(n, c, rest) ← dtoi s;
      if 255 <? n then None
      else if (1 <? c)%nat && bool_decide (String.get 0 s = Some "0"%char) then None
      else o ← parse_ipv4_octets k false rest; Some (n :: o)
  end.
Definition parse_ipv4 (s : string) : net_IP :=
  match parse_ipv4_octets 4 true s with
  | Some o => Some (v4InV6Prefix ++ o)
  | None => None
  end.

(** [parseIPv6]: [acc] are the bytes read so far and [ellipsis] the position of
    the "::" among them.  Each turn reads one group, so nine turns are enough. *)
Definition ipv6_finish (acc : list Z) (ellipsis : option nat) : net_IP :=
  if (length acc <? 16)%nat then
    match ellipsis with
    | None => None
    | Some e => Some (take e acc ++ replicate (16 - length acc) 0 ++ drop e acc)
    end
  else match ellipsis with None => Some acc | Some _ => None end.

Fixpoint parse_ipv6_loop (fuel : nat) (acc : list Z) (ellipsis : option nat) (s : string)
    : net_IP :=
  match fuel with
  | O => None
  | S fuel =>
      if (16 <=? length acc)%nat then
        if String.eqb s "" then ipv6_finish acc ellipsis else None
      else
        '(n, _, rest) ← xtoi s;
        if 65535 <? n then None
        else
          match rest with
          | String "." _ =>
              if bool_decide (ellipsis = None) && negb (length acc =? 12)%nat then None
              else if (16 <? length acc + 4)%nat then None
              else o ← parse_ipv4_octets 4 true s; ipv6_finish (acc ++ o) ellipsis
          | _ =>
              let acc := acc ++ [n / 256; n mod 256] in
              match rest with
              | EmptyString => ipv6_finish acc ellipsis
              | String ":" (String ":" s'') =>
                  match ellipsis with
                  | Some _ => None
                  | None =>
                      if String.eqb s'' "" then ipv6_finish acc (Some (length acc))
                      else parse_ipv6_loop fuel acc (Some (length acc)) s''
                  end
              | String ":" (String c s') => parse_ipv6_loop fuel acc ellipsis (String c s')
              | _ => None
              end
          end
  end.

Definition parse_ipv6 (s : string) : net_IP :=
  match s with
  | String ":" (String ":" s') =>
      if String.eqb s' "" then Some (replicate 16 0) else parse_ipv6_loop 9 [] (Some 0%nat) s'
  | _ => parse_ipv6_loop 9 [] None s
  end.

(** The first '.' or ':' decides the form. *)
Fixpoint ip_form (s : string) : option ascii :=
  match s with
  | EmptyString => None
  | String c s => if Ascii.eqb c "." || Ascii.eqb c ":" then Some c else ip_form s
  end.

Definition ParseIP (s : string) : net_IP :=
  match ip_form s with
  | Some c => if Ascii.eqb c "." then parse_ipv4 s else parse_ipv6 s
  | None => None
  end.

(** ** Masks and networks *)

Fixpoint cidr_bytes (l : nat) (n : Z) : list Z :=
  match l with
  | O => []
  | S l =>
      if 8 <=? n then 255 :: cidr_bytes l (n - 8)
      else Z.lxor 255 (Z.shiftr 255 n) :: cidr_bytes l 0
  end.

Definition CIDRMask (ones bits : Z) : IPMask :=
  if negb (bits =? 32) && negb (bits =? 128) then None
  else if (ones <? 0) || (bits <? ones) then None
  else Some (cidr_bytes (Z.to_nat (bits / 8)) ones).

Record IPNet := { IPNet_IP : net_IP; IPNet_Mask : IPMask }.

#[global] Instance IPNet_eq_dec : EqDecision IPNet.
Proof. unfold IPMask. solve_decision. Defined.

Definition networkNumberAndMask (n : IPNet) : list Z * list Z :=
  let ip :=
    match To4 (IPNet_IP n) with
    | Some b => Some b
    | None => if (length (bytes_of (IPNet_IP n)) =? 16)%nat then IPNet_IP n else None
    end in
  match ip with
  | None => ([], [])
  | Some b =>
      let m := bytes_of (IPNet_Mask n) in
      if (length m =? 4)%nat then if (length b =? 4)%nat then (b, m) else ([], [])
      else if (length m =? 16)%nat then (b, if (length b =? 4)%nat then drop 12 m else m)
      else ([], [])
  end.

Fixpoint masked_equal (nn m ip : list Z) : bool :=
  match nn, m, ip with
  | x :: nn, k :: m, y :: ip => (Z.land x k =? Z.land y k) && masked_equal nn m ip
  | _, _, _ => true
  end.

Definition IPNet_Contains (n : IPNet) (ip : net_IP) : bool :=
  let '(nn, m) := networkNumberAndMask n in
  let b := bytes_of (match To4 ip with Some x => Some x | None => ip end) in
  if negb (length b =? length nn)%nat then false else masked_equal nn m b.

(** ** Hardware addresses *)

Definition HardwareAddr_String (a : HardwareAddr) : string := join ":" (hex_byte <$> a).

#[global] Arguments IP_String : simpl never.
#[global] Arguments ParseIP : simpl never.
#[global] Arguments To4 : simpl never.
#[global] Arguments IP_Equal : simpl never.
#[global] Arguments CIDRMask : simpl never.
#[global] Arguments IPNet_Contains : simpl never.
#[global] Arguments HardwareAddr_String : simpl never.

(** ** Concrete values *)

Example ParseIP_v4 : ParseIP "10.3.1.10" = net_IPv4 10 3 1 10.
Proof. reflexivity. Qed.
Example ParseIP_leading_zero : ParseIP "10.03.1.10" = None.
Proof. reflexivity. Qed.
Example ParseIP_v6 : IP_String (ParseIP "2001:db8::8:0:0:1") = "2001:db8::8:0:0:1".
Proof. reflexivity. Qed.
Example ParseIP_v6_mapped : ParseIP "::ffff:10.0.0.1" = net_IPv4 10 0 0 1.
Proof. reflexivity. Qed.
Example ParseIP_v6_any : IP_String (ParseIP "::") = "::".
Proof. reflexivity. Qed.
Example CIDRMask_20 : CIDRMask 20 32 = Some [255; 255; 240; 0].
Proof. reflexivity. Qed.
Example HardwareAddr_ex : HardwareAddr_String [0; 1; 2; 171; 4; 255] = "00:01:02:ab:04:ff".
Proof. reflexivity. Qed.

(** ** IPv4 addresses and their keys *)

(** A four-byte address, and the addresses that are one in either form. *)
Definition v4_bytes (b : list Z) : Prop := length b = 4%nat ∧ Forall is_u8 b.
Definition is_v4 (ip : net_IP) : Prop := ∃ b, To4 ip = Some b ∧ v4_bytes b.

#[global] Instance v4_bytes_dec b : Decision (v4_bytes b).
Proof. unfold v4_bytes. apply _. Defined.

#[global] Instance is_v4_dec ip : Decision (is_v4 ip).
Proof.
  destruct (To4 ip) as [b|] eqn:E.
  - destruct (decide (v4_bytes b)); [left; by exists b|].
    right. intros (b' & ? & ?). by simplify_eq.
  - right. intros (b' & ? & ?). by simplify_eq.
Defined.

Lemma bytes_of_Some b : bytes_of (Some b) = b.
Proof. done. Qed.

Lemma To4_net_IPv4 a b c d : To4 (net_IPv4 a b c d) = Some [a; b; c; d].
Proof. reflexivity. Qed.

Lemma To4_length ip b : To4 ip = Some b → length b = 4%nat.
Proof.
  unfold To4. destruct (Nat.eqb_spec (length (bytes_of ip)) 4) as [E|_].
  - intros ->. done.
  - destruct (Nat.eqb_spec (length (bytes_of ip)) 16) as [E|_]; simpl; [|done].
    case_match; [|done]. intros [= <-]. rewrite length_drop, E. done.
Qed.

Lemma v4_bytes_inv b :
  v4_bytes b → ∃ x y z w, b = [x; y; z; w] ∧ is_u8 x ∧ is_u8 y ∧ is_u8 z ∧ is_u8 w.
Proof.
  intros [Hl Hf]. destruct b as [|x [|y [|z [|w [|]]]]]; try done.
  exists x, y, z, w. repeat (apply Forall_cons_1 in Hf as [? Hf]). done.
Qed.

Lemma v4_bytes_4 x y z w : is_u8 x → is_u8 y → is_u8 z → is_u8 w → v4_bytes [x; y; z; w].
Proof. intros. split; [done|]. by repeat (apply List.Forall_cons; [done|]). Qed.

Lemma is_u8_u64 x : is_u8 x → 0 <= x < 2 ^ 64.
Proof. unfold is_u8. lia. Qed.
#[export] Hint Resolve is_u8_u64 : dhcp.

Lemma IP_String_v4 ip b : To4 ip = Some b → IP_String ip = dotted b.
Proof.
  intros H. unfold IP_String. rewrite H.
  destruct (Nat.eqb_spec (length (bytes_of ip)) 0) as [E|_]; [|done].
  unfold To4 in H. by rewrite E in H.
Qed.

Lemma Forall_fmap_impl {A B} (f : A → B) (P : A → Prop) (Q : B → Prop) l :
  (∀ x, P x → Q (f x)) → Forall P l → Forall Q (f <$> l).
Proof. intros HPQ. induction 1; simpl; constructor; auto. Qed.

Lemma dotted_words b : Forall is_u8 b → Forall (λ w, contains_char "." w = false) (itoa <$> b).
Proof. apply Forall_fmap_impl. intros. apply itoa_no_char; auto with dhcp. Qed.

Lemma fmap_nonempty {A B} (f : A → B) (l : list A) : l ≠ [] → f <$> l ≠ [].
Proof. by destruct l. Qed.

Lemma itoa_list_inj b1 b2 :
  Forall is_u8 b1 → Forall is_u8 b2 → itoa <$> b1 = itoa <$> b2 → b1 = b2.
Proof.
  intros F1; revert b2. induction F1 as [|x b1 Hx F1 IH]; intros [|y b2] F2 H; try done.
  apply Forall_cons_1 in F2 as [Hy F2]. simpl in H. simplify_eq.
  f_equal; [apply itoa_inj; auto with dhcp|by apply IH].
Qed.

Lemma dotted_inj b1 b2 : v4_bytes b1 → v4_bytes b2 → dotted b1 = dotted b2 → b1 = b2.
Proof.
  intros [L1 F1] [L2 F2] H. apply (f_equal (split ".")) in H. unfold dotted in H.
  rewrite !split_join in H by (apply dotted_words || apply fmap_nonempty; by destruct b1, b2).
  by apply itoa_list_inj.
Qed.

(** Two IPv4 addresses with the same key are the same four bytes. *)
Lemma IP_String_v4_inj ip1 ip2 :
  is_v4 ip1 → is_v4 ip2 → IP_String ip1 = IP_String ip2 → To4 ip1 = To4 ip2.
Proof.
  intros (b1 & E1 & H1) (b2 & E2 & H2) H.
  rewrite (IP_String_v4 _ _ E1), (IP_String_v4 _ _ E2) in H.
  rewrite E1, E2. f_equal. by apply dotted_inj.
Qed.

(** The keys of IPv4 addresses have a dot, those of hardware addresses none. *)
Lemma IP_String_v4_dot ip : is_v4 ip → contains_char "." (IP_String ip) = true.
Proof.
  intros (b & E & Hb). rewrite (IP_String_v4 _ _ E).
  apply v4_bytes_inv in Hb as (x & y & z & w & -> & _). unfold dotted; simpl.
  rewrite contains_char_app. simpl. by rewrite orb_true_r.
Qed.

Lemma join_no_char c sep ws :
  Ascii.eqb sep c = false → Forall (λ w, contains_char c w = false) ws →
  contains_char c (join sep ws) = false.
Proof.
  intros Hsep. induction ws as [|w ws IH]; intros Hf; [done|].
  apply Forall_cons_1 in Hf as [Hw Hf]. destruct ws as [|w' ws]; [done|].
  change (contains_char c (w +:+ String sep (join sep (w' :: ws))) = false).
  rewrite contains_char_app. cbn [contains_char]. by rewrite Hw, Hsep, IH.
Qed.

Lemma hex_words c a :
  c = "."%char ∨ c = ":"%char ∨ c = "/"%char →
  Forall is_u8 a → Forall (λ w, contains_char c w = false) (hex_byte <$> a).
Proof. intros Hc. apply Forall_fmap_impl. intros. by apply hex_byte_no_char. Qed.

Lemma HardwareAddr_String_no_dot a :
  Forall is_u8 a → contains_char "." (HardwareAddr_String a) = false.
Proof. intros Ha. apply join_no_char; [done|]. apply hex_words; auto. Qed.

Lemma hex_byte_list_inj a1 a2 :
  Forall is_u8 a1 → Forall is_u8 a2 → hex_byte <$> a1 = hex_byte <$> a2 → a1 = a2.
Proof.
  intros F1; revert a2. induction F1 as [|x a1 Hx F1 IH]; intros [|y a2] F2 H; try done.
  apply Forall_cons_1 in F2 as [Hy F2]. injection H as H1 H2 H3.
  f_equal; [|by apply IH]. apply hex_byte_inj; [done..|]. unfold hex_byte. by rewrite H1, H2.
Qed.

(** Distinct non-empty hardware addresses have distinct keys. *)
Lemma HardwareAddr_String_inj a1 a2 :
  Forall is_u8 a1 → Forall is_u8 a2 → a1 ≠ [] → a2 ≠ [] →
  HardwareAddr_String a1 = HardwareAddr_String a2 → a1 = a2.
Proof.
  intros F1 F2 N1 N2 H. apply (f_equal (split ":")) in H. unfold HardwareAddr_String in H.
  rewrite !split_join in H by (by apply fmap_nonempty || (apply hex_words; auto)).
  by apply hex_byte_list_inj.
Qed.

(** ** Parsing a printed IPv4 address *)

Definition starts_with_digit (s : string) : bool :=
  match s with String c _ => is_digit c | EmptyString => false end.

Lemma dtoi_loop_app s rest n count v :
  0 <= n → dec_value_from n s = Some v → v < 16777215 → starts_with_digit rest = false →
  dtoi_loop n count (s +:+ rest) = Some (v, (count + String.length s)%nat, rest).
Proof.
  intros Hn H Hv Hr. revert n count Hn H. induction s as [|c s IH]; simpl; intros n count Hn H.
  - injection H as ->. rewrite Nat.add_0_r. destruct rest as [|c' rest]; simpl in *; [done|].
    by rewrite Hr.
  - destruct (is_digit c) eqn:Hc; [|done]. pose proof (is_digit_range c Hc).
    assert (n * 10 + (byte_of c - 48) <= v) by (apply dec_value_from_mono in H; lia).
    destruct (Z.leb_spec 16777215 (n * 10 + (byte_of c - 48))); [lia|].
    rewrite IH by (done || lia). do 3 f_equal. lia.
Qed.

Lemma dtoi_itoa x rest :
  is_u8 x → starts_with_digit rest = false →
  dtoi (itoa x +:+ rest) = Some (x, String.length (itoa x), rest).
Proof.
  intros Hx Hr. unfold dtoi.
  pose proof (dec_value_itoa x (is_u8_u64 x Hx)) as H. unfold dec_value in H.
  destruct (String.eqb_spec (itoa x) ""); [done|].
  rewrite (dtoi_loop_app _ _ _ _ x) by (done || unfold is_u8 in Hx; lia).
  by destruct (itoa x).
Qed.

(** [%d] prints no leading zero on a byte. *)
Lemma itoa_u8_no_leading_zero x :
  is_u8 x → (1 <? String.length (itoa x))%nat && bool_decide (String.get 0 (itoa x) = Some "0"%char) = false.
Proof. intros Hx. apply negb_true_iff. revert x Hx. apply forall_u8. vm_compute. reflexivity. Qed.

Lemma get_0_app s1 s2 : s1 ≠ "" → String.get 0 (s1 +:+ s2) = String.get 0 s1.
Proof. by destruct s1. Qed.

Lemma parse_ipv4_octets_itoa k first x rest :
  is_u8 x → starts_with_digit rest = false →
  parse_ipv4_octets (S k) first ((if first then "" else ".") +:+ itoa x +:+ rest) =
    o ← parse_ipv4_octets k false rest; Some (x :: o).
Proof.
  intros Hx Hr. cbn [parse_ipv4_octets].
  assert (match (if first then "" else ".") +:+ itoa x +:+ rest with
          | String c s' => if first then Some ((if first then "" else ".") +:+ itoa x +:+ rest)
                           else if Ascii.eqb c "." then Some s' else None
          | EmptyString => None end = Some (itoa x +:+ rest)) as ->.
  { destruct first; [|done]. pose proof (itoa_nonempty x). by destruct (itoa x). }
  simpl. rewrite dtoi_itoa by done. simpl.
  destruct (Z.ltb_spec 255 x); [unfold is_u8 in Hx; lia|].
  rewrite get_0_app by apply itoa_nonempty. by rewrite itoa_u8_no_leading_zero.
Qed.

Lemma ip_form_itoa x rest : is_u8 x → ip_form (itoa x +:+ rest) = ip_form rest.
Proof.
  intros Hx%is_u8_u64.
  pose proof (itoa_no_char "." x eq_refl Hx) as Hd. pose proof (itoa_no_char ":" x eq_refl Hx) as Hc.
  induction (itoa x) as [|c s IH]; [done|]. simpl in *.
  apply orb_false_iff in Hd as [-> Hd]. apply orb_false_iff in Hc as [-> Hc]. by apply IH.
Qed.

Lemma parse_octet_first k x rest :
  is_u8 x → starts_with_digit rest = false →
  parse_ipv4_octets (S k) true (itoa x +:+ rest) =
    o ← parse_ipv4_octets k false rest; Some (x :: o).
Proof. apply (parse_ipv4_octets_itoa k true x rest). Qed.

Lemma parse_octet_next k x rest :
  is_u8 x → starts_with_digit rest = false →
  parse_ipv4_octets (S k) false (String "." (itoa x +:+ rest)) =
    o ← parse_ipv4_octets k false rest; Some (x :: o).
Proof. apply (parse_ipv4_octets_itoa k false x rest). Qed.

Lemma append_nil_r (s : string) : s +:+ "" = s.
Proof. induction s as [|c s IH]; [done|]. change (String c (s +:+ "") = String c s). by f_equal. Qed.

(** [ParseIP] reads back what [String] prints, in the 16-byte form. *)
Lemma ParseIP_dotted x y z w :
  is_u8 x → is_u8 y → is_u8 z → is_u8 w →
  ParseIP (dotted [x; y; z; w]) = net_IPv4 x y z w.
Proof.
  intros Hx Hy Hz Hw. unfold ParseIP, parse_ipv4, dotted.
  cbn [fmap list_fmap join]. rewrite <- (append_nil_r (itoa w)), ip_form_itoa by done.
  cbn [ip_form Ascii.eqb Bool.eqb orb].
  rewrite parse_octet_first, !parse_octet_next by done. reflexivity.
Qed.
