(* ===== verification/GoFmt.v ===== *)
(** * Go's [fmt.Sprintf] and [strconv.QuoteToASCII], as far as the program uses them

    Formats in the program's text use verbs without flags, one for each argument.  But
    texts from outside are used as formats too, without arguments, so the directives of a
    format are read here as Go reads them: flags, argument numbers, width and
    precision, and a verb that is a character of UTF-8. *)

From S2P Require Import Prelude GoStrings GoNet.
Open Scope string_scope.
Open Scope list_scope.
Open Scope Z_scope.

(** ** UTF-8 *)

Definition cont_byte (lo hi : Z) (c : ascii) : bool := (lo <=? byte_of c) && (byte_of c <=? hi).

(** The character at the head of a string, its code and its width; [None] if the bytes
    are no character. *)
Definition DecodeRune (s : string) : option (Z * nat) :=
  match s with
  | String c0 s =>
      let b0 := byte_of c0 in
      if b0 <? 128 then Some (b0, 1%nat)
      else
        match s with
        | String c1 s =>
            let x := Z.land (byte_of c1) 63 in
            if (194 <=? b0) && (b0 <=? 223) then
              if cont_byte 128 191 c1 then Some (Z.land b0 31 * 64 + x, 2%nat) else None
            else
              match s with
              | String c2 s =>
                  let y := Z.land (byte_of c2) 63 in
                  if (224 <=? b0) && (b0 <=? 239) then
                    if cont_byte (if b0 =? 224 then 160 else 128) (if b0 =? 237 then 159 else 191) c1 &&
                       cont_byte 128 191 c2
                    then Some (Z.land b0 15 * 4096 + x * 64 + y, 3%nat) else None
                  else
                    match s with
                    | String c3 _ =>
                        let z := Z.land (byte_of c3) 63 in
                        if (240 <=? b0) && (b0 <=? 244) then
                          if cont_byte (if b0 =? 240 then 144 else 128) (if b0 =? 244 then 143 else 191) c1 &&
                             cont_byte 128 191 c2 && cont_byte 128 191 c3
                          then Some (Z.land b0 7 * 262144 + x * 4096 + y * 64 + z, 4%nat) else None
                        else None
                    | EmptyString => None
                    end
              | EmptyString => None
              end
        | EmptyString => None
        end
  | EmptyString => None
  end.

Fixpoint take_bytes (n : nat) (s : string) : string :=
  match n, s with S n, String c s => String c (take_bytes n s) | _, _ => "" end.

Fixpoint drop_bytes (n : nat) (s : string) : string :=
  match n, s with S n, String _ s => drop_bytes n s | _, _ => s end.

Definition starts_with (c : ascii) (s : string) : bool :=
  match s with String c' _ => Ascii.eqb c' c | EmptyString => false end.

(** U+FFFD, written where the bytes are no character. *)
Definition replacement : string :=
  String (ascii_of_nat 239) (String (ascii_of_nat 191) (String (ascii_of_nat 189) "")).

(** ** [fmt.Sprintf] *)

(** Decimal digits: whether there are any, and what follows.  A number that is too large
    uses the rest up. *)
Fixpoint parsenum_from (num : Z) (isnum : bool) (s : string) : bool * string :=
  match s with
  | String c s' =>
      if is_digit c then
        if 1000000 <? num then (false, "") else parsenum_from (num * 10 + (byte_of c - 48)) true s'
      else (isnum, s)
  | EmptyString => (isnum, "")
  end.

Definition parsenum (s : string) : bool * string := parsenum_from 0 false s.

(** The text up to a closing bracket, and what follows it. *)
Fixpoint to_bracket (s : string) : option (string * string) :=
  match s with
  | EmptyString => None
  | String c s => if Ascii.eqb c "]" then Some ("", s) else '(w, rest) ← to_bracket s; Some (String c w, rest)
  end.

(** An argument number, [[n]]; no number is good when there are no arguments.  Whether it
    was there (and so bad), whether it was well formed, and what follows. *)
Definition arg_number (s : string) : bool * bool * string :=
  if starts_with "[" s then
    let s' := drop_bytes 1 s in
    if (String.length s <? 3)%nat then (true, false, s')
    else match to_bracket s' with
         | Some (w, rest) => (true, let '(isnum, w) := parsenum w in isnum && (String.length w =? 0)%nat, rest)
         | None => (true, false, s')
         end
  else (false, false, s).

Definition is_flag (c : ascii) : bool :=
  Ascii.eqb c "#" || Ascii.eqb c "0" || Ascii.eqb c "+" || Ascii.eqb c "-" || Ascii.eqb c " ".

Fixpoint skip_flags (s : string) : string :=
  match s with
  | String c s' => if is_flag c then skip_flags s' else s
  | EmptyString => ""
  end.

(** A width or a precision: the text written if it is taken from an argument, whether there
    is a number, whether an argument number still stands, and what follows. *)
Definition star_or_number (bad : string) (after : bool) (s : string) : string * bool * bool * string :=
  if starts_with "*" s then (bad, false, false, drop_bytes 1 s)
  else let '(isnum, s) := parsenum s in ("", isnum, after, s).

(** The precision: the text written, whether an argument number in it is bad, whether an
    argument number stands at its end, and what follows. *)
Definition precision (after : bool) (s : string) : string * bool * bool * string :=
  if starts_with "." s then
    let '(bad, after', s) := arg_number (drop_bytes 1 s) in
    let '(out, _, after', s) := star_or_number "%!(BADPREC)" after' s in
    (out, after || bad, after', s)
  else ("", false, after, s).

(** The argument number before the verb, if none stands there already. *)
Definition last_index (after : bool) (s : string) : bool * string :=
  if after then (false, s) else let '(bad, _, s) := arg_number s in (bad, s).

(** The verb, and what is written for it. *)
Definition write_verb (good : bool) (s : string) : string * string :=
  if (String.length s =? 0)%nat then ("%!(NOVERB)", "")
  else if starts_with "%" s then ("%", drop_bytes 1 s)
  else
    let '(verb, rest) :=
      match DecodeRune s with
      | Some (_, n) => (take_bytes n s, drop_bytes n s)
      | None => (replacement, drop_bytes 1 s)
      end in
    ("%!" +:+ verb +:+ (if good then "(MISSING)" else "(BADINDEX)"), rest).

(** A directive without arguments, after the [%] and the flags. *)
Definition directive_noarg (s : string) : string * string :=
  let '(bad1, after1, s) := arg_number s in
  let '(out1, isnum1, after2, s) := star_or_number "%!(BADWIDTH)" after1 s in
  let bad2 := after2 && isnum1 in
  let '(out2, bad3, after3, s) := precision after2 s in
  let '(bad4, s) := last_index after3 s in
  let '(out3, rest) := write_verb (negb (bad1 || bad2 || bad3 || bad4)) s in
  (out1 +:+ out2 +:+ out3, rest).

Definition is_lower (c : ascii) : bool := (97 <=? byte_of c) && (byte_of c <=? 122).

(** A directive, given the texts of the arguments: what is written, what follows, the
    arguments left.  With arguments there is only the form that the program uses. *)
Definition directive (s : string) (args : list string) : option (string * string * list string) :=
  match args with
  | [] => let '(out, rest) := directive_noarg (skip_flags s) in Some (out, rest, [])
  | a :: args' =>
      match s with
      | String c rest =>
          if Ascii.eqb c "%" then Some ("%", rest, args)
          else if is_lower c then Some (a, rest, args') else None
      | EmptyString => None
      end
  end.

(** [None] for what the program does not use: flags before an argument, or arguments
    that are left. *)
Fixpoint Sprintf_loop (fuel : nat) (format : string) (args : list string) : option string :=
  match fuel with
  | O => None
  | S fuel =>
      match format with
      | EmptyString => match args with [] => Some "" | _ => None end
      | String c s =>
          if Ascii.eqb c "%" then
            '(out, rest, args) ← directive s args;
            w ← Sprintf_loop fuel rest args;
            Some (out +:+ w)
          else w ← Sprintf_loop fuel s args; Some (String c w)
      end
  end.

(** Every turn reads a character at least. *)
Definition Sprintf (format : string) (args : list string) : option string :=
  Sprintf_loop (S (String.length format)) format args.

(** ** [strconv.QuoteToASCII] *)

Definition backslash : ascii := "092".
Definition quote : ascii := "034".

Definition hex16 (r : Z) : string := hex_byte (Z.land (Z.shiftr r 8) 255) +:+ hex_byte (Z.land r 255).

(** One character as it is written between quotes. *)
Definition escaped_rune (r : Z) : string :=
  let c := ascii_of_nat (Z.to_nat r) in
  if (r =? byte_of quote) || (r =? byte_of backslash) then String backslash (String c "")
  else if (32 <=? r) && (r <=? 126) then String c ""
  else if r =? 7 then String backslash "a"
  else if r =? 8 then String backslash "b"
  else if r =? 12 then String backslash "f"
  else if r =? 10 then String backslash "n"
  else if r =? 13 then String backslash "r"
  else if r =? 9 then String backslash "t"
  else if r =? 11 then String backslash "v"
  else if (r <? 32) || (r =? 127) then String backslash (String "x" (hex_byte r))
  else if r <? 65536 then String backslash (String "u" (hex16 r))
  else String backslash (String "U" (hex16 (Z.shiftr r 16) +:+ hex16 (Z.land r 65535))).

Fixpoint quoted (fuel : nat) (s : string) : string :=
  match fuel, s with
  | S fuel, String c s' =>
      match DecodeRune s with
      | Some (r, n) => escaped_rune r +:+ quoted fuel (drop_bytes n s)
      | None => String backslash (String "x" (hex_byte (byte_of c))) +:+ quoted fuel s'
      end
  | _, _ => ""
  end.

Definition QuoteToASCII (s : string) : string :=
  String quote (quoted (String.length s) s +:+ String quote "").

(** ** What is written for a format *)

Example Sprintf_args : Sprintf "%s:%s 100%%" ["br1"; "*"] = Some "br1:* 100%".
Proof. reflexivity. Qed.
Example Sprintf_missing : Sprintf "99%d, 5%-8.3f, %" [] = Some "99%!d(MISSING), 5%!f(MISSING), %!(NOVERB)".
Proof. reflexivity. Qed.
Example Sprintf_index : Sprintf "%[1]d %*d %.[2]*x" [] = Some "%!d(BADINDEX) %!(BADWIDTH)%!d(MISSING) %!(BADPREC)%!x(BADINDEX)".
Proof. reflexivity. Qed.


Fixpoint all_chars (p : ascii → bool) (s : string) : bool :=
  match s with String c s => p c && all_chars p s | EmptyString => true end.

(** A character of ASCII that is no control character. *)
Definition printable (c : ascii) : bool := (32 <=? byte_of c) && (byte_of c <=? 126).

(** [rest] is what is left of [s] after some of it has been read. *)
Definition suffix_of (rest s : string) : Prop := ∃ w, s = w +:+ rest.

Lemma string_app_assoc (a b c : string) : (a +:+ b) +:+ c = a +:+ (b +:+ c).
Proof. induction a as [|x a IH]; [done|]. exact (f_equal (String x) IH). Qed.

Lemma all_chars_app p a b : all_chars p (a +:+ b) = all_chars p a && all_chars p b.
Proof.
  induction a as [|x a IH]; [done|]. change (String x a +:+ b) with (String x (a +:+ b)). cbn [all_chars].
  by rewrite IH, andb_assoc.
Qed.

#[global] Instance suffix_of_preorder : PreOrder suffix_of.
Proof.
  split; [intros s; by exists ""|]. intros a b c [v Hb] [w Hc]. subst. exists (w +:+ v). by rewrite string_app_assoc.
Qed.

Lemma suffix_of_length r s : suffix_of r s → (String.length r <= String.length s)%nat.
Proof. intros [w ->]. induction w as [|c w IH]; [done|]. etrans; [exact IH|apply Nat.le_succ_diag_r]. Qed.

Lemma suffix_of_all p r s : suffix_of r s → all_chars p s = true → all_chars p r = true.
Proof. intros [w ->]. rewrite all_chars_app. by intros [_ H]%andb_true_iff. Qed.

Lemma suffix_of_cons c s : suffix_of s (String c s).
Proof. by exists (String c ""). Qed.

Lemma take_drop_bytes n s : take_bytes n s +:+ drop_bytes n s = s.
Proof. revert s. induction n as [|n IH]; intros [|c s]; try done. exact (f_equal (String c) (IH s)). Qed.

Lemma drop_bytes_suffix n s : suffix_of (drop_bytes n s) s.
Proof. exists (take_bytes n s). by rewrite take_drop_bytes. Qed.

#[export] Hint Resolve suffix_of_cons drop_bytes_suffix : fmt.
#[export] Hint Extern 5 (suffix_of _ _) => reflexivity : fmt.

Lemma parsenum_from_suffix num b s : suffix_of (parsenum_from num b s).2 s.
Proof.
  revert num b. induction s as [|c s IH]; intros num b; cbn; [done|].
  destruct (is_digit c); [|done]. destruct (1000000 <? num); cbn; [|etrans; [apply IH|auto with fmt]].
  exists (String c s). symmetry. apply append_nil_r.
Qed.

Lemma to_bracket_suffix s w rest : to_bracket s = Some (w, rest) → suffix_of rest s.
Proof.
  revert w. induction s as [|c s IH]; intros w; cbn; [done|]. destruct (Ascii.eqb c "]").
  - intros [= _ <-]. auto with fmt.
  - destruct (to_bracket s) as [[w' rest']|]; [|done]. intros [= _ <-].
    etrans; [by eapply IH|auto with fmt].
Qed.

Lemma arg_number_suffix s : suffix_of (arg_number s).2 s.
Proof.
  unfold arg_number. destruct (starts_with "[" s); [|done]. destruct (_ <? 3)%nat; cbn [snd]; [auto with fmt|].
  destruct (to_bracket _) as [[w rest]|] eqn:E; cbn [snd]; [|auto with fmt].
  etrans; [by eapply to_bracket_suffix|auto with fmt].
Qed.

Lemma star_or_number_suffix bad after s : suffix_of (star_or_number bad after s).2 s.
Proof.
  unfold star_or_number, parsenum. destruct (starts_with "*" s); cbn [snd]; [auto with fmt|].
  pose proof (parsenum_from_suffix 0 false s) as H. by destruct (parsenum_from 0 false s).
Qed.

(** What a star writes is [bad] or nothing. *)
Lemma star_or_number_out p bad after s :
  all_chars p bad = true → all_chars p (star_or_number bad after s).1.1.1 = true.
Proof. unfold star_or_number. destruct (starts_with "*" s); [done|]. by destruct (parsenum s). Qed.

Lemma DecodeRune_ascii c s : byte_of c <? 128 = true → DecodeRune (String c s) = Some (byte_of c, 1%nat).
Proof. intros H. unfold DecodeRune. cbv zeta. by rewrite H. Qed.

Lemma printable_ascii c : printable c = true → byte_of c <? 128 = true.
Proof. unfold printable. rewrite andb_true_iff, !Z.leb_le, Z.ltb_lt. lia. Qed.

Lemma write_verb_suffix good s : suffix_of (write_verb good s).2 s.
Proof.
  unfold write_verb. destruct s as [|c s]; [done|]. cbn [String.length Nat.eqb].
  destruct (starts_with _ _); cbn [snd]; [auto with fmt|].
  destruct (DecodeRune _) as [[r n]|]; cbn [snd]; auto with fmt.
Qed.

Lemma write_verb_printable good s :
  all_chars printable s = true → all_chars printable (write_verb good s).1 = true.
Proof.
  unfold write_verb. destruct s as [|c s]; [done|]. cbn [String.length Nat.eqb all_chars].
  intros [Hc _]%andb_true_iff. destruct (starts_with _ _); [done|].
  rewrite DecodeRune_ascii by by apply printable_ascii.
  cbn [fst take_bytes]. rewrite !all_chars_app. cbn [all_chars]. rewrite Hc. by destruct good.
Qed.

Lemma skip_flags_suffix s : suffix_of (skip_flags s) s.
Proof.
  induction s as [|c s IH]; cbn; [done|]. destruct (is_flag c); [|done]. etrans; [exact IH|auto with fmt].
Qed.

Lemma precision_spec after s :
  suffix_of (precision after s).2 s ∧ all_chars printable (precision after s).1.1.1 = true.
Proof.
  unfold precision. destruct (starts_with "." s); [|by split].
  pose proof (arg_number_suffix (drop_bytes 1 s)) as H.
  destruct (arg_number (drop_bytes 1 s)) as [[bad after'] s1]. cbn [snd] in H.
  pose proof (star_or_number_suffix "%!(BADPREC)" after' s1) as H1.
  pose proof (star_or_number_out printable "%!(BADPREC)" after' s1 eq_refl) as O1.
  destruct (star_or_number _ after' s1) as [[[out isnum] after''] s2]. cbn [fst snd] in *. split; [|done].
  etrans; [exact H1|]. etrans; [exact H|]. auto with fmt.
Qed.

Lemma last_index_suffix after s : suffix_of (last_index after s).2 s.
Proof.
  unfold last_index. destruct after; [done|]. pose proof (arg_number_suffix s) as H.
  by destruct (arg_number s) as [[? ?] ?].
Qed.

(** A directive without arguments reads on, and writes nothing that is not printable if
    it reads nothing that is not. *)
Lemma directive_noarg_spec s :
  suffix_of (directive_noarg s).2 s ∧
  (all_chars printable s = true → all_chars printable (directive_noarg s).1 = true).
Proof.
  unfold directive_noarg.
  pose proof (arg_number_suffix s) as H1. destruct (arg_number s) as [[bad1 after1] s1]. cbn [snd] in H1.
  pose proof (star_or_number_suffix "%!(BADWIDTH)" after1 s1) as H2.
  pose proof (star_or_number_out printable "%!(BADWIDTH)" after1 s1 eq_refl) as O2.
  destruct (star_or_number _ after1 s1) as [[[out1 isnum1] after2] s2]. cbn [fst snd] in H2, O2.
  pose proof (precision_spec after2 s2) as [H3 O3].
  destruct (precision after2 s2) as [[[out2 bad3] after3] s3]. cbn [fst snd] in H3, O3. cbv zeta.
  pose proof (last_index_suffix after3 s3) as H4. destruct (last_index after3 s3) as [bad4 s4]. cbn [snd] in H4.
  set (good := negb _). pose proof (write_verb_suffix good s4) as H5. pose proof (write_verb_printable good s4) as O5.
  destruct (write_verb good s4) as [out3 rest]. cbn [fst snd] in *.
  assert (suffix_of s4 s) as H by (do 3 (etrans; [eassumption|]); exact H1).
  split; [by etrans|]. intros Hs. rewrite !all_chars_app, O2, O3. cbn [andb]. apply O5.
  by eapply suffix_of_all.
Qed.

Lemma directive_suffix s args out rest args' :
  directive s args = Some (out, rest, args') → suffix_of rest s.
Proof.
  unfold directive. destruct args as [|a args].
  - pose proof (proj1 (directive_noarg_spec (skip_flags s))) as H. destruct (directive_noarg _) as [o r].
    intros [= _ <- _]. etrans; [exact H|apply skip_flags_suffix].
  - destruct s as [|c s]; [done|]. destruct (Ascii.eqb c "%"); [|destruct (is_lower c); [|done]];
    intros [= _ <- _]; auto with fmt.
Qed.

(** A longer fuel changes nothing. *)
Lemma Sprintf_loop_fuel n m s args :
  (String.length s < n)%nat → (String.length s < m)%nat → Sprintf_loop n s args = Sprintf_loop m s args.
Proof.
  revert m s args. induction n as [|n IH]; intros [|m] [|c s] args Hn Hm; cbn in Hn, Hm |- *; try done; try lia.
  destruct (Ascii.eqb c "%"); [|by rewrite (IH m) by lia].
  destruct (directive s args) as [[[out rest] args']|] eqn:E; [|done]. cbn.
  apply directive_suffix, suffix_of_length in E. by rewrite (IH m) by lia.
Qed.

Lemma Sprintf_nil : Sprintf "" [] = Some "".
Proof. done. Qed.

Lemma Sprintf_char c s args : Ascii.eqb c "%" = false →
  Sprintf (String c s) args = (w ← Sprintf s args; Some (String c w)).
Proof. intros H. unfold Sprintf. cbn. by rewrite H. Qed.

Lemma Sprintf_directive s args :
  Sprintf (String "%" s) args =
    ('(out, rest, args') ← directive s args; w ← Sprintf rest args'; Some (out +:+ w)).
Proof.
  change (Sprintf (String "%" s) args) with
    ('(out, rest, args') ← directive s args; w ← Sprintf_loop (S (String.length s)) rest args'; Some (out +:+ w)).
  destruct (directive s args) as [[[out rest] args']|] eqn:E; [|done]. cbn [mbind option_bind].
  apply directive_suffix, suffix_of_length in E.
  unfold Sprintf. by rewrite (Sprintf_loop_fuel (S (String.length s)) (S (String.length rest))) by lia.
Qed.

(** Without arguments there is always a result, printable if the format is. *)
Lemma Sprintf_noarg s :
  ∃ w, Sprintf s [] = Some w ∧ (all_chars printable s = true → all_chars printable w = true).
Proof.
  induction s as [s IH] using (well_founded_induction (well_founded_ltof _ String.length)). unfold ltof in IH.
  destruct s as [|c s]; [by exists ""|]. destruct (Ascii.eqb_spec c "%") as [->|Hc%Ascii.eqb_neq].
  - rewrite Sprintf_directive. unfold directive.
    destruct (directive_noarg_spec (skip_flags s)) as [H O]. pose proof (skip_flags_suffix s) as Hf.
    destruct (directive_noarg (skip_flags s)) as [out rest]. cbn [fst snd mbind option_bind] in *.
    assert (suffix_of rest s) as Hr by by etrans.
    destruct (IH rest) as (w & -> & Hw); [apply suffix_of_length in Hr; cbn; lia|].
    exists (out +:+ w). split; [done|]. cbn [all_chars]. intros [_ Hs]%andb_true_iff. rewrite all_chars_app.
    rewrite O by by eapply suffix_of_all. apply Hw. by eapply suffix_of_all.
  - rewrite Sprintf_char by done. destruct (IH s) as (w & -> & Hw); [cbn; lia|].
    exists (String c w). split; [done|]. cbn [all_chars]. intros [-> Hs]%andb_true_iff. by apply Hw.
Qed.

(** A text without a percent sign is written as it is. *)
Lemma Sprintf_plain_app pre s args : contains_char "%" pre = false →
  Sprintf (pre +:+ s) args = (w ← Sprintf s args; Some (pre +:+ w)).
Proof.
  induction pre as [|c pre IH]; [change ("" +:+ s) with s; by destruct (Sprintf s args)|]. cbn [contains_char].
  intros [Hc Hp]%orb_false_iff. change (String c pre +:+ s) with (String c (pre +:+ s)).
  rewrite Sprintf_char, IH by done. by destruct (Sprintf s args).
Qed.

(** A verb that has no argument is written in another form. *)
Lemma Sprintf_missing_arg c s : is_lower c = true →
  Sprintf (String "%" (String c s)) [] =
    (w ← Sprintf s []; Some ("%!" +:+ String c ("(MISSING)" +:+ w))).
Proof.
  intros Hc. rewrite Sprintf_directive.
  assert (directive (String c s) [] = Some ("%!" +:+ String c "(MISSING)", s, [])) as ->.
  2: { cbn [mbind option_bind]. destruct (Sprintf s []); reflexivity. }
  destruct c as [[] [] [] [] [] [] [] []]; (discriminate Hc || reflexivity).
Qed.

(** ** What is written between quotes is printable *)

Lemma hex_byte_printable b : is_u8 b → all_chars printable (hex_byte b) = true.
Proof. revert b. apply forall_u8. vm_compute. reflexivity. Qed.

Lemma land_255_u8 x : is_u8 (Z.land x 255).
Proof.
  change 255 with (Z.ones 8). rewrite Z.land_ones by done. unfold is_u8.
  pose proof (Z.mod_pos_bound x (2 ^ 8) ltac:(done)). lia.
Qed.

Lemma hex16_printable r : all_chars printable (hex16 r) = true.
Proof. unfold hex16. by rewrite all_chars_app, !hex_byte_printable by apply land_255_u8. Qed.

Lemma escaped_rune_printable r : 0 <= r → all_chars printable (escaped_rune r) = true.
Proof.
  intros Hr. destruct (Z.ltb_spec r 256) as [Hlt|Hge].
  - assert (is_u8 r) as Hu by (unfold is_u8; lia). clear Hr Hlt. revert r Hu. apply forall_u8. vm_compute. reflexivity.
  - assert (∀ k, k < 256 → (r =? k) = false) as Hne by (intros k Hk; apply Z.eqb_neq; lia).
    unfold escaped_rune. cbv zeta. rewrite !Hne by (vm_compute; done).
    rewrite (proj2 (Z.leb_gt r 126)), (proj2 (Z.ltb_ge r 32)) by lia. rewrite andb_false_r. cbn [orb].
    destruct (r <? 65536); cbn [all_chars]; by rewrite ?all_chars_app, !hex16_printable.
Qed.

Lemma DecodeRune_nonneg s r n : DecodeRune s = Some (r, n) → 0 <= r.
Proof.
  assert (∀ x m, 0 <= m → 0 <= Z.land x m) as Hl by (intros x m Hm; apply Z.land_nonneg; by right).
  unfold DecodeRune. destruct s as [|c0 s]; [done|]. pose proof (byte_of_range c0) as Hb. cbv zeta.
  destruct (byte_of c0 <? 128); [intros [= <- _]; lia|].
  repeat first [intros [= <- _]; repeat first [apply Z.add_nonneg_nonneg | apply Z.mul_nonneg_nonneg | apply Hl]; lia
               | done | case_match].
Qed.

Lemma quoted_printable fuel s : all_chars printable (quoted fuel s) = true.
Proof.
  revert s. induction fuel as [|fuel IH]; intros [|c s]; try done. cbn [quoted].
  destruct (DecodeRune (String c s)) as [[r n]|] eqn:E; rewrite !all_chars_app, IH, andb_true_r.
  - apply escaped_rune_printable. by eapply DecodeRune_nonneg.
  - cbn [all_chars]. rewrite hex_byte_printable; [done|]. apply byte_of_range.
Qed.

Lemma QuoteToASCII_printable s : all_chars printable (QuoteToASCII s) = true.
Proof. unfold QuoteToASCII. cbn [all_chars]. by rewrite all_chars_app, quoted_printable. Qed.

Lemma itoa_loop_printable fuel n acc :
  0 <= n → all_chars printable acc = true → all_chars printable (itoa_loop fuel n acc) = true.
Proof.
  revert n acc. induction fuel as [|fuel IH]; intros n acc Hn Ha; cbn [itoa_loop]; [done|].
  assert (∀ d, 0 <= d <= 9 → all_chars printable (String (digit_char d) acc) = true) as Hd.
  { intros d Hd. cbn [all_chars]. rewrite Ha, andb_true_r. unfold printable. rewrite byte_of_digit_char by done.
    apply andb_true_iff. rewrite !Z.leb_le. lia. }
  pose proof (Z.mod_pos_bound n 10 ltac:(done)).
  case_match; [|apply IH]; try apply Hd; try lia; try (apply Z.div_pos; lia).
Qed.
