(* ===== verification/Errors.v ===== *)
(** * The errors of package [dhcp]

    One constructor per place of the source that makes an error, with the
    values it prints; an error that comes from code outside the repository is
    [EExternal]. *)

From S2P Require Import Prelude GoStrings GoNet.

Inductive error : Type :=
  | ENum (e : num_error)                          (* a strconv error, passed on *)
  | EExternal (msg : string)                      (* an error of a library or the system *)
  | EInvalidIPv4 (s : string)                     (* ipv4.go: invalid ipv4 *)
  | EFromGreaterThanTo                            (* subnet.go: from > to *)
  | EInvalidSubnet (p : string)                   (* subnet.go: invalid subnet *)
  | EListenExists (name : string)                 (* server.go: requestProcessor already exists *)
  | EOverlappingSubnets (p q : string)            (* server.go: overlapping subnets *)
  | ESubnetNotFound (p : string)                  (* server.go: subnet not found *)
  | ENoSubnetForLease (mac : string)              (* server.go: can't find subnet for lease *)
  | ELeaseSubnetNotFound (mac : string)           (* server.go: subnet for lease not found *)
  | ENoSubnetForHost (ip : net_IP) (mac : string) (* server.go: can't find subnet for host *)
  | EHostNotFound (mac : string)                  (* server.go: host not found *)
  | EUnknownListen (name : string)                (* server.go: unknown listen *)
  | EUnknownServerId (ip : string)                (* server.go: request for unknown server id *)
  | EUnknownSubnet (gw : net_IP) (ifname : string) (* server.go: unknown subnet *)
  | EUnknownPacketType (t : Z)                    (* server.go: unknown dhcp packet type *)
  | ENilLease                                     (* server.go: nil lease *)
  | ENoReply                                      (* server.go: failed to construct response *)
  | EUnknownOptionType (t : string)               (* server.go: unknown option type *)
  | ECallbackMandatory                            (* server.go: CallbackSaveLeases is mandatory *)
  | EInvalidListenAddress (a : string)            (* socket.go: invalid listen address *)
  | ENotSerializable                              (* broadcast_responder.go: layer is not serializable *)
  | EUnknownHostDeleted (key : string)            (* dhcphost_controller.go: unknown host deleted *)
  | EUnknownSubnetDeleted (name : string)         (* dhcpsubnet_controller.go: unknown subnet deleted *)
  | EInvalidOpcode (op : Z)                       (* client.go: invalid packet opcode *)
  | EUnknownMessage (t : Z)                       (* client.go: unknown dhcp message type *)
  | EWrapped (what : string) (e : error).         (* an error printed into another's text, with %v *)

#[global] Instance error_eq_dec : EqDecision error.
Proof. solve_decision. Defined.
