(* ===== verification/IPv4.v ===== *)
(** * [dhcp/ipv4.go]: addresses as 32-bit integers

    The address pool counts with the type [IPv4], an [uint32].  The file models
    its four functions and shows that parsing and printing are inverse to each
    other, that the parser accepts exactly the dotted decimal quadruples, that
    the increment wraps at the width, and that the printed form of an address is
    the key of the [net.IP] the pool makes from it. *)

From S2P Require Import Prelude GoStrings GoNet Errors.
Open Scope string_scope.
Open Scope list_scope.
Open Scope Z_scope.

Abbreviation IPv4 := Z.

(** ** The functions *)

Definition parse_octet (s : string) : result error Z :=
  match ParseUint s 8 with Ok n => Ok n | Err e => Err (ENum e) end.

Definition ParseIPv4 (s : string) : result error IPv4 :=
  match split "." s with
  | [b0; b1; b2; b3] =>
      n ← parse_octet b0;
      let ip := Z.land 0xff000000 (wrap_u32 (wrap_u64 (Z.shiftl n 24))) in
      n ← parse_octet b1;
      let ip := Z.lor ip (Z.land 0xff0000 (wrap_u32 (wrap_u64 (Z.shiftl n 16)))) in
      n ← parse_octet b2;
      let ip := Z.lor ip (Z.land 0xff00 (wrap_u32 (wrap_u64 (Z.shiftl n 8)))) in
      n ← parse_octet b3;
      let ip := Z.lor ip (Z.land 0xff (wrap_u32 n)) in
      Ok ip
  | _ => Err (EInvalidIPv4 s)
  end.

Definition octets (i : IPv4) : list Z :=
  [Z.land (Z.shiftr i 24) 0xff; Z.land (Z.shiftr i 16) 0xff;
   Z.land (Z.shiftr i 8) 0xff; Z.land i 0xff].

(** [fmt.Sprintf] with four decimals and dots between them. *)
Definition IPv4_String (i : IPv4) : string :=
  match octets i with
  | [a; b; c; d] => itoa a +:+ "." +:+ itoa b +:+ "." +:+ itoa c +:+ "." +:+ itoa d
  | _ => ""
  end.

Definition Inc (i : IPv4) : IPv4 := wrap_u32 (i + 1).
Definition Next (i : IPv4) : IPv4 := wrap_u32 (i + 1).

#[global] Arguments ParseIPv4 : simpl never.
#[global] Arguments IPv4_String : simpl never.
#[global] Arguments Inc : simpl never.

(** ** The address made of four octets *)

Definition of_octets (a b c d : Z) : IPv4 := a * 2 ^ 24 + b * 2 ^ 16 + c * 2 ^ 8 + d.

Lemma lor_add hi lo k : 0 <= k → 0 <= lo < 2 ^ k → Z.lor (hi * 2 ^ k) lo = hi * 2 ^ k + lo.
Proof.
  intros Hk Hlo. rewrite <- Z.add_lor_land.
  assert (Z.land (hi * 2 ^ k) lo = 0) as ->; [|lia].
  apply Z.bits_inj'; intros i Hi. rewrite Z.land_spec, Z.bits_0.
  destruct (decide (i < k)).
  - by rewrite Z.mul_pow2_bits_low.
  - assert (2 ^ k <= 2 ^ i) by (apply Z.pow_le_mono_r; lia).
    assert (Z.testbit lo i = false) as ->; [|apply andb_false_r].
    apply Z.testbit_false; [lia|]. by rewrite Z.div_small by lia.
Qed.

Lemma octet_field (k : Z) (n : Z) :
  k ∈ [0; 8; 16; 24] → is_u8 n →
  Z.land (Z.shiftl 0xff k) (wrap_u32 (wrap_u64 (Z.shiftl n k))) = n * 2 ^ k.
Proof.
  intros Hk Hn. apply Z.eqb_eq.
  repeat (apply elem_of_cons in Hk as [-> | Hk]); try (by apply not_elem_of_nil in Hk);
    revert n Hn; apply forall_u8; vm_compute; reflexivity.
Qed.

Lemma of_octets_range a b c d :
  is_u8 a → is_u8 b → is_u8 c → is_u8 d → is_u32 (of_octets a b c d).
Proof. unfold is_u8, is_u32, of_octets. lia. Qed.

Lemma octets_of_octets a b c d :
  is_u8 a → is_u8 b → is_u8 c → is_u8 d → octets (of_octets a b c d) = [a; b; c; d].
Proof.
  unfold is_u8, octets, of_octets. intros.
  change 0xff with (Z.ones 8). rewrite !Z.land_ones, !Z.shiftr_div_pow2 by lia.
  assert (∀ x y r, 0 <= r < y → (x * y + r) / y = x) as D.
  { intros x y r Hr. rewrite Z.div_add_l, Z.div_small by lia. lia. }
  assert (∀ x r, 0 <= r < 2 ^ 8 → (x * 2 ^ 8 + r) mod 2 ^ 8 = r) as M.
  { intros x r Hr. rewrite Z.add_comm, Z.mod_add, Z.mod_small by lia. lia. }
  replace (a * 2 ^ 24 + b * 2 ^ 16 + c * 2 ^ 8 + d)
    with ((a * 2 ^ 16 + b * 2 ^ 8 + c) * 2 ^ 8 + d) at 3 4 by lia.
  replace (a * 2 ^ 24 + b * 2 ^ 16 + c * 2 ^ 8 + d)
    with ((a * 2 ^ 8 + b) * 2 ^ 16 + (c * 2 ^ 8 + d)) at 2 by lia.
  replace (a * 2 ^ 24 + b * 2 ^ 16 + c * 2 ^ 8 + d)
    with (a * 2 ^ 24 + (b * 2 ^ 16 + c * 2 ^ 8 + d)) by lia.
  rewrite !D by lia. rewrite Z.mod_small by lia.
  replace (a * 2 ^ 16 + b * 2 ^ 8 + c) with ((a * 2 ^ 8 + b) * 2 ^ 8 + c) by lia.
  by rewrite !M by lia.
Qed.

Lemma octets_cover i :
  is_u32 i → ∃ a b c d,
    i = of_octets a b c d ∧ is_u8 a ∧ is_u8 b ∧ is_u8 c ∧ is_u8 d.
Proof.
  unfold is_u32, is_u8, of_octets. intros Hi.
  exists (i / 256 / 256 / 256), ((i / 256 / 256) mod 256), ((i / 256) mod 256), (i mod 256).
  pose proof (Z.div_mod i 256). pose proof (Z.div_mod (i / 256) 256).
  pose proof (Z.div_mod (i / 256 / 256) 256).
  pose proof (Z.mod_pos_bound i 256). pose proof (Z.mod_pos_bound (i / 256) 256).
  pose proof (Z.mod_pos_bound (i / 256 / 256) 256).
  generalize dependent (i / 256 / 256 / 256); generalize dependent ((i / 256 / 256) mod 256).
  generalize dependent (i / 256 / 256); generalize dependent ((i / 256) mod 256).
  generalize dependent (i / 256); generalize dependent (i mod 256). intros. lia.
Qed.

Lemma IPv4_String_octets a b c d :
  is_u8 a → is_u8 b → is_u8 c → is_u8 d → IPv4_String (of_octets a b c d) = dotted [a; b; c; d].
Proof. intros. unfold IPv4_String. by rewrite octets_of_octets. Qed.

(** ** Parsing *)

Lemma parse_octet_spec s n : parse_octet s = Ok n ↔ dec_value s = Some n ∧ n < 256.
Proof.
  unfold parse_octet. pose proof (ParseUint_spec s 8 n) as H.
  change (2 ^ 8) with 256 in H. rewrite <- H by lia.
  destruct (ParseUint s 8); split; congruence.
Qed.

Lemma dec_value_nonneg s n : dec_value s = Some n → 0 <= n.
Proof. unfold dec_value. case_match; [done|]. intros Hv. by eapply dec_value_from_mono in Hv. Qed.

Lemma parse_octet_u8 s n : parse_octet s = Ok n → is_u8 n.
Proof. intros [H ?]%parse_octet_spec. apply dec_value_nonneg in H. done. Qed.

Lemma parse_octet_itoa n : is_u8 n → parse_octet (itoa n) = Ok n.
Proof.
  intros Hn. apply parse_octet_spec. split; [|unfold is_u8 in Hn; lia].
  apply dec_value_itoa; auto with dhcp.
Qed.

(** The bit operations put the four octets side by side. *)
Lemma assemble a b c d :
  is_u8 a → is_u8 b → is_u8 c → is_u8 d →
  Z.lor
    (Z.lor
       (Z.lor (Z.land 0xff000000 (wrap_u32 (wrap_u64 (Z.shiftl a 24))))
              (Z.land 0xff0000 (wrap_u32 (wrap_u64 (Z.shiftl b 16)))))
       (Z.land 0xff00 (wrap_u32 (wrap_u64 (Z.shiftl c 8)))))
    (Z.land 0xff (wrap_u32 d)) = of_octets a b c d.
Proof.
  intros Ha Hb Hc Hd.
  pose proof (octet_field 24 a) as Fa. pose proof (octet_field 16 b) as Fb.
  pose proof (octet_field 8 c) as Fc. pose proof (octet_field 0 d) as Fd.
  change (Z.shiftl 0xff 24) with 0xff000000 in Fa. change (Z.shiftl 0xff 16) with 0xff0000 in Fb.
  change (Z.shiftl 0xff 8) with 0xff00 in Fc. rewrite !Z.shiftl_0_r in Fd.
  assert (wrap_u64 d = d) as Wd by (unfold wrap_u64, is_u8 in *; rewrite Z.mod_small; lia).
  rewrite Wd in Fd.
  rewrite Fa, Fb, Fc, Fd by (done || set_solver). unfold is_u8, of_octets in *.
  rewrite lor_add by lia.
  replace (a * 2 ^ 24 + b * 2 ^ 16) with ((a * 2 ^ 8 + b) * 2 ^ 16) by lia.
  rewrite lor_add by lia.
  replace ((a * 2 ^ 8 + b) * 2 ^ 16 + c * 2 ^ 8) with ((a * 2 ^ 16 + b * 2 ^ 8 + c) * 2 ^ 8) by lia.
  rewrite lor_add by lia. lia.
Qed.

Lemma dec_value_no_dot w n : dec_value w = Some n → contains_char "." w = false.
Proof. unfold dec_value. case_match; [done|]. by apply dec_value_from_no_char. Qed.

Lemma ParseIPv4_words w1 w2 w3 w4 a b c d :
  parse_octet w1 = Ok a → parse_octet w2 = Ok b → parse_octet w3 = Ok c → parse_octet w4 = Ok d →
  ParseIPv4 (join "." [w1; w2; w3; w4]) = Ok (of_octets a b c d).
Proof.
  intros H1 H2 H3 H4. unfold ParseIPv4. rewrite split_join; [|done|].
  - rewrite H1; simpl. rewrite H2; simpl. rewrite H3; simpl. rewrite H4; simpl.
    f_equal. apply assemble; by eapply parse_octet_u8.
  - repeat constructor; eapply dec_value_no_dot; by apply parse_octet_spec.
Qed.

Lemma ParseIPv4_inv s ip :
  ParseIPv4 s = Ok ip →
  ∃ w1 w2 w3 w4 a b c d,
    s = join "." [w1; w2; w3; w4] ∧
    dec_value w1 = Some a ∧ dec_value w2 = Some b ∧ dec_value w3 = Some c ∧ dec_value w4 = Some d ∧
    a < 256 ∧ b < 256 ∧ c < 256 ∧ d < 256 ∧ ip = of_octets a b c d.
Proof.
  unfold ParseIPv4. destruct (split "." s) as [|w1 [|w2 [|w3 [|w4 [|]]]]] eqn:Hs; try done.
  destruct (parse_octet w1) as [a|] eqn:H1; simpl; [|done].
  destruct (parse_octet w2) as [b|] eqn:H2; simpl; [|done].
  destruct (parse_octet w3) as [c|] eqn:H3; simpl; [|done].
  destruct (parse_octet w4) as [d|] eqn:H4; simpl; [|done].
  rewrite assemble by (by eapply parse_octet_u8). intros [= <-].
  exists w1, w2, w3, w4, a, b, c, d. rewrite <- (join_split "." s), Hs.
  apply parse_octet_spec in H1 as [??], H2 as [??], H3 as [??], H4 as [??]. done.
Qed.

Lemma ParseIPv4_u32 s ip : ParseIPv4 s = Ok ip → is_u32 ip.
Proof.
  intros (w1 & w2 & w3 & w4 & a & b & c & d & _ & H1 & H2 & H3 & H4 & ? & ? & ? & ? & ->)%ParseIPv4_inv.
  apply dec_value_nonneg in H1, H2, H3, H4. by apply of_octets_range.
Qed.

Lemma ParseIPv4_of_octets a b c d :
  is_u8 a → is_u8 b → is_u8 c → is_u8 d →
  ParseIPv4 (dotted [a; b; c; d]) = Ok (of_octets a b c d).
Proof. intros. apply ParseIPv4_words; by apply parse_octet_itoa. Qed.

Lemma ParseIPv4_String ip : is_u32 ip → ParseIPv4 (IPv4_String ip) = Ok ip.
Proof.
  intros (a & b & c & d & -> & Ha & Hb & Hc & Hd)%octets_cover.
  rewrite IPv4_String_octets by done. by apply ParseIPv4_of_octets.
Qed.

Lemma IPv4_String_inj i j : is_u32 i → is_u32 j → IPv4_String i = IPv4_String j → i = j.
Proof.
  intros Hi Hj E. apply ParseIPv4_String in Hi, Hj. rewrite E in Hi. congruence.
Qed.

(** The [net.IP] the pool makes of an address: it is IPv4, and its key is the
    printed form of the address it was made from. *)
Lemma ParseIP_IPv4_String ip :
  is_u32 ip → is_v4 (ParseIP (IPv4_String ip)) ∧
  IP_String (ParseIP (IPv4_String ip)) = IPv4_String ip.
Proof.
  intros (a & b & c & d & -> & Ha & Hb & Hc & Hd)%octets_cover.
  rewrite IPv4_String_octets, ParseIP_dotted by done. split.
  - exists [a; b; c; d]. split; [apply To4_net_IPv4|]. by apply v4_bytes_4.
  - by rewrite (IP_String_v4 _ _ (To4_net_IPv4 a b c d)).
Qed.

Lemma IPv4_String_dot ip : is_u32 ip → contains_char "." (IPv4_String ip) = true.
Proof.
  intros H. destruct (ParseIP_IPv4_String ip H) as [Hv4 <-]. by apply IP_String_v4_dot.
Qed.

Lemma Inc_u32 i : is_u32 (Inc i).
Proof. unfold Inc, wrap_u32, is_u32. apply Z.mod_pos_bound. lia. Qed.

Lemma Inc_small i : is_u32 i → i < 2 ^ 32 - 1 → Inc i = i + 1.
Proof. unfold Inc, wrap_u32, is_u32. intros. apply Z.mod_small. lia. Qed.

Lemma Inc_max : Inc (2 ^ 32 - 1) = 0.
Proof. reflexivity. Qed.

#[export] Hint Resolve Inc_u32 ParseIPv4_u32 : dhcp.

(** [ParseIPv4] succeeds exactly on four dot-separated non-empty strings of
    decimal digits, each of value below 256, and then returns the big-endian
    32-bit integer of the four values; every other string is an error. *)
Theorem ParseIPv4_accepts s ip :
  ParseIPv4 s = Ok ip ↔
  ∃ w1 w2 w3 w4 a b c d,
    s = join "." [w1; w2; w3; w4] ∧
    dec_value w1 = Some a ∧ dec_value w2 = Some b ∧ dec_value w3 = Some c ∧ dec_value w4 = Some d ∧
    a < 256 ∧ b < 256 ∧ c < 256 ∧ d < 256 ∧
    ip = a * 2 ^ 24 + b * 2 ^ 16 + c * 2 ^ 8 + d.
Proof.
  split.
  - apply ParseIPv4_inv.
  - intros (w1 & w2 & w3 & w4 & a & b & c & d & -> & H1 & H2 & H3 & H4 & ? & ? & ? & ? & ->).
    apply ParseIPv4_words; by apply parse_octet_spec.
Qed.

(** C22: printing an address and parsing the result gives the address back, and
    so does parsing it with [net.ParseIP] and printing that: the two
    representations of an address have the same text. *)
Theorem IPv4_roundtrip ip :
  is_u32 ip →
  ParseIPv4 (IPv4_String ip) = Ok ip ∧
  IP_String (ParseIP (IPv4_String ip)) = IPv4_String ip.
Proof. intros H. split; [by apply ParseIPv4_String|by apply ParseIP_IPv4_String]. Qed.

Lemma IPv4_roundtrip_witness :
  ParseIPv4 (IPv4_String 16909310) = Ok 16909310 ∧
  IP_String (ParseIP (IPv4_String 16909310)) = IPv4_String 16909310.
Proof. apply IPv4_roundtrip. vm_compute. split; congruence. Defined.

(** The source's own test, ipv4_test.go. *)
Example ipv4_test :
  ParseIPv4 "1.2.3.254" = Ok 16909310 ∧ IPv4_String 16909310 = "1.2.3.254" ∧
  IPv4_String (Inc 16909310) = "1.2.3.255" ∧ IPv4_String (Inc (Inc 16909310)) = "1.2.4.0" ∧
  IPv4_String (Next (Inc (Inc 16909310))) = "1.2.4.1" ∧
  ParseIPv4 "1.2.3.300" = Err (ENum (ErrRange "ParseUint" "300")).
Proof. by vm_compute. Qed.
