(* ===== verification/Types.v ===== *)
(** * [dhcp/api.go]: the data of package [dhcp]

    Records for the structs, with the source's field names behind the struct's
    name.  A [*Lease] is a location ([nat]) in a store of leases ([list Lease]):
    the same lease is reachable through two keys of a lease cache and through
    the response that carries it, and the code writes through those pointers.
    A [time.Time] is the number of nanoseconds since the zero time. *)

From S2P Require Import Prelude GoStrings GoNet Errors IPv4.
Open Scope string_scope.
Open Scope list_scope.
Open Scope Z_scope.

Abbreviation interfaceName := string.
Abbreviation SubnetAddrPrefix := string.
Abbreviation Time := Z.
Abbreviation LocalIPAddresses := (gmap string (list net_IP)).

(** ** Structs *)

(** [type Option struct] *)
Record DOption := { Option_ID : Z; Option_Type : string; Option_Value : string }.

Record Host := {
  Host_Subnet : string;
  Host_MAC : string;
  Host_IP : net_IP;
  Host_Gateway : net_IP;
  Host_ServerHostName : string;
  Host_BootFileName : string;
  Host_DNS : list string;
  Host_Options : list DOption;
  Host_LeaseTime : Z;
  Host_HostName : string;
}.

Record Lease := {
  Lease_Subnet : SubnetAddrPrefix;
  Lease_MAC : string;
  Lease_IP : net_IP;
  Lease_NetMask : string;
  Lease_Gateway : net_IP;
  Lease_ServerHostName : string;
  Lease_BootFileName : string;
  Lease_DNS : list string;
  Lease_Options : list DOption;
  Lease_LeaseTime : Z;
  Lease_HostName : string;
  Lease_ServerId : net_IP;
  Lease_LastUpdate : Time;
  Lease_AckSent : bool;
}.

(** A pointer to a lease. *)
Abbreviation lease_ptr := nat.

Record Subnet := {
  Subnet_Subnet : SubnetAddrPrefix;
  Subnet_RangeFrom : string;
  Subnet_RangeTo : string;
  Subnet_Gateway : string;
  Subnet_DNS : list string;
  Subnet_Options : list DOption;
  Subnet_LeaseTime : Z;
  Subnet_ServerHostName : string;
  Subnet_BootFileName : string;
  Subnet_iPFrom : IPv4;
  Subnet_iPTo : IPv4;
  Subnet_ipNet : IPNet;
  Subnet_currentIP : IPv4;
  Subnet_leaseCache : gmap string lease_ptr;
  Subnet_netMask : string;
  Subnet_serverIPAddress : net_IP;
}.

Record Listen := { Listen_Name : string; Listen_Interface : string; Listen_Addr : string }.

#[global] Instance DOption_eq_dec : EqDecision DOption.
Proof. solve_decision. Defined.
#[global] Instance Lease_eq_dec : EqDecision Lease.
Proof. solve_decision. Defined.
#[global] Instance Listen_eq_dec : EqDecision Listen.
Proof. solve_decision. Defined.

(** The zero value of the struct. *)
Definition zero_lease : Lease := {|
  Lease_Subnet := ""; Lease_MAC := ""; Lease_IP := None; Lease_NetMask := "";
  Lease_Gateway := None; Lease_ServerHostName := ""; Lease_BootFileName := "";
  Lease_DNS := []; Lease_Options := []; Lease_LeaseTime := 0; Lease_HostName := "";
  Lease_ServerId := None; Lease_LastUpdate := 0; Lease_AckSent := false |}.

#[global] Instance Lease_inhabited : Inhabited Lease := populate zero_lease.

(** ** The lease store *)

Abbreviation lease_store := (list Lease).

(** [&Lease{...}] *)
Definition new_lease (h : lease_store) (l : Lease) : lease_ptr * lease_store :=
  (length h, h ++ [l]).

(** [*p] *)
Definition deref (h : lease_store) (p : lease_ptr) : Lease := h !!! p.

(** ** Assignments to struct fields *)

Definition set_ServerId (ip : net_IP) (l : Lease) : Lease := {|
  Lease_Subnet := Lease_Subnet l; Lease_MAC := Lease_MAC l; Lease_IP := Lease_IP l;
  Lease_NetMask := Lease_NetMask l; Lease_Gateway := Lease_Gateway l;
  Lease_ServerHostName := Lease_ServerHostName l; Lease_BootFileName := Lease_BootFileName l;
  Lease_DNS := Lease_DNS l; Lease_Options := Lease_Options l; Lease_LeaseTime := Lease_LeaseTime l;
  Lease_HostName := Lease_HostName l; Lease_ServerId := ip;
  Lease_LastUpdate := Lease_LastUpdate l; Lease_AckSent := Lease_AckSent l |}.

Definition set_AckSent (b : bool) (l : Lease) : Lease := {|
  Lease_Subnet := Lease_Subnet l; Lease_MAC := Lease_MAC l; Lease_IP := Lease_IP l;
  Lease_NetMask := Lease_NetMask l; Lease_Gateway := Lease_Gateway l;
  Lease_ServerHostName := Lease_ServerHostName l; Lease_BootFileName := Lease_BootFileName l;
  Lease_DNS := Lease_DNS l; Lease_Options := Lease_Options l; Lease_LeaseTime := Lease_LeaseTime l;
  Lease_HostName := Lease_HostName l; Lease_ServerId := Lease_ServerId l;
  Lease_LastUpdate := Lease_LastUpdate l; Lease_AckSent := b |}.

Definition set_leaseCache (c : gmap string lease_ptr) (s : Subnet) : Subnet := {|
  Subnet_Subnet := Subnet_Subnet s; Subnet_RangeFrom := Subnet_RangeFrom s;
  Subnet_RangeTo := Subnet_RangeTo s; Subnet_Gateway := Subnet_Gateway s;
  Subnet_DNS := Subnet_DNS s; Subnet_Options := Subnet_Options s;
  Subnet_LeaseTime := Subnet_LeaseTime s; Subnet_ServerHostName := Subnet_ServerHostName s;
  Subnet_BootFileName := Subnet_BootFileName s; Subnet_iPFrom := Subnet_iPFrom s;
  Subnet_iPTo := Subnet_iPTo s; Subnet_ipNet := Subnet_ipNet s;
  Subnet_currentIP := Subnet_currentIP s; Subnet_leaseCache := c;
  Subnet_netMask := Subnet_netMask s; Subnet_serverIPAddress := Subnet_serverIPAddress s |}.

Definition set_currentIP (i : IPv4) (s : Subnet) : Subnet := {|
  Subnet_Subnet := Subnet_Subnet s; Subnet_RangeFrom := Subnet_RangeFrom s;
  Subnet_RangeTo := Subnet_RangeTo s; Subnet_Gateway := Subnet_Gateway s;
  Subnet_DNS := Subnet_DNS s; Subnet_Options := Subnet_Options s;
  Subnet_LeaseTime := Subnet_LeaseTime s; Subnet_ServerHostName := Subnet_ServerHostName s;
  Subnet_BootFileName := Subnet_BootFileName s; Subnet_iPFrom := Subnet_iPFrom s;
  Subnet_iPTo := Subnet_iPTo s; Subnet_ipNet := Subnet_ipNet s;
  Subnet_currentIP := i; Subnet_leaseCache := Subnet_leaseCache s;
  Subnet_netMask := Subnet_netMask s; Subnet_serverIPAddress := Subnet_serverIPAddress s |}.

(** ** [Listen.ToString] *)

Definition Listen_ToString (l : Listen) : string :=
  let ifname := if String.eqb (Listen_Interface l) "" then "*" else Listen_Interface l in
  let laddr := if String.eqb (Listen_Addr l) "" then "*" else Listen_Addr l in
  ifname +:+ ":" +:+ laddr.

(** ** The order on lease stores

    A later store has every lease of an earlier one, with the same binding: the
    code allocates leases and writes their [ServerId] and [AckSent], but a
    lease keeps its address, hardware address and subnet for life. *)

Definition same_binding (l l' : Lease) : Prop :=
  Lease_MAC l' = Lease_MAC l ∧ Lease_IP l' = Lease_IP l ∧ Lease_Subnet l' = Lease_Subnet l ∧
  Lease_LastUpdate l' = Lease_LastUpdate l.

Definition store_le (h h' : lease_store) : Prop :=
  ∀ p l, h !! p = Some l → ∃ l', h' !! p = Some l' ∧ same_binding l l'.

Lemma same_binding_refl l : same_binding l l.
Proof. done. Qed.

#[global] Instance store_le_preorder : PreOrder store_le.
Proof.
  split.
  - intros h p l H. by exists l.
  - intros h1 h2 h3 H12 H23 p l H. apply H12 in H as (l2 & H & B12).
    apply H23 in H as (l3 & H & B23). exists l3. split; [done|].
    destruct B12 as (?&?&?&?), B23 as (?&?&?&?). repeat split; congruence.
Qed.

Lemma store_le_new h l : store_le h (h ++ [l]).
Proof. intros p l' H. exists l'. split; [by apply lookup_app_l_Some|done]. Qed.

Lemma store_le_alter h p f :
  (∀ l, same_binding l (f l)) → store_le h (alter f p h).
Proof.
  intros Hf q l H. destruct (decide (p = q)) as [->|].
  - exists (f l). rewrite list_lookup_alter_eq, H. done.
  - exists l. by rewrite list_lookup_alter_ne.
Qed.

Lemma same_binding_ServerId ip l : same_binding l (set_ServerId ip l).
Proof. done. Qed.
Lemma same_binding_AckSent b l : same_binding l (set_AckSent b l).
Proof. done. Qed.

Lemma store_le_refl h : store_le h h.
Proof. reflexivity. Qed.

#[export] Hint Resolve store_le_refl store_le_new store_le_alter same_binding_refl
  same_binding_ServerId same_binding_AckSent : dhcp.
