(* ===== verification/Dhcpv4.v ===== *)
(** * The interface to [github.com/insomniacslk/dhcp/dhcpv4]

    The packet library is not part of the repository.  Its packet is a struct
    whose fields the program reads and writes; the functions the program calls
    are the operations of the class [Dhcpv4], and what the program relies on of
    them are the laws of [Dhcpv4Laws].  Message types and option codes are the
    numbers of RFC 2132. *)

From S2P Require Import Prelude GoStrings GoNet Errors.
Open Scope string_scope.
Open Scope list_scope.
Open Scope Z_scope.

(** The fields of the packet struct that the program names. *)
Record DHCPv4 := {
  OpCode : Z;
  TransactionID : list Z;
  ClientHWAddr : HardwareAddr;
  YourIPAddr : net_IP;
  ServerIPAddr : net_IP;
  GatewayIPAddr : net_IP;
  ServerHostName : string;
  BootFileName : string;
  Options : gmap Z (list Z);
}.

Definition set_YourIPAddr (ip : net_IP) (p : DHCPv4) : DHCPv4 := {|
  OpCode := OpCode p; TransactionID := TransactionID p; ClientHWAddr := ClientHWAddr p;
  YourIPAddr := ip; ServerIPAddr := ServerIPAddr p; GatewayIPAddr := GatewayIPAddr p;
  ServerHostName := ServerHostName p; BootFileName := BootFileName p; Options := Options p |}.
Definition set_ServerIPAddr (ip : net_IP) (p : DHCPv4) : DHCPv4 := {|
  OpCode := OpCode p; TransactionID := TransactionID p; ClientHWAddr := ClientHWAddr p;
  YourIPAddr := YourIPAddr p; ServerIPAddr := ip; GatewayIPAddr := GatewayIPAddr p;
  ServerHostName := ServerHostName p; BootFileName := BootFileName p; Options := Options p |}.
Definition set_ServerHostName (n : string) (p : DHCPv4) : DHCPv4 := {|
  OpCode := OpCode p; TransactionID := TransactionID p; ClientHWAddr := ClientHWAddr p;
  YourIPAddr := YourIPAddr p; ServerIPAddr := ServerIPAddr p; GatewayIPAddr := GatewayIPAddr p;
  ServerHostName := n; BootFileName := BootFileName p; Options := Options p |}.
Definition set_BootFileName (n : string) (p : DHCPv4) : DHCPv4 := {|
  OpCode := OpCode p; TransactionID := TransactionID p; ClientHWAddr := ClientHWAddr p;
  YourIPAddr := YourIPAddr p; ServerIPAddr := ServerIPAddr p; GatewayIPAddr := GatewayIPAddr p;
  ServerHostName := ServerHostName p; BootFileName := n; Options := Options p |}.
Definition set_Options (o : gmap Z (list Z)) (p : DHCPv4) : DHCPv4 := {|
  OpCode := OpCode p; TransactionID := TransactionID p; ClientHWAddr := ClientHWAddr p;
  YourIPAddr := YourIPAddr p; ServerIPAddr := ServerIPAddr p; GatewayIPAddr := GatewayIPAddr p;
  ServerHostName := ServerHostName p; BootFileName := BootFileName p; Options := o |}.

Definition MessageTypeNone : Z := 0.
Definition MessageTypeDiscover : Z := 1.
Definition MessageTypeOffer : Z := 2.
Definition MessageTypeRequest : Z := 3.
Definition MessageTypeAck : Z := 5.
Definition OpcodeBootRequest : Z := 1.
Definition OpcodeBootReply : Z := 2.

(** The option values the program builds, one constructor per function or type
    of the library it builds them with. *)
Inductive OptionValue : Type :=
  | VString (s : string)          (* dhcpv4.String *)
  | VIP (ip : net_IP)             (* dhcpv4.IP *)
  | VIPMask (m : IPMask)          (* dhcpv4.OptSubnetMask *)
  | VDuration (ns : Z)            (* dhcpv4.OptIPAddressLeaseTime *)
  | VIPs (ips : list net_IP)      (* dhcpv4.OptDNS *)
  | VGeneric (data : list Z)      (* dhcpv4.OptionGeneric *)
  | VMessageType (t : Z).         (* dhcpv4.OptMessageType *)

Class Dhcpv4 : Type := {
  MessageType : DHCPv4 → Z;
  RequestedIPAddress : DHCPv4 → net_IP;
  ServerIdentifier : DHCPv4 → net_IP;
  (* a reply and an error, either of which may be nil *)
  NewReplyFromRequest : DHCPv4 → option DHCPv4 * option error;
  ToBytes : OptionValue → list Z;
  UpdateOption : Z → OptionValue → DHCPv4 → DHCPv4;
}.

Class Dhcpv4Laws (D : Dhcpv4) : Prop := {
  (* UpdateOption sets one option to the value's wire form and nothing else *)
  UpdateOption_set : ∀ code v p,
    UpdateOption code v p = set_Options (<[code := ToBytes v]> (Options p)) p;
  (* the message type is what option 53 says *)
  MessageType_option : ∀ t p,
    t ∈ [MessageTypeDiscover; MessageTypeOffer; MessageTypeRequest; MessageTypeAck] →
    Options p !! 53 = Some (ToBytes (VMessageType t)) → MessageType p = t;
  (* the server identifier is what option 54 says, if that is an IPv4 address *)
  ServerIdentifier_option : ∀ p ip,
    Options p !! 54 = Some (ToBytes (VIP ip)) → ServerIdentifier p = To4 ip;
  (* a reply answers the request's transaction, client and relay; of a packet that is
     no request the operation code of the reply is not stated *)
  NewReply_fields : ∀ req resp,
    NewReplyFromRequest req = (Some resp, None) →
    (OpCode req = OpcodeBootRequest → OpCode resp = OpcodeBootReply) ∧ TransactionID resp = TransactionID req ∧
    ClientHWAddr resp = ClientHWAddr req ∧ GatewayIPAddr resp = GatewayIPAddr req;
}.

(** ** A concrete library

    An instance of the interface, for evaluating the model on examples: options
    are encoded as RFC 2132 says. *)

Definition u32_bytes (n : Z) : list Z :=
  [n / 2 ^ 24 mod 256; n / 2 ^ 16 mod 256; n / 2 ^ 8 mod 256; n mod 256].

Definition string_bytes (s : string) : list Z := byte_of <$> String.list_ascii_of_string s.

Definition rfc_bytes (v : OptionValue) : list Z :=
  match v with
  | VString s => string_bytes s
  | VIP ip => bytes_of (To4 ip)
  | VIPMask m => bytes_of m
  | VDuration ns => u32_bytes (ns / 1000000000)
  | VIPs ips => concat ((λ ip, bytes_of (To4 ip)) <$> ips)
  | VGeneric d => d
  | VMessageType t => [t]
  end.

Definition rfc_ip (code : Z) (p : DHCPv4) : net_IP :=
  match Options p !! code with
  | Some b => if (length b =? 4)%nat then Some b else None
  | None => None
  end.

Definition rfc_lib : Dhcpv4 := {|
  MessageType p := match Options p !! 53 with Some [t] => t | _ => MessageTypeNone end;
  RequestedIPAddress := rfc_ip 50;
  ServerIdentifier := rfc_ip 54;
  NewReplyFromRequest req := (Some {|
    OpCode := if OpCode req =? OpcodeBootRequest then OpcodeBootReply else OpcodeBootRequest;
    TransactionID := TransactionID req;
    ClientHWAddr := ClientHWAddr req; YourIPAddr := None; ServerIPAddr := None;
    GatewayIPAddr := GatewayIPAddr req; ServerHostName := ""; BootFileName := "";
    Options := ∅ |}, None);
  ToBytes := rfc_bytes;
  UpdateOption code v p := set_Options (<[code := rfc_bytes v]> (Options p)) p;
|}.

Lemma rfc_lib_laws : Dhcpv4Laws rfc_lib.
Proof.
  split.
  - done.
  - intros t p _ H. simpl in *. by rewrite H.
  - intros p ip H. cbn in *. unfold rfc_ip. rewrite H. destruct (To4 ip) as [b|] eqn:E; [|done].
    rewrite bytes_of_Some. unfold To4 in E. destruct (length (bytes_of ip) =? 4)%nat eqn:L.
    + subst ip. rewrite bytes_of_Some in L. by rewrite L.
    + destruct (Nat.eqb_spec (length (bytes_of ip)) 16) as [L16|]; cbn [andb] in E; [|done].
      case_bool_decide; [|done]. injection E as <-. by rewrite length_drop, L16.
  - intros req resp [= <-]. cbn [OpCode TransactionID ClientHWAddr GatewayIPAddr].
    split_and!; [by intros ->|done..].
Qed.

(** A packet as a client sends it: type, hardware address, and optionally a
    requested address. *)
Definition client_packet (t : Z) (mac : HardwareAddr) (requested : net_IP) : DHCPv4 := {|
  OpCode := OpcodeBootRequest; TransactionID := [1; 2; 3; 4]; ClientHWAddr := mac;
  YourIPAddr := None; ServerIPAddr := None; GatewayIPAddr := None;
  ServerHostName := ""; BootFileName := "";
  Options := match requested with
             | Some b => <[50 := b]> {[53 := [t]]}
             | None => {[53 := [t]]}
             end |}.
