(* ===== verification/Subnet.v ===== *)
(** * [dhcp/util.go] and [dhcp/subnet.go]: subnets and their leases

    The operations of a subnet, written as functions of the lease store and the
    subnet.  Their theory is in the files that follow.  The subnet's mutex makes
    each operation one step.  [time.Now()] is an argument, one for each call the
    source makes. *)

From S2P Require Import Prelude GoStrings GoNet Errors IPv4 Types Dhcpv4.
Open Scope string_scope.
Open Scope list_scope.
Open Scope Z_scope.

(** ** util.go *)

(** The inner loop of [GetLocalAddresses], over the printed addresses of the
    interface [name]. *)
Definition add_local_addrs (name : string) (addrs : list string) (rv : LocalIPAddresses)
    : LocalIPAddresses :=
  foldl (λ rv addr,
    let ifs := default [] (rv !! name) in
    match split "/" addr with
    | a :: _ => if contains_char ":" a then rv else <[name := ifs ++ [ParseIP a]]> rv
    | [] => rv
    end) rv addrs.

Fixpoint local_addresses_loop (ifs : list (string * result error (list string)))
    (rv : LocalIPAddresses) : result error LocalIPAddresses :=
  match ifs with
  | [] => Ok rv
  | (name, Err e) :: _ => Err e
  | (name, Ok addrs) :: ifs => local_addresses_loop ifs (add_local_addrs name addrs rv)
  end.

(** What the system reports, [net.Interfaces] and each interface's [Addrs], is
    the argument. *)
Definition GetLocalAddresses (ifs : result error (list (string * result error (list string))))
    : result error LocalIPAddresses :=
  match ifs with
  | Err e => Err e
  | Ok ifs => local_addresses_loop ifs ∅
  end.

Definition isOverlap (s1 s2 : Subnet) : bool :=
  if String.eqb (Subnet_Subnet s1) (Subnet_Subnet s2) then true else false.

Definition IsExpired (l : Lease) : bool := false.

Definition isAddressZero (ip : net_IP) : bool :=
  bool_decide (ip = None) || IP_Equal ip IPv4zero.

(** ** subnet.go *)

Definition defaultLeaseTime : Z := 14400.

Definition Contains (s : Subnet) (ip : net_IP) : bool := IPNet_Contains (Subnet_ipNet s) ip.

(** The last local address, in the order of the iteration, that the network
    contains. *)
Definition server_address (net : IPNet) (addrs : list net_IP) (init : net_IP) : net_IP :=
  foldl (λ acc a, if IPNet_Contains net a then a else acc) init addrs.

(** [order] is the order in which the map of local addresses is visited. *)
Definition InitializeSubnet (order : list string) (subnet : Subnet) (addrs : LocalIPAddresses)
    : result error Subnet :=
  from ← ParseIPv4 (Subnet_RangeFrom subnet);
  to ← ParseIPv4 (Subnet_RangeTo subnet);
  if to <? from then Err EFromGreaterThanTo
  else
    let leaseTime :=
      if Subnet_LeaseTime subnet =? 0 then defaultLeaseTime else Subnet_LeaseTime subnet in
    match split "/" (Subnet_Subnet subnet) with
    | [addr; len] =>
        match ParseInt len 8 with
        | Err e => Err (ENum e)
        | Ok prefixLength =>
            let ipMask := CIDRMask prefixLength 32 in
            let ipNet := {| IPNet_IP := ParseIP addr; IPNet_Mask := ipMask |} in
            Ok {| Subnet_Subnet := Subnet_Subnet subnet;
                  Subnet_RangeFrom := Subnet_RangeFrom subnet;
                  Subnet_RangeTo := Subnet_RangeTo subnet;
                  Subnet_Gateway := Subnet_Gateway subnet;
                  Subnet_DNS := Subnet_DNS subnet;
                  Subnet_Options := Subnet_Options subnet;
                  Subnet_LeaseTime := leaseTime;
                  Subnet_ServerHostName := Subnet_ServerHostName subnet;
                  Subnet_BootFileName := Subnet_BootFileName subnet;
                  Subnet_iPFrom := from;
                  Subnet_iPTo := to;
                  Subnet_ipNet := ipNet;
                  Subnet_currentIP := Subnet_currentIP subnet;
                  Subnet_leaseCache := ∅;
                  Subnet_netMask := IP_String ipMask;
                  Subnet_serverIPAddress :=
                    server_address ipNet (concat (range_values order addrs))
                      (Subnet_serverIPAddress subnet) |}
        end
    | _ => Err (EInvalidSubnet (Subnet_Subnet subnet))
    end.

Definition incrementCurrentIP (s : Subnet) : Subnet :=
  let s := set_currentIP (Inc (Subnet_currentIP s)) s in
  if Subnet_iPTo s <? Subnet_currentIP s then set_currentIP (Subnet_iPFrom s) s else s.

(** [AddLease] on the map alone: the lease displaced at the address loses its
    hardware-address key, then both keys point to the new lease. *)
Definition cache_add (h : lease_store) (p : lease_ptr) (cache : gmap string lease_ptr)
    : gmap string lease_ptr :=
  let l := deref h p in
  let ip := IP_String (Lease_IP l) in
  let cache :=
    match cache !! ip with
    | Some old => delete (Lease_MAC (deref h old)) cache
    | None => cache
    end in
  <[Lease_MAC l := p]> (<[ip := p]> cache).

Definition AddLease (h : lease_store) (s : Subnet) (p : lease_ptr) : Subnet :=
  set_leaseCache (cache_add h p (Subnet_leaseCache s)) s.

Definition DeleteHost (s : Subnet) (host : Host) : Subnet :=
  set_leaseCache
    (delete (IP_String (Host_IP host)) (delete (Host_MAC host) (Subnet_leaseCache s))) s.

Definition host_lease (s : Subnet) (h : Host) : Lease := {|
  Lease_Subnet := "";
  Lease_MAC := Host_MAC h;
  Lease_IP := Host_IP h;
  Lease_NetMask := Subnet_netMask s;
  Lease_Gateway := Host_Gateway h;
  Lease_ServerHostName := Host_ServerHostName h;
  Lease_BootFileName := Host_BootFileName h;
  Lease_DNS := Host_DNS h;
  Lease_Options := Host_Options h;
  Lease_LeaseTime := Host_LeaseTime h;
  Lease_HostName := Host_HostName h;
  Lease_ServerId := None;
  Lease_LastUpdate := 0;
  Lease_AckSent := false |}.

Definition AddHost (st : lease_store) (s : Subnet) (h : Host) : lease_store * Subnet :=
  let '(p, st) := new_lease st (host_lease s h) in
  (st, AddLease st s p).

Definition NewLease (now : Time) (s : Subnet) (mac : string) (ip : net_IP) : Lease := {|
  Lease_Subnet := Subnet_Subnet s;
  Lease_MAC := mac;
  Lease_IP := ip;
  Lease_LastUpdate := now;
  Lease_Options := Subnet_Options s;
  Lease_NetMask := Subnet_netMask s;
  Lease_Gateway := ParseIP (Subnet_Gateway s);
  Lease_DNS := Subnet_DNS s;
  Lease_LeaseTime := Subnet_LeaseTime s;
  Lease_BootFileName := Subnet_BootFileName s;
  Lease_ServerHostName := Subnet_ServerHostName s;
  Lease_ServerId := Subnet_serverIPAddress s;
  Lease_HostName := "";
  Lease_AckSent := false |}.

Definition DeleteLease (s : Subnet) (lease : Lease) : Subnet :=
  set_leaseCache
    (delete (IP_String (Lease_IP lease)) (delete (Lease_MAC lease) (Subnet_leaseCache s))) s.

(** *** [GetLeaseForRequest] *)

(** The lease kept as the oldest expired one after looking at the lease [p]. *)
Definition keep_oldest (h : lease_store) (expiredTime : Time) (oldest : option lease_ptr)
    (p : lease_ptr) : option lease_ptr :=
  if Lease_LastUpdate (deref h p) <? expiredTime then
    match oldest with
    | None => Some p
    | Some o =>
        if Lease_LastUpdate (deref h p) <? Lease_LastUpdate (deref h o) then Some p else oldest
    end
  else oldest.

(** What the method leaves: the lease or nil, the store and the subnet. *)
Definition lease_answer : Type := option lease_ptr * lease_store * Subnet.

(** One turn of the loop over the pool.  The loop state is the subnet, whose
    [currentIP] moves, and [oldestLease]. *)
Definition pool_body (h : lease_store) (mac : string) (now expiredTime : Time) (firstIp : IPv4)
    (st : Subnet * option lease_ptr) : (Subnet * option lease_ptr) + lease_answer :=
  let '(s, oldest) := st in
  match Subnet_leaseCache s !! IPv4_String (Subnet_currentIP s) with
  | None =>
      let '(p, h) :=
        new_lease h (NewLease now s mac (ParseIP (IPv4_String (Subnet_currentIP s)))) in
      inr (Some p, h, AddLease h s p)
  | Some p =>
      let oldest := keep_oldest h expiredTime oldest p in
      let s := incrementCurrentIP s in
      if firstIp =? Subnet_currentIP s then
        match oldest with
        | Some o => inr (Some o, h, s)
        | None => inr (None, h, s)
        end
      else inl (s, oldest)
  end.

(** As many turns as there are addresses. *)
Definition pool_fuel : positive := 4294967296.

(** The method.  [tExp] and [tNew] are the clock read for [expiredTime] and the
    one [NewLease] reads.  [None] stands for a loop that does not return within
    [pool_fuel] turns. *)
Definition GetLeaseForRequest `{Dhcpv4} (tExp tNew : Time) (h : lease_store) (s : Subnet)
    (req : DHCPv4) : option lease_answer :=
  let mac := HardwareAddr_String (ClientHWAddr req) in
  let requestedAddress := RequestedIPAddress req in
  match Subnet_leaseCache s !! mac with
  | Some p =>
      if negb (isAddressZero requestedAddress) &&
         negb (IP_Equal requestedAddress (Lease_IP (deref h p)))
      then Some (None, h, s)
      else Some (Some p, h, s)
  | None =>
      if negb (isAddressZero requestedAddress) then
        match Subnet_leaseCache s !! IP_String requestedAddress with
        | Some p =>
            if IsExpired (deref h p) then
              let '(q, h) := new_lease h (NewLease tNew s mac requestedAddress) in
              Some (Some q, h, AddLease h s q)
            else Some (None, h, s)
        | None =>
            let '(q, h) := new_lease h (NewLease tNew s mac requestedAddress) in
            Some (Some q, h, s)
        end
      else
        let s :=
          if Subnet_currentIP s =? 0 then set_currentIP (Subnet_iPFrom s) s
          else incrementCurrentIP s in
        let expiredTime := tExp + wrap_i64 (-1000000000 * Subnet_LeaseTime s) in
        let firstIp := Subnet_currentIP s in
        match iter_pos (pool_body h mac tNew expiredTime firstIp) pool_fuel (s, None) with
        | inr r => Some r
        | inl _ => None
        end
  end.

#[global] Arguments pool_fuel : simpl never.
#[global] Arguments pool_body : simpl never.
#[global] Arguments cache_add : simpl never.
