(* ===== verification/LeaseCache.v ===== *)
(** * The lease cache

    The cache of a subnet has two kinds of keys, the text of an address and the
    text of a hardware address, and a lease is meant to sit under both of its
    own.  [cache_ok] is what the operations keep of that; the file shows that
    they keep it, and that no two clients then share an address. *)

From S2P Require Import Prelude GoStrings GoNet Errors IPv4 Types Dhcpv4 Subnet.
Open Scope string_scope.
Open Scope list_scope.
Open Scope Z_scope.

Abbreviation ip_key l := (IP_String (Lease_IP l)).

(** A lease the cache can hold: an IPv4 address and a hardware address whose
    text cannot be the text of an IPv4 address. *)
Definition lease_ok (l : Lease) : Prop :=
  is_v4 (Lease_IP l) ∧ contains_char "." (Lease_MAC l) = false.

#[global] Instance lease_ok_dec l : Decision (lease_ok l).
Proof. unfold lease_ok. apply _. Defined.

(** Every entry is under one of its lease's two keys, and a lease that is found
    by its hardware address is also the one found by its address.  The converse
    need not hold: a lease may stay under its address when its hardware address
    finds another one. *)
Definition cache_ok (h : lease_store) (c : gmap string lease_ptr) : Prop :=
  ∀ k p, c !! k = Some p →
  ∃ l, h !! p = Some l ∧ lease_ok l ∧
       (k = ip_key l ∨ k = Lease_MAC l ∧ c !! ip_key l = Some p).

(** Each lease of the cache is also found by its hardware address. *)
Definition both_keys (h : lease_store) (c : gmap string lease_ptr) : Prop :=
  ∀ k p, c !! k = Some p → c !! Lease_MAC (deref h p) = Some p.

Lemma cache_ok_empty h : cache_ok h ∅.
Proof. intros k p H. by rewrite lookup_empty in H. Qed.

Lemma deref_Some h p l : h !! p = Some l → deref h p = l.
Proof. apply list_lookup_total_correct. Qed.

Lemma lease_keys_ne l l' : lease_ok l → lease_ok l' → ip_key l ≠ Lease_MAC l'.
Proof.
  intros [Hv _] [_ Hm] E. apply IP_String_v4_dot in Hv. congruence.
Qed.
#[export] Hint Resolve cache_ok_empty lease_keys_ne : dhcp.

(** The invariant does not depend on what else happens to the store. *)
Lemma cache_ok_mono h h' c : store_le h h' → cache_ok h c → cache_ok h' c.
Proof.
  intros Hle Hc k p H. destruct (Hc k p H) as (l & Hl & [Hv Hm] & Hk).
  destruct (Hle p l Hl) as (l' & Hl' & (E1 & E2 & _)).
  exists l'. unfold lease_ok. rewrite E1, E2. done.
Qed.

Lemma cache_ok_lease h c k p :
  cache_ok h c → c !! k = Some p → h !! p = Some (deref h p) ∧ lease_ok (deref h p).
Proof.
  intros Hc H. destruct (Hc k p H) as (l & Hl & Hok & _). by rewrite (deref_Some _ _ _ Hl).
Qed.

(** A key without a dot is the hardware address of the lease it finds. *)
Lemma cache_ok_mac h c k p :
  cache_ok h c → c !! k = Some p → contains_char "." k = false →
  Lease_MAC (deref h p) = k ∧ c !! ip_key (deref h p) = Some p.
Proof.
  intros Hc H Hk. destruct (Hc k p H) as (l & Hl & [Hv _] & [->|[-> Hi]]);
    rewrite (deref_Some _ _ _ Hl); [|done].
  apply IP_String_v4_dot in Hv. congruence.
Qed.

(** ** Adding a lease *)

Lemma cache_add_spec h c p l k :
  h !! p = Some l →
  cache_add h p c !! k =
    if decide (k = Lease_MAC l) then Some p
    else if decide (k = ip_key l) then Some p
    else match c !! ip_key l with
         | Some old => if decide (k = Lease_MAC (deref h old)) then None else c !! k
         | None => c !! k
         end.
Proof.
  intros Hl. unfold cache_add. rewrite (deref_Some _ _ _ Hl).
  rewrite !lookup_insert. repeat case_decide; try congruence.
  case_match; [|done]. rewrite lookup_delete. by repeat case_decide; try congruence.
Qed.

(** The entries under other keys are old ones, and not of the displaced lease. *)
Lemma cache_add_survivor h c p l k q :
  h !! p = Some l → cache_add h p c !! k = Some q → k ≠ Lease_MAC l → k ≠ ip_key l →
  c !! k = Some q ∧ ∀ old, c !! ip_key l = Some old → k ≠ Lease_MAC (deref h old).
Proof.
  intros Hl Hk Hk1 Hk2. rewrite (cache_add_spec _ _ _ _ _ Hl) in Hk. repeat case_decide; try done.
  destruct (c !! ip_key l) as [old|]; [|done]. case_decide; [done|]. split; [done|]. by intros ? [= <-].
Qed.

(** Whatever the cache holds, adding a lease keeps the invariant. *)
Lemma cache_add_ok h c p l :
  cache_ok h c → h !! p = Some l → lease_ok l → cache_ok h (cache_add h p c).
Proof.
  intros Hc Hl Hok k q Hk.
  destruct (decide (k = Lease_MAC l)) as [Hk1|Hk1]; [|destruct (decide (k = ip_key l)) as [Hk2|Hk2]].
  3: { destruct (cache_add_survivor _ _ _ _ _ _ Hl Hk Hk1 Hk2) as [Hck Hold].
       destruct (Hc k q Hck) as (lq & Hlq & Hqok & [->|[-> Hiq]]); exists lq; split_and!; [done|done|by left|..]; try done.
       right. split; [done|]. rewrite (cache_add_spec _ _ _ _ _ Hl).
       rewrite decide_False by (by apply lease_keys_ne).
       rewrite decide_False by (intros E; rewrite E in Hiq; apply (Hold q Hiq); by rewrite (deref_Some _ _ _ Hlq)).
       destruct (c !! ip_key l) as [old|] eqn:Eold; [|done].
       destruct (cache_ok_lease _ _ _ _ Hc Eold) as [_ Hook].
       by rewrite decide_False by (by apply lease_keys_ne). }
  all: rewrite (cache_add_spec _ _ _ _ _ Hl) in Hk; repeat case_decide; simplify_eq;
    exists l; rewrite !(cache_add_spec _ _ _ _ _ Hl); split_and!; auto.
  right. split; [done|]. by repeat case_decide.
Qed.

(** ** Removing entries *)

(** Removing a hardware address and an address that is nobody else's. *)
Lemma cache_delete_ok h c mac ip :
  cache_ok h c → contains_char "." mac = false →
  (∀ q, c !! ip = Some q → Lease_MAC (deref h q) = mac) → cache_ok h (delete ip (delete mac c)).
Proof.
  intros Hc Hdot Hown k p H. rewrite !lookup_delete in H. repeat case_decide; try done.
  destruct (Hc k p H) as (l & Hl & Hok & [Hk|[Hk Hi]]); exists l; split_and!; auto.
  right. split; [done|]. rewrite !lookup_delete_ne; [done|..].
  - intros ->. destruct Hok as [Hv _]. apply IP_String_v4_dot in Hv. congruence.
  - intros ->. apply Hown in Hi. rewrite (deref_Some _ _ _ Hl) in Hi. congruence.
Qed.

(** ** What the invariant promises *)

(** Two hardware addresses found in the cache with the same IPv4 address are
    one hardware address. *)
Lemma cache_ok_unique h c m1 m2 p1 p2 :
  cache_ok h c → contains_char "." m1 = false → contains_char "." m2 = false →
  c !! m1 = Some p1 → c !! m2 = Some p2 →
  To4 (Lease_IP (deref h p1)) = To4 (Lease_IP (deref h p2)) → m1 = m2 ∧ p1 = p2.
Proof.
  intros Hc N1 N2 H1 H2 E.
  destruct (cache_ok_mac _ _ _ _ Hc H1 N1) as [M1 I1], (cache_ok_mac _ _ _ _ Hc H2 N2) as [M2 I2].
  destruct (cache_ok_lease _ _ _ _ Hc H1) as [_ [(b & Eb & _) _]].
  rewrite (IP_String_v4 _ _ Eb) in I1. rewrite E in Eb. rewrite (IP_String_v4 _ _ Eb) in I2.
  split; congruence.
Qed.
