(* ===== verification/Pool.v ===== *)
(** * The address pool

    The loop of [GetLeaseForRequest] walks the range once, starting after the
    address it stopped at last time.  The file gives the walk as a list,
    [probe_order], shows that the loop visits exactly that list and always
    leaves, and states what it leaves with as a specification that mentions no
    loop: the first free address, else an expired lease with the oldest update,
    else nothing. *)

From S2P Require Import Prelude GoStrings GoNet Errors IPv4 Types Dhcpv4 Subnet.
From S2P Require Import LeaseCache.
Open Scope string_scope.
Open Scope list_scope.
Open Scope Z_scope.

(** ** The range *)

(** The range of an initialised subnet.  The last address of the address space
    is excluded: incrementing it wraps around to zero. *)
Definition range_ok (s : Subnet) : Prop :=
  is_u32 (Subnet_iPFrom s) ∧ Subnet_iPFrom s <= Subnet_iPTo s < 2 ^ 32 - 1.

Definition in_range (s : Subnet) (i : IPv4) : Prop := Subnet_iPFrom s <= i <= Subnet_iPTo s.

(** [currentIP] is zero before the first use and in the range afterwards. *)
Definition pool_ok (s : Subnet) : Prop :=
  range_ok s ∧ (Subnet_currentIP s = 0 ∨ in_range s (Subnet_currentIP s)).

#[global] Instance range_ok_dec s : Decision (range_ok s).
Proof. unfold range_ok. apply _. Defined.
#[global] Instance in_range_dec s i : Decision (in_range s i).
Proof. unfold in_range. apply _. Defined.
#[global] Instance pool_ok_dec s : Decision (pool_ok s).
Proof. unfold pool_ok. apply _. Defined.

Definition next_ip (from to i : IPv4) : IPv4 := if i =? to then from else i + 1.

Lemma set_currentIP_twice i j s : set_currentIP i (set_currentIP j s) = set_currentIP i s.
Proof. done. Qed.
Lemma set_currentIP_same s : set_currentIP (Subnet_currentIP s) s = s.
Proof. by destruct s. Qed.

Lemma in_range_u32 s i : range_ok s → in_range s i → is_u32 i.
Proof. unfold range_ok, in_range, is_u32. lia. Qed.

Lemma next_in_range s i :
  range_ok s → in_range s i → in_range s (next_ip (Subnet_iPFrom s) (Subnet_iPTo s) i).
Proof. unfold range_ok, in_range, next_ip. intros. bcase; lia. Qed.

Lemma incrementCurrentIP_next s :
  range_ok s → in_range s (Subnet_currentIP s) →
  incrementCurrentIP s =
    set_currentIP (next_ip (Subnet_iPFrom s) (Subnet_iPTo s) (Subnet_currentIP s)) s.
Proof.
  intros Hr Hi. pose proof (in_range_u32 _ _ Hr Hi). unfold range_ok, in_range in *.
  unfold incrementCurrentIP, next_ip. rewrite Inc_small by (done || lia). simpl.
  bcase; try lia; done.
Qed.

(** ** The walk *)

Definition probe_order (from to first : IPv4) : list IPv4 :=
  seqZ first (to - first + 1) ++ seqZ from (first - from).

Inductive probes (from to first : IPv4) : list IPv4 → Prop :=
  | probes_last x : next_ip from to x = first → probes from to first [x]
  | probes_cons x y l :
      next_ip from to x = y → y ≠ first →
      probes from to first (y :: l) → probes from to first (x :: y :: l).

Lemma probes_up from to first n a :
  first <= to → from <= a → a + Z.of_nat n = first - 1 →
  probes from to first (seqZ a (Z.of_nat n + 1)).
Proof.
  intros Hf. revert a. induction n as [|n IH]; intros a Ha Hn.
  - rewrite seqZ_cons by lia. apply probes_last. unfold next_ip. bcase; lia.
  - rewrite seqZ_cons by lia.
    specialize (IH (Z.succ a) ltac:(lia) ltac:(lia)).
    replace (Z.pred (Z.of_nat (S n) + 1)) with (Z.of_nat n + 1) by lia.
    rewrite seqZ_cons in IH |- * by lia.
    apply probes_cons; [unfold next_ip; bcase; lia | lia | done].
Qed.

Lemma probe_order_probes from to first :
  from <= first <= to → probes from to first (probe_order from to first).
Proof.
  intros Hf. unfold probe_order.
  assert (∀ n a, first <= a → a + Z.of_nat n = to →
    probes from to first (seqZ a (Z.of_nat n + 1) ++ seqZ from (first - from))) as H.
  { induction n as [|n IH]; intros a Ha Hn.
    - rewrite seqZ_cons, seqZ_nil by lia. simpl. destruct (decide (from = first)) as [->|].
      + rewrite Z.sub_diag. simpl. apply probes_last. unfold next_ip. bcase; lia.
      + pose proof (probes_up from to first (Z.to_nat (first - from - 1)) from) as Hup.
        replace (Z.of_nat (Z.to_nat (first - from - 1)) + 1) with (first - from) in Hup by lia.
        specialize (Hup ltac:(lia) ltac:(lia) ltac:(lia)).
        rewrite seqZ_cons in Hup |- * by lia.
        apply probes_cons; [unfold next_ip; bcase; lia | lia | done].
    - rewrite seqZ_cons by lia. replace (Z.pred (Z.of_nat (S n) + 1)) with (Z.of_nat n + 1) by lia.
      specialize (IH (Z.succ a) ltac:(lia) ltac:(lia)).
      rewrite seqZ_cons in IH |- * by lia. simpl in *.
      apply probes_cons; [unfold next_ip; bcase; lia | lia | done]. }
  specialize (H (Z.to_nat (to - first)) first ltac:(lia) ltac:(lia)).
  by replace (Z.of_nat (Z.to_nat (to - first)) + 1) with (to - first + 1) in H by lia.
Qed.

Lemma probe_order_head from to first :
  first <= to → ∃ l, probe_order from to first = first :: l.
Proof. intros. unfold probe_order. rewrite seqZ_cons by lia. simpl. eauto. Qed.

Lemma probe_order_elem from to first i :
  from <= first <= to → i ∈ probe_order from to first ↔ from <= i <= to.
Proof. intros. unfold probe_order. rewrite elem_of_app, !elem_of_seqZ. lia. Qed.

Lemma probe_order_mid from to first pre i post :
  from <= first <= to → probe_order from to first = pre ++ i :: post → from <= i <= to.
Proof.
  intros Hf E. apply (probe_order_elem from to first); [done|]. rewrite E.
  apply elem_of_app. right. by left.
Qed.

Lemma probe_order_length from to first :
  from <= first <= to → length (probe_order from to first) = Z.to_nat (to - from + 1).
Proof. intros. unfold probe_order. rewrite length_app, !length_seqZ. lia. Qed.

(** ** The loop visits the walk *)

Inductive choice : Type :=
  | Free (i : IPv4)
  | Reuse (o : option lease_ptr).

Section loop.
Context (h : lease_store) (mac : string) (now expired : Time) (s : Subnet).
Abbreviation cache := (Subnet_leaseCache s).
Abbreviation next := (next_ip (Subnet_iPFrom s) (Subnet_iPTo s)).

Fixpoint choose (ips : list IPv4) (oldest : option lease_ptr) : choice :=
  match ips with
  | [] => Reuse oldest
  | i :: ips =>
      match cache !! IPv4_String i with
      | None => Free i
      | Some p => choose ips (keep_oldest h expired oldest p)
      end
  end.

(** The answer for a choice, when the walk started at [first]. *)
Definition answer_of (first : IPv4) (ch : choice) : lease_answer :=
  match ch with
  | Free i =>
      let h' := h ++ [NewLease now s mac (ParseIP (IPv4_String i))] in
      (Some (length h), h', AddLease h' (set_currentIP i s) (length h))
  | Reuse o => (o, h, set_currentIP first s)
  end.

Lemma pool_body_at first i oldest :
  range_ok s → in_range s i →
  pool_body h mac now expired first (set_currentIP i s, oldest) =
    match cache !! IPv4_String i with
    | None => inr (answer_of first (Free i))
    | Some p =>
        let oldest := keep_oldest h expired oldest p in
        if first =? next i then inr (answer_of (next i) (Reuse oldest))
        else inl (set_currentIP (next i) s, oldest)
    end.
Proof.
  intros Hr Hi. unfold pool_body. cbn [Subnet_leaseCache Subnet_currentIP set_currentIP].
  change (NewLease now (set_currentIP i s)) with (NewLease now s).
  destruct (cache !! IPv4_String i) as [p|]; [|reflexivity].
  rewrite incrementCurrentIP_next by done. simpl.
  destruct (first =? next i); [|done]. by destruct (keep_oldest _ _ _ _).
Qed.

Lemma pool_loop first ips i oldest :
  range_ok s → Forall (in_range s) (i :: ips) →
  probes (Subnet_iPFrom s) (Subnet_iPTo s) first (i :: ips) →
  iter_nat (pool_body h mac now expired first) (length (i :: ips)) (set_currentIP i s, oldest)
    = inr (answer_of first (choose (i :: ips) oldest)).
Proof.
  intros Hr. revert i oldest. induction ips as [|j ips IH]; intros i oldest Hf Hp;
    apply Forall_cons_1 in Hf as [Hi Hf]; inversion Hp as [x Hx|x y l Hx Hy Hl]; subst;
    cbn [length iter_nat choose]; rewrite pool_body_at by done;
    destruct (cache !! IPv4_String i) as [p|]; try done.
  - by rewrite Z.eqb_refl.
  - destruct (Z.eqb_spec first (next i)); [congruence|]. by apply IH.
Qed.
End loop.

(** ** What the walk chooses *)

Section choose.
Context (h : lease_store) (expired : Time) (s : Subnet).
Abbreviation cache := (Subnet_leaseCache s).

Definition taken (i : IPv4) : Prop := is_Some (cache !! IPv4_String i).
Definition is_expired (p : lease_ptr) : Prop := Lease_LastUpdate (deref h p) < expired.
(** [o] answers the question for the oldest expired lease among [ps]. *)
Definition is_oldest (ps : list lease_ptr) (o : option lease_ptr) : Prop :=
  match o with
  | None => ∀ p, p ∈ ps → ¬ is_expired p
  | Some p =>
      p ∈ ps ∧ is_expired p ∧
      ∀ q, q ∈ ps → is_expired q →
           Lease_LastUpdate (deref h p) <= Lease_LastUpdate (deref h q)
  end.

Lemma keep_oldest_step ps o p :
  is_oldest ps o → is_oldest (ps ++ [p]) (keep_oldest h expired o p).
Proof.
  unfold is_oldest, keep_oldest, is_expired. intros Ho.
  assert (∀ q, q ∈ ps ++ [p] ↔ q ∈ ps ∨ q = p) as Hin by (intros q; rewrite elem_of_app, list_elem_of_singleton; done).
  destruct (Z.ltb_spec (Lease_LastUpdate (deref h p)) expired) as [He|He];
    destruct o as [k|]; try setoid_rewrite Hin.
  - destruct Ho as (Hk & Hke & Hmin).
    destruct (Z.ltb_spec (Lease_LastUpdate (deref h p)) (Lease_LastUpdate (deref h k)));
      setoid_rewrite Hin; (split_and!; [by auto|done|]); intros q [Hq| ->] Hqe; try lia;
      specialize (Hmin q Hq Hqe); lia.
  - split_and!; [by auto|done|]. intros q [Hq| ->] Hqe; [by destruct (Ho q Hq)|lia].
  - destruct Ho as (Hk & Hke & Hmin). split_and!; [by auto|done|].
    intros q [Hq| ->] Hqe; [by apply Hmin|lia].
  - intros q [Hq| ->]; [by apply Ho|lia].
Qed.

Lemma keep_oldest_fold ps : is_oldest ps (foldl (keep_oldest h expired) None ps).
Proof.
  induction ps as [|p ps IH] using rev_ind.
  - intros p Hp. by apply not_elem_of_nil in Hp.
  - rewrite foldl_app. by apply keep_oldest_step.
Qed.

Lemma choose_spec ips seen :
  match choose h expired s ips seen with
  | Free i => ∃ pre post, ips = pre ++ i :: post ∧ Forall taken pre ∧ ¬ taken i
  | Reuse o => ∃ ps, Forall2 (λ i p, cache !! IPv4_String i = Some p) ips ps ∧
                     o = foldl (keep_oldest h expired) seen ps
  end.
Proof.
  revert seen. induction ips as [|i ips IH]; intros seen; cbn [choose].
  - by exists [].
  - destruct (cache !! IPv4_String i) as [p|] eqn:Hp.
    + specialize (IH (keep_oldest h expired seen p)).
      destruct (choose h expired s ips (keep_oldest h expired seen p)) as [j|o].
      * destruct IH as (pre & post & -> & Hpre & Hj). exists (i :: pre), post.
        split_and!; [done| |done]. constructor; [by exists p|done].
      * destruct IH as (ps & Hps & ->). exists (p :: ps). split; [by constructor|done].
    + exists [], ips. split_and!; [done..|]. unfold taken. rewrite Hp. by intros [].
Qed.
End choose.

(** ** The specification of the pool

    What a client with no lease and no wish is given: the first free address
    of the walk; if there is none, a lease whose last update is the oldest of
    the expired ones; if there is none either, nothing. *)

Inductive pool_grants (h : lease_store) (mac : string) (now expired : Time) (s : Subnet)
    (first : IPv4) : lease_answer → Prop :=
  | grant_free pre i post :
      probe_order (Subnet_iPFrom s) (Subnet_iPTo s) first = pre ++ i :: post →
      Forall (taken s) pre → ¬ taken s i →
      pool_grants h mac now expired s first (answer_of h mac now s first (Free i))
  | grant_expired i p :
      (∀ j, in_range s j → taken s j) →
      in_range s i → Subnet_leaseCache s !! IPv4_String i = Some p → is_expired h expired p →
      (∀ j q, in_range s j → Subnet_leaseCache s !! IPv4_String j = Some q → is_expired h expired q →
              Lease_LastUpdate (deref h p) <= Lease_LastUpdate (deref h q)) →
      pool_grants h mac now expired s first (Some p, h, set_currentIP first s)
  | grant_nothing :
      (∀ j, in_range s j → taken s j) →
      (∀ j q, in_range s j → Subnet_leaseCache s !! IPv4_String j = Some q → ¬ is_expired h expired q) →
      pool_grants h mac now expired s first (None, h, set_currentIP first s).

Lemma walk_taken s first ps :
  in_range s first →
  Forall2 (λ i p, Subnet_leaseCache s !! IPv4_String i = Some p)
    (probe_order (Subnet_iPFrom s) (Subnet_iPTo s) first) ps →
  (∀ j, in_range s j → taken s j) ∧
  (∀ p, p ∈ ps ↔ ∃ i, in_range s i ∧ Subnet_leaseCache s !! IPv4_String i = Some p).
Proof.
  intros Hf HF. unfold in_range in *.
  assert (∀ j, Subnet_iPFrom s <= j <= Subnet_iPTo s →
    ∃ k p, probe_order (Subnet_iPFrom s) (Subnet_iPTo s) first !! k = Some j ∧ ps !! k = Some p ∧
           Subnet_leaseCache s !! IPv4_String j = Some p) as Hj.
  { intros j Hj. apply (probe_order_elem _ _ first) in Hj; [|done].
    apply list_elem_of_lookup in Hj as [k Hk].
    destruct (Forall2_lookup_l _ _ _ _ _ HF Hk) as (p & Hp & E). eauto. }
  split.
  - intros j Hr. destruct (Hj j Hr) as (k & p & _ & _ & E). by exists p.
  - intros p. split.
    + intros [k Hk]%list_elem_of_lookup.
      destruct (Forall2_lookup_r _ _ _ _ _ HF Hk) as (i & Hi & E). exists i. split; [|done].
      apply (probe_order_elem _ _ first); [done|]. apply list_elem_of_lookup. eauto.
    + intros (i & Hi & E). destruct (Hj i Hi) as (k & q & _ & Hq & E').
      apply list_elem_of_lookup. exists k. congruence.
Qed.

(** The choice along the walk meets the specification. *)
Lemma choose_grants h mac now expired s first :
  in_range s first →
  pool_grants h mac now expired s first
    (answer_of h mac now s first
       (choose h expired s (probe_order (Subnet_iPFrom s) (Subnet_iPTo s) first) None)).
Proof.
  intros Hf. pose proof (choose_spec h expired s
    (probe_order (Subnet_iPFrom s) (Subnet_iPTo s) first) None) as H.
  destruct (choose _ _ _ _ _) as [i|o].
  - destruct H as (pre & post & E & Hpre & Hi). by eapply grant_free.
  - destruct H as (ps & HF & ->). destruct (walk_taken s first ps Hf HF) as [Ht Hps].
    pose proof (keep_oldest_fold h expired ps) as Ho.
    destruct (foldl _ _ _) as [p|]; simpl in Ho |- *.
    + destruct Ho as (Hp & He & Hmin). apply Hps in Hp as (i & Hi & E).
      eapply grant_expired; eauto. intros j q Hj Hq. apply Hmin, Hps. eauto.
    + apply grant_nothing; [done|]. intros j q Hj Hq. apply Ho, Hps. eauto.
Qed.

(** ** The method on the pool branch *)

(** The address the walk starts at. *)
Definition first_ip (s : Subnet) : IPv4 :=
  if Subnet_currentIP s =? 0 then Subnet_iPFrom s
  else next_ip (Subnet_iPFrom s) (Subnet_iPTo s) (Subnet_currentIP s).

Definition expired_time (tExp : Time) (s : Subnet) : Time :=
  tExp + wrap_i64 (-1000000000 * Subnet_LeaseTime s).

Lemma first_ip_in_range s : pool_ok s → in_range s (first_ip s).
Proof.
  intros [Hr Hc]. unfold first_ip. destruct (Z.eqb_spec (Subnet_currentIP s) 0).
  - unfold range_ok, in_range in *. lia.
  - destruct Hc; [done|]. by apply next_in_range.
Qed.

Lemma pool_start s :
  pool_ok s →
  (if Subnet_currentIP s =? 0 then set_currentIP (Subnet_iPFrom s) s else incrementCurrentIP s) =
  set_currentIP (first_ip s) s.
Proof.
  intros [Hr Hc]. unfold first_ip. destruct (Z.eqb_spec (Subnet_currentIP s) 0); [done|].
  destruct Hc; [done|]. by rewrite incrementCurrentIP_next.
Qed.

(** The loop leaves, and with the choice of the walk. *)
Lemma pool_loop_leaves h mac now expired s first oldest :
  range_ok s → in_range s first →
  iter_pos (pool_body h mac now expired first) pool_fuel (set_currentIP first s, oldest) =
    inr (answer_of h mac now s first
      (choose h expired s (probe_order (Subnet_iPFrom s) (Subnet_iPTo s) first) oldest)).
Proof.
  intros Hr Hf. rewrite iter_pos_nat.
  pose proof (probe_order_probes _ _ _ Hf) as Hp.
  assert (Forall (in_range s) (probe_order (Subnet_iPFrom s) (Subnet_iPTo s) first)) as Hin.
  { apply Forall_forall. intros i Hi%list_elem_of_In. by apply probe_order_elem in Hi. }
  pose proof (probe_order_length _ _ _ Hf) as Hlen.
  destruct (probe_order_head (Subnet_iPFrom s) (Subnet_iPTo s) first) as [l E];
    [unfold in_range in Hf; lia|].
  rewrite E in *. apply (iter_nat_mono _ (length (first :: l))); [by apply pool_loop|].
  rewrite Hlen. unfold range_ok, is_u32, pool_fuel in *. lia.
Qed.

(** The unknown client with no requested address. *)
Lemma GetLeaseForRequest_pool `{Dhcpv4} tExp tNew h s req :
  pool_ok s →
  Subnet_leaseCache s !! HardwareAddr_String (ClientHWAddr req) = None →
  isAddressZero (RequestedIPAddress req) = true →
  GetLeaseForRequest tExp tNew h s req =
    Some (answer_of h (HardwareAddr_String (ClientHWAddr req)) tNew s (first_ip s)
      (choose h (expired_time tExp s) s
         (probe_order (Subnet_iPFrom s) (Subnet_iPTo s) (first_ip s)) None)).
Proof.
  intros Hs Hm Hz. unfold GetLeaseForRequest. rewrite Hm, Hz. cbn [negb].
  rewrite pool_start by done. cbn [Subnet_currentIP Subnet_LeaseTime set_currentIP].
  rewrite pool_loop_leaves; [done| |]; [apply Hs|by apply first_ip_in_range].
Qed.
