(* ===== verification/SubnetProps.v ===== *)
(** * Properties of a subnet

    The invariant of an initialised subnet and its preservation by every
    operation, the behaviour of [GetLeaseForRequest] on each of its branches,
    and the state machine of a subnet with what holds in every reachable state. *)

From S2P Require Import Prelude GoStrings GoNet Errors IPv4 Types Dhcpv4 Subnet.
From S2P Require Import LeaseCache Pool.
Open Scope string_scope.
Open Scope list_scope.
Open Scope Z_scope.

(** ** The invariant *)

Definition subnet_inv (h : lease_store) (s : Subnet) : Prop :=
  pool_ok s ∧ cache_ok h (Subnet_leaseCache s).

(** A client as the packet library delivers it: the hardware address is bytes. *)
Definition client_ok (req : DHCPv4) : Prop := Forall is_u8 (ClientHWAddr req).

Abbreviation client_key req := (HardwareAddr_String (ClientHWAddr req)).

Lemma subnet_inv_mono h h' s : store_le h h' → subnet_inv h s → subnet_inv h' s.
Proof. intros Hle [Hp Hc]. split; [done|]. by eapply cache_ok_mono. Qed.

Lemma pool_ok_set_currentIP s i : pool_ok s → in_range s i → pool_ok (set_currentIP i s).
Proof. intros [Hr _] Hi. split; [done|by right]. Qed.

Lemma pool_ok_set_leaseCache c s : pool_ok s → pool_ok (set_leaseCache c s).
Proof. done. Qed.
#[export] Hint Resolve pool_ok_set_currentIP pool_ok_set_leaseCache : dhcp.

(** The lease the pool makes at an address of the range. *)
Lemma NewLease_ok now s mac i :
  range_ok s → in_range s i → contains_char "." mac = false →
  lease_ok (NewLease now s mac (ParseIP (IPv4_String i))) ∧
  ip_key (NewLease now s mac (ParseIP (IPv4_String i))) = IPv4_String i.
Proof.
  intros Hr Hi Hm. pose proof (ParseIP_IPv4_String i (in_range_u32 _ _ Hr Hi)) as [Hv Hs].
  unfold lease_ok. simpl. done.
Qed.

Lemma lookup_new h (l : Lease) : (h ++ [l]) !! length h = Some l.
Proof. by rewrite lookup_app_r, Nat.sub_diag by lia. Qed.

(** Allocation at a free address for a new client. *)
Lemma grant_free_inv h s mac now i first :
  subnet_inv h s → in_range s i → contains_char "." mac = false →
  let '(r, h', s') := answer_of h mac now s first (Free i) in
  subnet_inv h' s' ∧ store_le h h'.
Proof.
  intros [Hp Hc] Hi Hm. cbn [answer_of]. destruct (NewLease_ok now s mac i) as [Hok Hkey]; [apply Hp|done..|].
  split; [|auto with dhcp]. split; [by apply pool_ok_set_leaseCache, pool_ok_set_currentIP|].
  apply (cache_add_ok _ _ _ (NewLease now s mac (ParseIP (IPv4_String i))));
    [by eapply cache_ok_mono, Hc; auto with dhcp|apply lookup_new|done].
Qed.

(** ** Every operation preserves the invariant *)

Section preserve.
Context `{D : Dhcpv4}.

Lemma GetLeaseForRequest_inv tExp tNew h s req :
  subnet_inv h s → client_ok req →
  ∃ r h' s', GetLeaseForRequest tExp tNew h s req = Some (r, h', s') ∧
             subnet_inv h' s' ∧ store_le h h'.
Proof.
  intros Hinv Hreq. pose proof (HardwareAddr_String_no_dot _ Hreq) as Hdot.
  destruct (Subnet_leaseCache s !! client_key req) as [p|] eqn:Hmac;
    [|destruct (isAddressZero (RequestedIPAddress req)) eqn:Hz].
  - unfold GetLeaseForRequest. rewrite Hmac. case_match; eauto 10 with dhcp.
  - rewrite GetLeaseForRequest_pool by (done || apply Hinv).
    pose proof (first_ip_in_range s (proj1 Hinv)) as Hf.
    pose proof (choose_spec h (expired_time tExp s) s
      (probe_order (Subnet_iPFrom s) (Subnet_iPTo s) (first_ip s)) None) as Hch.
    destruct (choose _ _ _ _ _) as [i|o].
    + destruct Hch as (pre & post & E & _). do 3 eexists. split; [done|].
      apply (grant_free_inv h s (client_key req) tNew i (first_ip s)); try done.
      by eapply probe_order_mid.
    + do 3 eexists. split; [done|]. split; [|auto with dhcp].
      destruct Hinv as [Hp Hc]. split; [by apply pool_ok_set_currentIP|done].
  - unfold GetLeaseForRequest. rewrite Hmac, Hz. simpl.
    case_match; do 3 eexists; (split; [done|]); [auto with dhcp|].
    split; [eapply subnet_inv_mono; eauto with dhcp|auto with dhcp].
Qed.

Lemma AddLease_inv h s p l :
  subnet_inv h s → h !! p = Some l → lease_ok l → subnet_inv h (AddLease h s p).
Proof. intros [Hp Hc] Hl Hok. split; [done|]. by eapply cache_add_ok. Qed.

Lemma AddHost_inv h s host :
  subnet_inv h s → is_v4 (Host_IP host) → contains_char "." (Host_MAC host) = false →
  let '(h', s') := AddHost h s host in subnet_inv h' s' ∧ store_le h h'.
Proof.
  intros Hinv Hv Hm. cbn [AddHost new_lease]. split; [|auto with dhcp].
  eapply AddLease_inv; [by eapply subnet_inv_mono; [apply store_le_new|]|apply lookup_new|done].
Qed.

(** The entry at an address, if there is one, belongs to the hardware address. *)
Definition owns (h : lease_store) (s : Subnet) (mac ip : string) : Prop :=
  ∀ q, Subnet_leaseCache s !! ip = Some q → Lease_MAC (deref h q) = mac.

Lemma delete_keys_inv h s mac ip :
  subnet_inv h s → contains_char "." mac = false → owns h s mac ip →
  subnet_inv h (set_leaseCache (delete ip (delete mac (Subnet_leaseCache s))) s).
Proof. intros [Hp Hc] Hdot Hown. split; [done|]. by apply cache_delete_ok. Qed.
End preserve.

(** ** Initialisation *)

Lemma InitializeSubnet_Ok order cfg addrs s :
  InitializeSubnet order cfg addrs = Ok s →
  ∃ from to addr len prefix,
    ParseIPv4 (Subnet_RangeFrom cfg) = Ok from ∧ ParseIPv4 (Subnet_RangeTo cfg) = Ok to ∧
    from <= to ∧ split "/" (Subnet_Subnet cfg) = [addr; len] ∧ ParseInt len 8 = Ok prefix ∧
    Subnet_iPFrom s = from ∧ Subnet_iPTo s = to ∧ Subnet_Subnet s = Subnet_Subnet cfg ∧
    Subnet_ipNet s = {| IPNet_IP := ParseIP addr; IPNet_Mask := CIDRMask prefix 32 |} ∧
    Subnet_currentIP s = Subnet_currentIP cfg ∧ Subnet_leaseCache s = ∅ ∧
    Subnet_LeaseTime s ≠ 0.
Proof.
  unfold InitializeSubnet.
  destruct (ParseIPv4 (Subnet_RangeFrom cfg)) as [from|] eqn:Hf; [|done]. cbn [mbind result_bind].
  destruct (ParseIPv4 (Subnet_RangeTo cfg)) as [to|] eqn:Ht; [|done]. cbn [mbind result_bind].
  destruct (Z.ltb_spec to from); [done|].
  destruct (split "/" (Subnet_Subnet cfg)) as [|addr [|len [|]]] eqn:Hs; try done.
  destruct (ParseInt len 8) as [prefix|] eqn:Hp; [|done]. intros [= <-].
  exists from, to, addr, len, prefix. split_and!; try done. simpl.
  destruct (Z.eqb_spec (Subnet_LeaseTime cfg) 0); done.
Qed.

Lemma InitializeSubnet_inv order cfg addrs s h :
  InitializeSubnet order cfg addrs = Ok s → Subnet_currentIP cfg = 0 →
  Subnet_iPTo s < 2 ^ 32 - 1 → subnet_inv h s.
Proof.
  intros (from & to & addr & len & prefix & Hf & Ht & Hle & _ & _ & E1 & E2 & _ & _ & E3 & E4 & _)%InitializeSubnet_Ok Hc Hmax.
  apply ParseIPv4_u32 in Hf. split; [|rewrite E4; auto with dhcp].
  split; [|left; congruence]. unfold range_ok. rewrite E1, E2 in *. lia || (split; [done|lia]).
Qed.

(** ** The state machine of a subnet

    Everything that happens to a subnet and to the store its leases live in:
    requests; hosts and leases added and removed by the controllers; and what
    other code does to the shared store, allocating leases and writing fields
    other than a lease's binding. *)

Section machine.
Context `{D : Dhcpv4}.

Inductive subnet_step : lease_store * Subnet → lease_store * Subnet → Prop :=
  | step_request tExp tNew req r h s h' s' :
      client_ok req → GetLeaseForRequest tExp tNew h s req = Some (r, h', s') →
      subnet_step (h, s) (h', s')
  | step_add_host host h s :
      is_v4 (Host_IP host) → contains_char "." (Host_MAC host) = false →
      subnet_step (h, s) (AddHost h s host)
  | step_add_lease p l h s :
      h !! p = Some l → lease_ok l →
      subnet_step (h, s) (h, AddLease h s p)
  | step_delete_host host h s :
      contains_char "." (Host_MAC host) = false → owns h s (Host_MAC host) (IP_String (Host_IP host)) →
      subnet_step (h, s) (h, DeleteHost s host)
  | step_delete_lease l h s :
      contains_char "." (Lease_MAC l) = false → owns h s (Lease_MAC l) (ip_key l) →
      subnet_step (h, s) (h, DeleteLease s l)
  | step_store h h' s : store_le h h' → subnet_step (h, s) (h', s).

Lemma subnet_step_inv h s h' s' :
  subnet_step (h, s) (h', s') → subnet_inv h s → subnet_inv h' s'.
Proof.
  intros Hst Hinv. inversion Hst as [? ? ? ? ? ? ? ? Hc HG|host ? ? Hv Hm| | | | ]; subst.
  - destruct (GetLeaseForRequest_inv tExp tNew h s req Hinv Hc) as (? & ? & ? & E & ? & _).
    congruence.
  - by pose proof (AddHost_inv h s host Hinv Hv Hm) as [? _].
  - by eapply AddLease_inv.
  - by apply delete_keys_inv.
  - by apply delete_keys_inv.
  - by eapply subnet_inv_mono.
Qed.

Lemma subnet_reachable_inv x y :
  rtc subnet_step x y → subnet_inv x.1 x.2 → subnet_inv y.1 y.2.
Proof.
  induction 1 as [x|[h s] [h' s'] z Hst _ IH]; [done|]. intros Hinv.
  apply IH. by eapply subnet_step_inv.
Qed.
End machine.

(** ** Running a list of requests

    For examples: the requests one after the other, all at the same time. *)

Definition run_requests `{Dhcpv4} (now : Time) (reqs : list DHCPv4) (st : lease_store * Subnet)
    : option (lease_store * Subnet) :=
  foldl (λ st req,
    '(h, s) ← st;
    '(_, h, s) ← GetLeaseForRequest now now h s req;
    Some (h, s)) (Some st) reqs.

Lemma run_requests_reach `{D : Dhcpv4} now reqs st st' :
  Forall client_ok reqs → run_requests now reqs st = Some st' → rtc subnet_step st st'.
Proof.
  intros Hok. revert st'. induction reqs as [|req reqs IH] using rev_ind; intros st' H.
  - injection H as ->. apply rtc_refl.
  - apply Forall_app in Hok as [Hok Hreq]. unfold run_requests in *. rewrite foldl_app in H. simpl in H.
    destruct (foldl _ _ reqs) as [[h s]|] eqn:E; [|done]. cbn [mbind option_bind] in H.
    destruct (GetLeaseForRequest now now h s req) as [[[r h'] s']|] eqn:HG; [|done].
    cbn [mbind option_bind] in H. injection H as <-.
    eapply rtc_r; [by apply IH|]. eapply step_request; [|done]. by inversion Hreq.
Qed.

(** A subnet as the controllers make it, and the one of the source's tests. *)
Definition mk_cfg (subnet from to : string) : Subnet := {|
  Subnet_Subnet := subnet; Subnet_RangeFrom := from; Subnet_RangeTo := to;
  Subnet_Gateway := "10.1.1.254"; Subnet_DNS := ["1.1.1.1"]; Subnet_Options := [];
  Subnet_LeaseTime := 0; Subnet_ServerHostName := ""; Subnet_BootFileName := "";
  Subnet_iPFrom := 0; Subnet_iPTo := 0;
  Subnet_ipNet := {| IPNet_IP := None; IPNet_Mask := None |};
  Subnet_currentIP := 0; Subnet_leaseCache := ∅; Subnet_netMask := "";
  Subnet_serverIPAddress := None |}.

Definition demo_cfg : Subnet := mk_cfg "10.1.1.0/24" "10.1.1.1" "10.1.1.3".

Definition demo_subnet : Subnet :=
  match InitializeSubnet [] demo_cfg ∅ with Ok s => s | Err _ => demo_cfg end.

Definition demo_discover (n : Z) : DHCPv4 :=
  client_packet MessageTypeDiscover [0; 0; 0; 0; 0; n] None.

Definition demo_key (n : Z) : string := HardwareAddr_String [0; 0; 0; 0; 0; n].

(** A time well after the zero time, and the state after clients 1 to [n] at
    that time. *)
Definition demo_now : Time := 10 ^ 18.

Definition demo_after (n : Z) : lease_store * Subnet :=
  default ([], demo_subnet)
    (run_requests (H := rfc_lib) demo_now (demo_discover <$> seqZ 1 n) ([], demo_subnet)).

(** The source's own test, subnet_test.go: three clients get the three
    addresses, the third gets its own again, the fourth gets none. *)
Example subnet_test :
  (λ l, IP_String (Lease_IP l)) <$> (demo_after 3).1 = ["10.1.1.1"; "10.1.1.2"; "10.1.1.3"] ∧
  (λ a, a.1.1) <$> GetLeaseForRequest (H := rfc_lib) demo_now demo_now (demo_after 3).1
     (demo_after 3).2 (demo_discover 3) = Some (Some 2%nat) ∧
  (λ a, a.1.1) <$> GetLeaseForRequest (H := rfc_lib) demo_now demo_now (demo_after 3).1
     (demo_after 3).2 (demo_discover 4) = Some None.
Proof. split_and!; vm_compute; reflexivity. Qed.

(** C1: in every state a subnet can reach from its initialisation, by requests
    and by hosts and leases added and removed in any order, the leases of two
    different clients in the cache have different IPv4 addresses: no address is
    leased twice by the cache.  (What is removed at an address must belong to the
    hardware address it is removed with.) *)
Theorem no_address_leased_twice (D : Dhcpv4) order cfg addrs s0 h s m1 m2 p1 p2 :
  InitializeSubnet order cfg addrs = Ok s0 →
  Subnet_currentIP cfg = 0 → Subnet_iPTo s0 < 2 ^ 32 - 1 →
  rtc subnet_step ([], s0) (h, s) →
  contains_char "." m1 = false → contains_char "." m2 = false →
  Subnet_leaseCache s !! m1 = Some p1 → Subnet_leaseCache s !! m2 = Some p2 →
  m1 ≠ m2 → To4 (Lease_IP (deref h p1)) ≠ To4 (Lease_IP (deref h p2)).
Proof.
  intros Hi Hc Hmax Hr N1 N2 H1 H2 Hne E. apply Hne.
  pose proof (InitializeSubnet_inv _ _ _ _ [] Hi Hc Hmax) as Hinv0.
  pose proof (subnet_reachable_inv _ _ Hr Hinv0) as [_ Hok].
  by destruct (cache_ok_unique _ _ _ _ _ _ Hok N1 N2 H1 H2 E).
Qed.

Lemma demo_subnet_inv : subnet_inv [] demo_subnet.
Proof. apply (InitializeSubnet_inv [] demo_cfg ∅); by vm_compute. Qed.

Lemma no_address_leased_twice_witness :
  To4 (Lease_IP (deref (demo_after 2).1 0)) ≠ To4 (Lease_IP (deref (demo_after 2).1 1)).
Proof.
  apply (no_address_leased_twice rfc_lib [] demo_cfg ∅ demo_subnet (demo_after 2).1 (demo_after 2).2
    (demo_key 1) (demo_key 2)).
  1-3: vm_compute; reflexivity.
  1: apply (run_requests_reach demo_now (demo_discover <$> seqZ 1 2));
     [by vm_compute; repeat constructor|vm_compute; reflexivity].
  1-4: vm_compute; reflexivity.
  by vm_compute.
Defined.

(** ** The branches of [GetLeaseForRequest] *)

Section branches.
Context `{D : Dhcpv4} (tExp tNew : Time) (h : lease_store) (s : Subnet) (req : DHCPv4).

Abbreviation mac := (client_key req).
Abbreviation wanted := (RequestedIPAddress req).
Abbreviation cache := (Subnet_leaseCache s).

Lemma request_known p :
  cache !! mac = Some p →
  GetLeaseForRequest tExp tNew h s req =
    Some (if isAddressZero wanted || IP_Equal wanted (Lease_IP (deref h p)) then Some p else None, h, s).
Proof.
  intros Hp. unfold GetLeaseForRequest. rewrite Hp.
  by destruct (isAddressZero wanted), (IP_Equal wanted (Lease_IP (deref h p))).
Qed.

Lemma request_wanted :
  cache !! mac = None → isAddressZero wanted = false →
  GetLeaseForRequest tExp tNew h s req =
    match cache !! IP_String wanted with
    | Some _ => Some (None, h, s)
    | None => Some (Some (length h), h ++ [NewLease tNew s mac wanted], s)
    end.
Proof. intros Hp Hz. unfold GetLeaseForRequest. rewrite Hp, Hz. done. Qed.

Lemma request_pool_grants :
  pool_ok s → cache !! mac = None → isAddressZero wanted = true →
  ∃ r, GetLeaseForRequest tExp tNew h s req = Some r ∧
       pool_grants h mac tNew (expired_time tExp s) s (first_ip s) r.
Proof.
  intros Hs Hm Hz. eexists. split; [by apply GetLeaseForRequest_pool|].
  by apply choose_grants, first_ip_in_range.
Qed.
End branches.

(** C2: for a client that has no lease and asks for no particular address,
    [GetLeaseForRequest] returns and does what the pool's specification says:
    it allocates the first free address of the walk through the range and
    records it under both keys, or hands out the expired lease with the oldest
    update, or nothing; and the walk stops where the specification says. *)
Theorem GetLeaseForRequest_refines_pool (D : Dhcpv4) tExp tNew h s req :
  pool_ok s →
  Subnet_leaseCache s !! client_key req = None →
  isAddressZero (RequestedIPAddress req) = true →
  ∃ r, GetLeaseForRequest tExp tNew h s req = Some r ∧
       pool_grants h (client_key req) tNew (expired_time tExp s) s (first_ip s) r.
Proof.
  apply request_pool_grants.
Qed.

Lemma GetLeaseForRequest_refines_pool_witness :
  ∃ r, GetLeaseForRequest (H := rfc_lib) demo_now demo_now [] demo_subnet (demo_discover 7) = Some r ∧
       pool_grants [] (demo_key 7) demo_now (expired_time demo_now demo_subnet) demo_subnet
         (first_ip demo_subnet) r.
Proof. apply (GetLeaseForRequest_refines_pool rfc_lib); [apply demo_subnet_inv|reflexivity..]. Defined.

(** The lease handed out is one of the store. *)
Lemma GetLeaseForRequest_valid `{D : Dhcpv4} tExp tNew h s req p h' s' :
  subnet_inv h s → GetLeaseForRequest tExp tNew h s req = Some (Some p, h', s') → is_Some (h' !! p).
Proof.
  intros [Hp Hc] HG. destruct (Subnet_leaseCache s !! client_key req) as [q|] eqn:Hm;
    [|destruct (isAddressZero (RequestedIPAddress req)) eqn:Hz].
  - rewrite (request_known _ _ _ _ _ _ Hm) in HG. case_match; simplify_eq.
    destruct (cache_ok_lease _ _ _ _ Hc Hm) as [-> _]. eauto.
  - destruct (request_pool_grants tExp tNew h s req Hp Hm Hz) as (r & E & Hg).
    rewrite E in HG. injection HG as ->. inversion Hg; subst; [rewrite lookup_new; eauto|].
    match goal with H : Subnet_leaseCache s !! _ = Some p |- _ =>
      destruct (cache_ok_lease _ _ _ _ Hc H) as [-> _] end. eauto.
  - rewrite request_wanted in HG by done. case_match; simplify_eq. rewrite lookup_new. eauto.
Qed.

(** C18: from a state that satisfies the invariant, [GetLeaseForRequest] always
    returns, whatever the request and the clock; the invariant holds again, no
    lease of the store is lost or rebound, and the lease it returns exists. *)
Theorem GetLeaseForRequest_returns (D : Dhcpv4) tExp tNew h s req :
  subnet_inv h s → client_ok req →
  ∃ r h' s', GetLeaseForRequest tExp tNew h s req = Some (r, h', s') ∧
             subnet_inv h' s' ∧ store_le h h' ∧ (∀ p, r = Some p → is_Some (h' !! p)).
Proof.
  intros Hi Hc. destruct (GetLeaseForRequest_inv tExp tNew h s req Hi Hc) as (r & h' & s' & E & Hi' & Hle).
  exists r, h', s'. split_and!; [done..|]. intros p ->. exact (GetLeaseForRequest_valid _ _ _ _ _ _ _ _ Hi E).
Qed.

Lemma demo_discover_ok n : is_u8 n → client_ok (demo_discover n).
Proof.
  intros Hn. unfold client_ok; simpl. unfold is_u8 in *.
  repeat (apply List.Forall_cons; [lia|]). apply List.Forall_nil.
Qed.

Lemma GetLeaseForRequest_returns_witness :
  ∃ r h' s', GetLeaseForRequest (H := rfc_lib) demo_now demo_now [] demo_subnet (demo_discover 7) = Some (r, h', s') ∧
             subnet_inv h' s' ∧ store_le [] h' ∧ (∀ p, r = Some p → is_Some (h' !! p)).
Proof. apply (GetLeaseForRequest_returns rfc_lib); [apply demo_subnet_inv|apply demo_discover_ok; unfold is_u8; lia]. Defined.

(** A client whose first request, without a wish, was answered from the
    free addresses gets the very same lease, and nothing changes, when it asks
    again without a wish or for the address it was offered. *)
Theorem discover_then_request (D : Dhcpv4) t1 t2 t3 t4 h s req1 req2 p h' s' :
  subnet_inv h s → client_ok req1 →
  Subnet_leaseCache s !! client_key req1 = None →
  isAddressZero (RequestedIPAddress req1) = true →
  GetLeaseForRequest t1 t2 h s req1 = Some (Some p, h', s') → p = length h →
  ClientHWAddr req2 = ClientHWAddr req1 →
  isAddressZero (RequestedIPAddress req2) = true ∨
    IP_Equal (RequestedIPAddress req2) (Lease_IP (deref h' p)) = true →
  GetLeaseForRequest t3 t4 h' s' req2 = Some (Some p, h', s').
Proof.
  intros [Hp Hc] Hreq Hm Hz HG Hfresh Hhw Hw.
  destruct (request_pool_grants t1 t2 h s req1 Hp Hm Hz) as (r & E & Hg).
  rewrite E in HG. injection HG as ->. inversion Hg as [pre i post Hwalk Hpre Hi|i q Ht Hi Hq| ]; subst.
  - rewrite (request_known _ _ _ _ _ (length h)).
    + destruct Hw as [-> | ->]; [done|]. by rewrite orb_true_r.
    + rewrite Hhw. unfold AddLease. cbn [Subnet_leaseCache set_leaseCache].
      rewrite (cache_add_spec _ _ _ _ _ (lookup_new _ _)). by rewrite decide_True.
  - destruct (cache_ok_lease _ _ _ _ Hc Hq) as [Hl _]. apply lookup_lt_Some in Hl. lia.
Qed.

Lemma discover_then_request_witness :
  GetLeaseForRequest (H := rfc_lib) demo_now demo_now (demo_after 1).1 (demo_after 1).2
    (client_packet MessageTypeRequest [0; 0; 0; 0; 0; 1] (Some [10; 1; 1; 1])) =
  Some (Some 0%nat, (demo_after 1).1, (demo_after 1).2).
Proof.
  apply (discover_then_request rfc_lib demo_now demo_now demo_now demo_now [] demo_subnet
    (demo_discover 1)).
  - apply demo_subnet_inv.
  - apply demo_discover_ok; unfold is_u8; lia.
  - reflexivity.
  - reflexivity.
  - vm_compute. reflexivity.
  - reflexivity.
  - reflexivity.
  - right. vm_compute. reflexivity.
Defined.

(** C34: a client without a lease that asks for an address nobody holds gets a
    lease on that very address, whether or not it is in the range, and nothing
    is recorded: the subnet is unchanged, so a second client that asks for the
    same address gets it too. *)
Theorem requested_address_granted_twice (D : Dhcpv4) t1 t2 t3 t4 h s req1 req2 ip :
  isAddressZero ip = false → Subnet_leaseCache s !! IP_String ip = None →
  RequestedIPAddress req1 = ip → RequestedIPAddress req2 = ip →
  Subnet_leaseCache s !! client_key req1 = None → Subnet_leaseCache s !! client_key req2 = None →
  ∃ p1 h1 p2 h2,
    GetLeaseForRequest t1 t2 h s req1 = Some (Some p1, h1, s) ∧
    GetLeaseForRequest t3 t4 h1 s req2 = Some (Some p2, h2, s) ∧
    Lease_IP (deref h2 p1) = ip ∧ Lease_MAC (deref h2 p1) = client_key req1 ∧
    Lease_IP (deref h2 p2) = ip ∧ Lease_MAC (deref h2 p2) = client_key req2.
Proof.
  intros Hz Hip W1 W2 M1 M2.
  rewrite request_wanted, W1, Hip by (done || by rewrite W1).
  do 4 eexists. split; [done|].
  rewrite request_wanted, W2, Hip by (done || by rewrite W2). split; [done|].
  rewrite (deref_Some _ _ _ (lookup_app_l_Some _ _ _ _ (lookup_new _ _))).
  by rewrite (deref_Some _ _ _ (lookup_new _ _)).
Qed.

Lemma requested_address_granted_twice_witness :
  ∃ p1 h1 p2 h2,
    GetLeaseForRequest (H := rfc_lib) 1 1 [] demo_subnet
      (client_packet MessageTypeRequest [0; 0; 0; 0; 0; 1] (Some [192; 168; 7; 7])) =
      Some (Some p1, h1, demo_subnet) ∧
    GetLeaseForRequest (H := rfc_lib) 2 2 h1 demo_subnet
      (client_packet MessageTypeRequest [0; 0; 0; 0; 0; 2] (Some [192; 168; 7; 7])) =
      Some (Some p2, h2, demo_subnet) ∧
    Lease_IP (deref h2 p1) = Some [192; 168; 7; 7] ∧ Lease_MAC (deref h2 p1) = demo_key 1 ∧
    Lease_IP (deref h2 p2) = Some [192; 168; 7; 7] ∧ Lease_MAC (deref h2 p2) = demo_key 2.
Proof. apply (requested_address_granted_twice rfc_lib); vm_compute; reflexivity. Defined.


(** The three addresses of the demo subnet. *)
Lemma demo_range s i :
  Subnet_iPFrom s = 167837953 → Subnet_iPTo s = 167837955 → in_range s i →
  i = 167837953 ∨ i = 167837954 ∨ i = 167837955.
Proof. unfold in_range. lia. Qed.

(** All are taken by clients 1 to 3. *)
Lemma demo_full i : in_range (demo_after 3).2 i → taken (demo_after 3).2 i.
Proof.
  intros Hi. apply demo_range in Hi; [|vm_compute; reflexivity..].
  destruct Hi as [-> | [-> | ->]]; vm_compute; eauto.
Qed.

Lemma demo_after_inv n :
  n < 256 →
  is_Some (run_requests (H := rfc_lib) demo_now (demo_discover <$> seqZ 1 n) ([], demo_subnet)) →
  subnet_inv (demo_after n).1 (demo_after n).2.
Proof.
  intros Hn [st E]. unfold demo_after. rewrite E. simpl.
  apply (subnet_reachable_inv (D := rfc_lib) ([], demo_subnet) st); [|apply demo_subnet_inv].
  eapply run_requests_reach; [|done].
  apply Forall_forall. intros x Hx%list_elem_of_In. apply list_elem_of_fmap in Hx as (m & -> & Hm).
  apply elem_of_seqZ in Hm. apply demo_discover_ok. unfold is_u8. lia.
Qed.

Lemma demo_both_keys :
  map_Forall (λ _ p, Subnet_leaseCache (demo_after 3).2 !! Lease_MAC (deref (demo_after 3).1 p) = Some p)
    (Subnet_leaseCache (demo_after 3).2).
Proof. refine (bool_decide_unpack _ _). vm_compute. exact I. Qed.

(** Half a day later, with leases of four hours. *)
Definition demo_later : Time := demo_now + 43200 * 10 ^ 9.


(** A static host has no update time, so its lease counts as expired as
    soon as the lease time has passed since the zero time.  When the range is
    full and every other lease in it was updated later, a client without a lease
    is handed the host's lease, host address and all. *)
Theorem static_host_handed_out (D : Dhcpv4) tExp tNew h s req i p :
  pool_ok s →
  Subnet_leaseCache s !! client_key req = None →
  isAddressZero (RequestedIPAddress req) = true →
  (∀ j, in_range s j → taken s j) →
  in_range s i → Subnet_leaseCache s !! IPv4_String i = Some p →
  Lease_LastUpdate (deref h p) = 0 → 0 < expired_time tExp s →
  (∀ j q, in_range s j → Subnet_leaseCache s !! IPv4_String j = Some q → q ≠ p →
          0 < Lease_LastUpdate (deref h q)) →
  ∃ s', GetLeaseForRequest tExp tNew h s req = Some (Some p, h, s').
Proof.
  intros Hs Hm Hz Hfull Hi Hp H0 Hexp Hother.
  destruct (request_pool_grants tExp tNew h s req Hs Hm Hz) as (r & E & Hg).
  assert (is_expired h (expired_time tExp s) p) as He by (unfold is_expired; lia).
  inversion Hg as [pre j post Hwalk Hpre Hj|j q Ht Hj Hq Hqe Hmin|Ht Hnone]; subst.
  - destruct Hj. apply Hfull. by eapply probe_order_mid, Hwalk; apply first_ip_in_range.
  - rewrite E. assert (q = p) as ->; [|eauto]. destruct (decide (q = p)); [done|].
    specialize (Hmin i p Hi Hp He). specialize (Hother j q Hj Hq n). lia.
  - destruct (Hnone i p Hi Hp He).
Qed.

(** The demo subnet with a static host at its first address and clients at the
    other two. *)
Definition demo_host : Host := {|
  Host_Subnet := "10.1.1.0/24"; Host_MAC := "aa:aa:aa:aa:aa:aa"; Host_IP := ParseIP "10.1.1.1";
  Host_Gateway := None; Host_ServerHostName := ""; Host_BootFileName := ""; Host_DNS := [];
  Host_Options := []; Host_LeaseTime := 0; Host_HostName := "printer" |}.

Definition demo_with_host : lease_store * Subnet :=
  default ([], demo_subnet)
    (run_requests (H := rfc_lib) demo_now [demo_discover 2; demo_discover 3]
       (AddHost [] demo_subnet demo_host)).

Lemma static_host_handed_out_witness :
  ∃ s', GetLeaseForRequest (H := rfc_lib) demo_now demo_now demo_with_host.1 demo_with_host.2
          (demo_discover 4) = Some (Some 0%nat, demo_with_host.1, s').
Proof.
  assert (∀ i, in_range demo_with_host.2 i → i = 167837953 ∨ i = 167837954 ∨ i = 167837955) as Hr.
  { intros i. apply demo_range; vm_compute; reflexivity. }
  apply (static_host_handed_out rfc_lib demo_now demo_now demo_with_host.1 demo_with_host.2
    (demo_discover 4) 167837953 0).
  - refine (bool_decide_unpack _ _). vm_compute. exact I.
  - vm_compute. reflexivity.
  - vm_compute. reflexivity.
  - intros j Hj. destruct (Hr j Hj) as [-> | [-> | ->]]; vm_compute; eauto.
  - refine (bool_decide_unpack _ _). vm_compute. exact I.
  - vm_compute. reflexivity.
  - vm_compute. reflexivity.
  - vm_compute. reflexivity.
  - intros j q Hj Hq Hne. destruct (Hr j Hj) as [-> | [-> | ->]]; vm_compute in Hq; injection Hq as <-;
      [done|vm_compute; reflexivity..].
Defined.
