(* ===== verification/SubnetNet.v ===== *)
(** * The network of a subnet and its initialisation

    [InitializeSubnet] accepts what the theorem says and nothing else, which
    includes network addresses that are not addresses; of an IPv4 network it makes
    a subnet whose [Contains] is the prefix test of CIDR.  The file ends with the two places where the pool leaves its
    range or its bookkeeping: a range up to the last address, and a host whose
    hardware address already has a lease. *)

From S2P Require Import Prelude GoStrings GoNet Errors IPv4 Types Dhcpv4 Subnet.
From S2P Require Import LeaseCache Pool SubnetProps.
Open Scope string_scope.
Open Scope list_scope.
Open Scope Z_scope.

(** ** The prefix test *)

(** The mask byte with [r] leading ones. *)
Definition mask_byte (r : Z) : Z := Z.lxor 255 (Z.shiftr 255 r).

Lemma mask_byte_land r x :
  0 <= r <= 7 → is_u8 x → Z.land x (mask_byte r) = x / 2 ^ (8 - r) * 2 ^ (8 - r).
Proof.
  intros Hr Hx. apply Z.eqb_eq.
  assert (r = 0 ∨ r = 1 ∨ r = 2 ∨ r = 3 ∨ r = 4 ∨ r = 5 ∨ r = 6 ∨ r = 7) as H by lia.
  repeat destruct H as [-> | H]; [..|subst r]; revert x Hx; apply forall_u8; vm_compute; reflexivity.
Qed.

(** The big-endian value of a byte string. *)
Fixpoint be_value (b : list Z) : Z :=
  match b with
  | [] => 0
  | x :: b => x * 2 ^ (8 * Z.of_nat (length b)) + be_value b
  end.

Lemma be_value_bound b : Forall is_u8 b → 0 <= be_value b < 2 ^ (8 * Z.of_nat (length b)).
Proof.
  induction 1 as [|x b Hx Hb IH]; simpl; [lia|].
  replace (8 * Z.of_nat (S (length b))) with (8 + 8 * Z.of_nat (length b)) by lia.
  rewrite Z.pow_add_r by lia. unfold is_u8 in Hx. nia.
Qed.

Lemma masked_equal_zero l xs ys : masked_equal xs (cidr_bytes l 0) ys = true.
Proof.
  revert xs ys. induction l as [|l IH]; intros [|x xs] [|y ys]; try done. simpl.
  rewrite !Z.land_0_r. simpl. apply IH.
Qed.

Lemma div_concat x v n e :
  0 <= e <= n → 0 <= v < 2 ^ n → (x * 2 ^ n + v) / 2 ^ e = x * 2 ^ (n - e) + v / 2 ^ e.
Proof.
  intros He Hv. replace n with ((n - e) + e) at 1 by lia.
  rewrite Z.pow_add_r, Z.mul_assoc, Z.div_add_l by lia. done.
Qed.

Lemma concat_inj x y u v m : 0 <= u < m → 0 <= v < m → x * m + u = y * m + v ↔ x = y ∧ u = v.
Proof. intros. split; [|intros [-> ->]; done]. intros. assert (x = y) by nia. split; nia. Qed.

(** Comparing under a CIDR mask is comparing the leading bits. *)
Lemma masked_equal_prefix xs ys p :
  Forall is_u8 xs → Forall is_u8 ys → length xs = length ys →
  0 <= p <= 8 * Z.of_nat (length xs) →
  masked_equal xs (cidr_bytes (length xs) p) ys = true ↔
  be_value xs / 2 ^ (8 * Z.of_nat (length xs) - p) = be_value ys / 2 ^ (8 * Z.of_nat (length xs) - p).
Proof.
  intros Fx. revert ys p. induction Fx as [|x xs Hx Fx IH]; intros [|y ys] p Fy Hlen Hp; try done.
  apply Forall_cons_1 in Fy as [Hy Fy]. injection Hlen as Hlen.
  pose proof (be_value_bound xs Fx) as Bx. pose proof (be_value_bound ys Fy) as By.
  cbn [length cidr_bytes be_value masked_equal] in *. rewrite <- Hlen in *.
  set (n := 8 * Z.of_nat (length xs)) in *.
  replace (8 * Z.of_nat (S (length xs)) - p) with (n - (p - 8)) by lia.
  destruct (Z.leb_spec 8 p) as [H8|H8]; cbn [masked_equal]; rewrite andb_true_iff, Z.eqb_eq.
  - rewrite (IH ys (p - 8)) by (done || lia).
    change 255 with (Z.ones 8). rewrite !Z.land_ones, !Z.mod_small by (done || lia).
    rewrite !div_concat by (subst n; lia).
    rewrite concat_inj; [done|..]; (split; [apply Z.div_pos; lia|]);
      apply Z.div_lt_upper_bound; try lia; rewrite <- Z.pow_add_r by lia;
      replace (n - (p - 8) + (n - (n - (p - 8)))) with n by lia; lia.
  - rewrite masked_equal_zero. fold (mask_byte p). rewrite !mask_byte_land by (done || lia).
    replace (n - (p - 8)) with (n + (8 - p)) by lia.
    rewrite Z.pow_add_r, <- !Z.div_div, !Z.div_add_l, !(Z.div_small _ (2 ^ n)) by lia.
    rewrite !Z.add_0_r. assert (0 < 2 ^ (8 - p)) by lia. split; [intros [E _]; nia|by intros ->].
Qed.

Lemma cidr_bytes_length l n : length (cidr_bytes l n) = l.
Proof. revert n. induction l as [|l IH]; intros n; simpl; [done|]. case_match; simpl; by rewrite IH. Qed.

Lemma CIDRMask_32 p : 0 <= p <= 32 → CIDRMask p 32 = Some (cidr_bytes 4 p).
Proof. intros Hp. unfold CIDRMask. simpl. bcase; simpl; try lia; done. Qed.

Lemma network_v4 n nb p :
  To4 (IPNet_IP n) = Some nb → IPNet_Mask n = CIDRMask p 32 → 0 <= p <= 32 →
  networkNumberAndMask n = (nb, cidr_bytes 4 p).
Proof.
  intros E M Hp. unfold networkNumberAndMask. rewrite E, M, CIDRMask_32, bytes_of_Some by done.
  by rewrite cidr_bytes_length, (To4_length _ _ E).
Qed.

Lemma network_bad n p :
  (To4 (IPNet_IP n) = None ∨ ¬ 0 <= p <= 32) → IPNet_Mask n = CIDRMask p 32 →
  networkNumberAndMask n = ([], []).
Proof.
  intros Hbad M. unfold networkNumberAndMask. rewrite M.
  destruct (decide (0 <= p <= 32)) as [Hp|Hp].
  - destruct Hbad as [-> | ?]; [|done].
    destruct (Nat.eqb_spec (length (bytes_of (IPNet_IP n))) 16) as [L|]; [|done].
    destruct (IPNet_IP n) as [b|]; [|done]. rewrite bytes_of_Some in L.
    rewrite CIDRMask_32, bytes_of_Some, cidr_bytes_length by done. cbn [Nat.eqb]. by rewrite L.
  - assert (CIDRMask p 32 = None) as ->; [|by case_match].
    unfold CIDRMask. simpl. bcase; simpl; (done || lia).
Qed.

Lemma Contains_v4 n nb p ip b :
  To4 (IPNet_IP n) = Some nb → IPNet_Mask n = CIDRMask p 32 → 0 <= p <= 32 →
  v4_bytes nb → To4 ip = Some b → v4_bytes b →
  IPNet_Contains n ip = true ↔ be_value b / 2 ^ (32 - p) = be_value nb / 2 ^ (32 - p).
Proof.
  intros E M Hp [Ln Fn] Eb [Lb Fb]. unfold IPNet_Contains. rewrite (network_v4 _ _ _ E M Hp), Eb.
  rewrite bytes_of_Some, Lb, Ln. cbn [Nat.eqb negb].
  pose proof (masked_equal_prefix nb b p Fn Fb) as H. rewrite Ln in H.
  change (8 * Z.of_nat 4) with 32 in H. rewrite H by (congruence || lia). split; congruence.
Qed.

Lemma Contains_bad n p ip :
  (To4 (IPNet_IP n) = None ∨ ¬ 0 <= p <= 32) → IPNet_Mask n = CIDRMask p 32 → is_v4 ip →
  IPNet_Contains n ip = false.
Proof.
  intros Hbad M (b & Eb & [Lb _]). unfold IPNet_Contains.
  by rewrite (network_bad _ _ Hbad M), Eb; simpl; rewrite Lb.
Qed.

Lemma v4_bytes_mask p : 0 <= p <= 32 → v4_bytes (cidr_bytes 4 p).
Proof.
  intros Hp. rewrite <- (Z2Nat.id p) by lia. assert (Z.to_nat p < 33)%nat as Hn by lia.
  revert Hn. generalize (Z.to_nat p) as n. intros n Hn.
  do 33 (destruct n as [|n]; [by apply v4_bytes_4|]). lia.
Qed.

Lemma To4_v4_bytes ip b : Forall is_u8 (bytes_of ip) → To4 ip = Some b → v4_bytes b.
Proof.
  intros Hip E. split; [by eapply To4_length|]. unfold To4 in E.
  destruct (_ =? 4)%nat; [by destruct ip; simplify_eq|]. destruct (_ && _); [|done].
  injection E as <-. by apply Forall_drop.
Qed.

Lemma To4_ParseIP_dotted b : v4_bytes b → To4 (ParseIP (dotted b)) = Some b.
Proof. intros (x & y & z & w & -> & ? & ? & ? & ?)%v4_bytes_inv. by rewrite ParseIP_dotted. Qed.

(** The prefix test, for an address of any kind. *)
Lemma Contains_prefix n nb p ip :
  To4 (IPNet_IP n) = Some nb → IPNet_Mask n = CIDRMask p 32 → 0 <= p <= 32 → v4_bytes nb →
  Forall is_u8 (bytes_of ip) →
  IPNet_Contains n ip = true ↔
  ∃ b, To4 ip = Some b ∧ be_value b / 2 ^ (32 - p) = be_value nb / 2 ^ (32 - p).
Proof.
  intros E M Hp Hnb Hip. destruct (To4 ip) as [b|] eqn:Eb.
  - rewrite (Contains_v4 n nb p ip b) by (done || by eapply To4_v4_bytes).
    split; [by exists b|]. by intros (? & [= <-] & ?).
  - split; [|by intros (? & ? & _)]. unfold IPNet_Contains.
    rewrite (network_v4 _ _ _ E M Hp), Eb. destruct (Nat.eqb_spec (length (bytes_of ip)) (length nb)) as [L|]; [|done].
    destruct Hnb as [L4 _]. rewrite L4 in L. destruct ip as [b|]; [|done]. unfold To4 in Eb.
    by rewrite L in Eb.
Qed.

(** ** The local addresses *)

(** The address in the text of a network, unless it is an IPv6 one. *)
Definition ipv4_of (addr : string) : option net_IP :=
  match split "/" addr with
  | a :: _ => if contains_char ":" a then None else Some (ParseIP a)
  | [] => None
  end.

(** The IPv4 addresses that the interfaces of a name report, in order. *)
Definition reported (name : string) (ifs : list (string * result error (list string))) : list net_IP :=
  concat ((λ i, match i.2 with
                | Ok addrs => if decide (i.1 = name) then omap ipv4_of addrs else []
                | Err _ => []
                end) <$> ifs).

Lemma add_local_addrs_spec name addrs rv k :
  default [] (add_local_addrs name addrs rv !! k) =
    default [] (rv !! k) ++ if decide (name = k) then omap ipv4_of addrs else [].
Proof.
  unfold add_local_addrs. revert rv. induction addrs as [|addr addrs IH]; intros rv; cbn [foldl].
  - case_decide; by rewrite app_nil_r.
  - rewrite IH. cbn [omap list_omap]. unfold ipv4_of at 2.
    destruct (split "/" addr) as [|a rest]; [done|]. destruct (contains_char ":" a); [done|].
    rewrite lookup_insert. case_decide; subst; [|done]. cbn [default id]. by rewrite <- app_assoc.
Qed.

Lemma local_addresses_loop_spec ifs rv :
  match local_addresses_loop ifs rv with
  | Ok rv' => Forall (λ i, is_ok i.2 = true) ifs ∧
              ∀ name, default [] (rv' !! name) = default [] (rv !! name) ++ reported name ifs
  | Err e => ∃ pre name post, ifs = pre ++ (name, Err e) :: post ∧ Forall (λ i, is_ok i.2 = true) pre
  end.
Proof.
  revert rv. induction ifs as [|[name [addrs|e]] ifs IH]; intros rv; cbn [local_addresses_loop].
  - split; [done|]. intros name. unfold reported. by rewrite app_nil_r.
  - specialize (IH (add_local_addrs name addrs rv)).
    destruct (local_addresses_loop ifs (add_local_addrs name addrs rv)) as [rv'|e].
    + destruct IH as [Hok IH]. split; [by constructor|]. intros k.
      rewrite IH, add_local_addrs_spec. unfold reported. cbn. by rewrite <- app_assoc.
    + destruct IH as (pre & n & post & -> & Hpre). exists ((name, Ok addrs) :: pre), n, post.
      split; [done|by constructor].
  - exists [], name, ifs. by split.
Qed.

(** The addresses that the server takes for its own: for each interface
    name the IPv4 addresses that the interfaces of the name report, in order and
    without their prefix lengths, and no IPv6 address; or the error of the first
    interface that does not report. *)
Theorem GetLocalAddresses_spec ifs :
  match GetLocalAddresses (Ok ifs) with
  | Ok rv => Forall (λ i, is_ok i.2 = true) ifs ∧
             ∀ name, default [] (rv !! name) = reported name ifs
  | Err e => ∃ pre name post, ifs = pre ++ (name, Err e) :: post ∧ Forall (λ i, is_ok i.2 = true) pre
  end.
Proof.
  unfold GetLocalAddresses. pose proof (local_addresses_loop_spec ifs ∅) as Hl.
  destruct (local_addresses_loop ifs ∅); [|done]. destruct Hl as [Hok Hl]. split; [done|].
  intros name. by rewrite Hl, lookup_empty.
Qed.

Example local_addresses_test :
  (λ rv, default [] (rv !! "eth0")) <$>
    (match GetLocalAddresses (Ok [("eth0", Ok ["10.1.1.1/24"; "fe80::1/64"; "10.2.1.1/16"])]) with
     | Ok rv => Some rv | Err _ => None end) = Some [ParseIP "10.1.1.1"; ParseIP "10.2.1.1"].
Proof. vm_compute. reflexivity. Qed.

(** ** Initialisation *)

Lemma server_address_spec net addrs init :
  let a := server_address net addrs init in
  (a = init ∧ Forall (λ x, IPNet_Contains net x = false) addrs) ∨
  (a ∈ addrs ∧ IPNet_Contains net a = true).
Proof.
  unfold server_address. induction addrs as [|x addrs IH] using rev_ind; simpl; [by left|].
  rewrite foldl_app. simpl. destruct (IPNet_Contains net x) eqn:E.
  - right. split; [|done]. apply elem_of_app. right. by left.
  - destruct IH as [[-> Hall]|[Hin Hc]].
    + left. split; [done|]. apply Forall_app. by repeat constructor.
    + right. split; [|done]. apply elem_of_app. by left.
Qed.

(** C24: what [InitializeSubnet] accepts and what it makes of it: two parseable
    range ends in order, a subnet text with one slash and a numeric prefix
    length.  The result has an empty cache, a lease time that is not zero, and a
    server address that is one of the local addresses inside the network, or
    none is inside.  Each kind of failure has its own error. *)
Theorem InitializeSubnet_spec order cfg addrs :
  match InitializeSubnet order cfg addrs with
  | Ok s =>
      ∃ addr len prefix,
        ParseIPv4 (Subnet_RangeFrom cfg) = Ok (Subnet_iPFrom s) ∧
        ParseIPv4 (Subnet_RangeTo cfg) = Ok (Subnet_iPTo s) ∧
        Subnet_iPFrom s <= Subnet_iPTo s ∧
        split "/" (Subnet_Subnet cfg) = [addr; len] ∧ ParseInt len 8 = Ok prefix ∧
        Subnet_ipNet s = {| IPNet_IP := ParseIP addr; IPNet_Mask := CIDRMask prefix 32 |} ∧
        Subnet_leaseCache s = ∅ ∧ Subnet_LeaseTime s ≠ 0 ∧
        (Subnet_LeaseTime cfg ≠ 0 → Subnet_LeaseTime s = Subnet_LeaseTime cfg) ∧
        ((Subnet_serverIPAddress s = Subnet_serverIPAddress cfg ∧
          Forall (λ a, Contains s a = false) (concat (range_values order addrs))) ∨
         (Subnet_serverIPAddress s ∈ concat (range_values order addrs) ∧
          Contains s (Subnet_serverIPAddress s) = true))
  | Err e =>
      ParseIPv4 (Subnet_RangeFrom cfg) = Err e ∨
      ParseIPv4 (Subnet_RangeTo cfg) = Err e ∨
      (∃ from to, ParseIPv4 (Subnet_RangeFrom cfg) = Ok from ∧ ParseIPv4 (Subnet_RangeTo cfg) = Ok to ∧
                  to < from ∧ e = EFromGreaterThanTo) ∨
      (length (split "/" (Subnet_Subnet cfg)) ≠ 2%nat ∧ e = EInvalidSubnet (Subnet_Subnet cfg)) ∨
      (∃ addr len ne, split "/" (Subnet_Subnet cfg) = [addr; len] ∧ ParseInt len 8 = Err ne ∧ e = ENum ne)
  end.
Proof.
  unfold InitializeSubnet.
  destruct (ParseIPv4 (Subnet_RangeFrom cfg)) as [from|] eqn:Hf; cbn [mbind result_bind]; [|by auto].
  destruct (ParseIPv4 (Subnet_RangeTo cfg)) as [to|] eqn:Ht; cbn [mbind result_bind]; [|by auto].
  destruct (Z.ltb_spec to from); [naive_solver|].
  destruct (split "/" (Subnet_Subnet cfg)) as [|addr [|len [|]]] eqn:Hs; try naive_solver lia.
  destruct (ParseInt len 8) as [prefix|] eqn:Hp; [|naive_solver].
  exists addr, len, prefix. unfold Contains. cbn.
  destruct (Z.eqb_spec (Subnet_LeaseTime cfg) 0); split_and!; try done; apply server_address_spec.
Qed.

(** The bytes of a mask of [p] ones, as a number. *)
Lemma be_value_mask p : 0 <= p <= 32 → be_value (cidr_bytes 4 p) = 2 ^ 32 - 2 ^ (32 - p).
Proof.
  intros Hp. rewrite <- (Z2Nat.id p) by lia. assert (Z.to_nat p < 33)%nat as Hn by lia.
  revert Hn. generalize (Z.to_nat p) as n. intros n Hn.
  do 33 (destruct n as [|n]; [reflexivity|]). lia.
Qed.

(** What the text of a network is taken apart into. *)
Lemma split_network nb p :
  v4_bytes nb → 0 <= p <= 32 → split "/" (dotted nb +:+ "/" +:+ itoa p) = [dotted nb; itoa p].
Proof.
  intros (x & y & z & w & -> & ? & ? & ? & ?)%v4_bytes_inv Hp.
  apply (split_join "/" [dotted [x; y; z; w]; itoa p]); [done|].
  repeat constructor; [|by apply itoa_no_char; [|lia]].
  apply join_no_char; [done|]. repeat constructor; (apply itoa_no_char; [done|by apply is_u8_u64]).
Qed.

(** C23: a configuration of an IPv4 network in CIDR notation, its address in
    dotted decimal and a prefix length [p] of at most 32, with a range in order, makes a
    subnet that contains exactly the IPv4 addresses that agree with the network's
    in the [p] leading bits, and nothing that is not an IPv4 address; and the net
    mask that it gives its clients is the text of the mask of [p] ones. *)
Theorem initialized_subnet_contains order cfg addrs from to nb p :
  ParseIPv4 (Subnet_RangeFrom cfg) = Ok from → ParseIPv4 (Subnet_RangeTo cfg) = Ok to → from <= to →
  Subnet_Subnet cfg = dotted nb +:+ "/" +:+ itoa p → v4_bytes nb → 0 <= p <= 32 →
  ∃ s, InitializeSubnet order cfg addrs = Ok s ∧
    (∀ ip, Forall is_u8 (bytes_of ip) →
       Contains s ip = true ↔
       ∃ b, To4 ip = Some b ∧ be_value b / 2 ^ (32 - p) = be_value nb / 2 ^ (32 - p)) ∧
    ∃ m, Subnet_netMask s = dotted m ∧ v4_bytes m ∧ be_value m = 2 ^ 32 - 2 ^ (32 - p).
Proof.
  intros Hf Ht Hle Hs Hnb Hp. unfold InitializeSubnet. rewrite Hf, Ht. cbn [mbind result_bind].
  destruct (Z.ltb_spec to from); [lia|]. rewrite Hs, (split_network nb p) by done.
  rewrite ParseInt_itoa, (proj2 (Z.ltb_lt p (2 ^ (8 - 1)))) by lia. eexists. split; [done|]. split.
  - intros ip Hip. unfold Contains. cbn [Subnet_ipNet].
    apply (Contains_prefix _ nb p); [|done..]. cbn [IPNet_IP]. by apply To4_ParseIP_dotted.
  - exists (cidr_bytes 4 p). cbn [Subnet_netMask]. rewrite CIDRMask_32 by done.
    split; [|split; [by apply v4_bytes_mask|by apply be_value_mask]].
    apply IP_String_v4. unfold To4. by rewrite bytes_of_Some, cidr_bytes_length.
Qed.

(** The office of the demo: [10.1.1.77] is inside, [10.1.2.1] is not. *)
Lemma initialized_subnet_contains_witness :
  ∃ s, InitializeSubnet [] (mk_cfg "10.1.1.0/24" "10.1.1.1" "10.1.1.3") ∅ = Ok s ∧
    Contains s (ParseIP "10.1.1.77") = true ∧ Contains s (ParseIP "10.1.2.1") ≠ true ∧
    Contains s (ParseIP "fe80::1") ≠ true.
Proof.
  destruct (initialized_subnet_contains [] (mk_cfg "10.1.1.0/24" "10.1.1.1" "10.1.1.3") ∅
    167837953 167837955 [10; 1; 1; 0] 24) as (s & Hs & Hc & _).
  1-2: vm_compute; reflexivity.
  1: lia.
  1: vm_compute; reflexivity.
  1: by apply v4_bytes_4.
  1: lia.
  exists s. split; [exact Hs|]. split_and!.
  - apply Hc; [repeat constructor; done|]. exists [10; 1; 1; 77]. by split.
  - intros (b & Eb & E)%Hc; [|repeat constructor; done]. vm_compute in Eb. injection Eb as <-. by vm_compute in E.
  - intros (b & Eb & _)%Hc; [|repeat constructor; done]. by vm_compute in Eb.
Defined.

(** A network address that is no IPv4 address, or a prefix length outside
    0..32, is accepted, and the subnet then contains no IPv4 address at all: no
    request is ever answered from it. *)
Theorem bad_network_accepted order cfg addrs from to addr len prefix :
  ParseIPv4 (Subnet_RangeFrom cfg) = Ok from → ParseIPv4 (Subnet_RangeTo cfg) = Ok to →
  from <= to → split "/" (Subnet_Subnet cfg) = [addr; len] → ParseInt len 8 = Ok prefix →
  To4 (ParseIP addr) = None ∨ ¬ 0 <= prefix <= 32 →
  ∃ s, InitializeSubnet order cfg addrs = Ok s ∧ ∀ ip, is_v4 ip → Contains s ip = false.
Proof.
  intros Hf Ht Hle Hs Hp Hbad. unfold InitializeSubnet. rewrite Hf, Ht. cbn [mbind result_bind].
  destruct (Z.ltb_spec to from); [lia|]. rewrite Hs, Hp. eexists. split; [done|].
  intros ip Hip. by eapply Contains_bad.
Qed.

Lemma bad_network_accepted_witness :
  ∃ s, InitializeSubnet [] (mk_cfg "office/99" "10.1.1.1" "10.1.1.3") ∅ = Ok s ∧
       ∀ ip, is_v4 ip → Contains s ip = false.
Proof.
  apply (bad_network_accepted [] (mk_cfg "office/99" "10.1.1.1" "10.1.1.3") ∅
    167837953 167837955 "office" "99" 99).
  1-2: vm_compute; reflexivity.
  1: lia.
  1-2: vm_compute; reflexivity.
  by left.
Defined.

(** ** The last address

    [range_ok] excludes a range that ends at 255.255.255.255.  This is why. *)

(** C40: in a subnet whose range ends at the last address of the address space,
    after that address was used the next client without a lease is given
    0.0.0.0, outside the range unless the range starts there. *)
Theorem last_address_wraps (D : Dhcpv4) tExp tNew h s req :
  Subnet_iPTo s = 2 ^ 32 - 1 → Subnet_currentIP s = 2 ^ 32 - 1 → 0 < Subnet_iPFrom s →
  Subnet_leaseCache s !! client_key req = None → Subnet_leaseCache s !! "0.0.0.0" = None →
  isAddressZero (RequestedIPAddress req) = true →
  ∃ h' s', GetLeaseForRequest tExp tNew h s req = Some (Some (length h), h', s') ∧
           Lease_IP (deref h' (length h)) = net_IPv4 0 0 0 0 ∧ ¬ in_range s 0.
Proof.
  intros Hto Hcur Hfrom Hm H0 Hz. unfold GetLeaseForRequest. rewrite Hm, Hz, Hcur. cbn [negb Z.eqb].
  change (2 ^ 32 - 1 =? 0) with false. cbv iota.
  assert (incrementCurrentIP s = set_currentIP 0 s) as ->.
  { unfold incrementCurrentIP. rewrite Hcur, Inc_max. cbn. by rewrite Hto. }
  erewrite iter_pos_leave.
  2: { unfold pool_body. cbn [Subnet_leaseCache Subnet_currentIP set_currentIP].
       change (IPv4_String 0) with "0.0.0.0". rewrite H0. reflexivity. }
  do 2 eexists. split; [done|]. rewrite (deref_Some _ _ _ (lookup_new _ _)).
  split; [done|]. unfold in_range. lia.
Qed.

(** A range of the last two addresses, after two clients. *)
Definition last_cfg : Subnet := mk_cfg "255.255.255.0/24" "255.255.255.254" "255.255.255.255".
Definition last_subnet : Subnet :=
  match InitializeSubnet [] last_cfg ∅ with Ok s => s | Err _ => last_cfg end.
Definition last_after : lease_store * Subnet :=
  default ([], last_subnet)
    (run_requests (H := rfc_lib) demo_now [demo_discover 1; demo_discover 2] ([], last_subnet)).

Lemma last_address_wraps_witness :
  ∃ h' s', GetLeaseForRequest (H := rfc_lib) demo_now demo_now last_after.1 last_after.2 (demo_discover 3)
             = Some (Some (length last_after.1), h', s') ∧
           Lease_IP (deref h' (length last_after.1)) = net_IPv4 0 0 0 0 ∧ ¬ in_range last_after.2 0.
Proof. apply (last_address_wraps rfc_lib); vm_compute; reflexivity. Defined.

(** ** Hosts *)

(** Adding a host whose two keys are not in the cache and then deleting
    it leaves the subnet as it was. *)
Theorem AddHost_DeleteHost h s host :
  Host_MAC host ≠ IP_String (Host_IP host) →
  Subnet_leaseCache s !! Host_MAC host = None →
  Subnet_leaseCache s !! IP_String (Host_IP host) = None →
  DeleteHost (AddHost h s host).2 host = s.
Proof.
  intros Hne Hm Hi. unfold DeleteHost, AddHost, AddLease. cbn [new_lease fst snd].
  unfold set_leaseCache at 1. cbn [Subnet_leaseCache set_leaseCache].
  assert (delete (IP_String (Host_IP host)) (delete (Host_MAC host)
    (cache_add (h ++ [host_lease s host]) (length h) (Subnet_leaseCache s))) = Subnet_leaseCache s) as E.
  { apply map_eq. intros k. rewrite !lookup_delete, (cache_add_spec _ _ _ _ _ (lookup_new _ _)).
    simpl. rewrite Hi. repeat case_decide; congruence. }
  rewrite E. by destruct s.
Qed.

Lemma AddHost_DeleteHost_witness :
  DeleteHost (AddHost [] demo_subnet demo_host).2 demo_host = demo_subnet.
Proof. apply AddHost_DeleteHost; by vm_compute. Defined.

(** Adding a host for a hardware address that already has a lease on
    another address leaves that address taken by a lease no client can reach:
    its entry stays, while the hardware address now finds the host's lease.
    Deleting the host does not free it either. *)
Theorem AddHost_leaks_old_address h s host q :
  subnet_inv h s → is_v4 (Host_IP host) → contains_char "." (Host_MAC host) = false →
  Subnet_leaseCache s !! Host_MAC host = Some q →
  ip_key (deref h q) ≠ IP_String (Host_IP host) →
  let s' := (AddHost h s host).2 in
  Subnet_leaseCache s' !! ip_key (deref h q) = Some q ∧
  Lease_MAC (deref h q) = Host_MAC host ∧
  Subnet_leaseCache s' !! Host_MAC host = Some (length h) ∧
  Subnet_leaseCache (DeleteHost s' host) !! ip_key (deref h q) = Some q ∧
  Subnet_leaseCache (DeleteHost s' host) !! Host_MAC host = None.
Proof.
  intros [_ Hc] Hv Hm Hq Hne s'.
  destruct (cache_ok_mac _ _ _ _ Hc Hq Hm) as [Hmac Hip].
  destruct (cache_ok_lease _ _ _ _ Hc Hq) as [_ [Hvq _]].
  assert (ip_key (deref h q) ≠ Host_MAC host) as Hk
    by (intros E; apply IP_String_v4_dot in Hvq; congruence).
  assert (∀ old, Subnet_leaseCache s !! IP_String (Host_IP host) = Some old →
    ip_key (deref h q) ≠ Lease_MAC (deref (h ++ [host_lease s host]) old)) as Hold.
  { intros old Ho E. destruct (cache_ok_lease _ _ _ _ Hc Ho) as [Hl [_ Hd]].
    rewrite (deref_Some _ _ _ (lookup_app_l_Some _ [host_lease s host] _ _ Hl)) in E.
    apply IP_String_v4_dot in Hvq. congruence. }
  assert (Subnet_leaseCache s' !! ip_key (deref h q) = Some q) as H1.
  { subst s'. unfold AddHost, AddLease. cbn [new_lease fst snd Subnet_leaseCache set_leaseCache].
    rewrite (cache_add_spec _ _ _ _ _ (lookup_new _ _)). simpl.
    repeat case_decide; try congruence.
    destruct (Subnet_leaseCache s !! IP_String (Host_IP host)) eqn:E; [|done].
    by rewrite decide_False by (by apply Hold). }
  split_and!; [done|done| |..].
  - subst s'. unfold AddHost, AddLease. cbn [new_lease fst snd Subnet_leaseCache set_leaseCache].
    rewrite (cache_add_spec _ _ _ _ _ (lookup_new _ _)). by rewrite decide_True.
  - unfold DeleteHost. cbn [Subnet_leaseCache set_leaseCache].
    by rewrite !lookup_delete_ne.
  - unfold DeleteHost. cbn [Subnet_leaseCache set_leaseCache].
    rewrite lookup_delete, lookup_delete_eq. by case_decide.
Qed.

(** Client 1 of the demo subnet, made a host at another address. *)
Definition moved_host : Host := {|
  Host_Subnet := "10.1.1.0/24"; Host_MAC := "00:00:00:00:00:01"; Host_IP := ParseIP "10.1.1.3";
  Host_Gateway := None; Host_ServerHostName := ""; Host_BootFileName := ""; Host_DNS := [];
  Host_Options := []; Host_LeaseTime := 0; Host_HostName := "" |}.

Lemma AddHost_leaks_old_address_witness :
  let s' := (AddHost (demo_after 1).1 (demo_after 1).2 moved_host).2 in
  Subnet_leaseCache s' !! ip_key (deref (demo_after 1).1 0) = Some 0%nat ∧
  Lease_MAC (deref (demo_after 1).1 0) = "00:00:00:00:00:01" ∧
  Subnet_leaseCache s' !! "00:00:00:00:00:01" = Some 1%nat ∧
  Subnet_leaseCache (DeleteHost s' moved_host) !! ip_key (deref (demo_after 1).1 0) = Some 0%nat ∧
  Subnet_leaseCache (DeleteHost s' moved_host) !! "00:00:00:00:00:01" = None.
Proof.
  apply (AddHost_leaks_old_address (demo_after 1).1 (demo_after 1).2 moved_host 0).
  - apply demo_after_inv; [lia|vm_compute; eauto].
  - refine (bool_decide_unpack _ _). vm_compute. exact I.
  - vm_compute. reflexivity.
  - vm_compute. reflexivity.
  - by vm_compute.
Defined.
