(* ===== verification/Server.v ===== *)
(** * [dhcp/server.go]: the server

    The server's state, with the store of all leases, and its operations.  The
    two mutexes make each operation on the subnets one step.  A listener is
    known by its socket; the sockets that were closed are recorded in the state.
    Go's map iteration order is an argument wherever the source ranges over a
    map, the clock wherever it reads it. *)

From S2P Require Import Prelude GoStrings GoNet Errors IPv4 Types Dhcpv4 Subnet.
Open Scope string_scope.
Open Scope list_scope.
Open Scope Z_scope.

Abbreviation socket_id := nat.

Record Server := {
  listeners : gmap string socket_id;
  subnets : gmap string Subnet;
  localIpAddresses : LocalIPAddresses;
  serverIds : gmap string bool;
  leases : lease_store;
  closed : list socket_id;
}.

Definition set_listeners (l : gmap string socket_id) (s : Server) : Server := {|
  listeners := l; subnets := subnets s; localIpAddresses := localIpAddresses s;
  serverIds := serverIds s; leases := leases s; closed := closed s |}.
Definition set_subnets (m : gmap string Subnet) (s : Server) : Server := {|
  listeners := listeners s; subnets := m; localIpAddresses := localIpAddresses s;
  serverIds := serverIds s; leases := leases s; closed := closed s |}.
Definition set_leases (h : lease_store) (s : Server) : Server := {|
  listeners := listeners s; subnets := subnets s; localIpAddresses := localIpAddresses s;
  serverIds := serverIds s; leases := h; closed := closed s |}.
Definition set_closed (c : list socket_id) (s : Server) : Server := {|
  listeners := listeners s; subnets := subnets s; localIpAddresses := localIpAddresses s;
  serverIds := serverIds s; leases := leases s; closed := c |}.

(** A request and a response, api.go. *)
Record Request := {
  Request_DHCPv4 : DHCPv4;
  Request_Src : string;
  Request_InterfaceName : interfaceName;
  Request_Dst : net_IP;
  Request_socket : socket_id;
}.

Record Response := {
  Response_Request : Request;
  Response_Response : DHCPv4;
  Response_Lease : lease_ptr;
}.

(** ** Construction *)

(** The set of the texts of all local addresses. *)
Definition server_ids (order : list string) (addrs : LocalIPAddresses) : gmap string bool :=
  foldl (λ m ip, <[IP_String ip := true]> m) ∅ (concat (range_values order addrs)).

(** [NewServer].  [callback] and [logger] say whether the configuration has
    them; [local] is what the getter of local addresses returns: addresses (a nil
    map has none) and an error, which is returned beside the server. *)
Definition NewServer (order : list string) (callback logger : bool)
    (local : LocalIPAddresses * option error) : outcome (option Server * option error) :=
  if negb callback then Ret (None, Some ECallbackMandatory)
  else if negb logger then Panic "no logger set"
  else
    let '(addrs, err) := local in
    Ret (Some {| listeners := ∅; subnets := ∅; localIpAddresses := addrs;
                 serverIds := server_ids order addrs; leases := []; closed := [] |}, err).

(** ** Listeners *)

(** The socket factory is a parameter: it opens a socket or fails. *)
Definition AddListen (socketFactory : string → string → result error socket_id)
    (s : Server) (listen : Listen) : option error * Server :=
  match listeners s !! Listen_Name listen with
  | Some _ => (Some (EListenExists (Listen_Name listen)), s)
  | None =>
      match socketFactory (Listen_Addr listen) (Listen_Interface listen) with
      | Err e => (Some e, s)
      | Ok sock => (None, set_listeners (<[Listen_Name listen := sock]> (listeners s)) s)
      end
  end.

Definition DeleteListen (s : Server) (name : string) : option error * Server :=
  match listeners s !! name with
  | None => (Some (EUnknownListen name), s)
  | Some sock =>
      (None, set_listeners (delete name (listeners s)) (set_closed (closed s ++ [sock]) s))
  end.

Definition Close (order : list string) (s : Server) : Server :=
  set_closed (closed s ++ range_values order (listeners s)) s.

(** ** Subnets *)

Fixpoint find_overlap (visited : list Subnet) (subnet : Subnet) : option error :=
  match visited with
  | [] => None
  | sn :: visited =>
      if isOverlap sn subnet
      then Some (EOverlappingSubnets (Subnet_Subnet sn) (Subnet_Subnet subnet))
      else find_overlap visited subnet
  end.

Definition AddSubnet (addrOrder order : list string) (s : Server) (subnet : Subnet)
    : option error * Server :=
  match InitializeSubnet addrOrder subnet (localIpAddresses s) with
  | Err e => (Some e, s)
  | Ok subnet =>
      match find_overlap (range_values order (subnets s)) subnet with
      | Some e => (Some e, s)
      | None => (None, set_subnets (<[Subnet_Subnet subnet := subnet]> (subnets s)) s)
      end
  end.

Definition DeleteSubnet (s : Server) (subnet : SubnetAddrPrefix) : option error * Server :=
  match subnets s !! subnet with
  | None => (Some (ESubnetNotFound subnet), s)
  | Some _ => (None, set_subnets (delete subnet (subnets s)) s)
  end.

(** The first subnet, in the order of the iteration, that contains the address,
    with the key it has in the map. *)
Fixpoint find_subnet (order : list string) (m : gmap string Subnet) (ip : net_IP)
    : option (string * Subnet) :=
  match order with
  | [] => None
  | k :: order =>
      match m !! k with
      | Some sn => if Contains sn ip then Some (k, sn) else find_subnet order m ip
      | None => find_subnet order m ip
      end
  end.

Definition getSubnetForIp (order : list string) (s : Server) (ip : net_IP)
    : option (string * Subnet) := find_subnet order (subnets s) ip.

(** ** Leases and hosts *)

Definition Server_AddLease (s : Server) (lease : lease_ptr) : option error * Server :=
  let l := deref (leases s) lease in
  match subnets s !! Lease_Subnet l with
  | None => (Some (ENoSubnetForLease (Lease_MAC l)), s)
  | Some sn =>
      (None, set_subnets (<[Lease_Subnet l := AddLease (leases s) sn lease]> (subnets s)) s)
  end.

Definition Server_DeleteLease (order : list string) (s : Server) (lease : Lease)
    : option error * Server :=
  match getSubnetForIp order s (Lease_IP lease) with
  | None => (Some (ELeaseSubnetNotFound (Lease_MAC lease)), s)
  | Some (k, sn) => (None, set_subnets (<[k := DeleteLease sn lease]> (subnets s)) s)
  end.

Definition Server_AddHost (order : list string) (s : Server) (host : Host)
    : option error * Server :=
  match getSubnetForIp order s (Host_IP host) with
  | None => (Some (ENoSubnetForHost (Host_IP host) (Host_MAC host)), s)
  | Some (k, sn) =>
      let '(h, sn) := AddHost (leases s) sn host in
      (None, set_leases h (set_subnets (<[k := sn]> (subnets s)) s))
  end.

Definition Server_DeleteHost (order : list string) (s : Server) (host : Host)
    : option error * Server :=
  match getSubnetForIp order s (Host_IP host) with
  | None => (Some (EHostNotFound (Host_MAC host)), s)
  | Some (k, sn) => (None, set_subnets (<[k := DeleteHost sn host]> (subnets s)) s)
  end.

Definition GetLease (s : Server) (subnet : SubnetAddrPrefix) (mac : string) : option lease_ptr :=
  match subnets s !! subnet with
  | None => None
  | Some sn => Subnet_leaseCache sn !! mac
  end.

(** ** Requests *)

(** The loop of [getSubnet] over the addresses of the interface the request
    came in on; the [i]-th search has its own iteration order. *)
Fixpoint find_local_subnet (orders : nat → list string) (i : nat) (s : Server) (ips : list net_IP)
    : option (string * Subnet) :=
  match ips with
  | [] => None
  | ip :: ips =>
      match getSubnetForIp (orders i) s ip with
      | Some sn => Some sn
      | None => find_local_subnet orders (S i) s ips
      end
  end.

Definition getSubnet (orders : nat → list string) (s : Server) (req : Request)
    : option (string * Subnet) :=
  let gw := GatewayIPAddr (Request_DHCPv4 req) in
  if bool_decide (gw = None) || IP_Equal gw IPv4zero then
    find_local_subnet orders 0 s (default [] (localIpAddresses s !! Request_InterfaceName req))
  else getSubnetForIp (orders 0%nat) s gw.

Section responses.
Context `{D : Dhcpv4}.

(** The loop over the options of the lease. *)
Fixpoint apply_options (opts : list DOption) (resp : DHCPv4) : result error DHCPv4 :=
  match opts with
  | [] => Ok resp
  | opt :: opts =>
      if String.eqb (Option_Type opt) "string"
      then apply_options opts (UpdateOption (Option_ID opt) (VString (Option_Value opt)) resp)
      else Err (EUnknownOptionType (Option_Type opt))
  end.

(** The part of the response that follows the options. *)
Definition finish_response (lease : Lease) (resp : DHCPv4) : DHCPv4 :=
  let resp := set_BootFileName (Lease_BootFileName lease) resp in
  let resp := set_ServerHostName (Lease_ServerHostName lease) resp in
  let resp := UpdateOption 1 (VIPMask (To4 (ParseIP (Lease_NetMask lease)))) resp in
  let resp := UpdateOption 51 (VDuration (wrap_i64 (Lease_LeaseTime lease * 1000000000))) resp in
  let resp := UpdateOption 3 (VIP (Lease_Gateway lease)) resp in
  let dnsServers := (λ dns, To4 (ParseIP dns)) <$> Lease_DNS lease in
  let resp := UpdateOption 6 (VIPs dnsServers) resp in
  let resp := UpdateOption 54 (VIP (Lease_ServerId lease)) resp in
  UpdateOption 43 (VGeneric [49; 50; 51]) resp.

(** [getResponse]: the three results of the method, each of which may be nil,
    with the store and the subnet it leaves. *)
Definition getResponse (tExp tNew : Time) (h : lease_store) (subnet : Subnet) (req : DHCPv4)
    : outcome ((option DHCPv4 * option lease_ptr * option error) * lease_store * Subnet) :=
  match GetLeaseForRequest tExp tNew h subnet req with
  | None => NoReturn
  | Some (None, h, subnet) => Ret ((None, None, Some ENilLease), h, subnet)
  | Some (Some lease, h, subnet) =>
      match NewReplyFromRequest req with
      | (resp, Some err) => Ret ((resp, Some lease, Some err), h, subnet)
      | (None, None) => Ret ((None, Some lease, Some ENoReply), h, subnet)
      | (Some resp, None) =>
          let resp := set_YourIPAddr (Lease_IP (deref h lease)) resp in
          let resp := set_ServerIPAddr (Subnet_serverIPAddress subnet) resp in
          let h := alter (set_ServerId (Subnet_serverIPAddress subnet)) lease h in
          match apply_options (Lease_Options (deref h lease)) resp with
          | Err e => Ret ((None, None, Some e), h, subnet)
          | Ok resp =>
              let resp := finish_response (deref h lease) resp in
              if MessageType req =? MessageTypeRequest then
                Ret ((Some (UpdateOption 53 (VMessageType MessageTypeAck) resp), Some lease, None), h, subnet)
              else if MessageType req =? MessageTypeDiscover then
                Ret ((Some (UpdateOption 53 (VMessageType MessageTypeOffer) resp), Some lease, None), h, subnet)
              else Ret ((None, None, None), h, subnet)
          end
      end
  end.

(** The guard of [GetResponse] on the server identifier. *)
Definition for_other_server (s : Server) (req : DHCPv4) : bool :=
  let id := ServerIdentifier req in
  negb (bool_decide (id = None)) && negb (IP_Equal id IPv4zero) &&
  negb (bool_decide (is_Some (serverIds s !! IP_String id))).

Definition GetResponse (tExp tNew : Time) (orders : nat → list string) (s : Server) (req : Request)
    : outcome (result error Response * Server) :=
  let pkt := Request_DHCPv4 req in
  if for_other_server s pkt then
    Ret (Err (EUnknownServerId (IP_String (ServerIdentifier pkt))), s)
  else
    match getSubnet orders s req with
    | None => Ret (Err (EUnknownSubnet (GatewayIPAddr pkt) (Request_InterfaceName req)), s)
    | Some (k, sn) =>
        if (MessageType pkt =? MessageTypeDiscover) || (MessageType pkt =? MessageTypeRequest) then
          '((resp, lease, err), h, sn) ← getResponse tExp tNew (leases s) sn pkt;
          let s := set_leases h (set_subnets (<[k := sn]> (subnets s)) s) in
          match err with
          | Some e => Ret (Err e, s)
          | None =>
              match lease, resp with
              | Some p, Some resp =>
                  let s := set_leases
                    (alter (set_ServerId (Subnet_serverIPAddress sn)) p (leases s)) s in
                  Ret (Ok {| Response_Request := req; Response_Response := resp;
                             Response_Lease := p |}, s)
              | _, _ => Panic "invalid memory address or nil pointer dereference"
              end
          end
        else Ret (Err (EUnknownPacketType (MessageType pkt)), s)
    end.
End responses.

#[global] Arguments getSubnetForIp : simpl never.
#[global] Arguments getSubnet : simpl never.
#[global] Arguments GetResponse : simpl never.
#[global] Arguments finish_response : simpl never.
