(* ===== verification/ServerProps.v ===== *)
(** * Properties of the server

    Which subnet answers a request; that every operation keeps each subnet's
    invariant; that [GetResponse] returns, and what is in its response. *)

From S2P Require Import Prelude GoStrings GoNet Errors IPv4 Types Dhcpv4 Subnet.
From S2P Require Import LeaseCache Pool SubnetProps SubnetNet Server.
Open Scope string_scope.
Open Scope list_scope.
Open Scope Z_scope.

(** ** The search for a subnet *)

Lemma find_subnet_Some order m ip k sn :
  find_subnet order m ip = Some (k, sn) → k ∈ order ∧ m !! k = Some sn ∧ Contains sn ip = true.
Proof.
  induction order as [|k' order IH]; cbn [find_subnet]; [done|].
  destruct (m !! k') as [sn'|] eqn:E; [destruct (Contains sn' ip) eqn:Ec|]; intros Hf.
  - injection Hf as <- <-. split_and!; [by left|done..].
  - destruct (IH Hf) as (? & ? & ?). split_and!; [by right|done..].
  - destruct (IH Hf) as (? & ? & ?). split_and!; [by right|done..].
Qed.

Lemma find_subnet_None order m ip :
  find_subnet order m ip = None →
  ∀ k sn, k ∈ order → m !! k = Some sn → Contains sn ip = false.
Proof.
  induction order as [|k' order IH]; cbn [find_subnet].
  - intros _ k sn Hk. by apply not_elem_of_nil in Hk.
  - intros Hf k sn [-> | Hk]%elem_of_cons E.
    + rewrite E in Hf. by destruct (Contains sn ip).
    + apply (IH ltac:(destruct (m !! k'); [by destruct (Contains _ ip)|done]) k sn Hk E).
Qed.

(** The search is exact: it finds a subnet that contains the address if there
    is one. *)
Lemma getSubnetForIp_spec order s ip :
  range_order order (subnets s) →
  match getSubnetForIp order s ip with
  | Some (k, sn) => subnets s !! k = Some sn ∧ Contains sn ip = true
  | None => ∀ k sn, subnets s !! k = Some sn → Contains sn ip = false
  end.
Proof.
  intros Ho. unfold getSubnetForIp. destruct (find_subnet order (subnets s) ip) as [[k sn]|] eqn:E.
  - by apply find_subnet_Some in E as (_ & ? & ?).
  - intros k sn Hk. eapply find_subnet_None; [done| |done].
    apply (range_order_elem _ _ _ Ho). eauto.
Qed.

(** ** The invariant *)

Definition server_inv (s : Server) : Prop :=
  ∀ k sn, subnets s !! k = Some sn → Subnet_Subnet sn = k ∧ subnet_inv (leases s) sn.

(** Replacing one subnet and growing the store. *)
Lemma server_inv_update s k sn h :
  server_inv s → store_le (leases s) h → Subnet_Subnet sn = k → subnet_inv h sn →
  server_inv (set_leases h (set_subnets (<[k := sn]> (subnets s)) s)).
Proof.
  intros Hs Hle Hk Hsn k' sn' H. cbn [subnets leases set_leases set_subnets] in *.
  rewrite lookup_insert in H. case_decide; simplify_eq; [done|].
  destruct (Hs k' sn' H) as [? Hi]. split; [done|]. by eapply subnet_inv_mono.
Qed.

Lemma set_leases_same s m : set_leases (leases s) (set_subnets m s) = set_subnets m s.
Proof. by destruct s. Qed.

(** A subnet after an operation: its counter and its cache may differ. *)
Definition subnet_frame (s s' : Subnet) : Prop :=
  ∃ i c, s' = set_currentIP i (set_leaseCache c s).

Lemma subnet_frame_refl s : subnet_frame s s.
Proof. exists (Subnet_currentIP s), (Subnet_leaseCache s). by destruct s. Qed.

Lemma subnet_frame_cache c s : subnet_frame s (set_leaseCache c s).
Proof. exists (Subnet_currentIP s), c. by destruct s. Qed.

Lemma GetLeaseForRequest_frame `{D : Dhcpv4} tExp tNew h s req r h' s' :
  pool_ok s → GetLeaseForRequest tExp tNew h s req = Some (r, h', s') → subnet_frame s s'.
Proof.
  intros Hp HG. destruct (Subnet_leaseCache s !! client_key req) as [q|] eqn:Hm;
    [|destruct (isAddressZero (RequestedIPAddress req)) eqn:Hz].
  - rewrite (request_known _ _ _ _ _ _ Hm) in HG. simplify_eq. apply subnet_frame_refl.
  - rewrite GetLeaseForRequest_pool in HG by done. injection HG as HG.
    destruct (choose _ _ _ _ _); cbn [answer_of] in HG; injection HG as <- <- <-.
    + eexists i, _. reflexivity.
    + exists (first_ip s), (Subnet_leaseCache s). by destruct s.
  - rewrite request_wanted in HG by done. case_match; simplify_eq; apply subnet_frame_refl.
Qed.

Section responses.
Context `{D : Dhcpv4}.

(** [getResponse] returns, keeps the invariant, and on a discover or request
    either names an error or has both a response and a lease. *)
Lemma getResponse_inv tExp tNew h sn pkt :
  subnet_inv h sn → client_ok pkt →
  ∃ resp lease err h' sn',
    getResponse tExp tNew h sn pkt = Ret ((resp, lease, err), h', sn') ∧
    subnet_inv h' sn' ∧ store_le h h' ∧ subnet_frame sn sn' ∧
    (MessageType pkt = MessageTypeDiscover ∨ MessageType pkt = MessageTypeRequest →
     is_Some err ∨ is_Some resp ∧ is_Some lease).
Proof.
  intros Hi Hc. unfold getResponse.
  destruct (GetLeaseForRequest_inv tExp tNew h sn pkt Hi Hc) as (r & h1 & sn1 & E & Hi1 & Hle).
  pose proof (GetLeaseForRequest_frame _ _ _ _ _ _ _ _ (proj1 Hi) E) as Hfr.
  rewrite E. destruct r as [p|]; [|do 5 eexists; split_and!; eauto].
  destruct (NewReplyFromRequest pkt) as [[resp|] [err|]]; try (do 5 eexists; split_and!; by eauto).
  assert (store_le h1 (alter (set_ServerId (Subnet_serverIPAddress sn1)) p h1)) as Hle2 by auto with dhcp.
  assert (store_le h (alter (set_ServerId (Subnet_serverIPAddress sn1)) p h1)) by (by etrans).
  pose proof (subnet_inv_mono _ _ _ Hle2 Hi1).
  destruct (apply_options _ _) as [resp'|e]; [|do 5 eexists; split_and!; by eauto].
  destruct (Z.eqb_spec (MessageType pkt) MessageTypeRequest) as [|N1];
    [|destruct (Z.eqb_spec (MessageType pkt) MessageTypeDiscover) as [|N2]];
    do 5 eexists; split_and!; eauto; by intros [].
Qed.

Lemma getSubnet_Some orders s req k sn :
  (∀ i, range_order (orders i) (subnets s)) →
  getSubnet orders s req = Some (k, sn) → subnets s !! k = Some sn.
Proof.
  intros Ho. unfold getSubnet. case_match.
  - generalize 0%nat. induction (default [] (localIpAddresses s !! Request_InterfaceName req))
      as [|ip ips IH]; intros i; cbn [find_local_subnet]; [done|].
    destruct (getSubnetForIp (orders i) s ip) as [[k' sn']|] eqn:E; [|apply IH].
    intros [= <- <-]. by apply find_subnet_Some in E as (_ & ? & _).
  - by intros (_ & ? & _)%find_subnet_Some.
Qed.

Lemma GetResponse_inv tExp tNew orders s req :
  server_inv s → (∀ i, range_order (orders i) (subnets s)) → client_ok (Request_DHCPv4 req) →
  ∃ r s', GetResponse tExp tNew orders s req = Ret (r, s') ∧ server_inv s' ∧
          store_le (leases s) (leases s') ∧ dom (subnets s') = dom (subnets s).
Proof.
  intros Hs Ho Hc. unfold GetResponse.
  destruct (for_other_server s (Request_DHCPv4 req)); [eauto 10 with dhcp|].
  destruct (getSubnet orders s req) as [[k sn]|] eqn:Eg; [|eauto 10 with dhcp].
  apply (getSubnet_Some _ _ _ _ _ Ho) in Eg. destruct (Hs k sn Eg) as [Hk Hi].
  destruct (orb _ _) eqn:Et; [|eauto 10 with dhcp].
  destruct (getResponse_inv tExp tNew (leases s) sn (Request_DHCPv4 req) Hi Hc)
    as (resp & lease & err & h' & sn' & E & Hi' & Hle & (i & c & Hfr) & Hsome).
  rewrite E. cbn [mbind outcome_bind].
  assert (Subnet_Subnet sn' = k) as Hk' by (subst sn'; done).
  assert (dom (<[k := sn']> (subnets s)) = dom (subnets s)) as Hdom
    by (apply dom_insert_lookup_L; eauto).
  pose proof (server_inv_update s k sn' h' Hs Hle Hk' Hi') as Hu.
  destruct err as [e|]; [do 2 eexists; split_and!; eauto|].
  destruct Hsome as [[]|[[resp' ->] [p ->]]]; [|done|].
  { apply orb_true_iff in Et as [?%Z.eqb_eq|?%Z.eqb_eq]; auto. }
  do 2 eexists. split; [done|]. cbn [leases set_leases subnets set_subnets].
  assert (store_le h' (alter (set_ServerId (Subnet_serverIPAddress sn')) p h')) as Hle2 by auto with dhcp.
  split_and!; [|by etrans|done].
  apply (server_inv_update s k sn'); [done|by etrans|done|by eapply subnet_inv_mono].
Qed.
End responses.

(** ** The other operations *)

Lemma find_overlap_None visited sn :
  find_overlap visited sn = None ↔ Forall (λ sn', Subnet_Subnet sn' ≠ Subnet_Subnet sn) visited.
Proof.
  induction visited as [|sn' visited IH]; cbn [find_overlap]; [by split|].
  unfold isOverlap. destruct (String.eqb_spec (Subnet_Subnet sn') (Subnet_Subnet sn)).
  - split; [done|]. intros Hf. by apply Forall_cons_1 in Hf as [Hf _].
  - rewrite IH. split; [by constructor|]. intros Hf. by apply Forall_cons_1 in Hf as [_ Hf].
Qed.

(** A configuration as a caller outside the package can write it, the private
    fields at their zero values, with a range that ends before the last address
    of the address space. *)
Definition cfg_ok (cfg : Subnet) : Prop :=
  (Subnet_currentIP cfg = 0 ∧ Subnet_serverIPAddress cfg = None) ∧ ∀ to, ParseIPv4 (Subnet_RangeTo cfg) = Ok to → to < 2 ^ 32 - 1.

Lemma AddSubnet_inv addrOrder order s cfg e s' :
  server_inv s → cfg_ok cfg → AddSubnet addrOrder order s cfg = (e, s') → server_inv s'.
Proof.
  intros Hs [[Hc _] Hto]. unfold AddSubnet.
  destruct (InitializeSubnet addrOrder cfg (localIpAddresses s)) as [sn|] eqn:Ei; [|by intros [= <- <-]].
  destruct (find_overlap _ sn); intros [= <- <-]; [done|]. rewrite <- set_leases_same.
  apply server_inv_update; [done|reflexivity|done|].
  eapply InitializeSubnet_inv; [done..|].
  apply InitializeSubnet_Ok in Ei as (from & to & ? & ? & ? & _ & Et & _ & _ & _ & _ & -> & _). by apply Hto.
Qed.

Lemma DeleteSubnet_inv s k e s' : server_inv s → DeleteSubnet s k = (e, s') → server_inv s'.
Proof.
  intros Hs. unfold DeleteSubnet. case_match; intros [= <- <-]; [|done].
  intros k' sn' H'. cbn [subnets leases set_subnets] in *.
  apply lookup_delete_Some in H' as [_ H']. by apply Hs.
Qed.

Lemma update_subnet_inv s k sn sn' h :
  server_inv s → subnets s !! k = Some sn → Subnet_Subnet sn' = Subnet_Subnet sn →
  store_le (leases s) h → (subnet_inv (leases s) sn → subnet_inv h sn') →
  server_inv (set_leases h (set_subnets (<[k := sn']> (subnets s)) s)).
Proof.
  intros Hs Hk Hname Hle Hi. destruct (Hs k sn Hk) as [<- Hsn].
  apply server_inv_update; [done|done|congruence|auto].
Qed.

Lemma Server_AddLease_inv s p l e s' :
  server_inv s → leases s !! p = Some l → lease_ok l →
  Server_AddLease s p = (e, s') → server_inv s'.
Proof.
  intros Hs Hl Hok. unfold Server_AddLease. rewrite (deref_Some _ _ _ Hl).
  destruct (subnets s !! Lease_Subnet l) as [sn|] eqn:E; intros [= <- <-]; [|done].
  rewrite <- set_leases_same. eapply update_subnet_inv; [done|done|done|reflexivity|].
  intros Hi. eapply AddLease_inv; eauto.
Qed.

(** Deleting, through either of the two methods, the two keys of one lease. *)
Lemma delete_keys_server_inv order s ip mac k sn :
  server_inv s → getSubnetForIp order s ip = Some (k, sn) →
  contains_char "." mac = false → owns (leases s) sn mac (IP_String ip) →
  server_inv (set_subnets (<[k := set_leaseCache (delete (IP_String ip)
    (delete mac (Subnet_leaseCache sn))) sn]> (subnets s)) s).
Proof.
  intros Hs (_ & Hk & _)%find_subnet_Some Hdot Hown. rewrite <- set_leases_same.
  eapply update_subnet_inv; [done|done|done|reflexivity|]. intros Hi. by apply delete_keys_inv.
Qed.

Lemma Server_AddHost_inv order s host e s' :
  server_inv s → is_v4 (Host_IP host) → contains_char "." (Host_MAC host) = false →
  Server_AddHost order s host = (e, s') → server_inv s'.
Proof.
  intros Hs Hv Hm. unfold Server_AddHost.
  destruct (getSubnetForIp order s (Host_IP host)) as [[k sn]|] eqn:E; [|by intros [= <- <-]].
  apply find_subnet_Some in E as (_ & Hk & _).
  pose proof (AddHost_inv (leases s) sn host) as Ha.
  destruct (AddHost (leases s) sn host) as [h sn'] eqn:Ea. intros [= <- <-].
  destruct (Hs k sn Hk) as [_ Hi]. specialize (Ha Hi Hv Hm) as [Hi' Hle].
  eapply update_subnet_inv; [done|done| |done|done]. by injection Ea as <- <-.
Qed.

(** ** The state machine of the server *)

Section machine.
Context `{D : Dhcpv4}.

Inductive server_step : Server → Server → Prop :=
  | ss_response tExp tNew orders req r s s' :
      (∀ i, range_order (orders i) (subnets s)) → client_ok (Request_DHCPv4 req) →
      GetResponse tExp tNew orders s req = Ret (r, s') → server_step s s'
  | ss_ack p b s :
      server_step s (set_leases (alter (set_AckSent b) p (leases s)) s)
  | ss_add_subnet addrOrder order cfg e s s' :
      cfg_ok cfg → AddSubnet addrOrder order s cfg = (e, s') → server_step s s'
  | ss_delete_subnet k e s s' :
      DeleteSubnet s k = (e, s') → server_step s s'
  | ss_add_lease p l e s s' :
      leases s !! p = Some l → lease_ok l →
      Server_AddLease s p = (e, s') → server_step s s'
  | ss_delete_lease order l e s s' :
      contains_char "." (Lease_MAC l) = false →
      (∀ k sn, subnets s !! k = Some sn → owns (leases s) sn (Lease_MAC l) (ip_key l)) →
      Server_DeleteLease order s l = (e, s') → server_step s s'
  | ss_add_host order host e s s' :
      is_v4 (Host_IP host) → contains_char "." (Host_MAC host) = false →
      Server_AddHost order s host = (e, s') → server_step s s'
  | ss_delete_host order host e s s' :
      contains_char "." (Host_MAC host) = false →
      (∀ k sn, subnets s !! k = Some sn → owns (leases s) sn (Host_MAC host) (IP_String (Host_IP host))) →
      Server_DeleteHost order s host = (e, s') → server_step s s'
  | ss_add_listen factory listen e s s' :
      AddListen factory s listen = (e, s') → server_step s s'
  | ss_delete_listen name e s s' :
      DeleteListen s name = (e, s') → server_step s s'
  | ss_close order s : server_step s (Close order s).

Lemma server_step_inv s s' : server_step s s' → server_inv s → server_inv s'.
Proof.
  intros Hst Hs. destruct Hst as
    [tExp tNew orders req r s s' Ho Hc E|p b s|? ? cfg e s s' Hc E|k e s s' E|p l e s s' Hl Hok E
    |order l e s s' Hne Hk E|order host e s s' Hv Hm E|order host e s s' Hne Hk E
    |factory listen e s s' E|name e s s' E|order s].
  - destruct (GetResponse_inv tExp tNew orders s req Hs Ho Hc) as (r' & s'' & E' & Hs'' & _).
    rewrite E in E'. by injection E' as <- <-.
  - intros k sn H. destruct (Hs k sn H) as [? Hi]. split; [done|].
    eapply subnet_inv_mono, Hi. cbn. auto with dhcp.
  - by eapply AddSubnet_inv.
  - by eapply DeleteSubnet_inv.
  - by eapply Server_AddLease_inv.
  - unfold Server_DeleteLease in E. case_match eqn:Eg; [case_match; subst|]; injection E as <- <-; [|done].
    eapply delete_keys_server_inv; [done..|]. apply find_subnet_Some in Eg as (_ & ? & _). eauto.
  - by eapply Server_AddHost_inv.
  - unfold Server_DeleteHost in E. case_match eqn:Eg; [case_match; subst|]; injection E as <- <-; [|done].
    eapply delete_keys_server_inv; [done..|]. apply find_subnet_Some in Eg as (_ & ? & _). eauto.
  - unfold AddListen in E. by repeat case_match; injection E as <- <-.
  - unfold DeleteListen in E. by repeat case_match; injection E as <- <-.
  - done.
Qed.

Lemma server_reachable_inv s s' : rtc server_step s s' → server_inv s → server_inv s'.
Proof. induction 1 as [|s s1 s2 Hst _ IH]; eauto using server_step_inv. Qed.
End machine.

Lemma NewServer_inv order callback logger local s e :
  NewServer order callback logger local = Ret (Some s, e) → server_inv s ∧ subnets s = ∅.
Proof.
  unfold NewServer. repeat case_match; intros [= <- <-]; (split; [|done]);
    intros k sn H'; cbn [subnets] in H'; by apply lookup_empty_Some in H'.
Qed.
