(* ===== verification/Responses.v ===== *)
(** * What the server answers

    The properties of [GetResponse] and of the operations on the server's maps:
    the content of a response, the requests that are refused, the subnet that
    answers, and what every reachable server guarantees. *)

From S2P Require Import Prelude GoStrings GoNet Errors IPv4 Types Dhcpv4 Subnet.
From S2P Require Import LeaseCache Pool SubnetProps SubnetNet Server ServerProps.
Open Scope string_scope.
Open Scope list_scope.
Open Scope Z_scope.

(** ** The packet that is built *)

Section content.
Context {D : Dhcpv4} {L : Dhcpv4Laws D}.

(** The options the server sets itself, whatever the lease's options say. *)
Definition own_codes : list Z := [1; 3; 6; 43; 51; 53; 54].

Definition own_options (l : Lease) : list (Z * OptionValue) :=
  [(43, VGeneric [49; 50; 51]); (54, VIP (Lease_ServerId l));
   (6, VIPs ((λ dns, To4 (ParseIP dns)) <$> Lease_DNS l)); (3, VIP (Lease_Gateway l));
   (51, VDuration (wrap_i64 (Lease_LeaseTime l * 1000000000)));
   (1, VIPMask (To4 (ParseIP (Lease_NetMask l))))].

Lemma own_codes_53 : 53 ∈ own_codes.
Proof. unfold own_codes. rewrite !elem_of_cons. auto 10. Qed.

Lemma own_codes_sub l c : c ∈ (own_options l).*1 → c ∈ own_codes.
Proof. unfold own_codes. cbn. rewrite !elem_of_cons. intuition. Qed.

Definition add_options (opts : list (Z * OptionValue)) (o : gmap Z (list Z)) : gmap Z (list Z) :=
  foldr (λ cv o, <[cv.1 := ToBytes cv.2]> o) o opts.

Lemma finish_response_eq l p :
  finish_response l p =
    set_Options (add_options (own_options l) (Options p))
      (set_ServerHostName (Lease_ServerHostName l) (set_BootFileName (Lease_BootFileName l) p)).
Proof. unfold finish_response. by rewrite !UpdateOption_set. Qed.

Lemma add_options_other c opts o :
  c ∉ opts.*1 → add_options opts o !! c = o !! c.
Proof.
  induction opts as [|[c' v] opts IH]; [done|]. cbn. intros [? ?]%not_elem_of_cons.
  rewrite lookup_insert_ne by done. by apply IH.
Qed.

Lemma add_options_elem c v opts o :
  NoDup opts.*1 → (c, v) ∈ opts → add_options opts o !! c = Some (ToBytes v).
Proof.
  induction opts as [|[c' v'] opts IH]; intros Hnd Hin; [by apply not_elem_of_nil in Hin|].
  inversion Hnd as [|? ? Hc Hnd']; subst. cbn in *. apply elem_of_cons in Hin as [[= -> ->]|Hin].
  - apply lookup_insert_eq.
  - rewrite lookup_insert_ne; [by apply IH|]. intros ->. apply Hc.
    apply list_elem_of_fmap. by exists (c, v).
Qed.

(** The loop over the lease's options accepts the type "string" only, and
    leaves all other fields alone. *)
Definition option_values (opts : list DOption) : list (Z * OptionValue) :=
  (λ o, (Option_ID o, VString (Option_Value o))) <$> reverse opts.

Lemma apply_options_spec opts p :
  match apply_options opts p with
  | Ok p' => Forall (λ o, Option_Type o = "string") opts ∧
             p' = set_Options (add_options (option_values opts) (Options p)) p
  | Err e => ∃ o, o ∈ opts ∧ Option_Type o ≠ "string" ∧ e = EUnknownOptionType (Option_Type o)
  end.
Proof.
  revert p. induction opts as [|o opts IH]; intros p; cbn [apply_options].
  - split; [done|]. by destruct p.
  - destruct (String.eqb_spec (Option_Type o) "string") as [E|E].
    + specialize (IH (UpdateOption (Option_ID o) (VString (Option_Value o)) p)).
      destruct (apply_options opts _) as [p'|e].
      * destruct IH as [Hf ->]. split; [by constructor|]. rewrite UpdateOption_set.
        unfold option_values, add_options. rewrite reverse_cons, fmap_app, foldr_app. done.
      * destruct IH as (o' & Hin & ? & ?). exists o'. split; [by right|done].
    + exists o. split; [by left|done].
Qed.

Lemma add_options_app os1 os2 o : add_options (os1 ++ os2) o = add_options os1 (add_options os2 o).
Proof. apply foldr_app. Qed.

(** Of several options with the same code the last one counts. *)
Lemma add_options_last pre opt post o :
  Option_ID opt ∉ (Option_ID <$> post) →
  add_options (option_values (pre ++ opt :: post)) o !! Option_ID opt =
    Some (ToBytes (VString (Option_Value opt))).
Proof.
  intros Hlast. unfold option_values.
  rewrite reverse_app, reverse_cons, !fmap_app, !add_options_app, add_options_other.
  - apply lookup_insert_eq.
  - intros Hin. apply Hlast. rewrite <- list_fmap_compose in Hin.
    apply list_elem_of_fmap in Hin as (o' & E & Hin). apply list_elem_of_fmap.
    exists o'. split; [done|]. by rewrite elem_of_reverse in Hin.
Qed.

(** The options of the response's own come out as they were set. *)
Lemma own_options_lookup b l opts o c v :
  (c, v) ∈ own_options l →
  (<[53 := b]> (add_options (own_options l ++ opts) o)) !! c = Some (ToBytes v).
Proof.
  intros Hin. assert (c ≠ 53) by (intros ->; unfold own_options in Hin;
    repeat (apply elem_of_cons in Hin as [[=]|Hin]); by apply not_elem_of_nil in Hin).
  rewrite lookup_insert_ne by done. rewrite add_options_app.
  apply add_options_elem; [|done]. cbn. refine (bool_decide_unpack _ _). vm_compute. exact I.
Qed.

Lemma getResponse_Ok tExp tNew h sn pkt resp p h' sn' :
  getResponse tExp tNew h sn pkt = Ret ((Some resp, Some p, None), h', sn') →
  ∃ h1 reply,
    GetLeaseForRequest tExp tNew h sn pkt = Some (Some p, h1, sn') ∧
    NewReplyFromRequest pkt = (Some reply, None) ∧
    h' = alter (set_ServerId (Subnet_serverIPAddress sn')) p h1 ∧
    Forall (λ o, Option_Type o = "string") (Lease_Options (deref h' p)) ∧
    (MessageType pkt = MessageTypeRequest ∨ MessageType pkt = MessageTypeDiscover) ∧
    resp = set_Options
      (<[53 := ToBytes (VMessageType (if MessageType pkt =? MessageTypeRequest
                                      then MessageTypeAck else MessageTypeOffer))]>
         (add_options (own_options (deref h' p) ++ option_values (Lease_Options (deref h' p)))
            (Options reply)))
      (set_ServerHostName (Lease_ServerHostName (deref h' p))
        (set_BootFileName (Lease_BootFileName (deref h' p))
          (set_ServerIPAddr (Subnet_serverIPAddress sn')
            (set_YourIPAddr (Lease_IP (deref h1 p)) reply)))).
Proof.
  unfold getResponse. destruct (GetLeaseForRequest _ _ _ _ _) as [[[[p'|] h1] sn1]|]; try done.
  destruct (NewReplyFromRequest pkt) as [[reply|] [err|]]; try done.
  set (h2 := alter _ _ _).
  pose proof (apply_options_spec (Lease_Options (deref h2 p'))
    (set_ServerIPAddr (Subnet_serverIPAddress sn1) (set_YourIPAddr (Lease_IP (deref h1 p')) reply))) as Ha.
  destruct (apply_options _ _) as [r|e]; [|done]. destruct Ha as [Hall ->].
  rewrite finish_response_eq, !UpdateOption_set. intros E.
  destruct (Z.eqb_spec (MessageType pkt) MessageTypeRequest);
    [|destruct (Z.eqb_spec (MessageType pkt) MessageTypeDiscover); [|done]];
    injection E as <- <- <- <-; exists h1, reply;
    (split_and!; [done|done|done|done|by auto|]);
    unfold add_options; by rewrite foldr_app.
Qed.

(** The type of the response that is built. *)
Lemma getResponse_type tExp tNew h sn pkt resp p h' sn' :
  getResponse tExp tNew h sn pkt = Ret ((Some resp, Some p, None), h', sn') →
  MessageType pkt = MessageTypeRequest ∧ MessageType resp = MessageTypeAck ∨
  MessageType pkt = MessageTypeDiscover ∧ MessageType resp = MessageTypeOffer.
Proof.
  intros (h1 & reply & _ & _ & _ & _ & Ht & ->)%getResponse_Ok.
  destruct Ht as [Ht|Ht]; rewrite Ht; [left|right]; (split; [done|]);
    (apply MessageType_option; [repeat constructor|]); cbn [Options set_Options]; apply lookup_insert_eq.
Qed.

(** A discover or a request on a lease whose options are all strings is answered. *)
Lemma getResponse_ack tExp tNew h sn pkt p h1 sn1 reply :
  GetLeaseForRequest tExp tNew h sn pkt = Some (Some p, h1, sn1) →
  NewReplyFromRequest pkt = (Some reply, None) →
  Forall (λ o, Option_Type o = "string")
    (Lease_Options (deref (alter (set_ServerId (Subnet_serverIPAddress sn1)) p h1) p)) →
  MessageType pkt = MessageTypeRequest ∨ MessageType pkt = MessageTypeDiscover →
  ∃ resp, getResponse tExp tNew h sn pkt =
    Ret ((Some resp, Some p, None), alter (set_ServerId (Subnet_serverIPAddress sn1)) p h1, sn1).
Proof.
  intros E Er Hopts Ht. unfold getResponse. rewrite E, Er.
  match goal with |- context [apply_options ?os ?q] => pose proof (apply_options_spec os q) as Ha end.
  destruct (apply_options _ _) as [r|e].
  - destruct Ht as [-> | ->]; cbn; eauto.
  - destruct Ha as (o & Ho & Hne & _). rewrite Forall_forall in Hopts.
    destruct Hne. apply Hopts. by apply list_elem_of_In.
Qed.
End content.

(** ** The server's answer *)

Section answer.
Context {D : Dhcpv4}.

(** A successful [GetResponse], step by step. *)
Lemma GetResponse_Ok tExp tNew orders s req rsp s' :
  GetResponse tExp tNew orders s req = Ret (Ok rsp, s') →
  ∃ k sn resp h' sn',
    for_other_server s (Request_DHCPv4 req) = false ∧
    getSubnet orders s req = Some (k, sn) ∧
    getResponse tExp tNew (leases s) sn (Request_DHCPv4 req) =
      Ret ((Some resp, Some (Response_Lease rsp), None), h', sn') ∧
    Response_Response rsp = resp ∧ Response_Request rsp = req ∧
    leases s' = alter (set_ServerId (Subnet_serverIPAddress sn')) (Response_Lease rsp) h' ∧
    subnets s' = <[k := sn']> (subnets s).
Proof.
  unfold GetResponse. destruct (for_other_server _ _); [done|].
  destruct (getSubnet orders s req) as [[k sn]|] eqn:Eg; [|done].
  destruct (orb _ _); [|done].
  destruct (getResponse _ _ _ _ _) as [[[[[resp lease] err] h'] sn']| |] eqn:E; try done.
  cbn [mbind outcome_bind]. destruct err, lease as [p|], resp as [resp|]; try done.
  intros [= <- <-]. by exists k, sn, resp, h', sn'.
Qed.

Lemma alter_ServerId_twice (h : lease_store) p ip :
  alter (set_ServerId ip) p (alter (set_ServerId ip) p h) = alter (set_ServerId ip) p h.
Proof.
  apply list_eq. intros i. destruct (decide (p = i)) as [->|].
  - rewrite !list_lookup_alter_eq. by destruct (h !! i).
  - by rewrite !list_lookup_alter_ne.
Qed.

Lemma deref_alter f (h : lease_store) p l : h !! p = Some l → deref (alter f p h) p = f l.
Proof. intros H. apply deref_Some. by rewrite list_lookup_alter_eq, H. Qed.

(** The server's state after a successful answer: the lease given out, with
    its server identifier written. *)
Lemma GetResponse_lease tExp tNew orders s req rsp s' :
  server_inv s → (∀ i, range_order (orders i) (subnets s)) →
  GetResponse tExp tNew orders s req = Ret (Ok rsp, s') →
  ∃ k sn sn' h1 l,
    subnets s !! k = Some sn ∧ getSubnet orders s req = Some (k, sn) ∧
    GetLeaseForRequest tExp tNew (leases s) sn (Request_DHCPv4 req) =
      Some (Some (Response_Lease rsp), h1, sn') ∧
    h1 !! Response_Lease rsp = Some l ∧
    getResponse tExp tNew (leases s) sn (Request_DHCPv4 req) =
      Ret ((Some (Response_Response rsp), Some (Response_Lease rsp), None), leases s', sn') ∧
    leases s' = alter (set_ServerId (Subnet_serverIPAddress sn')) (Response_Lease rsp) h1 ∧
    subnets s' = <[k := sn']> (subnets s).
Proof.
  intros Hs Ho (k & sn & resp & h' & sn' & _ & Eg & E & Er & _ & El & Es)%GetResponse_Ok.
  pose proof (getSubnet_Some _ _ _ _ _ Ho Eg) as Hk. destruct (Hs k sn Hk) as [_ Hi].
  assert (∃ h1, GetLeaseForRequest tExp tNew (leases s) sn (Request_DHCPv4 req) =
            Some (Some (Response_Lease rsp), h1, sn') ∧
          h' = alter (set_ServerId (Subnet_serverIPAddress sn')) (Response_Lease rsp) h1) as (h1 & E1 & ->).
  { unfold getResponse in E. destruct (GetLeaseForRequest _ _ _ _ _) as [[[[p'|] h1] sn1]|]; try done.
    repeat case_match; try done; injection E as ? ? <- <-; subst; eauto. }
  rewrite alter_ServerId_twice in El. subst resp.
  destruct (GetLeaseForRequest_valid _ _ _ _ _ _ _ _ Hi E1) as [l Hl].
  exists k, sn, sn', h1, l. by rewrite El.
Qed.
End answer.

(** C16: a response that [GetResponse] returns is an ack for a request and an
    offer for a discover; it carries the address, the boot file and the server
    name of the lease, and as options the lease's mask, lease time, gateway and
    name servers, with the subnet's server address as server identifier, also
    written to the lease; and it answers the client and the transaction of the
    request.  An option of the lease with another code is carried with its last
    value. *)
Theorem GetResponse_content (D : Dhcpv4) (L : Dhcpv4Laws D) tExp tNew orders s req rsp s' :
  server_inv s → (∀ i, range_order (orders i) (subnets s)) →
  GetResponse tExp tNew orders s req = Ret (Ok rsp, s') →
  let pkt := Request_DHCPv4 req in
  let resp := Response_Response rsp in
  let l := deref (leases s') (Response_Lease rsp) in
  (MessageType pkt = MessageTypeRequest ∧ MessageType resp = MessageTypeAck ∨
   MessageType pkt = MessageTypeDiscover ∧ MessageType resp = MessageTypeOffer) ∧
  YourIPAddr resp = Lease_IP l ∧ ServerIPAddr resp = Lease_ServerId l ∧
  BootFileName resp = Lease_BootFileName l ∧ ServerHostName resp = Lease_ServerHostName l ∧
  ClientHWAddr resp = ClientHWAddr pkt ∧ TransactionID resp = TransactionID pkt ∧
  (∀ c v, (c, v) ∈ own_options l → Options resp !! c = Some (ToBytes v)) ∧
  (∀ pre o post, Lease_Options l = pre ++ o :: post →
     Option_ID o ∉ own_codes → Option_ID o ∉ (Option_ID <$> post) →
     Options resp !! Option_ID o = Some (ToBytes (VString (Option_Value o)))).
Proof.
  intros Hs Ho HG pkt resp l.
  destruct (GetResponse_lease _ _ _ _ _ _ _ Hs Ho HG) as (k & sn & sn' & h1 & l1 & _ & _ & E1 & Hl1 & E & El & _).
  pose proof (getResponse_type _ _ _ _ _ _ _ _ _ E) as Htype.
  destruct (getResponse_Ok _ _ _ _ _ _ _ _ _ E) as (h1' & reply & E1' & Er & _ & _ & Ht & Hresp).
  rewrite E1 in E1'. injection E1' as <-.
  destruct (NewReply_fields _ _ Er) as (_ & Htid & Hhw & _).
  assert (l = set_ServerId (Subnet_serverIPAddress sn') l1) as Hl
    by (subst l; rewrite El; by apply deref_alter).
  assert (deref h1 (Response_Lease rsp) = l1) as Hd by by apply deref_Some.
  fold l in Hresp. rewrite Hd in Hresp. fold pkt in Hresp, Ht, Hhw, Htid. fold resp in Hresp.
  fold pkt resp in Htype. clearbody l resp pkt.
  split_and!; try (subst resp l; done).
  - intros c v Hin. subst resp. by apply own_options_lookup.
  - intros pre o post Hopts Hown Hlast. subst resp. cbn [Options set_Options].
    rewrite lookup_insert_ne by (intros E53; apply Hown; rewrite <- E53; apply own_codes_53).
    rewrite add_options_app, add_options_other by (intros Hin; apply Hown; revert Hin; apply own_codes_sub).
    rewrite Hopts. by apply add_options_last.
Qed.

(** ** The server of [server_test.go] *)

Definition test_local : LocalIPAddresses :=
  {["br0" := [ParseIP "10.1.1.1"; ParseIP "10.2.1.1"]; "br1" := [ParseIP "10.3.1.1"]]}.

Definition test_cfg (subnet from to gateway : string) : Subnet := {|
  Subnet_Subnet := subnet; Subnet_RangeFrom := from; Subnet_RangeTo := to;
  Subnet_Gateway := gateway; Subnet_DNS := ["1.1.1.1"; "2.2.2.2"]; Subnet_Options := [];
  Subnet_LeaseTime := 3600; Subnet_ServerHostName := ""; Subnet_BootFileName := "";
  Subnet_iPFrom := 0; Subnet_iPTo := 0; Subnet_ipNet := {| IPNet_IP := None; IPNet_Mask := None |};
  Subnet_currentIP := 0; Subnet_leaseCache := ∅; Subnet_netMask := "";
  Subnet_serverIPAddress := None |}.

Definition test_sn1 : Subnet :=
  test_cfg "192.168.10.0/24" "192.168.10.100" "192.168.10.200" "192.168.10.1".
Definition test_sn2 : Subnet := test_cfg "10.3.1.0/24" "10.3.1.10" "10.3.1.13" "10.3.1.254".

Definition ifaces : list string := ["br0"; "br1"].
Definition keys12 : list string := ["192.168.10.0/24"; "10.3.1.0/24"].

Definition empty_server : Server := {|
  listeners := ∅; subnets := ∅; localIpAddresses := test_local;
  serverIds := server_ids ifaces test_local; leases := []; closed := [] |}.

Definition test_server1 : Server := (AddSubnet ifaces [] empty_server test_sn1).2.
Definition test_server : Server := (AddSubnet ifaces ["192.168.10.0/24"] test_server1 test_sn2).2.

Definition test_request (pkt : DHCPv4) (ifname : string) : Request := {|
  Request_DHCPv4 := pkt; Request_Src := ""; Request_InterfaceName := ifname;
  Request_Dst := None; Request_socket := 0%nat |}.

Definition test_mac : HardwareAddr := [1; 2; 3; 4; 5; 6].
Definition test_discover : Request :=
  test_request (client_packet MessageTypeDiscover test_mac None) "br1".

Definition test_now : Time := 63800000000 * 1000000000.

(** [TestNewServer]: the discover that arrives on br1 is offered 10.3.1.10. *)
Example server_test :
  match GetResponse (D := rfc_lib) test_now test_now (λ _, keys12) test_server test_discover with
  | Ret (Ok rsp, _) => IP_String (YourIPAddr (Response_Response rsp)) = "10.3.1.10" ∧
                       MessageType (Dhcpv4 := rfc_lib) (Response_Response rsp) = MessageTypeOffer
  | _ => False
  end.
Proof. vm_compute. split; reflexivity. Qed.

Lemma cfg_ok_intro cfg to :
  Subnet_currentIP cfg = 0 ∧ Subnet_serverIPAddress cfg = None →
  ParseIPv4 (Subnet_RangeTo cfg) = Ok to → to < 2 ^ 32 - 1 → cfg_ok cfg.
Proof. intros Hc E Hto. split; [done|]. intros to' E'. congruence. Qed.

Lemma empty_server_inv : server_inv empty_server.
Proof. intros k sn H'. cbn [subnets empty_server] in H'. by apply lookup_empty_Some in H'. Qed.

Lemma test_sn1_ok : cfg_ok test_sn1.
Proof. apply (cfg_ok_intro _ 3232238280); [done|vm_compute; reflexivity|lia]. Qed.

Lemma test_sn2_ok : cfg_ok test_sn2.
Proof. apply (cfg_ok_intro _ 167969037); [done|vm_compute; reflexivity|lia]. Qed.

Lemma test_server1_inv : server_inv test_server1.
Proof. by eapply (AddSubnet_inv ifaces [] empty_server test_sn1);
  [apply empty_server_inv|apply test_sn1_ok|apply surjective_pairing]. Qed.

Lemma test_server_inv : server_inv test_server.
Proof. by eapply (AddSubnet_inv ifaces ["192.168.10.0/24"] test_server1 test_sn2);
  [apply test_server1_inv|apply test_sn2_ok|apply surjective_pairing]. Qed.

Lemma test_server_range : range_order keys12 (subnets test_server).
Proof. unfold range_order. replace (map_to_list (subnets test_server)).*1 with keys12; [reflexivity|]. vm_compute. reflexivity. Qed.

Lemma test_server_orders : ∀ i : nat, range_order ((λ _, keys12) i) (subnets test_server).
Proof. intros i. apply test_server_range. Qed.

Lemma GetResponse_content_witness :
  ∃ rsp s', GetResponse (D := rfc_lib) test_now test_now (λ _, keys12) test_server test_discover
              = Ret (Ok rsp, s') ∧
    MessageType (Dhcpv4 := rfc_lib) (Response_Response rsp) = MessageTypeOffer ∧
    YourIPAddr (Response_Response rsp) = Lease_IP (deref (leases s') (Response_Lease rsp)) ∧
    ClientHWAddr (Response_Response rsp) = test_mac.
Proof.
  assert (∃ rsp s', GetResponse (D := rfc_lib) test_now test_now (λ _, keys12) test_server test_discover
              = Ret (Ok rsp, s')) as (rsp & s' & E) by (do 2 eexists; vm_compute; reflexivity).
  exists rsp, s'. split; [exact E|].
  destruct (GetResponse_content rfc_lib rfc_lib_laws _ _ _ _ _ _ _ test_server_inv test_server_orders E)
    as ([[Ht _]|[_ Ht]] & Hip & _ & _ & _ & Hhw & _).
  - vm_compute in Ht. discriminate Ht.
  - split; [exact Ht|]. split; [exact Hip|exact Hhw].
Defined.
