(* ===== verification/ServerGuarantees.v ===== *)
(** * What the server guarantees

    The choice of the subnet, the requests that are answered, the discover and
    request exchange from end to end, and what holds in every reachable state of
    the server; with the cases that overlapping subnets allow. *)

From S2P Require Import Prelude GoStrings GoNet Errors IPv4 Types Dhcpv4 Subnet.
From S2P Require Import LeaseCache Pool SubnetProps SubnetNet Server ServerProps.
From S2P Require Import Responses.
Open Scope string_scope.
Open Scope list_scope.
Open Scope Z_scope.

(** ** The choice of the subnet *)

(** The addresses a request is looked up by: its relay, or the addresses of the
    interface it came in on. *)
Definition lookup_addresses (s : Server) (req : Request) : list net_IP :=
  let gw := GatewayIPAddr (Request_DHCPv4 req) in
  if bool_decide (gw = None) || IP_Equal gw IPv4zero
  then default [] (localIpAddresses s !! Request_InterfaceName req) else [gw].

(** No address is in two subnets. *)
Definition disjoint_subnets (m : gmap string Subnet) : Prop :=
  ∀ ip k1 k2 sn1 sn2, m !! k1 = Some sn1 → m !! k2 = Some sn2 →
    Contains sn1 ip = true → Contains sn2 ip = true → k1 = k2.

(** The search by a list of addresses, the first that is in some subnet. *)
Inductive first_match (m : gmap string Subnet) : list net_IP → option (string * Subnet) → Prop :=
  | fm_none : first_match m [] None
  | fm_here ip ips k sn : m !! k = Some sn → Contains sn ip = true →
      first_match m (ip :: ips) (Some (k, sn))
  | fm_next ip ips r : (∀ k sn, m !! k = Some sn → Contains sn ip = false) →
      first_match m ips r → first_match m (ip :: ips) r.

Lemma find_local_subnet_match orders i s ips :
  (∀ i, range_order (orders i) (subnets s)) →
  first_match (subnets s) ips (find_local_subnet orders i s ips).
Proof.
  intros Ho. revert i. induction ips as [|ip ips IH]; intros i; cbn [find_local_subnet]; [constructor|].
  pose proof (getSubnetForIp_spec (orders i) s ip (Ho i)) as Hg.
  destruct (getSubnetForIp (orders i) s ip) as [[k sn]|].
  - destruct Hg. by apply fm_here.
  - by apply fm_next.
Qed.

Lemma getSubnet_match orders s req :
  (∀ i, range_order (orders i) (subnets s)) →
  first_match (subnets s) (lookup_addresses s req) (getSubnet orders s req).
Proof.
  intros Ho. unfold getSubnet, lookup_addresses. case_match; [by apply find_local_subnet_match|].
  pose proof (find_local_subnet_match orders 0 s [GatewayIPAddr (Request_DHCPv4 req)] Ho) as Hm.
  cbn [find_local_subnet] in Hm. by destruct (getSubnetForIp _ _ _).
Qed.

(** With disjoint subnets the search has one result. *)
Lemma first_match_unique m ips r1 r2 :
  disjoint_subnets m → first_match m ips r1 → first_match m ips r2 → r1 = r2.
Proof.
  intros Hd H1. revert r2. induction H1 as [|ip ips k sn Hk Hc|ip ips r Hnone Hr IH];
    intros r2 H2; inversion H2 as [|? ? k2 sn2 Hk2 Hc2|? ? ? Hnone2 Hr2]; subst; auto.
  - pose proof (Hd ip k k2 sn sn2 Hk Hk2 Hc Hc2) as ->. congruence.
  - rewrite (Hnone2 k sn Hk) in Hc. done.
  - rewrite (Hnone k2 sn2 Hk2) in Hc2. done.
Qed.

(** Replacing a subnet by a later state of itself. *)
Lemma Contains_frame sn sn' ip : subnet_frame sn sn' → Contains sn' ip = Contains sn ip.
Proof. by intros (i & c & ->). Qed.

Lemma lookup_frame m k sn sn' k' x :
  m !! k = Some sn → subnet_frame sn sn' → (<[k := sn']> m : gmap string Subnet) !! k' = Some x →
  ∃ y, m !! k' = Some y ∧ subnet_frame y x.
Proof.
  intros Hk Hf. rewrite lookup_insert. case_decide; intros; simplify_eq; [eauto|].
  exists x. split; [done|apply subnet_frame_refl].
Qed.

Lemma disjoint_frame m k sn sn' :
  m !! k = Some sn → subnet_frame sn sn' → disjoint_subnets m → disjoint_subnets (<[k := sn']> m).
Proof.
  intros Hk Hf Hd ip k1 k2 x1 x2 H1 H2 C1 C2.
  destruct (lookup_frame _ _ _ _ _ _ Hk Hf H1) as (y1 & ? & Hf1).
  destruct (lookup_frame _ _ _ _ _ _ Hk Hf H2) as (y2 & ? & Hf2).
  rewrite (Contains_frame _ _ _ Hf1) in C1. rewrite (Contains_frame _ _ _ Hf2) in C2. by eapply Hd.
Qed.

Lemma first_match_frame m k sn sn' ips :
  m !! k = Some sn → subnet_frame sn sn' →
  first_match m ips (Some (k, sn)) → first_match (<[k := sn']> m) ips (Some (k, sn')).
Proof.
  intros Hk Hf. remember (Some (k, sn)) as r eqn:Er. induction 1 as [|ip ips k1 sn1 H1 Hc|ip ips r Hnone Hr IH].
  - done.
  - simplify_eq. apply fm_here; [apply lookup_insert_eq|]. by rewrite (Contains_frame _ _ _ Hf).
  - apply fm_next; [|auto]. intros k' x Hx.
    destruct (lookup_frame _ _ _ _ _ _ Hk Hf Hx) as (y & Hy & Hfy).
    rewrite (Contains_frame _ _ _ Hfy). by eapply Hnone.
Qed.

(** C20: the subnet that answers a request.  A relayed request is answered from
    a subnet that contains the relay's address; a broadcast from a subnet that
    contains the first address of the interface that is in any subnet; and there
    is no answer only if no subnet contains any of them.  If no address is in
    two subnets the answer does not depend on the iteration order. *)
Theorem getSubnet_correct orders orders' s req :
  (∀ i, range_order (orders i) (subnets s)) → (∀ i, range_order (orders' i) (subnets s)) →
  first_match (subnets s) (lookup_addresses s req) (getSubnet orders s req) ∧
  (disjoint_subnets (subnets s) → getSubnet orders' s req = getSubnet orders s req).
Proof.
  intros Ho Ho'. split; [by apply getSubnet_match|].
  intros Hd. eapply first_match_unique; [done|by apply getSubnet_match..].
Qed.

Lemma getSubnet_correct_witness :
  first_match (subnets test_server) (lookup_addresses test_server test_discover)
    (getSubnet (λ _, keys12) test_server test_discover) ∧
  (disjoint_subnets (subnets test_server) →
   getSubnet (λ _, (map_to_list (subnets test_server)).*1) test_server test_discover =
   getSubnet (λ _, keys12) test_server test_discover).
Proof. apply getSubnet_correct; [apply test_server_orders|intros i; apply range_order_self]. Defined.

(** ** What [GetResponse] leaves alone *)

Definition same_config (s s' : Server) : Prop :=
  localIpAddresses s' = localIpAddresses s ∧ serverIds s' = serverIds s ∧
  listeners s' = listeners s ∧ closed s' = closed s.

Lemma GetResponse_config `{D : Dhcpv4} tExp tNew orders s req r s' :
  GetResponse tExp tNew orders s req = Ret (r, s') → same_config s s'.
Proof.
  unfold GetResponse. destruct (for_other_server _ _); [by intros [= <- <-]|].
  destruct (getSubnet orders s req) as [[k sn]|]; [|by intros [= <- <-]].
  destruct (orb _ _); [|by intros [= <- <-]].
  destruct (getResponse _ _ _ _ _) as [[[[[resp lease] err] h'] sn']| |]; try done.
  cbn [mbind outcome_bind]. repeat case_match; by intros [= <- <-].
Qed.

(** ** Discover, then request *)

(** A client that is handed a lease it had, or a new one, without asking for an
    address, has it in the cache afterwards. *)
Lemma own_lease_recorded `{D : Dhcpv4} tExp tNew h sn pkt p h' sn' :
  subnet_inv h sn → isAddressZero (RequestedIPAddress pkt) = true →
  GetLeaseForRequest tExp tNew h sn pkt = Some (Some p, h', sn') →
  Subnet_leaseCache sn !! client_key pkt = Some p ∨ p = length h →
  Subnet_leaseCache sn' !! client_key pkt = Some p.
Proof.
  intros [Hp Hc] Hz HG Hown. destruct (Subnet_leaseCache sn !! client_key pkt) as [q|] eqn:Hm.
  - rewrite (request_known _ _ _ _ _ _ Hm), Hz in HG. simpl in HG. by simplify_eq.
  - destruct Hown as [|Hfresh]; [done|].
    destruct (request_pool_grants tExp tNew h sn pkt Hp Hm Hz) as (r & E & Hg).
    rewrite E in HG. injection HG as ->. inversion Hg as [pre i post Hwalk Hpre Hi|i q Ht Hi Hq| ]; subst.
    + unfold AddLease. cbn [Subnet_leaseCache set_leaseCache].
      rewrite (cache_add_spec _ _ _ _ _ (lookup_new _ _)). by rewrite decide_True.
    + destruct (cache_ok_lease _ _ _ _ Hc Hq) as [Hl _]. apply lookup_lt_Some in Hl. lia.
Qed.

Section dora.
Context (D : Dhcpv4) (L : Dhcpv4Laws D).

(** A known client that asks for nothing, or for the address of its lease,
    is acknowledged, and the server's state stays as it is if the server
    identifier was already written to the lease. *)
Lemma request_acked t3 t4 orders s k sn req p l reply :
  getSubnet orders s req = Some (k, sn) → subnets s !! k = Some sn →
  for_other_server s (Request_DHCPv4 req) = false →
  Subnet_leaseCache sn !! client_key (Request_DHCPv4 req) = Some p →
  leases s !! p = Some l → Lease_ServerId l = Subnet_serverIPAddress sn →
  Forall (λ o, Option_Type o = "string") (Lease_Options l) →
  isAddressZero (RequestedIPAddress (Request_DHCPv4 req)) ||
    IP_Equal (RequestedIPAddress (Request_DHCPv4 req)) (Lease_IP l) = true →
  MessageType (Request_DHCPv4 req) = MessageTypeRequest →
  NewReplyFromRequest (Request_DHCPv4 req) = (Some reply, None) →
  ∃ rsp, GetResponse t3 t4 orders s req = Ret (Ok rsp, s) ∧ Response_Lease rsp = p ∧
         MessageType (Response_Response rsp) = MessageTypeAck ∧
         YourIPAddr (Response_Response rsp) = Lease_IP l.
Proof.
  intros Eg Hk Hid Hp Hl Hsid Hopts Hw Ht Er. set (pkt := Request_DHCPv4 req) in *.
  assert (GetLeaseForRequest t3 t4 (leases s) sn pkt = Some (Some p, leases s, sn)) as E.
  { by rewrite (request_known _ _ _ _ _ _ Hp), (deref_Some _ _ _ Hl), Hw. }
  assert (alter (set_ServerId (Subnet_serverIPAddress sn)) p (leases s) = leases s) as Halt.
  { etrans; [apply (list_alter_ext _ id); [|reflexivity]|by apply list_alter_id]. intros x Hx. rewrite Hl in Hx. injection Hx as <-. rewrite <- Hsid. by destruct l. }
  destruct (getResponse_ack t3 t4 (leases s) sn pkt p (leases s) sn reply E Er) as [resp Eresp];
    [by rewrite Halt, (deref_Some _ _ _ Hl)|by left|].
  rewrite Halt in Eresp.
  unfold GetResponse. fold pkt. rewrite Hid, Eg, Ht.
  change ((_ =? _) || (_ =? _)) with true. cbv iota. rewrite Eresp.
  cbn [mbind outcome_bind leases set_leases set_subnets].
  rewrite Halt. exists {| Response_Request := req; Response_Response := resp; Response_Lease := p |}.
  split_and!; [|done|cbn [Response_Response]..].
  - f_equal. f_equal. unfold set_leases, set_subnets. cbn. rewrite insert_id by done. by destruct s.
  - destruct (getResponse_type _ _ _ _ _ _ _ _ _ Eresp) as [[_ Ha]|[Hb _]]; [done|].
    rewrite Ht in Hb. discriminate Hb.
  - destruct (getResponse_Ok _ _ _ _ _ _ _ _ _ Eresp) as (h1 & r & E' & _ & _ & _ & _ & ->).
    rewrite E in E'. injection E' as <-. by rewrite (deref_Some _ _ _ Hl).
Qed.

(** The subnet that answered is found again. *)
Lemma getSubnet_again orders orders' s s1 k sn sn' req1 req2 :
  (∀ i, range_order (orders i) (subnets s)) → (∀ i, range_order (orders' i) (subnets s1)) →
  disjoint_subnets (subnets s) → same_config s s1 → subnets s1 = <[k := sn']> (subnets s) →
  subnet_frame sn sn' → subnets s !! k = Some sn →
  GatewayIPAddr (Request_DHCPv4 req2) = GatewayIPAddr (Request_DHCPv4 req1) →
  Request_InterfaceName req2 = Request_InterfaceName req1 →
  getSubnet orders s req1 = Some (k, sn) → getSubnet orders' s1 req2 = Some (k, sn').
Proof.
  intros Ho Ho' Hd (Hloc & _) Es Hf Hk Hgw Hif Eg.
  assert (lookup_addresses s1 req2 = lookup_addresses s req1) as Ea
    by (unfold lookup_addresses; by rewrite Hgw, Hif, Hloc).
  pose proof (getSubnet_match _ _ req1 Ho) as M1. pose proof (getSubnet_match _ _ req2 Ho') as M2.
  rewrite Eg in M1. rewrite Ea in M2. apply (first_match_frame _ _ _ sn') in M1; [|done..].
  rewrite Es in M2. eapply first_match_unique, M1; [|exact M2]. by eapply disjoint_frame.
Qed.
End dora.

(** C8: the exchange of a client with a server whose subnets have no address in
    common (the code also accepts nested networks, of which this says nothing), in
    whatever orders the maps are visited.  When a discover (or any
    request without a wished address) was answered with the lease that the client
    had, or with a new one, then a request that follows, from the same place, for the address
    it was offered or for none, with no server identifier or with one of the server's own
    (not one of another server), and to which the packet library makes a reply, is acknowledged with
    the same lease and the same address, and the server's state does not change. *)
Theorem discover_request_ack (D : Dhcpv4) (L : Dhcpv4Laws D) t1 t2 t3 t4 orders orders' s s1 req1 rsp1 req2 reply :
  let pkt1 := Request_DHCPv4 req1 in
  let pkt2 := Request_DHCPv4 req2 in
  server_inv s → disjoint_subnets (subnets s) →
  (∀ i, range_order (orders i) (subnets s)) → (∀ i, range_order (orders' i) (subnets s1)) →
  isAddressZero (RequestedIPAddress pkt1) = true →
  GetResponse t1 t2 orders s req1 = Ret (Ok rsp1, s1) →
  (∀ k sn, getSubnet orders s req1 = Some (k, sn) →
     Subnet_leaseCache sn !! client_key pkt1 = Some (Response_Lease rsp1) ∨
     Response_Lease rsp1 = length (leases s)) →
  ClientHWAddr pkt2 = ClientHWAddr pkt1 → GatewayIPAddr pkt2 = GatewayIPAddr pkt1 →
  Request_InterfaceName req2 = Request_InterfaceName req1 →
  MessageType pkt2 = MessageTypeRequest → for_other_server s1 pkt2 = false →
  isAddressZero (RequestedIPAddress pkt2) ||
    IP_Equal (RequestedIPAddress pkt2) (YourIPAddr (Response_Response rsp1)) = true →
  NewReplyFromRequest pkt2 = (Some reply, None) →
  ∃ rsp2, GetResponse t3 t4 orders' s1 req2 = Ret (Ok rsp2, s1) ∧
          MessageType (Response_Response rsp2) = MessageTypeAck ∧
          Response_Lease rsp2 = Response_Lease rsp1 ∧
          YourIPAddr (Response_Response rsp2) = YourIPAddr (Response_Response rsp1).
Proof.
  intros pkt1 pkt2 Hs Hd Ho Ho' Hz HG Hown Hhw Hgw Hif Ht Hid Hw Hreply.
  pose proof (GetResponse_config _ _ _ _ _ _ _ HG) as Hcfg.
  destruct (GetResponse_lease _ _ _ _ _ _ _ Hs Ho HG) as (k & sn & sn' & h1 & l & Hk & Eg & E1 & Hl & E & El & Es).
  destruct (getResponse_Ok _ _ _ _ _ _ _ _ _ E) as (h1' & r & E1' & _ & _ & Hopts & _ & Hresp).
  rewrite E1 in E1'. injection E1' as <-.
  destruct (Hs k sn Hk) as [_ Hi].
  pose proof (GetLeaseForRequest_frame _ _ _ _ _ _ _ _ (proj1 Hi) E1) as Hf.
  assert (leases s1 !! Response_Lease rsp1 = Some (set_ServerId (Subnet_serverIPAddress sn') l)) as Hl1
    by (rewrite El, list_lookup_alter_eq, Hl; done).
  rewrite (deref_Some _ _ _ Hl1) in Hopts.
  assert (YourIPAddr (Response_Response rsp1) = Lease_IP l) as Hip
    by (rewrite Hresp, (deref_Some _ _ _ Hl); done).
  pose proof (own_lease_recorded _ _ _ _ _ _ _ _ Hi Hz E1 (Hown k sn Eg)) as Hrec.
  assert (getSubnet orders' s1 req2 = Some (k, sn')) as Eg2
    by (by eapply (getSubnet_again orders orders' s s1)).
  destruct (request_acked D L t3 t4 orders' s1 k sn' req2 (Response_Lease rsp1)
      (set_ServerId (Subnet_serverIPAddress sn') l) reply Eg2)
    as (rsp2 & HG2 & Hp & Hty & Hip2); try done.
  - by rewrite Es, lookup_insert_eq.
  - fold pkt2. by rewrite Hhw.
  - fold pkt2. by rewrite Hip in Hw.
  - exists rsp2. rewrite Hip2, Hip, Hp. done.
Qed.

(** The server of the source's test after the discover, with its response. *)
Definition answer_state (o : outcome (result error Response * Server)) : Server :=
  match o with Ret (_, s) => s | _ => empty_server end.
Definition answer_response (o : outcome (result error Response * Server)) : option Response :=
  match o with Ret (Ok r, _) => Some r | _ => None end.

Definition test_offer : outcome (result error Response * Server) :=
  GetResponse (D := rfc_lib) test_now test_now (λ _, keys12) test_server test_discover.

(** The client asks for the address it was offered, naming the server. *)
Definition test_ack_request : Request :=
  test_request (set_Options (<[54 := [10; 3; 1; 1]]> (Options
    (client_packet MessageTypeRequest test_mac (Some [10; 3; 1; 10]))))
    (client_packet MessageTypeRequest test_mac (Some [10; 3; 1; 10]))) "br1".

(** A network whose first mask byte is full fixes the first byte. *)
Lemma Contains_first_byte n x nn m ip :
  networkNumberAndMask n = (x :: nn, 255 :: m) → IPNet_Contains n ip = true →
  ∃ y ys, bytes_of (match To4 ip with Some b => Some b | None => ip end) = y :: ys ∧
          Z.land x 255 = Z.land y 255.
Proof.
  intros E. unfold IPNet_Contains. rewrite E.
  destruct (bytes_of _) as [|y ys]; [done|]. case_match; [done|]. cbn [masked_equal].
  intros [?%Z.eqb_eq _]%andb_true_iff. eauto.
Qed.

Lemma disjoint_first_byte sn1 sn2 x1 nn1 m1 x2 nn2 m2 ip :
  networkNumberAndMask (Subnet_ipNet sn1) = (x1 :: nn1, 255 :: m1) →
  networkNumberAndMask (Subnet_ipNet sn2) = (x2 :: nn2, 255 :: m2) →
  Z.land x1 255 ≠ Z.land x2 255 → Contains sn1 ip = true → Contains sn2 ip = true → False.
Proof.
  intros E1 E2 Hne C1 C2.
  destruct (Contains_first_byte _ _ _ _ _ E1 C1) as (y1 & ys1 & Ey1 & L1).
  destruct (Contains_first_byte _ _ _ _ _ E2 C2) as (y2 & ys2 & Ey2 & L2). congruence.
Qed.

Lemma test_server_subnets :
  ∃ a b, subnets test_server = <["10.3.1.0/24" := a]> {["192.168.10.0/24" := b]} ∧
    Subnet_ipNet a = {| IPNet_IP := ParseIP "10.3.1.0"; IPNet_Mask := CIDRMask 24 32 |} ∧
    Subnet_ipNet b = {| IPNet_IP := ParseIP "192.168.10.0"; IPNet_Mask := CIDRMask 24 32 |}.
Proof. do 2 eexists. split_and!; vm_compute; reflexivity. Qed.

Lemma test_server_disjoint : disjoint_subnets (subnets test_server).
Proof.
  destruct test_server_subnets as (a & b & -> & Na & Nb).
  assert (networkNumberAndMask (Subnet_ipNet a) = ([10; 3; 1; 0], [255; 255; 255; 0])) as Ea
    by (rewrite Na; vm_compute; reflexivity).
  assert (networkNumberAndMask (Subnet_ipNet b) = ([192; 168; 10; 0], [255; 255; 255; 0])) as Eb
    by (rewrite Nb; vm_compute; reflexivity).
  intros ip k1 k2 sn1 sn2 H1 H2 C1 C2.
  rewrite lookup_insert_Some, lookup_singleton_Some in H1, H2.
  destruct H1 as [[<- <-]|[_ [<- <-]]], H2 as [[<- <-]|[_ [<- <-]]]; try done; exfalso.
  - eapply (disjoint_first_byte a b); eauto.
  - eapply (disjoint_first_byte a b); eauto.
Qed.

Lemma discover_request_ack_witness :
  ∃ rsp2, GetResponse (D := rfc_lib) test_now test_now (λ _, keys12) (answer_state test_offer) test_ack_request
            = Ret (Ok rsp2, answer_state test_offer) ∧
          MessageType (Dhcpv4 := rfc_lib) (Response_Response rsp2) = MessageTypeAck ∧
          Response_Lease rsp2 = 0%nat ∧
          YourIPAddr (Response_Response rsp2) = ParseIP "10.3.1.10".
Proof.
  assert (∃ rsp s1, test_offer = Ret (Ok rsp, s1) ∧ Response_Lease rsp = 0%nat ∧
      YourIPAddr (Response_Response rsp) = ParseIP "10.3.1.10" ∧
      Response_Lease rsp = length (leases test_server) ∧
      range_order keys12 (subnets s1) ∧ for_other_server (D := rfc_lib) s1 (Request_DHCPv4 test_ack_request) = false ∧
      s1 = answer_state test_offer)
    as (rsp & s1 & E & Hp & Hip & Hmac & Ho & Hid & ->).
  { do 2 eexists. split; [vm_compute; reflexivity|]. split_and!; vm_compute; reflexivity. }
  destruct (discover_request_ack rfc_lib rfc_lib_laws test_now test_now test_now test_now (λ _, keys12)
    (λ _, keys12) test_server (answer_state test_offer) test_discover rsp test_ack_request
    (default (Request_DHCPv4 test_discover) (NewReplyFromRequest (Dhcpv4 := rfc_lib) (Request_DHCPv4 test_ack_request)).1)
    test_server_inv test_server_disjoint test_server_orders (λ _, Ho)) as (rsp2 & E2 & Hty & Hl & Hy);
    [reflexivity|exact E|intros k sn _; right; exact Hmac|reflexivity|reflexivity|reflexivity|reflexivity|exact Hid| |reflexivity|].
  - rewrite Hip. vm_compute. reflexivity.
  - exists rsp2. rewrite Hl, Hp, Hy, Hip in *. auto.
Defined.
