(* ===== verification/ServerReach.v ===== *)
(** * Every state the server can reach

    What holds in every state that the server reaches from its construction, by
    the steps of [server_step]: requests are answered, addresses are not shared,
    and the server answers exactly the requests that name no other server. *)

From S2P Require Import Prelude GoStrings GoNet Errors IPv4 Types Dhcpv4 Subnet.
From S2P Require Import LeaseCache Pool SubnetProps SubnetNet Server ServerProps.
From S2P Require Import Responses ServerGuarantees.
Open Scope string_scope.
Open Scope list_scope.
Open Scope Z_scope.

(** ** Every reachable server *)

(** C5: in every state that the server can reach from its construction, by
    requests, subnets and hosts and leases added and deleted, listeners and
    closing, a request gets a response or an error, with no panic and no endless
    loop; and in no subnet do two clients of the cache have the same address.
    (Subnets end before 255.255.255.255; what is removed at an address belongs to
    the hardware address it is removed with.) *)
Theorem server_reachable_safe (D : Dhcpv4) order callback logger local s0 e s :
  NewServer order callback logger local = Ret (Some s0, e) →
  rtc server_step s0 s →
  (∀ tExp tNew orders req,
     (∀ i, range_order (orders i) (subnets s)) → client_ok (Request_DHCPv4 req) →
     ∃ r s', GetResponse tExp tNew orders s req = Ret (r, s') ∧ store_le (leases s) (leases s')) ∧
  (∀ k sn m1 m2 p1 p2,
     subnets s !! k = Some sn →
     contains_char "." m1 = false → contains_char "." m2 = false →
     Subnet_leaseCache sn !! m1 = Some p1 → Subnet_leaseCache sn !! m2 = Some p2 →
     m1 ≠ m2 → To4 (Lease_IP (deref (leases s) p1)) ≠ To4 (Lease_IP (deref (leases s) p2))).
Proof.
  intros HN Hr. destruct (NewServer_inv _ _ _ _ _ _ HN) as [H0 _].
  pose proof (server_reachable_inv _ _ Hr H0) as Hs. split.
  - intros tExp tNew orders req Ho Hc.
    destruct (GetResponse_inv tExp tNew orders s req Hs Ho Hc) as (r & s' & E & _ & Hle & _). eauto.
  - intros k sn m1 m2 p1 p2 Hk N1 N2 H1 H2 Hne E. destruct (Hs k sn Hk) as [_ [_ Hok]].
    apply Hne. by destruct (cache_ok_unique _ _ _ _ _ _ Hok N1 N2 H1 H2 E).
Qed.

(** The test server is reached in two steps. *)
Lemma test_server_reached : rtc (server_step (D := rfc_lib)) empty_server test_server.
Proof.
  eapply rtc_l; [|eapply rtc_l; [|apply rtc_refl]].
  - eapply (ss_add_subnet ifaces [] test_sn1); [apply test_sn1_ok|apply surjective_pairing].
  - eapply (ss_add_subnet ifaces ["192.168.10.0/24"] test_sn2); [apply test_sn2_ok|apply surjective_pairing].
Qed.

Lemma test_discover_ok : client_ok (Request_DHCPv4 test_discover).
Proof. repeat (apply List.Forall_cons; [by unfold is_u8|]). apply List.Forall_nil. Qed.

Lemma server_reachable_safe_witness :
  ∃ r s', GetResponse (D := rfc_lib) test_now test_now (λ _, keys12) test_server test_discover = Ret (r, s') ∧
          store_le (leases test_server) (leases s').
Proof.
  eapply (server_reachable_safe rfc_lib ifaces true true (test_local, None) empty_server None test_server).
  - reflexivity.
  - apply test_server_reached.
  - apply test_server_orders.
  - apply test_discover_ok.
Defined.

(** C19: the state of the server stays well formed.  In every state it reaches, each
    subnet is filed under its own text; the ends of its range are 32-bit numbers in
    order and its cursor is zero or in the range; and every entry of its cache is
    under one of the two keys of a lease that exists and has an IPv4 address. *)
Theorem server_well_formed (D : Dhcpv4) order callback logger local s0 e s k sn :
  NewServer order callback logger local = Ret (Some s0, e) →
  rtc server_step s0 s → subnets s !! k = Some sn →
  Subnet_Subnet sn = k ∧
  (0 <= Subnet_iPFrom sn <= Subnet_iPTo sn ∧ Subnet_iPTo sn < 2 ^ 32) ∧
  (Subnet_currentIP sn = 0 ∨ Subnet_iPFrom sn <= Subnet_currentIP sn <= Subnet_iPTo sn) ∧
  ∀ key p, Subnet_leaseCache sn !! key = Some p →
    ∃ l, leases s !! p = Some l ∧ is_v4 (Lease_IP l) ∧ (key = IP_String (Lease_IP l) ∨ key = Lease_MAC l).
Proof.
  intros HN Hr Hk. destruct (NewServer_inv _ _ _ _ _ _ HN) as [H0 _].
  destruct (server_reachable_inv _ _ Hr H0 k sn Hk) as [Ht [[Hrange Hcur] Hc]].
  unfold range_ok, is_u32 in Hrange. split_and!; [done|lia|lia|lia|exact Hcur|].
  intros key p Hp. destruct (Hc key p Hp) as (l & Hl & [Hv _] & Hkey). exists l. naive_solver.
Qed.

Lemma server_well_formed_witness :
  ∃ sn, subnets test_server !! "10.3.1.0/24" = Some sn ∧ Subnet_Subnet sn = "10.3.1.0/24".
Proof.
  assert (is_Some (subnets test_server !! "10.3.1.0/24")) as [sn Hsn]
    by (refine (bool_decide_unpack _ _); vm_compute; exact I).
  exists sn. split; [exact Hsn|].
  apply (server_well_formed rfc_lib ifaces true true (test_local, None) empty_server None test_server _ _
    eq_refl test_server_reached Hsn).
Defined.

(** ** The requests that are answered *)

(** Every local address is a server identifier, and nothing else is. *)
Lemma foldl_ids ips m x :
  is_Some (foldl (λ m ip, <[IP_String ip := true]> m) m ips !! x) ↔
  is_Some ((m : gmap string bool) !! x) ∨ x ∈ (IP_String <$> ips).
Proof.
  revert m. induction ips as [|ip ips IH]; intros m; cbn [foldl fmap list_fmap].
  - split; [by left|]. intros [?|Hx]; [done|]. by apply not_elem_of_nil in Hx.
  - rewrite IH, lookup_insert, elem_of_cons. case_decide; subst; naive_solver.
Qed.

Lemma server_ids_spec order addrs x :
  range_order order addrs →
  is_Some (server_ids order addrs !! x) ↔
  ∃ ifname ips ip, addrs !! ifname = Some ips ∧ ip ∈ ips ∧ IP_String ip = x.
Proof.
  intros Ho. unfold server_ids. rewrite foldl_ids, lookup_empty.
  rewrite list_elem_of_fmap. split.
  - intros [[? ?]|(ip & -> & Hin)]; [done|]. apply list_elem_of_In, in_concat in Hin as (ips & Hips & Hin).
    apply list_elem_of_In in Hips, Hin. apply (range_values_elem _ _ _ Ho) in Hips as [k Hk]. eauto 10.
  - intros (k & ips & ip & Hk & Hin & <-). right. exists ip. split; [done|].
    apply list_elem_of_In, in_concat. exists ips. rewrite <- !list_elem_of_In. split; [|done].
    apply (range_values_elem _ _ _ Ho). eauto.
Qed.

(** What the operations keep: the local addresses and the identifiers. *)
Definition ids_inv (s : Server) : Prop :=
  ∀ x, is_Some (serverIds s !! x) ↔
  ∃ ifname ips ip, localIpAddresses s !! ifname = Some ips ∧ ip ∈ ips ∧ IP_String ip = x.

Lemma server_step_ids `{D : Dhcpv4} s s' :
  server_step s s' → localIpAddresses s' = localIpAddresses s ∧ serverIds s' = serverIds s.
Proof.
  intros Hst. destruct Hst as
    [tExp tNew orders req r s s' Ho Hc E|p b s|? ? cfg e s s' Hc E|k e s s' E|p l e s s' Hl Hok E
    |order l e s s' Hne Hk E|order host e s s' Hv Hm E|order host e s s' Hne Hk E
    |factory listen e s s' E|name e s s' E|order s].
  - apply GetResponse_config in E as (? & ? & _). done.
  - done.
  - unfold AddSubnet in E. by repeat case_match; simplify_eq.
  - unfold DeleteSubnet in E. by repeat case_match; simplify_eq.
  - unfold Server_AddLease in E. by repeat case_match; simplify_eq.
  - unfold Server_DeleteLease in E. by repeat case_match; simplify_eq.
  - unfold Server_AddHost in E. by repeat case_match; simplify_eq.
  - unfold Server_DeleteHost in E. by repeat case_match; simplify_eq.
  - unfold AddListen in E. by repeat case_match; simplify_eq.
  - unfold DeleteListen in E. by repeat case_match; simplify_eq.
  - done.
Qed.

Lemma reachable_ids_inv `{D : Dhcpv4} s s' : rtc server_step s s' → ids_inv s → ids_inv s'.
Proof.
  induction 1 as [|s s1 s2 Hst _ IH]; [done|]. intros Hs. apply IH.
  destruct (server_step_ids _ _ Hst) as [El Ei]. intros x. rewrite El, Ei. apply Hs.
Qed.

(** The server identifier a subnet hands out is none or a local address. *)
Definition identity_ok (s : Server) : Prop :=
  ∀ k sn, subnets s !! k = Some sn →
  Subnet_serverIPAddress sn = None ∨
  ∃ ifname ips, localIpAddresses s !! ifname = Some ips ∧ Subnet_serverIPAddress sn ∈ ips.

Lemma identity_update s s' k sn sn' :
  identity_ok s → localIpAddresses s' = localIpAddresses s →
  subnets s' = <[k := sn']> (subnets s) → subnets s !! k = Some sn →
  Subnet_serverIPAddress sn' = Subnet_serverIPAddress sn → identity_ok s'.
Proof.
  intros Hs El Es Hk E k' x Hx. rewrite Es, lookup_insert in Hx. rewrite El.
  case_decide; simplify_eq; [rewrite E|]; by eapply Hs.
Qed.

Lemma InitializeSubnet_identity order cfg addrs sn :
  Subnet_serverIPAddress cfg = None → InitializeSubnet order cfg addrs = Ok sn →
  Subnet_serverIPAddress sn = None ∨
  ∃ ifname ips, addrs !! ifname = Some ips ∧ Subnet_serverIPAddress sn ∈ ips.
Proof.
  intros Hc. unfold InitializeSubnet.
  destruct (ParseIPv4 (Subnet_RangeFrom cfg)) as [from|]; [|done]. cbn [mbind result_bind].
  destruct (ParseIPv4 (Subnet_RangeTo cfg)) as [to|]; [|done]. cbn [mbind result_bind].
  destruct (to <? from); [done|].
  destruct (split "/" (Subnet_Subnet cfg)) as [|addr [|len [|]]]; try done.
  destruct (ParseInt len 8) as [prefix|]; [|done]. intros [= <-]. cbn [Subnet_serverIPAddress].
  match goal with |- context [server_address ?n ?a ?i] =>
    destruct (server_address_spec n a i) as [[-> _]|[Hin _]]; [by left|right] end.
  apply list_elem_of_In, in_concat in Hin as (ips & Hips & Hin). apply list_elem_of_In in Hips, Hin.
  unfold range_values in Hips. apply list_elem_of_omap in Hips as (k & _ & Hk). eauto.
Qed.

Lemma AddSubnet_identity addrOrder order s cfg e s' :
  identity_ok s → Subnet_serverIPAddress cfg = None →
  AddSubnet addrOrder order s cfg = (e, s') → identity_ok s'.
Proof.
  intros Hs Hc. unfold AddSubnet.
  destruct (InitializeSubnet addrOrder cfg (localIpAddresses s)) as [sn|] eqn:Ei; [|by intros [= <- <-]].
  destruct (find_overlap _ sn); intros [= <- <-]; [done|].
  intros k x Hx. cbn [subnets localIpAddresses set_subnets] in *.
  rewrite lookup_insert in Hx. case_decide; simplify_eq; [|by eapply Hs].
  by eapply InitializeSubnet_identity.
Qed.

Lemma GetResponse_subnets `{D : Dhcpv4} tExp tNew orders s req r s' :
  server_inv s → (∀ i, range_order (orders i) (subnets s)) → client_ok (Request_DHCPv4 req) →
  GetResponse tExp tNew orders s req = Ret (r, s') →
  subnets s' = subnets s ∨
  ∃ k sn sn', subnets s !! k = Some sn ∧ subnets s' = <[k := sn']> (subnets s) ∧ subnet_frame sn sn'.
Proof.
  intros Hs Ho Hc. unfold GetResponse. destruct (for_other_server _ _); [by intros [= <- <-]; left|].
  destruct (getSubnet orders s req) as [[k sn]|] eqn:Eg; [|by intros [= <- <-]; left].
  destruct (orb _ _); [|by intros [= <- <-]; left].
  apply (getSubnet_Some _ _ _ _ _ Ho) in Eg. destruct (Hs k sn Eg) as [_ Hi].
  destruct (getResponse_inv tExp tNew (leases s) sn (Request_DHCPv4 req) Hi Hc)
    as (resp & lease & err & h' & sn' & E & _ & _ & Hf & _).
  rewrite E. cbn [mbind outcome_bind]. intros HG. right. exists k, sn, sn'.
  repeat case_match; try done; by injection HG as <- <-.
Qed.

(** The operations that work on one subnet in place. *)
Lemma step_identity `{D : Dhcpv4} s s' : server_step s s' → server_inv s → identity_ok s → identity_ok s'.
Proof.
  intros Hst Hinv Hs. destruct Hst as
    [tExp tNew orders req r s s' Ho Hc E|p b s|? ? cfg e s s' Hc E|k e s s' E|p l e s s' Hl Hok E
    |order l e s s' Hne Hk E|order host e s s' Hv Hm E|order host e s s' Hne Hk E
    |factory listen e s s' E|name e s s' E|order s].
  - apply (GetResponse_config _ _ _ _ _ _ _) in E as Hcfg. destruct Hcfg as (El & _).
    destruct (GetResponse_subnets _ _ _ _ _ _ _ Hinv Ho Hc E) as [Es|(k & sn & sn' & Hk & Es & i & c & Hf)].
    + intros k sn Hk. rewrite Es in Hk. rewrite El. by eapply Hs.
    + eapply identity_update; [done..|]. by subst sn'.
  - done.
  - by eapply AddSubnet_identity, E; [|apply Hc].
  - unfold DeleteSubnet in E. case_match; simplify_eq; [|done].
    intros k' sn' H'. cbn [subnets set_subnets] in H'. apply lookup_delete_Some in H' as [_ H']. by eapply Hs.
  - unfold Server_AddLease in E. case_match eqn:Ek; simplify_eq; [|done].
    by eapply identity_update; [..|exact Ek|].
  - unfold Server_DeleteLease in E. case_match eqn:Eg; [case_match; subst|]; simplify_eq; [|done].
    apply find_subnet_Some in Eg as (_ & ? & _). by eapply identity_update.
  - unfold Server_AddHost, AddHost in E. cbn [new_lease] in E. case_match eqn:Eg; [case_match; subst|]; simplify_eq; [|done].
    apply find_subnet_Some in Eg as (_ & ? & _). by eapply identity_update.
  - unfold Server_DeleteHost in E. case_match eqn:Eg; [case_match; subst|]; simplify_eq; [|done].
    apply find_subnet_Some in Eg as (_ & ? & _). by eapply identity_update.
  - unfold AddListen in E. by repeat case_match; simplify_eq.
  - unfold DeleteListen in E. by repeat case_match; simplify_eq.
  - done.
Qed.

Lemma reachable_identity `{D : Dhcpv4} s s' :
  rtc server_step s s' → server_inv s → identity_ok s → identity_ok s'.
Proof.
  induction 1 as [|s s1 s2 Hst _ IH]; [done|].
  intros Hi Hs. apply IH; eauto using server_step_inv, step_identity.
Qed.

Lemma NewServer_ids order callback logger local s e :
  range_order order local.1 →
  NewServer order callback logger local = Ret (Some s, e) → ids_inv s ∧ identity_ok s.
Proof.
  intros Ho. unfold NewServer. destruct (negb callback), (negb logger); try done.
  destruct local as [addrs e']; cbv beta iota zeta; intros [= <- <-]; (split; [intros x|intros k sn H'; cbn [subnets] in H';
    by apply lookup_empty_Some in H']); cbn [serverIds localIpAddresses]. by apply server_ids_spec.
Qed.

(** The four-byte form of an address, which is what a packet carries. *)
Lemma IP_String_To4 ip : is_Some (To4 ip) → IP_String (To4 ip) = IP_String ip.
Proof.
  intros [b E]. rewrite (IP_String_v4 _ _ E), E. apply IP_String_v4.
  unfold To4. cbn [bytes_of]. pose proof (To4_length _ _ E) as L. by rewrite bytes_of_Some, L.
Qed.

(** A text that names an address of this server. *)
Definition local_address (s : Server) (x : string) : Prop :=
  ∃ ifname ips ip, localIpAddresses s !! ifname = Some ips ∧ ip ∈ ips ∧ IP_String ip = x.

(** A request that names no server, or this one. *)
Definition for_us `{Dhcpv4} (s : Server) (pkt : DHCPv4) : Prop :=
  ServerIdentifier pkt = None ∨ IP_Equal (ServerIdentifier pkt) IPv4zero = true ∨
  local_address s (IP_String (ServerIdentifier pkt)).

Lemma for_us_spec `{D : Dhcpv4} s pkt :
  ids_inv s → for_us s pkt ↔ for_other_server s pkt = false.
Proof.
  intros Hi. unfold for_us, for_other_server, local_address.
  rewrite <- (Hi (IP_String (ServerIdentifier pkt))).
  destruct (bool_decide_reflect (ServerIdentifier pkt = None)) as [|N]; [by intuition|].
  destruct (IP_Equal (ServerIdentifier pkt) IPv4zero); [by intuition|].
  destruct (bool_decide_reflect (is_Some (serverIds s !! IP_String (ServerIdentifier pkt)))); naive_solver.
Qed.

(** Some subnet contains an address the request is looked up by. *)
Definition has_subnet (s : Server) (req : Request) : Prop :=
  ∃ k sn ip, subnets s !! k = Some sn ∧ ip ∈ lookup_addresses s req ∧ Contains sn ip = true.

Lemma first_match_Some m ips k sn :
  first_match m ips (Some (k, sn)) → ∃ ip, m !! k = Some sn ∧ ip ∈ ips ∧ Contains sn ip = true.
Proof.
  remember (Some (k, sn)) as r eqn:E. induction 1 as [|ip ips k' sn' Hk Hc|ip ips r Hn Hm IH]; simplify_eq.
  - exists ip. split_and!; [done|by left|done].
  - destruct (IH eq_refl) as (ip' & ? & ? & ?). exists ip'. split_and!; [done|by right|done].
Qed.

Lemma first_match_None m ips k sn ip :
  first_match m ips None → m !! k = Some sn → ip ∈ ips → Contains sn ip = false.
Proof.
  remember None as r eqn:E. induction 1 as [|ip' ips k' sn' Hk Hc|ip' ips r Hn Hm IH]; intros Hl Hin; simplify_eq.
  - by apply not_elem_of_nil in Hin.
  - apply elem_of_cons in Hin as [->|Hin]; [by eapply Hn|by apply IH].
Qed.

Lemma getSubnet_has_subnet orders s req :
  (∀ i, range_order (orders i) (subnets s)) →
  is_Some (getSubnet orders s req) ↔ has_subnet s req.
Proof.
  intros Ho. pose proof (getSubnet_match orders s req Ho) as Hm. split.
  - intros [[k sn] E]. rewrite E in Hm. apply first_match_Some in Hm as (ip & ? & ? & ?). by exists k, sn, ip.
  - intros (k & sn & ip & Hk & Hin & Hc). destruct (getSubnet orders s req) as [[]|]; [eauto|].
    rewrite (first_match_None _ _ _ _ _ Hm Hk Hin) in Hc. done.
Qed.

Definition answered_type `{Dhcpv4} (pkt : DHCPv4) : Prop :=
  MessageType pkt = MessageTypeDiscover ∨ MessageType pkt = MessageTypeRequest.

(** C17: which requests a reachable server works on.  A request that names
    another server, one that no subnet is responsible for, and one that is
    neither a discover nor a request is refused, each with its own error, and
    the server's state is what it was; and every response is to a request that
    passes the three tests.  The identifiers of this server are exactly the
    addresses of its interfaces. *)
Theorem GetResponse_refuses (D : Dhcpv4) order callback logger local s0 e s tExp tNew orders req r s' :
  NewServer order callback logger local = Ret (Some s0, e) →
  range_order order local.1 →
  rtc server_step s0 s → (∀ i, range_order (orders i) (subnets s)) →
  GetResponse tExp tNew orders s req = Ret (r, s') →
  let pkt := Request_DHCPv4 req in
  (¬ for_us s pkt → r = Err (EUnknownServerId (IP_String (ServerIdentifier pkt))) ∧ s' = s) ∧
  (for_us s pkt → ¬ has_subnet s req →
     r = Err (EUnknownSubnet (GatewayIPAddr pkt) (Request_InterfaceName req)) ∧ s' = s) ∧
  (for_us s pkt → has_subnet s req → ¬ answered_type pkt →
     r = Err (EUnknownPacketType (MessageType pkt)) ∧ s' = s) ∧
  (is_ok r = true → for_us s pkt ∧ has_subnet s req ∧ answered_type pkt).
Proof.
  intros HN Ho Hr Hord HG pkt.
  pose proof (reachable_ids_inv _ _ Hr (proj1 (NewServer_ids _ _ _ _ _ _ Ho HN))) as Hids.
  rewrite (for_us_spec _ _ Hids). rewrite <- (getSubnet_has_subnet orders _ _ Hord).
  revert HG. unfold GetResponse. fold pkt. unfold answered_type.
  destruct (for_other_server s pkt); [intros [= <- <-]; naive_solver|].
  destruct (getSubnet orders s req) as [[k sn]|]; [|intros [= <- <-]; naive_solver].
  destruct (Z.eqb_spec (MessageType pkt) MessageTypeDiscover) as [T|T]; cbn [orb];
    [by naive_solver|].
  destruct (Z.eqb_spec (MessageType pkt) MessageTypeRequest); [by naive_solver|].
  intros [= <- <-]. naive_solver.
Qed.

Lemma GetResponse_refuses_witness :
  GetResponse (D := rfc_lib) test_now test_now (λ _, keys12) test_server
    (test_request (client_packet 4 test_mac None) "br1") =
  Ret (Err (EUnknownPacketType 4), test_server).
Proof.
  destruct (GetResponse (D := rfc_lib) test_now test_now (λ _, keys12) test_server
    (test_request (client_packet 4 test_mac None) "br1")) as [[r s']| |] eqn:E; [|exfalso; vm_compute in E; discriminate E..].
  destruct (GetResponse_refuses rfc_lib ifaces true true (test_local, None) empty_server None test_server
    test_now test_now (λ _, keys12) (test_request (client_packet 4 test_mac None) "br1") r s')
    as (_ & _ & H3 & _).
  - reflexivity.
  - unfold range_order. vm_compute. apply perm_swap.
  - apply test_server_reached.
  - apply test_server_orders.
  - exact E.
  - destruct H3 as [-> ->]; [by left| | |reflexivity].
    + apply (getSubnet_has_subnet (λ _, keys12)); [apply test_server_orders|].
      vm_compute. eauto.
    + intros [Ht|Ht]; vm_compute in Ht; discriminate Ht.
Defined.

(** C26: a client may name the server identifier it was given: the identifier
    in a response is none or an address of this server, and in every later
    state a packet that carries it, in the four bytes of an IPv4 address, is not
    refused as one for another server.  (The identifier is that of the response
    that the server makes; what a socket writes in its place when it answers a
    relay is not meant.) *)
Theorem own_server_id_accepted (D : Dhcpv4) order callback logger local s0 e s tExp tNew orders req rsp s1 s2 pkt :
  NewServer order callback logger local = Ret (Some s0, e) →
  range_order order local.1 →
  rtc server_step s0 s → (∀ i, range_order (orders i) (subnets s)) → client_ok (Request_DHCPv4 req) →
  GetResponse tExp tNew orders s req = Ret (Ok rsp, s1) → rtc server_step s1 s2 →
  ServerIdentifier pkt = To4 (Lease_ServerId (deref (leases s1) (Response_Lease rsp))) →
  for_us s2 pkt ∧ for_other_server s2 pkt = false.
Proof.
  intros HN Ho Hr Hord Hc HG Hr2 Eid.
  destruct (NewServer_inv _ _ _ _ _ _ HN) as [H0 _].
  destruct (NewServer_ids _ _ _ _ _ _ Ho HN) as [Hi0 Hid0].
  pose proof (server_reachable_inv _ _ Hr H0) as Hs. pose proof (reachable_ids_inv _ _ Hr Hi0) as Hi.
  pose proof (reachable_identity _ _ Hr H0 Hid0) as Hid.
  assert (server_step s s1) as Hst by (by eapply ss_response).
  pose proof (step_identity _ _ Hst Hs Hid) as Hid1.
  assert (rtc server_step s s2) as Hr12 by (by eapply rtc_l).
  assert (ids_inv s2) as Hi2 by (by eapply reachable_ids_inv).
  assert (localIpAddresses s2 = localIpAddresses s1) as El.
  { clear -Hr2. induction Hr2 as [|s s1 s2 Hst _ IH]; [done|].
    rewrite IH. by apply (server_step_ids _ _ Hst). }
  rewrite <- (for_us_spec _ _ Hi2). assert (for_us s2 pkt); [|done].
  destruct (GetResponse_lease _ _ _ _ _ _ _ Hs Hord HG) as (k & sn & sn' & h1 & l & _ & _ & _ & Hl & _ & El1 & Es).
  rewrite El1, (deref_alter _ _ _ _ Hl) in Eid. cbn [Lease_ServerId set_ServerId] in Eid.
  unfold for_us, local_address. rewrite Eid, El.
  destruct (Hid1 k sn') as [->|(ifname & ips & Hips & Hin)]; [by rewrite Es, lookup_insert_eq|by left|].
  destruct (To4 (Subnet_serverIPAddress sn')) eqn:E4; [|by left].
  rewrite <- E4, IP_String_To4 by (rewrite E4; eauto). right. right. by exists ifname, ips, (Subnet_serverIPAddress sn').
Qed.

Lemma own_server_id_accepted_witness :
  for_us (H := rfc_lib) (answer_state test_offer) (Request_DHCPv4 test_ack_request) ∧
  for_other_server (D := rfc_lib) (answer_state test_offer) (Request_DHCPv4 test_ack_request) = false.
Proof.
  assert (∃ rsp s1, test_offer = Ret (Ok rsp, s1) ∧ s1 = answer_state test_offer ∧
    ServerIdentifier (Dhcpv4 := rfc_lib) (Request_DHCPv4 test_ack_request) =
      To4 (Lease_ServerId (deref (leases s1) (Response_Lease rsp))))
    as (rsp & s1 & E & -> & Eid) by (do 2 eexists; split_and!; vm_compute; reflexivity).
  apply (own_server_id_accepted rfc_lib ifaces true true (test_local, None) empty_server None test_server
    test_now test_now (λ _, keys12) test_discover rsp (answer_state test_offer) (answer_state test_offer)).
  - reflexivity.
  - unfold range_order. vm_compute. apply perm_swap.
  - apply test_server_reached.
  - apply test_server_orders.
  - apply test_discover_ok.
  - exact E.
  - apply rtc_refl.
  - exact Eid.
Defined.
