(* ===== verification/SubnetMap.v ===== *)
(** * Adding and deleting subnets

    [AddSubnet] and [DeleteSubnet] against their abstract meaning, insertion
    into and removal from a map; and what the textual test for overlap lets
    through. *)

From S2P Require Import Prelude GoStrings GoNet Errors IPv4 Types Dhcpv4 Subnet.
From S2P Require Import LeaseCache Pool SubnetProps SubnetNet Server ServerProps.
From S2P Require Import Responses ServerGuarantees ServerReach.
Open Scope string_scope.
Open Scope list_scope.
Open Scope Z_scope.

(** ** The overlap test *)

Lemma find_overlap_Some visited sn e :
  find_overlap visited sn = Some e → e = EOverlappingSubnets (Subnet_Subnet sn) (Subnet_Subnet sn).
Proof.
  induction visited as [|sn' visited IH]; cbn [find_overlap]; [done|]. unfold isOverlap.
  destruct (String.eqb_spec (Subnet_Subnet sn') (Subnet_Subnet sn)) as [->|]; [by intros [= <-]|done].
Qed.

(** With every subnet under its own text, the test is a lookup. *)
Lemma find_overlap_lookup order s sn :
  server_inv s → range_order order (subnets s) →
  find_overlap (range_values order (subnets s)) sn =
    match subnets s !! Subnet_Subnet sn with
    | Some _ => Some (EOverlappingSubnets (Subnet_Subnet sn) (Subnet_Subnet sn))
    | None => None
    end.
Proof.
  intros Hs Ho. destruct (find_overlap _ sn) as [e|] eqn:E.
  - rewrite (find_overlap_Some _ _ _ E). destruct (subnets s !! Subnet_Subnet sn) eqn:Hk; [done|].
    assert (find_overlap (range_values order (subnets s)) sn = None) as E'; [|congruence].
    apply find_overlap_None, Forall_forall. intros x Hx Hn. apply list_elem_of_In in Hx.
    apply (range_values_elem _ _ _ Ho) in Hx as [k Hk']. destruct (Hs _ _ Hk') as [Hkx _]. congruence.
  - destruct (subnets s !! Subnet_Subnet sn) as [x|] eqn:Hk; [|done].
    apply find_overlap_None in E. rewrite Forall_forall in E. destruct (Hs _ _ Hk) as [Hkx _].
    destruct (E x); [|done]. apply list_elem_of_In, (range_values_elem _ _ _ Ho). eauto.
Qed.

Lemma InitializeSubnet_name order cfg addrs sn :
  InitializeSubnet order cfg addrs = Ok sn → Subnet_Subnet sn = Subnet_Subnet cfg.
Proof. by intros (? & ? & ? & ? & ? & _ & _ & _ & _ & _ & _ & _ & E & _)%InitializeSubnet_Ok. Qed.

(** C25: [AddSubnet] is an insertion that refuses a subnet whose text is in the
    map, or whose configuration does not initialise, and leaves everything else
    alone; after it, [DeleteSubnet] of the same text restores the server. *)
Theorem AddSubnet_is_insert addrOrder order s cfg :
  server_inv s → range_order order (subnets s) →
  AddSubnet addrOrder order s cfg =
    match InitializeSubnet addrOrder cfg (localIpAddresses s), subnets s !! Subnet_Subnet cfg with
    | Err e, _ => (Some e, s)
    | Ok _, Some _ => (Some (EOverlappingSubnets (Subnet_Subnet cfg) (Subnet_Subnet cfg)), s)
    | Ok sn, None => (None, set_subnets (<[Subnet_Subnet cfg := sn]> (subnets s)) s)
    end ∧
  (∀ s', AddSubnet addrOrder order s cfg = (None, s') → DeleteSubnet s' (Subnet_Subnet cfg) = (None, s)).
Proof.
  intros Hs Ho. unfold AddSubnet, DeleteSubnet.
  destruct (InitializeSubnet addrOrder cfg (localIpAddresses s)) as [sn|e] eqn:Ei; [|by split].
  pose proof (InitializeSubnet_name _ _ _ _ Ei) as En.
  rewrite (find_overlap_lookup _ _ _ Hs Ho), En.
  destruct (subnets s !! Subnet_Subnet cfg) eqn:Hk; [by split|]. split; [done|].
  intros s' [= <-]. cbn [subnets set_subnets]. rewrite lookup_insert_eq, delete_insert_id by done.
  by destruct s.
Qed.

Lemma AddSubnet_is_insert_witness :
  AddSubnet ifaces [] empty_server test_sn1 = (None, test_server1) ∧
  (∀ s', AddSubnet ifaces [] empty_server test_sn1 = (None, s') →
         DeleteSubnet s' "192.168.10.0/24" = (None, empty_server)).
Proof.
  destruct (AddSubnet_is_insert ifaces [] empty_server test_sn1 empty_server_inv) as [E Hd].
  - unfold range_order. vm_compute. reflexivity.
  - split; [|exact Hd]. rewrite E. vm_compute. reflexivity.
Defined.

(** ** Subnets that overlap *)

(** The test server with a second, larger network around the one of br1, with
    the same range. *)
Definition wide_sn : Subnet := test_cfg "10.3.0.0/16" "10.3.1.10" "10.3.1.13" "10.3.1.254".
Definition keys_narrow_first : list string := ["10.3.1.0/24"; "10.3.0.0/16"; "192.168.10.0/24"].
Definition keys_wide_first : list string := ["10.3.0.0/16"; "192.168.10.0/24"; "10.3.1.0/24"].

Definition second_mac : HardwareAddr := [1; 2; 3; 4; 5; 7].
Definition second_discover : Request :=
  test_request (client_packet MessageTypeDiscover second_mac None) "br1".

(** The address that a response offers. *)
Definition offered (o : outcome (result error Response * Server)) : option net_IP :=
  (λ r, YourIPAddr (Response_Response r)) <$> answer_response o.

Definition wide_server : Server := (AddSubnet ifaces keys12 test_server wide_sn).2.

(** Iteration orders of concrete maps are checked by evaluation. *)
Lemma range_order_check {V} order (m : gmap string V) :
  bool_decide (order ⊆+ (map_to_list m).*1) = true →
  (length (map_to_list m).*1 <=? length order)%nat = true → range_order order m.
Proof. intros Hs%bool_decide_eq_true Hl%Nat.leb_le. by apply submseteq_length_Permutation. Qed.

(** Two networks that overlap, one inside the other, are both accepted,
    since only equal texts count as overlapping.  Which of them answers is then
    up to the iteration order, and two clients on the same wire can be offered
    the same address, one out of each subnet. *)
Theorem overlapping_subnets_share_addresses :
  ∃ s, AddSubnet ifaces keys12 test_server wide_sn = (None, s) ∧
    range_order keys_narrow_first (subnets s) ∧ range_order keys_wide_first (subnets s) ∧
    (∃ ip sn1 sn2, subnets s !! "10.3.1.0/24" = Some sn1 ∧ subnets s !! "10.3.0.0/16" = Some sn2 ∧
       Contains sn1 ip = true ∧ Contains sn2 ip = true) ∧
    let o1 := GetResponse (D := rfc_lib) test_now test_now (λ _, keys_narrow_first) s test_discover in
    let o2 := GetResponse (D := rfc_lib) test_now test_now (λ _, keys_wide_first) (answer_state o1)
                second_discover in
    offered o1 = Some (ParseIP "10.3.1.10") ∧ offered o2 = Some (ParseIP "10.3.1.10").
Proof.
  exists wide_server. split; [|split; [|split; [|split]]].
  - vm_compute. reflexivity.
  - apply range_order_check; vm_compute; reflexivity.
  - apply range_order_check; vm_compute; reflexivity.
  - exists (ParseIP "10.3.1.10"). do 2 eexists. split_and!; vm_compute; reflexivity.
  - split; vm_compute; reflexivity.
Qed.

(** ** Hosts without an address *)

(** A subnet whose network and prefix length are those of an IPv4 network. *)
Definition v4_network (sn : Subnet) : Prop :=
  ∃ nb p, To4 (IPNet_IP (Subnet_ipNet sn)) = Some nb ∧ v4_bytes nb ∧
          IPNet_Mask (Subnet_ipNet sn) = CIDRMask p 32 ∧ 0 <= p <= 32.

Lemma Contains_nil sn : v4_network sn → Contains sn None = false.
Proof.
  intros (nb & p & E & [L _] & M & Hp). unfold Contains, IPNet_Contains.
  rewrite (network_v4 _ _ _ E M Hp). change (To4 None) with (@None (list Z)). by cbn; rewrite L.
Qed.

(** A host without an address, which the documentation says takes one from
    the pool, is refused, and nothing is recorded for its hardware address. *)
Theorem host_without_address_refused order s host :
  (∀ k sn, subnets s !! k = Some sn → v4_network sn) → range_order order (subnets s) →
  Host_IP host = None →
  Server_AddHost order s host = (Some (ENoSubnetForHost None (Host_MAC host)), s).
Proof.
  intros Hn Ho Hip. unfold Server_AddHost. pose proof (getSubnetForIp_spec order s (Host_IP host) Ho) as Hg.
  destruct (getSubnetForIp order s (Host_IP host)) as [[k sn]|]; [|by rewrite Hip].
  destruct Hg as [Hk Hc]. rewrite Hip, Contains_nil in Hc by eauto. done.
Qed.

Definition no_address_host : Host := {|
  Host_Subnet := "10.3.1.0/24"; Host_MAC := "aa:aa:aa:aa:aa:aa"; Host_IP := ParseIP "";
  Host_Gateway := None; Host_ServerHostName := ""; Host_BootFileName := ""; Host_DNS := [];
  Host_Options := []; Host_LeaseTime := 0; Host_HostName := "" |}.

Lemma test_server_v4 k sn : subnets test_server !! k = Some sn → v4_network sn.
Proof.
  destruct test_server_subnets as (a & b & -> & Na & Nb).
  rewrite lookup_insert_Some, lookup_singleton_Some. unfold v4_network.
  intros [[<- <-]|[_ [<- <-]]]; [rewrite Na; exists [10; 3; 1; 0], 24|rewrite Nb; exists [192; 168; 10; 0], 24];
    (split; [vm_compute; reflexivity|]; split; [|split; [reflexivity|lia]]);
    (split; [reflexivity|]); repeat (apply List.Forall_cons; [by unfold is_u8|]); apply List.Forall_nil.
Qed.

Lemma host_without_address_refused_witness :
  Server_AddHost keys12 test_server no_address_host =
    (Some (ENoSubnetForHost None "aa:aa:aa:aa:aa:aa"), test_server).
Proof.
  apply (host_without_address_refused keys12 test_server no_address_host).
  - apply test_server_v4.
  - apply test_server_range.
  - vm_compute. reflexivity.
Defined.
