(* ===== verification/RequestProcessor.v ===== *)
(** * [dhcp/request_processor.go]: from a socket to the responses

    A request processor is three goroutines that share two channels: [Serve]
    puts the requests of a socket into [dhcpRequestChan]; [runRequestProcessor]
    asks the server for responses and puts them into [responseChan];
    [runResponseProcessor] collects them, saves their leases and then sends
    them.  A goroutine's state is where it can stand between two channel operations;
    the code between two such places is one step.  The state of all three, with
    the channels and the server, is [pipeline]; its steps are in Pipeline.v. *)

From S2P Require Import Prelude GoStrings GoNet Errors IPv4 Types Dhcpv4 Subnet Server.
Open Scope string_scope.
Open Scope list_scope.
Open Scope Z_scope.

(** The capacity of both channels. *)
Definition dhcpRequestChanBufSize : nat := 1024.

(** ** [Serve] *)

(** What [errors.Unwrap(err).( *net.OpError)] finds: the operation error, as an
    error, and the two facts about it that [Serve] asks for. *)
Record op_error := { op_self : error; op_closed : bool; op_temporary : bool }.

(** What the loop of [Serve] does with one result of [NextRequest]. *)
Inductive serve_action : Type :=
  | SEnqueue (req : Request)
  | SContinue
  | SReturn (err : option error)
  | SPanic (why : string).

Section serve.
Variable unwrap_op : error → option op_error.

Definition serve_one (r : result error Request) : serve_action :=
  match r with
  | Ok req => SEnqueue req
  | Err err =>
      match unwrap_op err with
      | Some e =>
          if op_closed e then SReturn None
          else if negb (op_temporary e) then SReturn (Some (op_self e)) else SContinue
      (* [e] is nil: the call of [e.Temporary] dereferences it *)
      | None => SPanic "invalid memory address or nil pointer dereference"
      end
  end.

(** The loop on the results that the socket gives, with what it puts into the
    channel: [Ret None] is a loop that waits for the next result, [Ret (Some e)]
    one that returned [e]. *)
Fixpoint Serve (reads : list (result error Request)) : list Request * outcome (option (option error)) :=
  match reads with
  | [] => ([], Ret None)
  | r :: reads =>
      match serve_one r with
      | SEnqueue req => let '(reqs, e) := Serve reads in (req :: reqs, e)
      | SContinue => Serve reads
      | SReturn err => ([], Ret (Some err))
      | SPanic why => ([], Panic why)
      end
  end.
End serve.

(** ** [Response.Send] *)

Inductive send_kind : Type := SendBroadcast | SendResponse.

Definition Send (r : Response) : send_kind :=
  if isAddressZero (GatewayIPAddr (Request_DHCPv4 (Response_Request r))) then SendBroadcast
  else SendResponse.

(** ** [runResponseProcessor] *)

(** The places where the goroutine can stand: at the select with the responses
    collected so far; sending, with the responses left to send; at the receive
    after the default branch; or gone. *)
Inductive rp_state : Type :=
  | Selecting (responses : list Response)
  | Sending (responses : list Response)
  | Receiving
  | Stopped.

(** What the goroutine does to the outside: it calls [callbackSaveLeases], with
    success or not, and it sends a response. *)
Inductive rp_event : Type :=
  | Saved (responses : list Response) (ok : bool)
  | Sent (r : Response) (kind : send_kind).

(** One step on the channel: its content and whether it is closed.  [ok] is
    what the callback answers, if the step calls it. *)
Definition rp_step (ok : bool) (chan : list Response) (is_closed : bool) (st : rp_state)
    : option (list Response * rp_state * list rp_event) :=
  match st with
  | Selecting responses =>
      match chan with
      | r :: chan => Some (chan, Selecting (responses ++ [r]), [])
      | [] =>
          if is_closed then Some ([], Stopped, [])
          else match responses with
               | [] => Some ([], Receiving, [])
               | _ :: _ =>
                   if ok then Some ([], Sending responses, [Saved responses true])
                   else Some ([], Selecting [], [Saved responses false])
               end
      end
  | Sending [] => Some (chan, Receiving, [])
  | Sending (r :: responses) => Some (chan, Sending responses, [Sent r (Send r)])
  | Receiving =>
      match chan with
      | r :: chan => Some (chan, Selecting [r], [])
      | [] => if is_closed then Some ([], Stopped, []) else None
      end
  | Stopped => None
  end.

(** ** [runRequestProcessor] *)

Section worker.
Context `{D : Dhcpv4}.

(** What the worker does with one request: the response it wants to put into
    the channel, if any, and the server it leaves. *)
Definition process_request (tExp tNew : Time) (orders : nat → list string) (s : Server) (req : Request)
    : outcome (option Response * Server) :=
  '(r, s) ← GetResponse tExp tNew orders s req;
  match r with
  | Err _ => Ret (None, s)
  | Ok resp =>
      let t := MessageType (Response_Response resp) in
      if t =? MessageTypeOffer then
        Ret (Some resp, set_leases (alter (set_AckSent false) (Response_Lease resp) (leases s)) s)
      else if t =? MessageTypeAck then
        Ret (Some resp, set_leases (alter (set_AckSent true) (Response_Lease resp) (leases s)) s)
      else Ret (None, s)
  end.
End worker.

(** ** The whole *)

Record pipeline := {
  dhcpRequestChan : list Request;
  worker : option Response;        (* the response the worker is about to put into the channel *)
  responseChan : list Response;
  processor : rp_state;
  server : Server;
  handed : list Response;          (* every response put into the channel so far *)
  events : list rp_event;
}.

(** [NewRequestProcessor]: the socket is opened first; without it there is no
    processor and no goroutine. *)
Definition NewRequestProcessor (socketFactory : string → string → result error socket_id) (s : Server)
    (listen : Listen) : result error (socket_id * pipeline) :=
  sock ← socketFactory (Listen_Addr listen) (Listen_Interface listen);
  Ok (sock, {| dhcpRequestChan := []; worker := None; responseChan := [];
               processor := Selecting []; server := s; handed := []; events := [] |}).
