(* ===== verification/Pipeline.v ===== *)
(** * The request pipeline: saved first, then sent

    The goroutines of a request processor as a step relation, and what holds in
    every state they reach: the order of responses, that a response is sent only
    after its lease was saved, that the channel drains, and that the address sent
    is the address of the lease. *)

From S2P Require Import Prelude GoStrings GoNet Errors IPv4 Types Dhcpv4 Subnet.
From S2P Require Import LeaseCache Pool SubnetProps SubnetNet Server ServerProps.
From S2P Require Import Responses ServerGuarantees ServerReach RequestProcessor.
Open Scope string_scope.
Open Scope list_scope.
Open Scope Z_scope.

(** ** The steps *)

Section steps.
Context `{D : Dhcpv4}.

Inductive pipeline_step : pipeline → pipeline → Prop :=
  (* Serve: a request arrives and there is room for it *)
  | ps_serve req p :
      (length (dhcpRequestChan p) < dhcpRequestChanBufSize)%nat → client_ok (Request_DHCPv4 req) →
      pipeline_step p
        {| dhcpRequestChan := dhcpRequestChan p ++ [req]; worker := worker p;
           responseChan := responseChan p; processor := processor p; server := server p;
           handed := handed p; events := events p |}
  (* the worker takes a request *)
  | ps_request tExp tNew orders req reqs p w s :
      dhcpRequestChan p = req :: reqs → worker p = None →
      (∀ i, range_order (orders i) (subnets (server p))) →
      process_request tExp tNew orders (server p) req = Ret (w, s) →
      pipeline_step p
        {| dhcpRequestChan := reqs; worker := w; responseChan := responseChan p;
           processor := processor p; server := s; handed := handed p; events := events p |}
  (* the worker puts its response into the channel *)
  | ps_hand r p :
      worker p = Some r → (length (responseChan p) < dhcpRequestChanBufSize)%nat →
      pipeline_step p
        {| dhcpRequestChan := dhcpRequestChan p; worker := None;
           responseChan := responseChan p ++ [r]; processor := processor p; server := server p;
           handed := handed p ++ [r]; events := events p |}
  (* the response processor; the worker never closes its channel, see below *)
  | ps_response ok chan st evs p :
      rp_step ok (responseChan p) false (processor p) = Some (chan, st, evs) →
      pipeline_step p
        {| dhcpRequestChan := dhcpRequestChan p; worker := worker p; responseChan := chan;
           processor := st; server := server p; handed := handed p; events := events p ++ evs |}
  (* somebody else uses the server: another listener, a controller *)
  | ps_server s p :
      server_step (server p) s →
      pipeline_step p
        {| dhcpRequestChan := dhcpRequestChan p; worker := worker p; responseChan := responseChan p;
           processor := processor p; server := s; handed := handed p; events := events p |}.
End steps.

(** ** The response processor alone *)

(** The responses that were in a saved batch, all batches or those that the
    callback accepted; those that were sent; those that the goroutine holds. *)
Definition saved_all (evs : list rp_event) : list Response :=
  concat ((λ e, match e with Saved rs _ => rs | Sent _ _ => [] end) <$> evs).
Definition saved_ok (evs : list rp_event) : list Response :=
  concat ((λ e, match e with Saved rs true => rs | _ => [] end) <$> evs).
Definition sent (evs : list rp_event) : list Response :=
  omap (λ e, match e with Sent r _ => Some r | Saved _ _ => None end) evs.
Definition in_hand (st : rp_state) : list Response :=
  match st with Selecting rs => rs | _ => [] end.
Definition to_send (st : rp_state) : list Response :=
  match st with Sending rs => rs | _ => [] end.

Lemma saved_all_app e1 e2 : saved_all (e1 ++ e2) = saved_all e1 ++ saved_all e2.
Proof. unfold saved_all. by rewrite fmap_app, concat_app. Qed.
Lemma saved_ok_app e1 e2 : saved_ok (e1 ++ e2) = saved_ok e1 ++ saved_ok e2.
Proof. unfold saved_ok. by rewrite fmap_app, concat_app. Qed.
Lemma sent_app e1 e2 : sent (e1 ++ e2) = sent e1 ++ sent e2.
Proof. apply omap_app. Qed.

(** One step takes from the front what it saves, and from what is saved what it
    sends. *)
Lemma rp_step_flow ok chan st chan' st' evs :
  rp_step ok chan false st = Some (chan', st', evs) →
  in_hand st ++ chan = saved_all evs ++ in_hand st' ++ chan' ∧
  to_send st ++ saved_ok evs = sent evs ++ to_send st'.
Proof.
  unfold rp_step, saved_all, saved_ok, sent.
  destruct st as [rs|[|r rs]| |], chan as [|r' chan]; cbn; intros E; simplify_eq/=; try done.
  - destruct rs, ok; simplify_eq/=; by rewrite ?app_nil_r.
  - by rewrite <- app_assoc.
  - by rewrite app_nil_r.
  - by rewrite app_nil_r.
Qed.

(** A response is saved before it is sent. *)
Definition saved_first (evs : list rp_event) : Prop :=
  ∀ pre r kind post, evs = pre ++ Sent r kind :: post → r ∈ saved_ok pre ∧ kind = Send r.

Lemma saved_first_app evs new :
  saved_first evs → (∀ pre r kind post, new = pre ++ Sent r kind :: post →
    r ∈ saved_ok (evs ++ pre) ∧ kind = Send r) → saved_first (evs ++ new).
Proof.
  intros He Hn pre r kind post E. apply app_eq_inv in E as [(k & -> & E)|(k & -> & E)].
  - destruct k as [|e k]; simplify_eq/=; [|by eapply He].
    specialize (Hn [] r kind post). rewrite !app_nil_r in Hn. by apply Hn.
  - by eapply Hn.
Qed.

Lemma rp_step_saved_first ok chan st chan' st' new evs :
  rp_step ok chan false st = Some (chan', st', new) →
  saved_first evs → (∀ r, r ∈ to_send st → r ∈ saved_ok evs) → saved_first (evs ++ new).
Proof.
  intros E He Hs. apply saved_first_app; [done|]. intros pre r kind post En.
  unfold rp_step in E. destruct st as [rs|[|r0 rs]| |], chan as [|r' chan]; simplify_eq/=;
    try (by destruct pre).
  - by destruct rs, ok, pre as [|? []]; simplify_eq/=.
  - destruct pre as [|? []]; simplify_eq/=. rewrite app_nil_r. split; [|done]. apply Hs. by left.
  - destruct pre as [|? []]; simplify_eq/=. rewrite app_nil_r. split; [|done]. apply Hs. by left.
Qed.

(** The invariant of a response processor and its channel. *)
Definition flow_inv (handed chan : list Response) (st : rp_state) (evs : list rp_event) : Prop :=
  handed = saved_all evs ++ in_hand st ++ chan ∧
  saved_ok evs = sent evs ++ to_send st ∧ saved_first evs.

Lemma rp_step_inv ok handed chan st chan' st' evs new :
  rp_step ok chan false st = Some (chan', st', new) →
  flow_inv handed chan st evs → flow_inv handed chan' st' (evs ++ new).
Proof.
  intros E (Hh & Hs & Hf). destruct (rp_step_flow _ _ _ _ _ _ E) as [E1 E2]. split_and!.
  - by rewrite Hh, E1, saved_all_app, <- app_assoc.
  - by rewrite saved_ok_app, sent_app, Hs, <- !app_assoc, E2.
  - eapply rp_step_saved_first; [done..|]. intros r Hr. rewrite Hs. apply elem_of_app. by right.
Qed.

(** ** The channel drains *)

(** The processor on its own for [n] steps, with nothing new in the channel;
    [oks] says what the callback answers in each step. *)
Fixpoint rp_run (n : nat) (oks : nat → bool) (chan : list Response) (st : rp_state)
    : list Response * rp_state * list rp_event :=
  match n with
  | O => (chan, st, [])
  | S n =>
      match rp_step (oks n) chan false st with
      | None => (chan, st, [])
      | Some (chan, st, new) =>
          let '(chan, st, evs) := rp_run n oks chan st in (chan, st, new ++ evs)
      end
  end.

(** A bound on the steps that are left. *)
Definition rp_measure (chan : list Response) (st : rp_state) : nat :=
  5 * length chan +
  match st with
  | Selecting rs => 2 * length rs + 2
  | Sending rs => 2 * length rs + 1
  | Receiving | Stopped => 0
  end.

Lemma rp_step_measure ok chan st chan' st' new :
  rp_step ok chan false st = Some (chan', st', new) →
  (rp_measure chan' st' < rp_measure chan st)%nat ∧ st' ≠ Stopped.
Proof.
  unfold rp_step, rp_measure.
  destruct st as [[|r0 rs]|[|r rs]| |], chan as [|r' chan]; intros E; simplify_eq/=;
    rewrite ?length_app; simpl; try (split; [lia|done]).
  destruct ok; simplify_eq/=; (split; [lia|done]).
Qed.

(** The only place to stop is the receive on the empty channel. *)
Lemma rp_step_None ok chan st : rp_step ok chan false st = None → st ≠ Stopped → chan = [] ∧ st = Receiving.
Proof.
  unfold rp_step. destruct st as [[|r0 rs]|[|r rs]| |], chan as [|r' chan]; try done; by destruct ok.
Qed.

(** What is sent along the way, if every batch is saved. *)
Lemma rp_step_sent chan st chan' st' new :
  rp_step true chan false st = Some (chan', st', new) →
  to_send st ++ in_hand st ++ chan = sent new ++ to_send st' ++ in_hand st' ++ chan'.
Proof.
  unfold rp_step. destruct st as [[|r0 rs]|[|r rs]| |], chan as [|r' chan]; intros E; simplify_eq/=;
    rewrite ?app_nil_r, <- ?app_assoc; done.
Qed.

(** C27: whatever the callback answers, the response processor gets through its
    channel: after at most [rp_measure] steps it waits at the empty channel.  If
    every batch is saved, it has sent everything by then, each response once, in
    the order of the channel. *)
Theorem processor_drains n oks chan st :
  st ≠ Stopped → (rp_measure chan st <= n)%nat →
  let '(chan', st', evs) := rp_run n oks chan st in
  chan' = [] ∧ st' = Receiving ∧
  ((∀ i, oks i = true) → sent evs = to_send st ++ in_hand st ++ chan).
Proof.
  revert chan st. induction n as [|n IH]; intros chan st Hst Hm; cbn [rp_run].
  - destruct (rp_step true chan false st) as [[[chan' st'] new]|] eqn:E.
    + apply rp_step_measure in E as [? _]. lia.
    + apply rp_step_None in E as [-> ->]; done.
  - destruct (rp_step (oks n) chan false st) as [[[chan1 st1] new]|] eqn:E.
    + destruct (rp_step_measure _ _ _ _ _ _ E) as [Hlt Hst1].
      specialize (IH chan1 st1 Hst1 ltac:(lia)).
      destruct (rp_run n oks chan1 st1) as [[chan2 st2] evs]. destruct IH as (-> & -> & Hs).
      split_and!; [done..|]. intros Hok. rewrite Hok in E. apply rp_step_sent in E.
      by rewrite sent_app, Hs, E.
    + apply rp_step_None in E as [-> ->]; done.
Qed.

(** A response of the test server, for examples. *)
Definition test_response : Response := {|
  Response_Request := test_discover; Response_Response := Request_DHCPv4 test_discover;
  Response_Lease := 0%nat |}.

Lemma processor_drains_witness :
  let '(chan', st', evs) := rp_run 30 (λ _, true) [test_response; test_response] (Selecting [test_response]) in
  chan' = [] ∧ st' = Receiving ∧
  ((∀ i : nat, (λ _ : nat, true) i = true) → sent evs = [test_response; test_response; test_response]).
Proof.
  apply (processor_drains 30 (λ _, true) [test_response; test_response] (Selecting [test_response]));
    [discriminate|cbv; lia].
Defined.

(** ** The pipeline *)

(** The responses on their way, and those handed over. *)
Definition all_responses (p : pipeline) : list Response :=
  handed p ++ match worker p with Some r => [r] | None => [] end.

(** The lease of a response exists and has the address that the response has. *)
Definition address_ok (h : lease_store) (r : Response) : Prop :=
  ∃ l, h !! Response_Lease r = Some l ∧ YourIPAddr (Response_Response r) = Lease_IP l.

Definition pipeline_inv (p : pipeline) : Prop :=
  server_inv (server p) ∧ Forall (λ req, client_ok (Request_DHCPv4 req)) (dhcpRequestChan p) ∧
  flow_inv (handed p) (responseChan p) (processor p) (events p) ∧
  Forall (address_ok (leases (server p))) (all_responses p).

Lemma address_ok_mono h h' r : store_le h h' → address_ok h r → address_ok h' r.
Proof.
  intros Hle (l & Hl & E). destruct (Hle _ _ Hl) as (l' & Hl' & (_ & Eip & _)).
  exists l'. split; [done|congruence].
Qed.

Lemma addresses_mono h h' rs : store_le h h' → Forall (address_ok h) rs → Forall (address_ok h') rs.
Proof. intros Hle. apply Forall_impl. intros r. by apply address_ok_mono. Qed.

Section reach.
Context (D : Dhcpv4) (L : Dhcpv4Laws D).

Lemma server_step_store s s' : server_step s s' → server_inv s → store_le (leases s) (leases s').
Proof.
  intros Hst Hs. destruct Hst as
    [tExp tNew orders req r s s' Ho Hc E|p b s|? ? cfg e s s' Hc E|k e s s' E|p l e s s' Hl Hok E
    |order l e s s' Hne Hk E|order host e s s' Hv Hm E|order host e s s' Hne Hk E
    |factory listen e s s' E|name e s s' E|order s].
  - destruct (GetResponse_inv tExp tNew orders s req Hs Ho Hc) as (r' & s'' & E' & _ & Hle & _).
    rewrite E in E'. by injection E' as <- <-.
  - cbn. auto with dhcp.
  - unfold AddSubnet in E. repeat case_match; simplify_eq; auto with dhcp.
  - unfold DeleteSubnet in E. repeat case_match; simplify_eq; auto with dhcp.
  - unfold Server_AddLease in E. repeat case_match; simplify_eq; auto with dhcp.
  - unfold Server_DeleteLease in E. repeat case_match; simplify_eq; auto with dhcp.
  - unfold Server_AddHost, AddHost in E. cbn [new_lease] in E. repeat case_match; simplify_eq; cbn; auto with dhcp.
  - unfold Server_DeleteHost in E. repeat case_match; simplify_eq; auto with dhcp.
  - unfold AddListen in E. repeat case_match; simplify_eq; auto with dhcp.
  - unfold DeleteListen in E. repeat case_match; simplify_eq; auto with dhcp.
  - cbn. auto with dhcp.
Qed.

(** A response as the server makes it has the address of its lease. *)
Lemma GetResponse_address tExp tNew orders s req r s' :
  server_inv s → (∀ i, range_order (orders i) (subnets s)) →
  GetResponse tExp tNew orders s req = Ret (Ok r, s') → address_ok (leases s') r.
Proof.
  intros Hs Ho HG.
  destruct (GetResponse_lease _ _ _ _ _ _ _ Hs Ho HG) as (k & sn & sn' & h1 & l & _ & _ & E1 & Hl & E & El & _).
  destruct (getResponse_Ok _ _ _ _ _ _ _ _ _ E) as (h1' & reply & E1' & _ & _ & _ & _ & Er).
  rewrite E1 in E1'. injection E1' as <-.
  exists (set_ServerId (Subnet_serverIPAddress sn') l). rewrite El, list_lookup_alter_eq, Hl.
  split; [done|]. rewrite Er. cbn. by rewrite (deref_Some _ _ _ Hl).
Qed.

(** The worker's step, all in one. *)
Lemma process_request_inv tExp tNew orders s req :
  server_inv s → (∀ i, range_order (orders i) (subnets s)) → client_ok (Request_DHCPv4 req) →
  ∃ w s', process_request tExp tNew orders s req = Ret (w, s') ∧ server_inv s' ∧
    store_le (leases s) (leases s') ∧ ∀ r, w = Some r → address_ok (leases s') r.
Proof.
  intros Hs Ho Hc. destruct (GetResponse_inv tExp tNew orders s req Hs Ho Hc) as (r & s1 & E & Hs1 & Hle & _).
  unfold process_request. rewrite E. cbn [mbind outcome_bind].
  destruct r as [r|e]; [|do 2 eexists; by split_and!].
  pose proof (GetResponse_address _ _ _ _ _ _ _ Hs Ho E) as Ha.
  assert (∀ b, let s2 := set_leases (alter (set_AckSent b) (Response_Lease r) (leases s1)) s1 in
    server_inv s2 ∧ store_le (leases s) (leases s2) ∧ address_ok (leases s2) r) as Hack.
  { intros b s2. assert (store_le (leases s1) (leases s2)) as Hle2 by (cbn; auto with dhcp).
    split_and!; [|by etrans|by eapply address_ok_mono].
    apply (server_step_inv s1); [apply ss_ack|done]. }
  cbv zeta. destruct (MessageType _ =? MessageTypeOffer); [|destruct (MessageType _ =? MessageTypeAck)].
  - destruct (Hack false) as (? & ? & ?). do 2 eexists. split_and!; [done..|]. by intros ? [= <-].
  - destruct (Hack true) as (? & ? & ?). do 2 eexists. split_and!; [done..|]. by intros ? [= <-].
  - do 2 eexists. by split_and!.
Qed.

Lemma pipeline_step_inv p p' : pipeline_step p p' → pipeline_inv p → pipeline_inv p'.
Proof.
  intros Hst (Hs & Hq & Hf & Ha). destruct Hst as
    [req p Hlen Hc|tExp tNew orders req reqs p w s Eq Ew Ho E|r p Ew Hlen|ok chan st evs p E|s p E];
    unfold pipeline_inv, all_responses in *; cbn [server dhcpRequestChan handed responseChan processor events worker].
  - split_and!; [done| |done|done]. apply Forall_app. by repeat constructor.
  - rewrite Eq in Hq. inversion Hq as [|? ? Hc Hq']; subst.
    destruct (process_request_inv tExp tNew orders (server p) req Hs Ho Hc) as (w' & s' & E' & Hs' & Hle & Hw).
    rewrite E in E'. injection E' as <- <-. split_and!; [done..|].
    rewrite Ew, app_nil_r in Ha. apply Forall_app. split; [by eapply addresses_mono|].
    destruct w as [r|]; [|done]. repeat constructor. by apply Hw.
  - rewrite Ew in Ha. split_and!; [done|done| |by rewrite app_nil_r].
    destruct Hf as (-> & ? & ?). split_and!; [|done|done]. by rewrite <- !app_assoc.
  - split_and!; [done|done|by eapply rp_step_inv|done].
  - split_and!; [by eapply server_step_inv|done|done|].
    eapply addresses_mono, Ha. by apply server_step_store.
Qed.

Lemma pipeline_reachable_inv p p' : rtc pipeline_step p p' → pipeline_inv p → pipeline_inv p'.
Proof. induction 1 as [|p p1 p2 Hst _ IH]; eauto using pipeline_step_inv. Qed.

Lemma NewRequestProcessor_inv factory s listen sock p :
  server_inv s → NewRequestProcessor factory s listen = Ok (sock, p) → pipeline_inv p.
Proof.
  intros Hs. unfold NewRequestProcessor. destruct (factory _ _) as [x|]; [|done].
  intros [= <- <-]. split_and!; [done|constructor| |constructor].
  split_and!; [done|done|]. intros [] ? ? ? E; discriminate E.
Qed.
End reach.

(** C15: in every state the pipeline reaches, the responses put into the channel
    are, in order and each once, those of the batches given to the callback,
    those in the hands of the response processor and those still in the channel;
    the responses that were sent, followed by those about to be sent, are the
    accepted batches, in order; and a response is sent after it was saved.  A
    batch the callback refuses is never sent. *)
Theorem saved_before_sent (D : Dhcpv4) (L : Dhcpv4Laws D) factory s listen sock p0 p :
  server_inv s → NewRequestProcessor factory s listen = Ok (sock, p0) → rtc pipeline_step p0 p →
  handed p = saved_all (events p) ++ in_hand (processor p) ++ responseChan p ∧
  saved_ok (events p) = sent (events p) ++ to_send (processor p) ∧
  ∀ pre r kind post, events p = pre ++ Sent r kind :: post → r ∈ saved_ok pre ∧ kind = Send r.
Proof.
  intros Hs HN Hr. pose proof (NewRequestProcessor_inv _ _ _ _ _ Hs HN) as H0.
  by destruct (pipeline_reachable_inv D L _ _ Hr H0) as (_ & _ & Hf & _).
Qed.

Lemma saved_ok_all evs r : r ∈ saved_ok evs → r ∈ saved_all evs.
Proof.
  unfold saved_ok, saved_all. induction evs as [|[rs []|r' k] evs IH]; cbn; [done|..|done].
  - rewrite !elem_of_app. tauto.
  - rewrite elem_of_app. tauto.
Qed.

(** C21: every lease that is saved, and every address that is sent, is the
    lease's and the response's at once: in every state the pipeline reaches, each
    response handed to the callback or sent has a lease, whose address is the one
    in the packet, whatever else has happened to the server since. *)
Theorem sent_address_is_leased (D : Dhcpv4) (L : Dhcpv4Laws D) factory s listen sock p0 p r :
  server_inv s → NewRequestProcessor factory s listen = Ok (sock, p0) → rtc pipeline_step p0 p →
  r ∈ saved_all (events p) ∨ r ∈ sent (events p) →
  ∃ l, leases (server p) !! Response_Lease r = Some l ∧ YourIPAddr (Response_Response r) = Lease_IP l.
Proof.
  intros Hs HN Hr Hin. pose proof (NewRequestProcessor_inv _ _ _ _ _ Hs HN) as H0.
  destruct (pipeline_reachable_inv D L _ _ Hr H0) as (_ & _ & (Hh & Hok & _) & Ha).
  rewrite Forall_forall in Ha. apply Ha, list_elem_of_In. unfold all_responses.
  rewrite Hh, !elem_of_app. destruct Hin as [Hin|Hin]; [tauto|]. left. left.
  apply saved_ok_all. rewrite Hok, elem_of_app. by left.
Qed.

(** The test's discover, from the socket to the wire. *)
Definition test_listen : Listen := {| Listen_Name := "l"; Listen_Interface := "br1"; Listen_Addr := "" |}.
Definition test_pipeline : pipeline := {|
  dhcpRequestChan := []; worker := None; responseChan := []; processor := Selecting [];
  server := test_server; handed := []; events := [] |}.

Lemma test_run :
  ∃ p r, rtc (pipeline_step (D := rfc_lib)) test_pipeline p ∧
         events p = [Saved [r] true; Sent r (Send r)].
Proof.
  assert (∃ r s, process_request (D := rfc_lib) test_now test_now (λ _, keys12) test_server test_discover
    = Ret (Some r, s)) as (r & s & E) by (do 2 eexists; vm_compute; reflexivity).
  eexists _, r. split.
  - eapply rtc_l; [apply (ps_serve test_discover); [by apply Nat.ltb_lt|apply test_discover_ok]|].
    eapply rtc_l; [eapply ps_request; [reflexivity|reflexivity|apply test_server_orders|exact E]|].
    eapply rtc_l; [eapply ps_hand; [reflexivity|by apply Nat.ltb_lt]|].
    eapply rtc_l; [eapply (ps_response true); reflexivity|].
    eapply rtc_l; [eapply (ps_response true); reflexivity|].
    eapply rtc_l; [eapply (ps_response true); reflexivity|]. apply rtc_refl.
  - reflexivity.
Qed.

Lemma saved_before_sent_witness :
  ∃ p r, rtc (pipeline_step (D := rfc_lib)) test_pipeline p ∧
         events p = [Saved [r] true; Sent r (Send r)] ∧ r ∈ saved_ok [Saved [r] true].
Proof.
  destruct test_run as (p & r & Hr & He). exists p, r. split; [exact Hr|]. split; [exact He|].
  destruct (saved_before_sent rfc_lib rfc_lib_laws (λ _ _, Ok 0%nat) test_server test_listen 0%nat
    test_pipeline p test_server_inv eq_refl Hr) as (_ & _ & Hf).
  apply (Hf [Saved [r] true] r (Send r) []). exact He.
Defined.

Lemma sent_address_is_leased_witness :
  ∃ p r l, rtc (pipeline_step (D := rfc_lib)) test_pipeline p ∧ r ∈ sent (events p) ∧
    leases (server p) !! Response_Lease r = Some l ∧ YourIPAddr (Response_Response r) = Lease_IP l.
Proof.
  destruct test_run as (p & r & Hr & He).
  assert (r ∈ sent (events p)) as Hin by (rewrite He; apply list_elem_of_here).
  destruct (sent_address_is_leased rfc_lib rfc_lib_laws (λ _ _, Ok 0%nat) test_server test_listen 0%nat
    test_pipeline p r test_server_inv eq_refl Hr (or_intror Hin)) as (l & Hl & E).
  exists p, r, l. auto.
Defined.

(** ** The loop of [Serve] *)

(** A result after which the loop goes on. *)
Definition goes_on (unwrap_op : error → option op_error) (r : result error Request) : Prop :=
  match r with
  | Ok _ => True
  | Err err => ∃ e, unwrap_op err = Some e ∧ op_closed e = false ∧ op_temporary e = true
  end.

Definition requests_of (reads : list (result error Request)) : list Request :=
  omap (λ r, match r with Ok req => Some req | Err _ => None end) reads.

(** [Serve] passes on every request, in order, and skips temporary errors;
    it ends at the first other error, without an error if the socket was closed,
    with the operation error if there is one inside, and otherwise by dereferencing a
    nil pointer. *)
Theorem Serve_spec unwrap_op reads :
  ∃ pre post, reads = pre ++ post ∧ Forall (goes_on unwrap_op) pre ∧
    (Serve unwrap_op reads).1 = requests_of pre ∧
    match post with
    | [] => (Serve unwrap_op reads).2 = Ret None
    | Ok _ :: _ => False
    | Err err :: _ =>
        match unwrap_op err with
        | None => ∃ why, (Serve unwrap_op reads).2 = Panic why
        | Some e => if op_closed e then (Serve unwrap_op reads).2 = Ret (Some None)
                    else op_temporary e = false ∧ (Serve unwrap_op reads).2 = Ret (Some (Some (op_self e)))
        end
    end.
Proof.
  induction reads as [|r reads (pre & post & -> & Hpre & IH1 & IH2)]; [by exists [], []|].
  cbn [Serve]. unfold serve_one. destruct r as [req|err].
  - exists (Ok req :: pre), post. destruct (Serve unwrap_op (pre ++ post)) as [reqs e].
    split_and!; [done|by constructor|by cbn in *; f_equal|done].
  - destruct (unwrap_op err) as [e|] eqn:Eu; [destruct (op_closed e) eqn:Ec; [|destruct (op_temporary e) eqn:Et]|].
    + exists [], (Err err :: pre ++ post). rewrite Eu, Ec. by split_and!.
    + exists (Err err :: pre), post. split_and!; [done| |done|done].
      constructor; [|done]. by exists e.
    + exists [], (Err err :: pre ++ post). rewrite Eu, Ec. by split_and!.
    + exists [], (Err err :: pre ++ post). rewrite Eu. split_and!; [done..|]. by eexists.
Qed.
