(* ===== verification/Socket.v ===== *)
(** * [dhcp/socket.go] and [dhcp/broadcast_responder.go]: the wire

    Opening a socket, reading a request from it, and the two ways to answer.
    The system calls and the packet libraries are parameters: what a read gives,
    how bytes become a packet, how a frame becomes bytes, what a write answers. *)

From S2P Require Import Prelude GoStrings GoNet Errors IPv4 Types Dhcpv4 Subnet.
From S2P Require Import LeaseCache Pool SubnetProps SubnetNet Server ServerProps.
From S2P Require Import Responses ServerGuarantees ServerReach RequestProcessor Pipeline.
Open Scope string_scope.
Open Scope list_scope.
Open Scope Z_scope.

(** The ports of the protocol, [dhcpv4.ServerPort] and [dhcpv4.ClientPort]. *)
Definition ServerPort : Z := 67.
Definition ClientPort : Z := 68.

(** ** [NewUDPSocket] *)

Section open.
(* the connection, and the state of a broadcast responder *)
Context {conn responder : Type}.

Record UDPSocket := {
  udpConn : conn;
  us_interfaceName : string;
  us_listenAddress : string;
  us_listenPort : Z;
  bcResponders : gmap string responder;
}.

(* server4.NewIPv4UDPConn, and SetControlMessage on the connection *)
Variable NewIPv4UDPConn : string → net_IP → Z → result error conn.
Variable SetControlMessage : conn → option error.

(** The part of [NewUDPSocket] after the address was read. *)
Definition open_socket (listenAddress listenInterface host : string) (port : Z)
    : option UDPSocket * option error :=
  match NewIPv4UDPConn listenInterface (ParseIP host) port with
  | Err e => (None, Some e)
  | Ok c => (Some {| udpConn := c; us_interfaceName := listenInterface;
                     us_listenAddress := listenAddress; us_listenPort := port;
                     bcResponders := ∅ |}, SetControlMessage c)
  end.

Definition NewUDPSocket (listenAddress listenInterface : string) : option UDPSocket * option error :=
  match split ":" listenAddress with
  | [host] => open_socket listenAddress listenInterface host ServerPort
  | [host; port] =>
      match ParseInt port 16 with
      | Err e => (None, Some (ENum e))
      | Ok port => open_socket listenAddress listenInterface host port
      end
  | _ => (None, Some (EInvalidListenAddress listenAddress))
  end.

(** An address with a port is opened at that port if the port is below
    32768; the upper half of the port numbers, which the protocol allows, is
    refused, since the text is read as a signed sixteen-bit number.  Without a
    port it is the port of the protocol, and with more than one colon (so any
    IPv6 address) it is refused. *)
Theorem NewUDPSocket_ports host port iface :
  contains_char ":" host = false → 0 <= port < 65536 →
  let addr := host +:+ ":" +:+ itoa port in
  NewUDPSocket addr iface =
    (if port <? 32768 then open_socket addr iface host port
     else (None, Some (ENum (ErrRange "ParseInt" (itoa port))))) ∧
  NewUDPSocket host iface = open_socket host iface host ServerPort ∧
  (∀ rest, contains_char ":" rest = true →
     NewUDPSocket (host +:+ ":" +:+ rest) iface =
       (None, Some (EInvalidListenAddress (host +:+ ":" +:+ rest)))).
Proof.
  intros Hh Hp addr. split_and!.
  - unfold NewUDPSocket, addr. change (":" +:+ itoa port) with (String ":" (itoa port)).
    rewrite split_cons, (split_none _ (itoa port)) by (done || (apply itoa_no_char; [done|lia])).
    rewrite ParseInt_itoa by lia. change (2 ^ (16 - 1)) with 32768. by destruct (port <? 32768).
  - unfold NewUDPSocket. by rewrite split_none.
  - intros rest Hr. unfold NewUDPSocket. change (":" +:+ rest) with (String ":" rest).
    rewrite split_cons by done. pose proof (split_pieces ":" rest) as Hf.
    pose proof (join_split ":" rest) as Hj. pose proof (split_nonempty ":" rest) as Hne.
    destruct (split ":" rest) as [|w [|w' ws]]; [done| |done].
    inversion Hf as [|? ? Hw _]; subst. cbn in Hr. congruence.
Qed.
End open.
#[global] Arguments UDPSocket : clear implicits.

Lemma NewUDPSocket_ports_witness :
  NewUDPSocket (responder := unit) (λ _ ip port, Ok (ip, port)) (λ _, None) "0.0.0.0:40000" "br1" =
    (None, Some (ENum (ErrRange "ParseInt" "40000"))).
Proof.
  refine (proj1 (NewUDPSocket_ports (responder := unit) (λ _ ip port, Ok (ip, port)) (λ _, None)
    "0.0.0.0" 40000 "br1" eq_refl _)). lia.
Defined.

(** ** [NextRequest] *)

(** What [ReadFrom] gives: the bytes, the control message if there is one (the
    index of the interface and the destination), and the sender. *)
Record datagram := { dg_bytes : list Z; dg_cm : option (Z * net_IP); dg_src : string }.

Section next.
Variable InterfaceByIndex : Z → result error string.
Variable FromBytes : list Z → result error DHCPv4.

Definition NextRequest (sock : socket_id) (read : result error datagram)
    : outcome (result error Request) :=
  match read with
  | Err e => Ret (Err e)
  | Ok d =>
      match dg_cm d with
      | None => Panic "invalid memory address or nil pointer dereference"
      | Some (ifindex, dst) =>
          match InterfaceByIndex ifindex with
          | Err e => Ret (Err e)
          | Ok name =>
              match FromBytes (dg_bytes d) with
              | Err e => Ret (Err e)
              | Ok pkt => Ret (Ok {| Request_DHCPv4 := pkt; Request_Src := dg_src d;
                                     Request_InterfaceName := name; Request_Dst := dst;
                                     Request_socket := sock |})
              end
          end
      end
  end.

(** The loop of [Serve] on a socket: the results of its reads, up to a panic
    of a read itself. *)
Fixpoint read_all (sock : socket_id) (reads : list (result error datagram))
    : outcome (list (result error Request)) :=
  match reads with
  | [] => Ret []
  | r :: reads => x ← NextRequest sock r; xs ← read_all sock reads; Ret (x :: xs)
  end.

(** A datagram that arrives with a control message of a known interface. *)
Definition arrives (d : datagram) : Prop :=
  ∃ ifindex dst name, dg_cm d = Some (ifindex, dst) ∧ InterfaceByIndex ifindex = Ok name.

Lemma NextRequest_arrives sock d :
  arrives d →
  ∃ x, NextRequest sock (Ok d) = Ret x ∧
    match FromBytes (dg_bytes d), x with
    | Ok pkt, Ok req => Request_DHCPv4 req = pkt
    | Err e, Err e' => e' = e
    | _, _ => False
    end.
Proof.
  intros (ifindex & dst & name & Hcm & Hif). unfold NextRequest. rewrite Hcm, Hif.
  destruct (FromBytes (dg_bytes d)); eexists; (split; [reflexivity|done]).
Qed.

(** C37: one datagram that the packet library rejects, with an error that does
    not wrap an operation error of the network, ends the program: the requests
    before it are served, then [Serve] dereferences a nil pointer. *)
Theorem malformed_packet_panics unwrap_op sock good bad rest e :
  Forall (λ d, arrives d ∧ is_ok (FromBytes (dg_bytes d)) = true) good →
  arrives bad → FromBytes (dg_bytes bad) = Err e → unwrap_op e = None →
  Forall arrives rest →
  ∃ results why, read_all sock (Ok <$> good ++ bad :: rest) = Ret results ∧
    Request_DHCPv4 <$> (Serve unwrap_op results).1 =
      omap (λ d, match FromBytes (dg_bytes d) with Ok pkt => Some pkt | Err _ => None end) good ∧
    (Serve unwrap_op results).2 = Panic why.
Proof.
  intros Hgood Hbad Hb He Hrest. induction Hgood as [|d good [Ha Hok] _ IH].
  - assert (∃ xs, read_all sock (Ok <$> rest) = Ret xs) as [xs Exs].
    { clear -Hrest. induction Hrest as [|d rest Ha _ [xs IH]]; cbn [read_all fmap list_fmap]; [by eexists|].
      destruct (NextRequest_arrives sock d Ha) as (x & -> & _). cbn [mbind outcome_bind].
      change (list_fmap _ _ Ok rest) with (Ok (E := error) <$> rest). rewrite IH. by eexists. }
    destruct (NextRequest_arrives sock bad Hbad) as (x & Ex & Hx). rewrite Hb in Hx.
    destruct x as [|e']; [done|]. subst e'. eexists _, _. cbn [app fmap list_fmap read_all].
    rewrite Ex. cbn [mbind outcome_bind]. change (list_fmap _ _ Ok rest) with (Ok (E := error) <$> rest).
    rewrite Exs. split; [reflexivity|]. cbn [Serve serve_one]. rewrite He. by split.
  - destruct IH as (results & why & E & E1 & E2).
    destruct (NextRequest_arrives sock d Ha) as (x & Ex & Hx).
    destruct (FromBytes (dg_bytes d)) as [pkt|] eqn:Ef; [|done]. destruct x as [req|]; [|done].
    exists (Ok req :: results), why. cbn [app fmap list_fmap read_all]. rewrite Ex. cbn [mbind outcome_bind].
    change (list_fmap _ _ Ok (good ++ bad :: rest)) with (Ok (E := error) <$> good ++ bad :: rest).
    rewrite E. split; [done|]. cbn [Serve serve_one omap list_omap]. rewrite Ef.
    destruct (Serve unwrap_op results) as [reqs o]. cbn in *. split; [by rewrite Hx, E1|done].
Qed.
End next.

Definition toy_FromBytes (b : list Z) : result error DHCPv4 :=
  match b with
  | [] => Err (EExternal "malformed DHCP packet")
  | _ :: _ => Ok (Request_DHCPv4 test_discover)
  end.
Definition toy_datagram (b : list Z) : datagram := {| dg_bytes := b; dg_cm := Some (3, None); dg_src := "" |}.

Lemma malformed_packet_panics_witness :
  ∃ results why,
    read_all (λ _, Ok "br1") toy_FromBytes 0%nat (Ok <$> [toy_datagram [1]] ++ toy_datagram [] :: [toy_datagram [2]])
      = Ret results ∧
    Request_DHCPv4 <$> (Serve (λ _, None) results).1 = [Request_DHCPv4 test_discover] ∧
    (Serve (λ _, None) results).2 = Panic why.
Proof.
  apply (malformed_packet_panics (λ _, Ok "br1") toy_FromBytes (λ _, None) 0%nat [toy_datagram [1]]
    (toy_datagram []) [toy_datagram [2]] (EExternal "malformed DHCP packet")).
  - repeat constructor. by exists 3, None, "br1".
  - by exists 3, None, "br1".
  - reflexivity.
  - reflexivity.
  - repeat constructor. by exists 3, None, "br1".
Defined.

(** ** [SendResponse] *)

Section send.
Context `{D : Dhcpv4}.

(** The answer to a relayed request: the source address that the system would
    use towards the relay, [getSrcAddr], becomes the server identifier, and the
    packet goes to the sender of the request.  The result is what was written
    to the socket, if anything, and the error. *)
Definition SendResponse_udp (getSrcAddr : net_IP → result error net_IP)
    (WriteTo : DHCPv4 → string → option error) (req : Request) (resp : DHCPv4)
    : option (DHCPv4 * string) * option error :=
  match getSrcAddr (GatewayIPAddr (Request_DHCPv4 req)) with
  | Err e => (None, Some e)
  | Ok src =>
      let resp := UpdateOption 54 (VIP src) resp in
      (Some (resp, Request_Src req), WriteTo resp (Request_Src req))
  end.

(** ** The broadcast responder *)

Record BroadcastResponder := {
  br_fd : Z;
  br_ifindex : Z;
  br_ifname : interfaceName;
  br_srcMAC : HardwareAddr;
  br_dstMAC : HardwareAddr;
  br_srcIP : net_IP;
  br_dstIP : net_IP;
}.

(** An Ethernet frame with its layers. *)
Record frame := {
  fr_srcMAC : HardwareAddr;
  fr_dstMAC : HardwareAddr;
  fr_srcIP : net_IP;
  fr_dstIP : net_IP;
  fr_srcPort : Z;
  fr_dstPort : Z;
  fr_payload : DHCPv4;
}.

(** The system and [gopacket]: the interface of a name, a raw socket, the two
    calls on it, the layer that a packet parses to ([None] if there is none,
    else whether it can be serialised), the bytes of a frame, the capacity of a
    hardware address, and the system call that sends. *)
Context (InterfaceByName : string → result error (Z * HardwareAddr))
  (RawSocket : result error Z) (SetsockoptInt : Z → option error)
  (SetNetworkLayerForChecksum : option error)
  (Layer : DHCPv4 → option bool) (SerializeLayers : frame → result error (list Z))
  (hw_cap : HardwareAddr → nat) (Sendto : Z → list Z → option error).

Definition RawSocketBroadcastResponderFactory (ifName : interfaceName) : result error BroadcastResponder :=
  match InterfaceByName ifName with
  | Err e => Err e
  | Ok (ifindex, mac) =>
      match RawSocket with
      | Err e => Err (EWrapped "cannot open socket" e)
      | Ok fd =>
          match SetsockoptInt fd with
          | Some e => Err (EWrapped "cannot set option for socket" e)
          | None =>
              match SetNetworkLayerForChecksum with
              | Some e => Err (EWrapped "couldn't set network layer" e)
              | None => Ok {| br_fd := fd; br_ifindex := ifindex; br_ifname := ifName;
                              br_srcMAC := mac; br_dstMAC := []; br_srcIP := None; br_dstIP := None |}
              end
          end
      end
  end.

Definition address_responder (r : BroadcastResponder) (resp : DHCPv4) : BroadcastResponder := {|
  br_fd := br_fd r; br_ifindex := br_ifindex r; br_ifname := br_ifname r; br_srcMAC := br_srcMAC r;
  br_dstMAC := ClientHWAddr resp; br_srcIP := ServerIPAddr resp; br_dstIP := YourIPAddr resp |}.

Definition frame_of (r : BroadcastResponder) (resp : DHCPv4) : frame := {|
  fr_srcMAC := br_srcMAC r; fr_dstMAC := br_dstMAC r; fr_srcIP := br_srcIP r; fr_dstIP := br_dstIP r;
  fr_srcPort := ServerPort; fr_dstPort := ClientPort; fr_payload := resp |}.

(** [BroadcastResponder.Send]: the responder, the frame given to the system, if
    any, and the error.  The layer that is not there is asked for its type. *)
Definition Broadcast_Send (r : BroadcastResponder) (resp : DHCPv4)
    : outcome (BroadcastResponder * option frame * option error) :=
  let r := address_responder r resp in
  match Layer resp with
  | None => Panic "invalid memory address or nil pointer dereference"
  | Some false => Ret (r, None, Some ENotSerializable)
  | Some true =>
      match SerializeLayers (frame_of r resp) with
      | Err e => Ret (r, None, Some (EWrapped "cannot serialize layer" e))
      | Ok bytes =>
          if (hw_cap (ClientHWAddr resp) <? 6)%nat then Panic "slice bounds out of range"
          else Ret (r, Some (frame_of r resp), Sendto (br_fd r) bytes)
      end
  end.

(** ** [SendBroadcast] *)

Definition set_bcResponders {conn} (m : gmap string BroadcastResponder)
    (s : UDPSocket conn BroadcastResponder) : UDPSocket conn BroadcastResponder := {|
  udpConn := udpConn s; us_interfaceName := us_interfaceName s; us_listenAddress := us_listenAddress s;
  us_listenPort := us_listenPort s; bcResponders := m |}.

Definition SendBroadcast_udp {conn} (s : UDPSocket conn BroadcastResponder) (req : Request) (resp : DHCPv4)
    : outcome (UDPSocket conn BroadcastResponder * option frame * option error) :=
  let ifname := Request_InterfaceName req in
  let use (s : UDPSocket conn BroadcastResponder) (r : BroadcastResponder) :=
    '(r, fr, err) ← Broadcast_Send r resp;
    Ret (set_bcResponders (<[ifname := r]> (bcResponders s)) s, fr, err) in
  match bcResponders s !! ifname with
  | Some r => use s r
  | None =>
      match RawSocketBroadcastResponderFactory ifname with
      | Err e => Ret (s, None, Some e)
      | Ok r => use (set_bcResponders (<[ifname := r]> (bcResponders s)) s) r
      end
  end.

(** The responder of an interface: which socket and source it sends from. *)
Definition responder_of {conn} (s : UDPSocket conn BroadcastResponder) (ifname : string)
    : option (Z * Z * HardwareAddr) :=
  (λ r, (br_fd r, br_ifindex r, br_srcMAC r)) <$> bcResponders s !! ifname.

Lemma Broadcast_Send_same r resp r' fr err :
  Broadcast_Send r resp = Ret (r', fr, err) → r' = address_responder r resp.
Proof. unfold Broadcast_Send. repeat case_match; congruence. Qed.

(** A frame that is broadcast carries the response, to its client. *)
Lemma SendBroadcast_frame {conn} (s s' : UDPSocket conn BroadcastResponder) req resp fr err :
  SendBroadcast_udp s req resp = Ret (s', Some fr, err) →
  fr_dstMAC fr = ClientHWAddr resp ∧ fr_payload fr = resp.
Proof.
  assert (∀ r r' e, Broadcast_Send r resp = Ret (r', Some fr, e) →
    fr_dstMAC fr = ClientHWAddr resp ∧ fr_payload fr = resp) as Hs.
  { intros r r' e. unfold Broadcast_Send. repeat case_match; try done. by intros [= _ <- _]. }
  unfold SendBroadcast_udp. destruct (bcResponders s !! _) as [r|].
  - destruct (Broadcast_Send r resp) as [[[r' fr'] err']| |] eqn:E; try done.
    cbn [mbind outcome_bind]. intros [= _ -> _]. by eapply Hs.
  - destruct (RawSocketBroadcastResponderFactory _) as [r|]; [|done].
    destruct (Broadcast_Send r resp) as [[[r' fr'] err']| |] eqn:E; try done.
    cbn [mbind outcome_bind]. intros [= _ -> _]. by eapply Hs.
Qed.

(** A socket opens at most one raw socket for an interface: once there is
    a responder for it, every later broadcast, whatever its outcome, goes out
    by that one, and the responders of the other interfaces are untouched. *)
Theorem responder_kept {conn} (s s' : UDPSocket conn BroadcastResponder) req resp fr err ifname x :
  SendBroadcast_udp s req resp = Ret (s', fr, err) →
  responder_of s ifname = Some x → responder_of s' ifname = Some x.
Proof.
  unfold SendBroadcast_udp, responder_of. set (i := Request_InterfaceName req). intros E Hx.
  destruct (bcResponders s !! i) as [r|] eqn:Hi.
  - destruct (Broadcast_Send r resp) as [[[r' fr'] err']| |] eqn:Es; try done.
    apply Broadcast_Send_same in Es as ->. cbn [mbind outcome_bind] in E. injection E as <- <- <-.
    cbn [bcResponders set_bcResponders]. rewrite lookup_insert. case_decide; subst; [|done].
    rewrite Hi in Hx. done.
  - destruct (RawSocketBroadcastResponderFactory i) as [r|e]; [|by injection E as <- <- <-].
    destruct (Broadcast_Send r resp) as [[[r' fr'] err']| |] eqn:Es; try done.
    cbn [mbind outcome_bind] in E. injection E as <- <- <-. cbn [bcResponders set_bcResponders].
    rewrite insert_insert_eq, lookup_insert. case_decide; subst; [|done]. by rewrite Hi in Hx.
Qed.
End send.

Definition busy_socket : UDPSocket unit BroadcastResponder := {|
  udpConn := tt; us_interfaceName := ""; us_listenAddress := ""; us_listenPort := 67;
  bcResponders := {["br1" := {| br_fd := 7; br_ifindex := 3; br_ifname := "br1";
    br_srcMAC := [2; 0; 0; 0; 0; 9]; br_dstMAC := []; br_srcIP := None; br_dstIP := None |}]} |}.

Lemma responder_kept_witness :
  ∃ s' fr err,
    SendBroadcast_udp (λ _, Ok (4, [2; 0; 0; 0; 0; 1])) (Ok 9) (λ _, None) None (λ _, Some true)
      (λ _, Ok [1]) (@length Z) (λ _ _, None) busy_socket test_discover (Request_DHCPv4 test_discover)
      = Ret (s', fr, err) ∧
    responder_of s' "br1" = Some (7, 3, [2; 0; 0; 0; 0; 9]).
Proof.
  assert (∃ s' fr err,
    SendBroadcast_udp (λ _, Ok (4, [2; 0; 0; 0; 0; 1])) (Ok 9) (λ _, None) None (λ _, Some true)
      (λ _, Ok [1]) (@length Z) (λ _ _, None) busy_socket test_discover (Request_DHCPv4 test_discover)
      = Ret (s', fr, err)) as (s' & fr & err & E) by (do 3 eexists; vm_compute; reflexivity).
  exists s', fr, err. split; [exact E|].
  apply (responder_kept _ _ _ _ _ _ _ _ busy_socket s' _ _ fr err "br1" _ E). reflexivity.
Defined.

(** ** The answer to a broadcast *)

Section answer.
Context (D : Dhcpv4) (L : Dhcpv4Laws D).
Context (InterfaceByName : string → result error (Z * HardwareAddr))
  (RawSocket : result error Z) (SetsockoptInt : Z → option error)
  (SetNetworkLayerForChecksum : option error)
  (Layer : DHCPv4 → option bool) (SerializeLayers : frame → result error (list Z))
  (hw_cap : HardwareAddr → nat) (Sendto : Z → list Z → option error).

Abbreviation factory :=
  (RawSocketBroadcastResponderFactory InterfaceByName RawSocket SetsockoptInt SetNetworkLayerForChecksum).
Abbreviation broadcast :=
  (SendBroadcast_udp InterfaceByName RawSocket SetsockoptInt SetNetworkLayerForChecksum
     Layer SerializeLayers hw_cap Sendto).

(** A responder is there or can be made. *)
Definition can_respond {conn} (sock : UDPSocket conn BroadcastResponder) (ifname : string) : Prop :=
  is_Some (bcResponders sock !! ifname) ∨ is_ok (factory ifname) = true.

Lemma broadcast_frame {conn} (sock : UDPSocket conn BroadcastResponder) req resp :
  can_respond sock (Request_InterfaceName req) →
  Layer resp = Some true → (∀ fr, is_ok (SerializeLayers fr) = true) →
  (6 <= hw_cap (ClientHWAddr resp))%nat →
  ∃ sock' fr err, broadcast sock req resp = Ret (sock', Some fr, err) ∧
    fr_dstMAC fr = ClientHWAddr resp ∧ fr_dstIP fr = YourIPAddr resp ∧ fr_srcIP fr = ServerIPAddr resp ∧
    fr_srcPort fr = ServerPort ∧ fr_dstPort fr = ClientPort ∧ fr_payload fr = resp.
Proof.
  intros Hr Hl Hs Hcap.
  assert (∀ r, ∃ err, Broadcast_Send Layer SerializeLayers hw_cap Sendto r resp =
    Ret (address_responder r resp, Some (frame_of (address_responder r resp) resp), err)) as Hsend.
  { intros r. unfold Broadcast_Send. rewrite Hl.
    specialize (Hs (frame_of (address_responder r resp) resp)).
    destruct (SerializeLayers _); [|done]. apply Nat.ltb_ge in Hcap. rewrite Hcap. by eexists. }
  unfold SendBroadcast_udp. destruct (bcResponders sock !! Request_InterfaceName req) as [r|] eqn:Hi.
  - destruct (Hsend r) as [err ->]. cbn [mbind outcome_bind]. do 3 eexists. split; [done|]. by split_and!.
  - destruct Hr as [[? ?]|Hf]; [congruence|]. destruct (factory _) as [r|]; [|done].
    destruct (Hsend r) as [err ->]. cbn [mbind outcome_bind]. do 3 eexists. split; [done|]. by split_and!.
Qed.

(** C28: a response that goes out as a broadcast is framed for the client that
    asked, whatever responder it is sent by: to the client's hardware address
    and the address of its lease, from the server identifier of the lease, from
    the server port to the client port, with the response as payload. *)
Theorem broadcast_reaches_client {conn} (sock : UDPSocket conn BroadcastResponder)
    tExp tNew orders s req rsp s' :
  server_inv s → (∀ i, range_order (orders i) (subnets s)) →
  GetResponse tExp tNew orders s req = Ret (Ok rsp, s') →
  can_respond sock (Request_InterfaceName req) →
  Layer (Response_Response rsp) = Some true → (∀ fr, is_ok (SerializeLayers fr) = true) →
  (6 <= hw_cap (ClientHWAddr (Request_DHCPv4 req)))%nat →
  let l := deref (leases s') (Response_Lease rsp) in
  ∃ sock' fr err, broadcast sock req (Response_Response rsp) = Ret (sock', Some fr, err) ∧
    fr_dstMAC fr = ClientHWAddr (Request_DHCPv4 req) ∧ fr_dstIP fr = Lease_IP l ∧
    fr_srcIP fr = Lease_ServerId l ∧ fr_srcPort fr = ServerPort ∧ fr_dstPort fr = ClientPort ∧
    fr_payload fr = Response_Response rsp.
Proof.
  intros Hs Ho HG Hr Hl Hser Hcap l.
  destruct (GetResponse_lease _ _ _ _ _ _ _ Hs Ho HG) as (k & sn & sn' & h1 & l1 & _ & _ & E1 & Hl1 & E & El & _).
  destruct (getResponse_Ok _ _ _ _ _ _ _ _ _ E) as (h1' & reply & E1' & Er & _ & _ & _ & Hresp).
  rewrite E1 in E1'. injection E1' as <-. destruct (NewReply_fields _ _ Er) as (_ & _ & Hhw & _).
  assert (ClientHWAddr (Response_Response rsp) = ClientHWAddr (Request_DHCPv4 req)) as Hc
    by (rewrite Hresp; done).
  assert (YourIPAddr (Response_Response rsp) = Lease_IP l) as Hip.
  { subst l. rewrite Hresp, El, (deref_alter _ _ _ _ Hl1). cbn. by rewrite (deref_Some _ _ _ Hl1). }
  assert (ServerIPAddr (Response_Response rsp) = Lease_ServerId l) as Hid.
  { subst l. rewrite Hresp, El, (deref_alter _ _ _ _ Hl1). done. }
  destruct (broadcast_frame sock req (Response_Response rsp) Hr Hl Hser) as (sock' & fr & err & Eb & F);
    [by rewrite Hc|]. rewrite Hc, Hip, Hid in F. by exists sock', fr, err.
Qed.
End answer.

Definition test_socket : UDPSocket unit BroadcastResponder := {|
  udpConn := tt; us_interfaceName := "br1"; us_listenAddress := ""; us_listenPort := 67; bcResponders := ∅ |}.

Lemma broadcast_reaches_client_witness :
  ∃ rsp, answer_response test_offer = Some rsp ∧
  ∃ sock' fr err,
    SendBroadcast_udp (λ _, Ok (4, [2; 0; 0; 0; 0; 1])) (Ok 9) (λ _, None) None (λ _, Some true)
      (λ _, Ok [1]) (@length Z) (λ _ _, None) test_socket test_discover (Response_Response rsp)
      = Ret (sock', Some fr, err) ∧
    fr_dstMAC fr = test_mac ∧ fr_srcPort fr = 67 ∧ fr_dstPort fr = 68.
Proof.
  assert (∃ rsp s', test_offer = Ret (Ok rsp, s')) as (rsp & s' & E)
    by (do 2 eexists; vm_compute; reflexivity).
  exists rsp. split; [rewrite E; reflexivity|].
  destruct (broadcast_reaches_client rfc_lib rfc_lib_laws (λ _, Ok (4, [2; 0; 0; 0; 0; 1])) (Ok 9)
    (λ _, None) None (λ _, Some true) (λ _, Ok [1]) (@length Z) (λ _ _, None) test_socket
    _ _ _ _ _ _ _ test_server_inv test_server_orders E) as (sock' & fr & err & Eb & F1 & _ & _ & F2 & F3 & _).
  - right. reflexivity.
  - reflexivity.
  - reflexivity.
  - cbn. lia.
  - exists sock', fr, err. auto.
Defined.
