(* ===== verification/Client.v ===== *)
(** * [dhcp/client/client.go]: the load-testing client

    The clients that the program simulates, each with a hardware address of its
    own, the loop that hands received frames to them, and when it reports that
    all of them have an address. *)

From S2P Require Import Prelude GoStrings GoNet Errors Dhcpv4 Subnet SubnetNet.
Open Scope string_scope.
Open Scope list_scope.
Open Scope Z_scope.

Record Client := {
  Client_MAC : HardwareAddr;
  Client_Offers : list DHCPv4;
  Client_Ack : option DHCPv4;
}.

(** ** [incMac] *)

(** The six bytes are counted in place; a shorter address is indexed out of
    range. *)
Definition incMac (addr : HardwareAddr) : outcome HardwareAddr :=
  match addr with
  | a0 :: a1 :: a2 :: a3 :: a4 :: a5 :: rest =>
      let a5 := wrap_u8 (a5 + 1) in
      if a5 =? 0 then
        let a4 := wrap_u8 (a4 + 1) in
        if a4 =? 0 then
          let a3 := wrap_u8 (a3 + 1) in
          if a3 =? 0 then
            let a2 := wrap_u8 (a2 + 1) in
            if a2 =? 0 then
              let a1 := wrap_u8 (a1 + 1) in
              if a1 =? 0 then Ret (wrap_u8 (a0 + 1) :: a1 :: a2 :: a3 :: a4 :: a5 :: rest)
              else Ret (a0 :: a1 :: a2 :: a3 :: a4 :: a5 :: rest)
            else Ret (a0 :: a1 :: a2 :: a3 :: a4 :: a5 :: rest)
          else Ret (a0 :: a1 :: a2 :: a3 :: a4 :: a5 :: rest)
        else Ret (a0 :: a1 :: a2 :: a3 :: a4 :: a5 :: rest)
      else Ret (a0 :: a1 :: a2 :: a3 :: a4 :: a5 :: rest)
  | _ => Panic "index out of range"
  end.

(** The loop of [main] that makes the clients. *)
Fixpoint make_clients (numClients : nat) (cm : HardwareAddr) (clients : gmap string Client)
    : outcome (gmap string Client) :=
  match numClients with
  | O => Ret clients
  | S n =>
      cm ← incMac cm;
      let client := {| Client_MAC := take 6 cm; Client_Offers := []; Client_Ack := None |} in
      make_clients n cm (<[HardwareAddr_String cm := client]> clients)
  end.

(** ** Responses *)

Section responses.
Context `{D : Dhcpv4}.

Definition ProcessResponse (c : Client) (resp : DHCPv4) : option error * Client :=
  if negb (OpCode resp =? OpcodeBootReply) then (Some (EInvalidOpcode (OpCode resp)), c)
  else if MessageType resp =? MessageTypeOffer then
    (None, {| Client_MAC := Client_MAC c; Client_Offers := Client_Offers c ++ [resp];
              Client_Ack := Client_Ack c |})
  else if MessageType resp =? MessageTypeAck then
    match Client_Ack c with
    | Some _ => (None, c)
    | None => (None, {| Client_MAC := Client_MAC c; Client_Offers := Client_Offers c;
                        Client_Ack := Some resp |})
    end
  else (Some (EUnknownMessage (MessageType resp)), c).

(** The parser of the packet library. *)
Variable FromBytes : list Z → result error DHCPv4.

Definition all_acked (clients : gmap string Client) : bool :=
  forallb (λ c, bool_decide (is_Some (Client_Ack c))) (map_to_list clients).*2.

(** [GetDHCPAddrs] on the frames that the receiver delivers.  The flag is what
    it did at the end of the list: [true] if it reported success and returned,
    [false] if it wants the next frame. *)
Fixpoint GetDHCPAddrs (clients : gmap string Client) (frames : list (list Z))
    : outcome (bool * gmap string Client) :=
  match frames with
  | [] => Ret (false, clients)
  | buf :: frames =>
      if (length buf <? 6)%nat then Panic "index out of range"
      else
        let key := HardwareAddr_String (take 6 buf) in
        match clients !! key with
        | None => GetDHCPAddrs clients frames
        | Some client =>
            if (length buf <? 42)%nat then Panic "slice bounds out of range"
            else
              match FromBytes (drop 42 buf) with
              | Err _ => GetDHCPAddrs clients frames
              | Ok packet =>
                  let client := (ProcessResponse client packet).2 in
                  let clients := <[key := client]> clients in
                  if bool_decide (is_Some (Client_Ack client)) && all_acked clients
                  then Ret (true, clients)
                  else GetDHCPAddrs clients frames
              end
        end
  end.
End responses.

(** ** Counting hardware addresses *)

Lemma wrap_u8_inc a : is_u8 a → wrap_u8 (a + 1) = if a =? 255 then 0 else a + 1.
Proof.
  unfold is_u8, wrap_u8. intros Ha. destruct (Z.eqb_spec a 255) as [->|]; [done|].
  apply Z.mod_small. lia.
Qed.

Lemma wrap_u8_inc_zero a : is_u8 a → (wrap_u8 (a + 1) =? 0) = (a =? 255).
Proof.
  intros Ha. rewrite wrap_u8_inc by done. unfold is_u8 in Ha.
  destruct (Z.eqb_spec a 255); [done|]. apply Z.eqb_neq. lia.
Qed.

Lemma be_value_six a0 a1 a2 a3 a4 a5 :
  be_value [a0; a1; a2; a3; a4; a5] =
    a0 * 1099511627776 + a1 * 4294967296 + a2 * 16777216 + a3 * 65536 + a4 * 256 + a5.
Proof.
  cbn [be_value length]. change (8 * Z.of_nat 5) with 40. change (8 * Z.of_nat 4) with 32.
  change (8 * Z.of_nat 3) with 24. change (8 * Z.of_nat 2) with 16. change (8 * Z.of_nat 1) with 8.
  change (8 * Z.of_nat 0) with 0. lia.
Qed.

Lemma incMac_spec m :
  length m = 6%nat → Forall is_u8 m →
  ∃ m', incMac m = Ret m' ∧ length m' = 6%nat ∧ Forall is_u8 m' ∧ be_value m' = (be_value m + 1) mod 2 ^ 48.
Proof.
  intros Hl Hm. destruct m as [|a0 [|a1 [|a2 [|a3 [|a4 [|a5 [|]]]]]]]; try discriminate Hl. clear Hl.
  repeat (apply Forall_cons_1 in Hm as [? Hm]). clear Hm.
  change (2 ^ 48) with 281474976710656. unfold incMac. cbv zeta.
  rewrite !wrap_u8_inc_zero by done. rewrite !wrap_u8_inc by done. unfold is_u8 in *.
  repeat (case_match; [match goal with H : (_ =? _) = true |- _ => apply Z.eqb_eq in H; subst end|]);
    try (match goal with H : (_ =? _) = false |- _ => apply Z.eqb_neq in H end);
    eexists; (split; [reflexivity|]); (split; [reflexivity|]);
    (split; [repeat (apply List.Forall_cons; [unfold is_u8; lia|]); apply List.Forall_nil|]);
    rewrite !be_value_six; (reflexivity || (rewrite Z.mod_small by lia; lia)).
Qed.

Lemma be_value_inj x y :
  length x = length y → Forall is_u8 x → Forall is_u8 y → be_value x = be_value y → x = y.
Proof.
  revert y. induction x as [|a x IH]; intros [|b y] Hl Hx Hy; [done..|].
  injection Hl as Hl. apply Forall_cons_1 in Hx as [Ha Hx], Hy as [Hb Hy]. cbn [be_value]. rewrite Hl.
  pose proof (be_value_bound x Hx) as Bx. pose proof (be_value_bound y Hy) as By. rewrite Hl in Bx.
  intros [-> E]%concat_inj; [|done..]. f_equal. by apply IH.
Qed.

(** The address [i] steps after [m]. *)
Definition nth_mac (m : HardwareAddr) (i : Z) (a : HardwareAddr) : Prop :=
  length a = 6%nat ∧ Forall is_u8 a ∧ be_value a = (be_value m + i) mod 2 ^ 48.

Lemma nth_mac_inj m i j a : nth_mac m i a → nth_mac m j a → 0 <= i < 2 ^ 48 → 0 <= j < 2 ^ 48 → i = j.
Proof.
  intros (_ & _ & Ei) (_ & _ & Ej) Hi Hj. rewrite Ei in Ej.
  pose proof (Z.div_mod (be_value m + i) (2 ^ 48) ltac:(lia)).
  pose proof (Z.div_mod (be_value m + j) (2 ^ 48) ltac:(lia)). nia.
Qed.

Lemma nth_mac_key m i j a b :
  nth_mac m i a → nth_mac m j b → 0 <= i < 2 ^ 48 → 0 <= j < 2 ^ 48 →
  HardwareAddr_String a = HardwareAddr_String b → i = j.
Proof.
  intros Ha Hb Hi Hj E. assert (a = b) as <-; [|by eapply nth_mac_inj].
  destruct Ha as (La & Fa & _), Hb as (Lb & Fb & _). apply HardwareAddr_String_inj; [done|done| | |done];
    by intros ->.
Qed.

(** The clients made so far: one for each of the first [i] addresses. *)
Definition clients_upto (m : HardwareAddr) (i : Z) (clients : gmap string Client) : Prop :=
  (∀ j, 1 <= j <= i → ∃ a, nth_mac m j a ∧
     clients !! HardwareAddr_String a = Some {| Client_MAC := a; Client_Offers := []; Client_Ack := None |}) ∧
  (∀ k, is_Some (clients !! k) → ∃ j a, 1 <= j <= i ∧ nth_mac m j a ∧ k = HardwareAddr_String a).

Lemma make_clients_loop m n cm i clients :
  nth_mac m i cm → 0 <= i → i + Z.of_nat n < 2 ^ 48 → clients_upto m i clients → size clients = Z.to_nat i →
  ∃ clients', make_clients n cm clients = Ret clients' ∧
    clients_upto m (i + Z.of_nat n) clients' ∧ size clients' = Z.to_nat (i + Z.of_nat n).
Proof.
  revert cm i clients. induction n as [|n IH]; intros cm i clients Hcm Hi Hmax [Hin Hout] Hsize; cbn [make_clients].
  - exists clients. replace (i + Z.of_nat 0) with i by lia. by split_and!.
  - destruct Hcm as (Hl & Hf & Hv). destruct (incMac_spec cm Hl Hf) as (cm' & -> & Hl' & Hf' & Hv').
    cbn [mbind outcome_bind].
    assert (nth_mac m (i + 1) cm') as Hcm'.
    { split_and!; [done|done|]. rewrite Hv', Hv, Zplus_mod_idemp_l. f_equal. lia. }
    assert (clients !! HardwareAddr_String cm' = None) as Hnew.
    { apply eq_None_not_Some. intros (j & a & Hj & Ha & E)%Hout.
      pose proof (nth_mac_key _ _ _ _ _ Hcm' Ha ltac:(lia) ltac:(lia) E). lia. }
    rewrite (firstn_all2 cm') by lia.
    destruct (IH cm' (i + 1) (<[HardwareAddr_String cm' := {| Client_MAC := cm'; Client_Offers := [];
      Client_Ack := None |}]> clients) Hcm') as (clients' & E & Hup & Hs); [lia|lia| | |].
    + split.
      * intros j Hj. destruct (decide (j = i + 1)) as [->|].
        -- exists cm'. split; [done|]. apply lookup_insert_eq.
        -- destruct (Hin j ltac:(lia)) as (a & Ha & Ea). exists a. split; [done|].
           rewrite lookup_insert_ne; [done|]. intros E. rewrite <- E in Ea. congruence.
      * intros k. rewrite lookup_insert. case_decide as Ek; subst.
        -- intros _. exists (i + 1), cm'. split_and!; [lia|lia|done|done].
        -- intros (j & a & ? & ? & ?)%Hout. exists j, a. split_and!; [lia|lia|done|done].
    + rewrite map_size_insert_None, Hsize by done. lia.
    + exists clients'. replace (i + Z.of_nat (S n)) with (i + 1 + Z.of_nat n) by lia. by split_and!.
Qed.

(** The program simulates as many clients as it was asked for: the map has
    that many entries, one for each of the addresses that follow the start
    address, under the text of that address. *)
Theorem make_clients_distinct m n :
  length m = 6%nat → Forall is_u8 m → Z.of_nat n < 2 ^ 48 →
  ∃ clients, make_clients n m ∅ = Ret clients ∧ size clients = n ∧
    ∀ j, 1 <= j <= Z.of_nat n → ∃ a, be_value a = (be_value m + j) mod 2 ^ 48 ∧
      clients !! HardwareAddr_String a = Some {| Client_MAC := a; Client_Offers := []; Client_Ack := None |}.
Proof.
  intros Hl Hf Hn. pose proof (be_value_bound m Hf) as Hb. rewrite Hl in Hb.
  destruct (make_clients_loop m n m 0 ∅) as (clients & E & [Hin _] & Hs).
  - split_and!; [done|done|]. rewrite Z.add_0_r, Z.mod_small; [done|]. exact Hb.
  - lia.
  - lia.
  - split; [lia|]. intros k [? Hk]. by rewrite lookup_empty in Hk.
  - apply map_size_empty.
  - exists clients. split_and!; [done|by rewrite Hs; lia|]. intros j Hj.
    destruct (Hin j ltac:(lia)) as (a & (_ & _ & Ha) & Ea). eauto.
Qed.

Lemma make_clients_distinct_witness :
  ∃ clients, make_clients 300 [0; 1; 0; 0; 0; 0] ∅ = Ret clients ∧ size clients = 300%nat ∧
    ∀ j, 1 <= j <= Z.of_nat 300 → ∃ a, be_value a = (be_value [0; 1; 0; 0; 0; 0] + j) mod 2 ^ 48 ∧
      clients !! HardwareAddr_String a = Some {| Client_MAC := a; Client_Offers := []; Client_Ack := None |}.
Proof.
  apply make_clients_distinct; [reflexivity| |lia].
  repeat (apply List.Forall_cons; [by unfold is_u8|]). apply List.Forall_nil.
Defined.

(** ** Waiting for all clients *)

Section wait.
Context (D : Dhcpv4) (FromBytes : list Z → result error DHCPv4).

(** A client after more frames: the same address, more offers, and an
    acknowledgement that is the old one, or a genuine one. *)
Definition client_later (c c' : Client) : Prop :=
  Client_MAC c' = Client_MAC c ∧ Client_Offers c `prefix_of` Client_Offers c' ∧
  (Client_Ack c' = Client_Ack c ∨
   Client_Ack c = None ∧ ∃ a, Client_Ack c' = Some a ∧ OpCode a = OpcodeBootReply ∧
     MessageType a = MessageTypeAck).

Definition clients_later (m m' : gmap string Client) : Prop :=
  map_relation (λ _, client_later) (λ _ _, False) (λ _ _, False) m m'.

Lemma client_later_refl c : client_later c c.
Proof. split_and!; [done|done|by left]. Qed.

Lemma client_later_trans c1 c2 c3 : client_later c1 c2 → client_later c2 c3 → client_later c1 c3.
Proof.
  intros (M1 & O1 & A1) (M2 & O2 & A2). split_and!; [congruence|by etrans|].
  destruct A1 as [A1|(N1 & a & A1 & ?)], A2 as [A2|(N2 & b & A2 & ?)].
  - left. congruence.
  - right. split; [congruence|]. by exists b.
  - right. split; [done|]. exists a. split; [congruence|done].
  - congruence.
Qed.

Lemma clients_later_lookup m m' :
  clients_later m m' ↔ ∀ k, match m !! k, m' !! k with
                            | Some c, Some c' => client_later c c'
                            | None, None => True
                            | _, _ => False
                            end.
Proof. reflexivity. Qed.

#[global] Instance clients_later_preorder : PreOrder clients_later.
Proof.
  split.
  - intros m. apply clients_later_lookup. intros k. destruct (m !! k); [apply client_later_refl|done].
  - intros m1 m2 m3. rewrite !clients_later_lookup. intros H1 H2 k. specialize (H1 k). specialize (H2 k).
    destruct (m1 !! k), (m2 !! k), (m3 !! k); try done. by eapply client_later_trans.
Qed.

Lemma ProcessResponse_later c pkt : client_later c (ProcessResponse c pkt).2.
Proof.
  unfold ProcessResponse. destruct (Z.eqb_spec (OpCode pkt) OpcodeBootReply) as [Hop|]; cbn [negb].
  2: apply client_later_refl.
  destruct (Z.eqb_spec (MessageType pkt) MessageTypeOffer).
  { split_and!; [done|by eexists|by left]. }
  destruct (Z.eqb_spec (MessageType pkt) MessageTypeAck) as [Ht|]; [|apply client_later_refl].
  destruct (Client_Ack c) eqn:Ea; [apply client_later_refl|].
  split_and!; [done|done|]. right. split; [done|]. by exists pkt.
Qed.

Lemma insert_later m k c c' : m !! k = Some c → client_later c c' → clients_later m (<[k := c']> m).
Proof.
  intros Hk Hc. apply clients_later_lookup. intros k'. rewrite lookup_insert. case_decide; subst.
  - by rewrite Hk.
  - destruct (m !! k'); [apply client_later_refl|done].
Qed.

Lemma all_acked_spec m : all_acked m = true ↔ ∀ k c, m !! k = Some c → is_Some (Client_Ack c).
Proof.
  unfold all_acked. rewrite forallb_forall. split.
  - intros Hf k c Hk. specialize (Hf c). apply bool_decide_eq_true in Hf; [done|].
    apply list_elem_of_In, list_elem_of_fmap. exists (k, c). split; [done|]. by apply elem_of_map_to_list.
  - intros Hm c Hc. apply list_elem_of_In, list_elem_of_fmap in Hc as ([k c'] & -> & Hc).
    apply elem_of_map_to_list in Hc. apply bool_decide_eq_true. by eapply Hm.
Qed.

(** A frame for a client, that parses, is processed. *)
Lemma GetDHCPAddrs_single clients buf c pkt :
  (42 <= length buf)%nat → clients !! HardwareAddr_String (take 6 buf) = Some c →
  FromBytes (drop 42 buf) = Ok pkt →
  ∃ b, GetDHCPAddrs FromBytes clients [buf] =
    Ret (b, <[HardwareAddr_String (take 6 buf) := (ProcessResponse c pkt).2]> clients).
Proof.
  intros Hl Hc Hp. cbn [GetDHCPAddrs]. rewrite (proj2 (Nat.ltb_ge _ 6)) by lia.
  rewrite Hc, (proj2 (Nat.ltb_ge _ 42)), Hp by lia. destruct (_ && _); by eexists.
Qed.

(** What one frame does. *)
Lemma GetDHCPAddrs_one clients buf b clients' :
  GetDHCPAddrs FromBytes clients [buf] = Ret (b, clients') →
  (b = false ∧ clients' = clients) ∨
  ∃ c pkt, clients !! HardwareAddr_String (take 6 buf) = Some c ∧ FromBytes (drop 42 buf) = Ok pkt ∧
    clients' = <[HardwareAddr_String (take 6 buf) := (ProcessResponse c pkt).2]> clients ∧
    b = bool_decide (is_Some (Client_Ack (ProcessResponse c pkt).2)) && all_acked clients'.
Proof.
  cbn [GetDHCPAddrs]. destruct (length buf <? 6)%nat; [done|].
  destruct (clients !! _) as [c|]; [|intros [= <- <-]; by left].
  destruct (length buf <? 42)%nat; [done|].
  destruct (FromBytes (drop 42 buf)) as [pkt|e]; [|intros [= <- <-]; by left].
  intros HG. right. exists c, pkt. split_and!; [done|done|..]; destruct (_ && _) eqn:E;
    injection HG as <- <-; by rewrite ?E.
Qed.

(** On frames that are long enough to hold the headers, the loop reports
    success exactly when every client has been acknowledged, and not before;
    no client is lost or added, offers are kept in order, and the first
    acknowledgement stays, which is a reply of that type. *)
Theorem GetDHCPAddrs_done clients frames :
  Forall (λ buf, (42 <= length buf)%nat) frames → all_acked clients = false →
  ∃ b clients', GetDHCPAddrs FromBytes clients frames = Ret (b, clients') ∧
    clients_later clients clients' ∧ (b = true ↔ ∀ k c, clients' !! k = Some c → is_Some (Client_Ack c)).
Proof.
  intros Hl. revert clients. induction Hl as [|buf frames Hbuf _ IH]; intros clients Hn; cbn [GetDHCPAddrs].
  - exists false, clients. split_and!; [done|done|]. by rewrite <- all_acked_spec, Hn.
  - destruct (Nat.ltb_spec (length buf) 6); [lia|].
    destruct (clients !! HardwareAddr_String (take 6 buf)) as [c|] eqn:Hk; [|by apply IH].
    destruct (Nat.ltb_spec (length buf) 42); [lia|].
    destruct (FromBytes (drop 42 buf)) as [pkt|]; [|by apply IH].
    set (c' := (ProcessResponse c pkt).2). set (m := <[HardwareAddr_String (take 6 buf) := c']> clients).
    assert (clients_later clients m) as Hm by (apply (insert_later _ _ c); [done|apply ProcessResponse_later]).
    destruct (bool_decide (is_Some (Client_Ack c')) && all_acked m) eqn:Eb.
    + apply andb_true_iff in Eb as [_ Ha]. exists true, m. split_and!; [done|done|].
      by rewrite <- all_acked_spec, Ha.
    + assert (all_acked m = false) as Ha.
      { apply andb_false_iff in Eb as [Eb|Eb]; [|done]. apply bool_decide_eq_false in Eb.
        apply not_true_is_false. rewrite all_acked_spec. intros Ha. apply Eb, (Ha (HardwareAddr_String (take 6 buf))).
        apply lookup_insert_eq. }
      destruct (IH m Ha) as (b & clients' & E & Hlater & Hb). exists b, clients'.
      split_and!; [done|by etrans|done].
Qed.
End wait.

(** An acknowledgement for the one client. *)
Definition toy_ack : DHCPv4 := {|
  OpCode := OpcodeBootReply; TransactionID := []; ClientHWAddr := [0; 1; 0; 0; 0; 1]; YourIPAddr := None;
  ServerIPAddr := None; GatewayIPAddr := None; ServerHostName := ""; BootFileName := "";
  Options := {[53 := [MessageTypeAck]]} |}.
Definition toy_clients : gmap string Client :=
  {["00:01:00:00:00:01" := {| Client_MAC := [0; 1; 0; 0; 0; 1]; Client_Offers := []; Client_Ack := None |}]}.

Lemma GetDHCPAddrs_done_witness :
  ∃ b clients', GetDHCPAddrs (D := rfc_lib) (λ _, Ok toy_ack) toy_clients [[0; 1; 0; 0; 0; 1] ++ repeat 0 300]
    = Ret (b, clients') ∧ clients_later rfc_lib toy_clients clients' ∧
    (b = true ↔ ∀ k c, clients' !! k = Some c → is_Some (Client_Ack c)).
Proof.
  apply (GetDHCPAddrs_done rfc_lib (λ _, Ok toy_ack)); [|vm_compute; reflexivity].
  apply List.Forall_cons; [|apply List.Forall_nil]. apply Nat.leb_le. vm_compute. reflexivity.
Defined.
