(* ===== verification/Sender.v ===== *)
(** * [dhcp/client/client.go]: the client's goroutines

    The other half of the load-testing client: how a simulated client sends its
    discovers and requests, the frames it sends, the receiver that feeds
    [GetDHCPAddrs], and the count at the end.  A sending goroutine reads the
    client's offers and acknowledgement between two sends, while another
    goroutine writes them; so it is a machine whose steps are the code between
    two sleeps, on the client as it is at that moment. *)

From S2P Require Import Prelude GoStrings GoNet Errors IPv4 Types Dhcpv4.
From S2P Require Import Socket Client.
Open Scope string_scope.
Open Scope list_scope.
Open Scope Z_scope.

Definition bcastMAC : HardwareAddr := [255; 255; 255; 255; 255; 255].

(** ** [sendEthernet] *)

Section send.
(* gopacket and the system, as for the broadcast responder *)
Context (SetNetworkLayerForChecksum : option error)
  (Layer : DHCPv4 → option bool) (SerializeLayers : frame → result error (list Z))
  (RawSocket : result error Z) (SetsockoptInt : Z → option error)
  (hw_cap : HardwareAddr → nat) (Sendto : Z → list Z → option error).
(* dhcpv4.NewDiscovery and dhcpv4.NewRequestFromOffer: a packet and an error, either of which may be nil *)
Context (NewDiscovery : HardwareAddr → option DHCPv4 * option error)
  (NewRequestFromOffer : DHCPv4 → option DHCPv4 * option error).

(** The frame given to the system, if any, the error, and the sockets that were
    closed.  A packet that is nil has no bytes. *)
Definition sendEthernet (srcMAC : HardwareAddr) (srcIP : net_IP) (srcPort : Z) (dstMAC : HardwareAddr)
    (dstIP : net_IP) (dstPort : Z) (dhcPv4 : option DHCPv4)
    : outcome (option frame * option error * list Z) :=
  match SetNetworkLayerForChecksum with
  | Some e => Ret (None, Some (EWrapped "couldn't set network layer" e), [])
  | None =>
      match dhcPv4 with
      | None => Panic "invalid memory address or nil pointer dereference"
      | Some pkt =>
          match Layer pkt with
          | None => Panic "invalid memory address or nil pointer dereference"
          | Some false => Ret (None, Some ENotSerializable, [])
          | Some true =>
              let fr := {| fr_srcMAC := srcMAC; fr_dstMAC := dstMAC; fr_srcIP := srcIP; fr_dstIP := dstIP;
                           fr_srcPort := srcPort; fr_dstPort := dstPort; fr_payload := pkt |} in
              match SerializeLayers fr with
              | Err e => Ret (None, Some (EWrapped "can't serialize layer" e), [])
              | Ok data =>
                  match RawSocket with
                  | Err e => Ret (None, Some (EWrapped "can't open socket" e), [])
                  | Ok fd =>
                      match SetsockoptInt fd with
                      | Some e => Ret (None, Some (EWrapped "can't set option for socket" e), [fd])
                      | None =>
                          if (hw_cap (ClientHWAddr pkt) <? 6)%nat then Panic "slice bounds out of range"
                          else Ret (Some fr, EWrapped "can't send frame via socket" <$> Sendto fd data, [fd])
                      end
                  end
              end
          end
      end
  end.

(** How a client sends everything: from its address to everyone, from the
    client's port to the server's. *)
Definition client_send (c : Client) (pkt : option DHCPv4) : outcome (option frame) :=
  '(fr, _, _) ← sendEthernet (Client_MAC c) IPv4zero ClientPort bcastMAC IPv4bcast ServerPort pkt;
  Ret fr.

(** ** [sendRequest] *)

(** A request for the last offer; without an offer nothing is sent. *)
Definition sendRequest (c : Client) : outcome (option frame) :=
  match list.last (Client_Offers c) with
  | None => Ret None
  | Some offer => client_send c (NewRequestFromOffer offer).1
  end.

(** ** [SendDiscovers] *)

(** Where the goroutine stands: before its [i]-th discover, after it and the
    sleep, before a request, after it and the sleep, at its end. *)
Inductive sender : Type :=
  | Discovering (i : nat)
  | Discovered (i : nat)
  | Requesting
  | Requested
  | Finished.

#[global] Instance sender_eq_dec : EqDecision sender.
Proof. solve_decision. Defined.

Definition discoveries : nat := 13.

Definition sender_step (c : Client) (st : sender) : outcome (option frame * sender) :=
  match st with
  | Discovering i =>
      if (i <? discoveries)%nat
      then fr ← client_send c (NewDiscovery (Client_MAC c)).1; Ret (fr, Discovered i)
      else Ret (None, Requesting)
  | Discovered i =>
      if (2 <? i)%nat && negb (bool_decide (Client_Offers c = []))
      then Ret (None, Requesting) else Ret (None, Discovering (S i))
  | Requesting => fr ← sendRequest c; Ret (fr, Requested)
  | Requested => if bool_decide (is_Some (Client_Ack c)) then Ret (None, Finished) else Ret (None, Requesting)
  | Finished => Ret (None, Finished)
  end.

(** [n] steps from the [k]-th on; [obs] is the client as each step finds it. *)
Fixpoint SendDiscovers (obs : nat → Client) (k n : nat) (st : sender) : outcome (list frame * sender) :=
  match n with
  | O => Ret ([], st)
  | S n =>
      '(fr, st) ← sender_step (obs k) st;
      '(frs, st) ← SendDiscovers obs (S k) n st;
      Ret (option_list fr ++ frs, st)
  end.

(** ** [getEthernetReceiver] *)

(** The channel, if there is one, the descriptor and the error; the socket call
    returns a descriptor also when it fails. *)
Definition getEthernetReceiver (Socket : Z * option error) (Bind : Z → option error)
    : bool * Z * option error :=
  match Socket with
  | (fd, Some e) => (false, fd, Some e)
  | (fd, None) =>
      match Bind fd with
      | Some e => (false, fd, Some e)
      | None => (true, fd, None)
      end
  end.

(** The goroutine of the receiver: what it puts into the channel for what the
    socket gives, up to the first error.  It does not close the channel. *)
Fixpoint receive_frames (reads : list (result error (list Z))) : list (list Z) :=
  match reads with
  | [] => []
  | Ok buf :: reads => buf :: receive_frames reads
  | Err _ :: _ => []
  end.

(** ** The count of [main] *)

Definition succeeded (c : Client) : bool :=
  negb (bool_decide (Client_Offers c = [])) && bool_decide (is_Some (Client_Ack c)).

Definition count_success (clients : gmap string Client) : nat :=
  length (List.filter succeeded (map_to_list clients).*2).
End send.

#[global] Arguments client_send : simpl never.
#[global] Arguments sendRequest : simpl never.

(** Whatever the system answers, a frame that is sent carries the client's own
    discover or a request for its last offer. *)
Lemma sender_step_payload setnet Layer SerializeLayers rawsocket sockopt hw_cap sendto
    NewDiscovery NewRequestFromOffer c st f st' :
  sender_step setnet Layer SerializeLayers rawsocket sockopt hw_cap sendto
    NewDiscovery NewRequestFromOffer c st = Ret (Some f, st') →
  (NewDiscovery (Client_MAC c)).1 = Some (fr_payload f) ∨
  ∃ o, list.last (Client_Offers c) = Some o ∧ (NewRequestFromOffer o).1 = Some (fr_payload f).
Proof.
  assert (∀ pkt, client_send setnet Layer SerializeLayers rawsocket sockopt hw_cap sendto c pkt = Ret (Some f) →
    pkt = Some (fr_payload f)) as Hsend.
  { intros pkt. unfold client_send, sendEthernet. repeat case_match; try done; by intros [= <-]. }
  destruct st as [i|i| | |]; cbn [sender_step].
  - destruct (i <? discoveries)%nat; [|done].
    destruct (client_send _ _ _ _ _ _ _ c (NewDiscovery (Client_MAC c)).1) as [fr| |] eqn:E; try done.
    cbn [mbind outcome_bind]. intros [= -> _]. left. by apply Hsend.
  - by destruct (_ && _).
  - unfold sendRequest. destruct (list.last (Client_Offers c)) as [o|]; [|done].
    destruct (client_send _ _ _ _ _ _ _ c (NewRequestFromOffer o).1) as [fr| |] eqn:E; try done.
    cbn [mbind outcome_bind]. intros [= -> _]. right. exists o. split; [done|]. by apply Hsend.
  - by destruct (bool_decide _).
  - done.
Qed.

(** A sender that has ended found an acknowledgement. *)
Lemma sender_step_finished setnet Layer SerializeLayers rawsocket sockopt hw_cap sendto
    NewDiscovery NewRequestFromOffer c st fr :
  sender_step setnet Layer SerializeLayers rawsocket sockopt hw_cap sendto
    NewDiscovery NewRequestFromOffer c st = Ret (fr, Finished) →
  st = Finished ∨ is_Some (Client_Ack c).
Proof.
  destruct st as [i|i| | |]; cbn [sender_step].
  - destruct (i <? discoveries)%nat; [|done]. by destruct (client_send _ _ _ _ _ _ _ _ _).
  - by destruct (_ && _).
  - by destruct (sendRequest _ _ _ _ _ _ _ _ _).
  - case_bool_decide; [by right|done].
  - by left.
Qed.

(** ** What a client sends *)

Section sends.
Context (Layer : DHCPv4 → option bool) (SerializeLayers : frame → result error (list Z))
  (hw_cap : HardwareAddr → nat) (Sendto : Z → list Z → option error) (fd : Z).
Context (NewDiscovery : HardwareAddr → option DHCPv4 * option error)
  (NewRequestFromOffer : DHCPv4 → option DHCPv4 * option error).

(** A system on which nothing but the sending itself fails, and a library that
    makes packets for the hardware address it is given, which have a layer. *)
Definition can_send : Prop :=
  (∀ mac, length mac = 6%nat → ∃ d, NewDiscovery mac = (Some d, None) ∧ ClientHWAddr d = mac) ∧
  (∀ o, ∃ r, NewRequestFromOffer o = (Some r, None) ∧ ClientHWAddr r = ClientHWAddr o) ∧
  (∀ p, Layer p = Some true) ∧ (∀ fr, is_ok (SerializeLayers fr) = true) ∧
  (∀ mac, (length mac <= hw_cap mac)%nat).

Context (Hcan : can_send).

Abbreviation send := (client_send None Layer SerializeLayers (Ok fd) (λ _, None) hw_cap Sendto).
Abbreviation request :=
  (sendRequest None Layer SerializeLayers (Ok fd) (λ _, None) hw_cap Sendto NewRequestFromOffer).
Abbreviation step :=
  (sender_step None Layer SerializeLayers (Ok fd) (λ _, None) hw_cap Sendto NewDiscovery NewRequestFromOffer).
Abbreviation run :=
  (SendDiscovers None Layer SerializeLayers (Ok fd) (λ _, None) hw_cap Sendto NewDiscovery NewRequestFromOffer).

(** The frame of a packet of a client. *)
Definition client_frame (c : Client) (pkt : DHCPv4) : frame := {|
  fr_srcMAC := Client_MAC c; fr_dstMAC := bcastMAC; fr_srcIP := IPv4zero; fr_dstIP := IPv4bcast;
  fr_srcPort := ClientPort; fr_dstPort := ServerPort; fr_payload := pkt |}.

Lemma client_send_frame c pkt :
  length (ClientHWAddr pkt) = 6%nat → send c (Some pkt) = Ret (Some (client_frame c pkt)).
Proof.
  intros Hlen. destruct Hcan as (_ & _ & Hl & Hs & Hh). unfold client_send, sendEthernet. rewrite Hl.
  pose proof (Hs (client_frame c pkt)) as E. unfold client_frame in *. destruct (SerializeLayers _); [|done].
  specialize (Hh (ClientHWAddr pkt)). rewrite Hlen in Hh. apply Nat.ltb_ge in Hh. by rewrite Hh.
Qed.

(** The addresses that a client works with have six bytes. *)
Definition client_hw (c : Client) : Prop :=
  length (Client_MAC c) = 6%nat ∧ ∀ o, o ∈ Client_Offers c → length (ClientHWAddr o) = 6%nat.

Lemma last_elem {A} (l : list A) x : list.last l = Some x → x ∈ l.
Proof. intros [l' ->]%list.last_Some. apply elem_of_app. right. by left. Qed.

Lemma request_frame c :
  client_hw c →
  request c = Ret (match list.last (Client_Offers c) with
                   | Some o => client_frame c <$> (NewRequestFromOffer o).1
                   | None => None
                   end).
Proof.
  intros [_ Ho]. destruct Hcan as (_ & Hr & _). unfold sendRequest.
  destruct (list.last (Client_Offers c)) as [o|] eqn:El; [|done].
  destruct (Hr o) as (r & E & Er). rewrite E. cbn [fst].
  rewrite client_send_frame; [done|]. rewrite Er. by apply Ho, last_elem.
Qed.

Lemma sender_step_ret c st :
  client_hw c → ∃ fr st', step c st = Ret (fr, st').
Proof.
  intros Hhw. pose proof Hcan as (Hd & _). destruct st as [i|i| | |]; cbn [sender_step].
  - destruct (i <? discoveries)%nat; [|by do 2 eexists].
    destruct (Hd _ (proj1 Hhw)) as (d & E & Ed). rewrite E. cbn [fst].
    rewrite client_send_frame by (rewrite Ed; apply Hhw). by do 2 eexists.
  - destruct (_ && _); by do 2 eexists.
  - rewrite request_frame by done. by do 2 eexists.
  - destruct (bool_decide _); by do 2 eexists.
  - by do 2 eexists.
Qed.

Lemma run_cons obs k n st :
  run obs k (S n) st =
    ('(fr, st) ← step (obs k) st; '(frs, st) ← run obs (S k) n st; Ret (option_list fr ++ frs, st)).
Proof. reflexivity. Qed.

(** The loop of discovers, from the [i]-th on. *)
Lemma discover_loop obs m d :
  (∀ k, Client_MAC (obs k) = m) → NewDiscovery m = (Some d, None) → length (ClientHWAddr d) = 6%nat →
  ∀ j i k, (i + j = discoveries)%nat →
  ∃ e n, (n <= 2 * j + 1)%nat ∧ run obs k n (Discovering i) = Ret (replicate e (client_frame (obs 0%nat) d), Requesting) ∧
    ((i + e = discoveries)%nat ∨
     (4 <= i + e < discoveries)%nat ∧ Client_Offers (obs (k + 2 * e - 1)%nat) ≠ [] ∧ (1 <= e)%nat).
Proof.
  intros Hm Hd Hl. assert (∀ k, client_frame (obs k) d = client_frame (obs 0%nat) d) as Hfr.
  { intros k. unfold client_frame. by rewrite !Hm. }
  induction j as [|j IH]; intros i k Hij.
  - exists 0%nat, 1%nat. assert (i = discoveries) as -> by lia. split_and!; [lia|done|left; lia].
  - assert (step (obs k) (Discovering i) = Ret (Some (client_frame (obs 0%nat) d), Discovered i)) as E1.
    { cbn [sender_step]. rewrite (proj2 (Nat.ltb_lt _ _)) by lia. rewrite Hm, Hd. cbn [fst]. by rewrite client_send_frame, Hfr. }
    destruct (decide (2 < i ∧ Client_Offers (obs (S k)) ≠ [])%nat) as [[Hi Ho]|Hn].
    + exists 1%nat, 2%nat. rewrite run_cons, E1. cbn [mbind outcome_bind]. rewrite run_cons. cbn [sender_step].
      rewrite (proj2 (Nat.ltb_lt _ _) Hi), bool_decide_false by done. cbn.
      split_and!; [lia|done|]. replace (k + 2 - 1)%nat with (S k) by lia.
      destruct (decide (S i = discoveries)); [left; lia|right; split; [lia|split; [exact Ho|lia]]].
    + destruct (IH (S i) (S (S k)) ltac:(lia)) as (e & n & Hn' & E & Hor).
      exists (S e), (S (S n)). rewrite run_cons, E1. cbn [mbind outcome_bind]. rewrite run_cons. cbn [sender_step].
      assert ((2 <? i)%nat && negb (bool_decide (Client_Offers (obs (S k)) = [])) = false) as ->.
      { apply not_true_is_false. rewrite andb_true_iff, negb_true_iff, bool_decide_eq_false, Nat.ltb_lt. done. }
      cbn [mbind outcome_bind]. rewrite E. cbn [mbind outcome_bind option_list app replicate].
      split_and!; [lia|done|]. destruct Hor as [|(? & Ho & ?)]; [left; lia|right].
      replace (k + 2 * S e - 1)%nat with (S (S k) + 2 * e - 1)%nat by lia.
      split; [lia|split; [exact Ho|lia]].
Qed.

(** The goroutine ends only on an acknowledgement. *)
Lemma finished_acked obs n k st frs :
  (∀ j, client_hw (obs j)) → run obs k n st = Ret (frs, Finished) → st = Finished ∨ ∃ j, (k <= j)%nat ∧ is_Some (Client_Ack (obs j)).
Proof.
  intros Hhw. revert k st frs. induction n as [|n IH]; intros k st frs; [intros [= _ ->]; by left|].
  rewrite run_cons. destruct (sender_step_ret (obs k) st (Hhw k)) as (fr & st' & E). rewrite E.
  cbn [mbind outcome_bind]. destruct (run obs (S k) n st') as [[frs' st2]| |] eqn:Er; try done.
  cbn [mbind outcome_bind]. intros [= _ ->].
  destruct (IH _ _ _ Er) as [->|(j & ? & ?)]; [|right; exists j; split; [lia|done]].
  apply sender_step_finished in E as [->|Ha]; [by left|]. right. exists k. split; [lia|done].
Qed.

(** C30: a simulated client sends its discover between four and thirteen times,
    fewer than thirteen only if it has an offer by then; it then sends requests
    for its last offer, none while it has no offer, and ends if and only if it
    finds that it was acknowledged: at the second step after that at the latest.  This is
    when the packet library makes the packets and every system call but the sending of a
    frame succeeds. *)
Theorem SendDiscovers_spec obs m :
  (∀ k, Client_MAC (obs k) = m) → (∀ k, client_hw (obs k)) →
  ∃ d n e, NewDiscovery m = (Some d, None) ∧
    run obs 0 n (Discovering 0) = Ret (replicate e (client_frame (obs 0%nat) d), Requesting) ∧
    (4 <= e <= 13)%nat ∧ (e ≠ 13%nat → Client_Offers (obs (2 * e - 1)%nat) ≠ []) ∧
    (∀ k n' frs, run obs k n' Requesting = Ret (frs, Finished) → ∃ j, (k <= j)%nat ∧ is_Some (Client_Ack (obs j))) ∧
    (∀ k, is_Some (Client_Ack (obs (S k))) → ∃ frs, run obs k 2 Requesting = Ret (frs, Finished) ∧
       frs = match list.last (Client_Offers (obs k)) with
             | Some o => option_list (client_frame (obs k) <$> (NewRequestFromOffer o).1)
             | None => []
             end).
Proof.
  intros Hm Hhw. pose proof Hcan as (Hd & _).
  assert (length m = 6%nat) as Hl by (rewrite <- (Hm 0%nat); apply Hhw).
  destruct (Hd m Hl) as (d & E & Ed).
  destruct (discover_loop obs m d Hm E ltac:(by rewrite Ed) discoveries 0 0 eq_refl) as (e & n & _ & Er & Hor).
  unfold discoveries in Hor. exists d, n, e. split_and!; [done|done|lia|lia|..].
  - intros Hne. destruct Hor as [|(_ & Ho & _)]; [lia|done].
  - intros k n' frs Hf. by apply finished_acked in Hf as [|].
  - intros k Ha. rewrite run_cons. cbn [sender_step]. rewrite request_frame by done.
    cbn [mbind outcome_bind]. rewrite run_cons. cbn [sender_step]. rewrite bool_decide_true by done.
    eexists. split; [done|]. rewrite app_nil_r. by destruct (list.last (Client_Offers (obs k))).
Qed.
End sends.

(** A client that is offered an address after its second discover, and is
    acknowledged later. *)
Definition toy_client (offers : list DHCPv4) (ack : option DHCPv4) : Client := {|
  Client_MAC := [0; 1; 0; 0; 0; 1]; Client_Offers := offers; Client_Ack := ack |}.
Definition toy_packet (t : Z) : DHCPv4 := client_packet t [0; 1; 0; 0; 0; 1] None.
Definition toy_obs (k : nat) : Client :=
  toy_client (if (k <? 3)%nat then [] else [toy_packet MessageTypeOffer])
    (if (k <? 10)%nat then None else Some (toy_packet MessageTypeAck)).

Lemma toy_can_send :
  can_send (λ _, Some true) (λ _, Ok [1]) (@length Z) (λ mac, (Some (client_packet MessageTypeDiscover mac None), None))
    (λ o, (Some (client_packet MessageTypeRequest (ClientHWAddr o) None), None)).
Proof. split_and!; eauto. Qed.

Lemma toy_obs_hw k : client_hw (toy_obs k).
Proof.
  split; [done|]. intros o Ho. unfold toy_obs in Ho. cbn [Client_Offers toy_client] in Ho. destruct (k <? 3)%nat.
  - by apply not_elem_of_nil in Ho.
  - apply list_elem_of_singleton in Ho as ->. done.
Qed.

Lemma SendDiscovers_spec_witness :
  ∃ n e, SendDiscovers None (λ _, Some true) (λ _, Ok [1]) (Ok 3) (λ _, None) (@length Z) (λ _ _, None)
      (λ mac, (Some (client_packet MessageTypeDiscover mac None), None))
      (λ o, (Some (client_packet MessageTypeRequest (ClientHWAddr o) None), None))
      toy_obs 0 n (Discovering 0) =
    Ret (replicate e (client_frame (toy_obs 0) (toy_packet MessageTypeDiscover)), Requesting) ∧ (4 <= e <= 13)%nat.
Proof.
  destruct (SendDiscovers_spec (λ _, Some true) (λ _, Ok [1]) (@length Z) (λ _ _, None) 3
    (λ mac, (Some (client_packet MessageTypeDiscover mac None), None))
    (λ o, (Some (client_packet MessageTypeRequest (ClientHWAddr o) None), None))
    toy_can_send toy_obs [0; 1; 0; 0; 0; 1] (λ _, eq_refl) toy_obs_hw) as (d & n & e & Ed & Er & He & _).
  injection Ed as <-. by exists n, e.
Defined.
