(* ===== verification/LeaseSpec.v ===== *)
(** * What a subnet promises: the lease book

    The abstract specification of a subnet's leases.  A book says which address
    a hardware address is bound to, and who was the last to be entered at an
    address; it knows no pointers, no counter and no clock.  The file shows that
    a subnet refines it: whatever happens to a subnet, its observable events are
    a run of the book's machine. *)

From S2P Require Import Prelude GoStrings GoNet Errors IPv4 Types Dhcpv4 Subnet.
From S2P Require Import LeaseCache Pool SubnetProps SubnetNet Server ServerProps.
Open Scope string_scope.
Open Scope list_scope.
Open Scope Z_scope.

(** ** The book *)

Record book := {
  bound : gmap string string;   (* hardware address to address *)
  held : gmap string string;    (* address to hardware address *)
}.

Definition empty_book : book := {| bound := ∅; held := ∅ |}.

(** Entering a client at an address: who was there before is no longer bound. *)
Definition assign (m a : string) (b : book) : book := {|
  bound := <[m := a]> (match held b !! a with
                       | Some old => delete old (bound b)
                       | None => bound b
                       end);
  held := <[a := m]> (held b) |}.

Definition release (m a : string) (b : book) : book := {|
  bound := delete m (bound b); held := delete a (held b) |}.

(** What can be observed of a subnet: a client asks, with or without a wish, and
    is given an address or none; a client is entered at an address, or removed
    from one, from outside. *)
Inductive lease_event : Type :=
  | Asked (mac : string) (wish answer : option string)
  | Assigned (mac ip : string)
  | Released (mac ip : string)
  | Unobserved.

(** The machine of the book, over a pool of addresses. *)
Inductive book_step (pool : string → Prop) (b : book) : lease_event → book → Prop :=
  (* a client that is bound is told its address, and no other *)
  | bs_known m a w :
      bound b !! m = Some a → w = None ∨ w = Some a →
      book_step pool b (Asked m w (Some a)) b
  | bs_other m a w :
      bound b !! m = Some a → w ≠ a → book_step pool b (Asked m (Some w) None) b
  (* an address that is held is refused to others *)
  | bs_held m w :
      bound b !! m = None → is_Some (held b !! w) → book_step pool b (Asked m (Some w) None) b
  (* an address that nobody holds is promised, but not entered *)
  | bs_promise m w :
      bound b !! m = None → held b !! w = None → book_step pool b (Asked m (Some w) (Some w)) b
  (* a new client is entered at an address of the pool that nobody holds *)
  | bs_grant m a :
      bound b !! m = None → pool a → held b !! a = None →
      book_step pool b (Asked m None (Some a)) (assign m a b)
  (* if there is none, it is told nothing, or an address of somebody else *)
  | bs_full m o :
      bound b !! m = None → (∀ a, pool a → is_Some (held b !! a)) →
      o = None ∨ (∃ a, o = Some a ∧ pool a) →
      book_step pool b (Asked m None o) b
  | bs_assign m a : book_step pool b (Assigned m a) (assign m a b)
  | bs_release m a :
      (∀ m', held b !! a = Some m' → m' = m) → book_step pool b (Released m a) (release m a b)
  | bs_unobserved : book_step pool b Unobserved b.

(** A run of a machine with labelled steps. *)
Inductive run {St Ev : Type} (step : St → Ev → St → Prop) : St → list Ev → St → Prop :=
  | run_nil x : run step x [] x
  | run_cons x y z e es : step x e y → run step y es z → run step x (e :: es) z.

(** What the book keeps: who is bound to an address holds it. *)
Definition book_ok (b : book) : Prop := ∀ m a, bound b !! m = Some a → held b !! a = Some m.

Lemma book_ok_empty : book_ok empty_book.
Proof. intros m a H. cbn in H. by rewrite lookup_empty in H. Qed.

Lemma assign_ok m a b : book_ok b → book_ok (assign m a b).
Proof.
  intros Hb m' a' H. cbn [bound held assign] in *. rewrite lookup_insert in H.
  case_decide; simplify_eq; [apply lookup_insert_eq|].
  assert (bound b !! m' = Some a' ∧ held b !! a ≠ Some m') as [Hm' Hne].
  { destruct (held b !! a) as [old|]; [|done]. rewrite lookup_delete in H.
    case_decide; [done|]. split; [done|congruence]. }
  apply Hb in Hm'. rewrite lookup_insert_ne; [done|]. congruence.
Qed.

Lemma release_ok m a b :
  (∀ m', held b !! a = Some m' → m' = m) → book_ok b → book_ok (release m a b).
Proof.
  intros Hown Hb m' a' H. cbn [bound held release] in *. rewrite lookup_delete in H.
  case_decide; [done|]. apply Hb in H. rewrite lookup_delete_ne; [done|].
  intros ->. by apply Hown in H.
Qed.

Lemma book_step_ok pool b e b' : book_step pool b e b' → book_ok b → book_ok b'.
Proof. destruct 1; auto using assign_ok, release_ok. Qed.

Lemma book_run_ok pool b es b' : run (book_step pool) b es b' → book_ok b → book_ok b'.
Proof. induction 1; eauto using book_step_ok. Qed.

Lemma book_ok_inj b m1 m2 a :
  book_ok b → bound b !! m1 = Some a → bound b !! m2 = Some a → m1 = m2.
Proof. intros Hb H1%Hb H2%Hb. congruence. Qed.

(** ** The book of a subnet *)

Definition book_of (h : lease_store) (s : Subnet) : book := {|
  bound := (λ p, ip_key (deref h p)) <$>
             filter (λ kv, contains_char "." kv.1 = false) (Subnet_leaseCache s);
  held := (λ p, Lease_MAC (deref h p)) <$>
            filter (λ kv, contains_char "." kv.1 = true) (Subnet_leaseCache s) |}.

Lemma bound_lookup h s k :
  bound (book_of h s) !! k =
    if contains_char "." k then None else (λ p, ip_key (deref h p)) <$> Subnet_leaseCache s !! k.
Proof.
  cbn [bound book_of]. rewrite lookup_fmap, map_lookup_filter.
  destruct (Subnet_leaseCache s !! k) as [p|]; cbn; [|by destruct (contains_char "." k)].
  destruct (contains_char "." k) eqn:E; case_guard; cbn; congruence.
Qed.

Lemma held_lookup h s k :
  held (book_of h s) !! k =
    if contains_char "." k then (λ p, Lease_MAC (deref h p)) <$> Subnet_leaseCache s !! k else None.
Proof.
  cbn [held book_of]. rewrite lookup_fmap, map_lookup_filter.
  destruct (Subnet_leaseCache s !! k) as [p|]; cbn; [|by destruct (contains_char "." k)].
  destruct (contains_char "." k) eqn:E; case_guard; cbn; congruence.
Qed.

Lemma book_ext b1 b2 :
  (∀ k, bound b1 !! k = bound b2 !! k) → (∀ k, held b1 !! k = held b2 !! k) → b1 = b2.
Proof. destruct b1, b2. intros H1%map_eq H2%map_eq. cbn in *. congruence. Qed.

(** The address of a lease that is found by an address is that address. *)
Lemma cache_ok_ip h c k p :
  cache_ok h c → c !! k = Some p → contains_char "." k = true → k = ip_key (deref h p).
Proof.
  intros Hc H Hk. destruct (Hc k p H) as (l & Hl & [_ Hm] & [->|[-> _]]);
    rewrite (deref_Some _ _ _ Hl); [done|congruence].
Qed.

(** The book depends on the bindings of the leases only. *)
Lemma book_of_mono h h' s :
  store_le h h' → cache_ok h (Subnet_leaseCache s) → book_of h' s = book_of h s.
Proof.
  intros Hle Hc. assert (∀ k p, Subnet_leaseCache s !! k = Some p → same_binding (deref h p) (deref h' p)) as Hsame.
  { intros k p Hp. destruct (cache_ok_lease _ _ _ _ Hc Hp) as [Hl _].
    destruct (Hle _ _ Hl) as (l' & Hl' & Hb). by rewrite (deref_Some _ _ _ Hl'). }
  apply book_ext; intros k; rewrite ?bound_lookup, ?held_lookup;
    destruct (contains_char "." k); try done;
    destruct (Subnet_leaseCache s !! k) as [p|] eqn:E; try done; cbn;
    destruct (Hsame k p E) as (E1 & E2 & _); congruence.
Qed.

(** ** Operations on the cache are operations on the book *)

Lemma book_of_AddLease h s p l :
  cache_ok h (Subnet_leaseCache s) → h !! p = Some l → lease_ok l →
  book_of h (AddLease h s p) = assign (Lease_MAC l) (ip_key l) (book_of h s).
Proof.
  intros Hc Hl Hok. pose proof Hok as [Hv Hm]. apply IP_String_v4_dot in Hv.
  apply book_ext; intros k; cbn [bound held assign]; rewrite lookup_insert;
    rewrite ?bound_lookup, ?held_lookup, ?Hv; unfold AddLease; cbn [Subnet_leaseCache set_leaseCache];
    rewrite (cache_add_spec _ _ _ _ _ Hl).
  - destruct (decide (Lease_MAC l = k)) as [<-|Hk].
    { rewrite Hm, decide_True by done. cbn. by rewrite (deref_Some _ _ _ Hl). }
    rewrite (decide_False (P := k = _)) by congruence.
    destruct (Subnet_leaseCache s !! ip_key l) as [old|]; cbn [fmap option_fmap option_map];
      rewrite ?lookup_delete, bound_lookup; destruct (contains_char "." k) eqn:Hdot;
      try (by repeat case_decide);
      rewrite (decide_False (P := k = _)) by congruence; repeat case_decide; done || congruence.
  - destruct (decide (ip_key l = k)) as [<-|Hk].
    { rewrite Hv, decide_False by congruence. rewrite decide_True by done. cbn.
      by rewrite (deref_Some _ _ _ Hl). }
    destruct (contains_char "." k) eqn:Hdot; [|done].
    rewrite !decide_False by congruence.
    destruct (Subnet_leaseCache s !! ip_key l) as [old|] eqn:Eold; [|done].
    destruct (cache_ok_lease _ _ _ _ Hc Eold) as [_ [_ Hold]]. by rewrite decide_False by congruence.
Qed.

Lemma book_of_delete h s m a :
  contains_char "." m = false → contains_char "." a = true →
  book_of h (set_leaseCache (delete a (delete m (Subnet_leaseCache s))) s) = release m a (book_of h s).
Proof.
  intros Hm Ha. apply book_ext; intros k; cbn [bound held release]; rewrite lookup_delete;
    rewrite ?bound_lookup, ?held_lookup; cbn [Subnet_leaseCache set_leaseCache]; rewrite !lookup_delete;
    destruct (contains_char "." k) eqn:Hdot; repeat case_decide; done || congruence.
Qed.

(** ** The labelled machine of a subnet *)

(** A wish is none or an IPv4 address, as the packet library delivers it. *)
Definition wish_ok `{Dhcpv4} (req : DHCPv4) : Prop :=
  isAddressZero (RequestedIPAddress req) = true ∨ is_v4 (RequestedIPAddress req).

Definition wish_of `{Dhcpv4} (req : DHCPv4) : option string :=
  if isAddressZero (RequestedIPAddress req) then None else Some (IP_String (RequestedIPAddress req)).

Inductive subnet_event `{D : Dhcpv4} :
    lease_store * Subnet → lease_event → lease_store * Subnet → Prop :=
  | se_request tExp tNew req r h s h' s' :
      client_ok req → wish_ok req → GetLeaseForRequest tExp tNew h s req = Some (r, h', s') →
      subnet_event (h, s)
        (Asked (client_key req) (wish_of req) ((λ p, ip_key (deref h' p)) <$> r)) (h', s')
  | se_add_host host h s :
      is_v4 (Host_IP host) → contains_char "." (Host_MAC host) = false →
      subnet_event (h, s) (Assigned (Host_MAC host) (IP_String (Host_IP host))) (AddHost h s host)
  | se_add_lease p l h s :
      h !! p = Some l → lease_ok l →
      subnet_event (h, s) (Assigned (Lease_MAC l) (ip_key l)) (h, AddLease h s p)
  | se_delete_host host h s :
      is_v4 (Host_IP host) → contains_char "." (Host_MAC host) = false →
      owns h s (Host_MAC host) (IP_String (Host_IP host)) →
      subnet_event (h, s) (Released (Host_MAC host) (IP_String (Host_IP host))) (h, DeleteHost s host)
  | se_delete_lease l h s :
      lease_ok l → owns h s (Lease_MAC l) (ip_key l) →
      subnet_event (h, s) (Released (Lease_MAC l) (ip_key l)) (h, DeleteLease s l)
  | se_store h h' s : store_le h h' → subnet_event (h, s) Unobserved (h', s).

Lemma subnet_event_step `{D : Dhcpv4} x e y : subnet_event x e y → subnet_step x y.
Proof. destruct 1; [eapply step_request|apply step_add_host|eapply step_add_lease|apply step_delete_host|apply step_delete_lease|apply step_store]; eauto; by match goal with H : lease_ok _ |- _ => destruct H end. Qed.

(** ** A request is a step of the book *)

Definition pool_of (s : Subnet) (a : string) : Prop := ∃ i, in_range s i ∧ a = IPv4_String i.

Lemma To4_inv ip x :
  To4 ip = Some x → bytes_of ip = x ∧ length x = 4%nat ∨ bytes_of ip = v4InV6Prefix ++ x ∧ length x = 4%nat.
Proof.
  unfold To4. destruct (Nat.eqb_spec (length (bytes_of ip)) 4) as [E|_]; [intros ->; by left|].
  destruct (Nat.eqb_spec (length (bytes_of ip)) 16) as [E|_]; cbn [andb]; [|done].
  case_bool_decide as Hp; [|done]. intros [= <-]. right.
  rewrite length_drop, E, <- Hp, take_drop. done.
Qed.

Lemma IP_Equal_v4 a b : is_v4 a → is_v4 b → IP_Equal a b = bool_decide (IP_String a = IP_String b).
Proof.
  intros Ha Hb. assert (IP_Equal a b = bool_decide (To4 a = To4 b)) as ->.
  - destruct Ha as (x & Ex & _), Hb as (y & Ey & _). rewrite Ex, Ey. unfold IP_Equal.
    destruct (To4_inv _ _ Ex) as [[-> Lx]|[-> Lx]], (To4_inv _ _ Ey) as [[-> Ly]|[-> Ly]];
      rewrite ?length_app, ?Lx, ?Ly; cbn [Nat.eqb Nat.add length v4InV6Prefix andb];
      rewrite ?take_app_length', ?drop_app_length' by done; try (apply bool_decide_ext; naive_solver).
  - apply bool_decide_ext. split; [|by apply IP_String_v4_inj]. intros E.
    destruct Ha as (x & Ex & _). rewrite (IP_String_v4 _ _ Ex). rewrite E in Ex.
    by rewrite (IP_String_v4 _ _ Ex).
Qed.

Lemma pool_taken h s :
  pool_ok s → (∀ j, in_range s j → taken s j) → ∀ a, pool_of s a → is_Some (held (book_of h s) !! a).
Proof.
  intros [Hr _] Ht a (i & Hi & ->). rewrite held_lookup, IPv4_String_dot by (by eapply in_range_u32).
  destruct (Ht i Hi) as [p ->]. by eexists.
Qed.

Section request.
Context `{D : Dhcpv4} (tExp tNew : Time) (h : lease_store) (s : Subnet) (req : DHCPv4).

Lemma request_book_step r h' s' :
  subnet_inv h s → client_ok req → wish_ok req →
  GetLeaseForRequest tExp tNew h s req = Some (r, h', s') →
  book_step (pool_of s) (book_of h s)
    (Asked (client_key req) (wish_of req) ((λ p, ip_key (deref h' p)) <$> r)) (book_of h' s').
Proof.
  intros [Hp Hc] Hreq Hwish HG. pose proof (HardwareAddr_String_no_dot _ Hreq) as Hdot.
  pose proof (bound_lookup h s (client_key req)) as Hb. rewrite Hdot in Hb.
  destruct (Subnet_leaseCache s !! client_key req) as [p|] eqn:Hm;
    [|destruct (isAddressZero (RequestedIPAddress req)) eqn:Hz].
  - destruct (cache_ok_lease _ _ _ _ Hc Hm) as [_ [Hv _]]. cbn in Hb.
    rewrite (request_known _ _ _ _ _ _ Hm) in HG. unfold wish_of.
    destruct (isAddressZero (RequestedIPAddress req)) eqn:Hz; cbn [orb] in HG.
    { injection HG as <- <- <-. apply bs_known; auto. }
    destruct Hwish as [Hwish|Hwv]; [congruence|]. rewrite (IP_Equal_v4 _ _ Hwv Hv) in HG.
    case_bool_decide as Hw; injection HG as <- <- <-; cbn.
    + apply bs_known; [done|]. right. by rewrite Hw.
    + by eapply bs_other.
  - destruct (request_pool_grants tExp tNew h s req Hp Hm Hz) as (r0 & E & Hg).
    rewrite E in HG. injection HG as ->. unfold wish_of. rewrite Hz.
    inversion Hg as [pre i post Hwalk Hpre Hi|i q Ht Hi Hq Hqe Hmin|Ht Hnone]; subst; cbn [fmap option_fmap option_map].
    + assert (in_range s i) as Hin by (by eapply probe_order_mid, Hwalk; apply first_ip_in_range).
      destruct (NewLease_ok tNew s (client_key req) i (proj1 Hp) Hin Hdot) as [Hok Hkey].
      rewrite (deref_Some _ _ _ (lookup_new _ _)), Hkey.
      rewrite (book_of_AddLease _ (set_currentIP i s) _ _ (cache_ok_mono _ _ _ (store_le_new _ _) Hc) (lookup_new _ _) Hok), Hkey.
      change (book_of ?h (set_currentIP i s)) with (book_of h s).
      rewrite (book_of_mono _ _ _ (store_le_new _ _) Hc).
      apply bs_grant; [done|by exists i|].
      rewrite held_lookup, IPv4_String_dot by (by eapply in_range_u32; [apply Hp|]).
      destruct (Subnet_leaseCache s !! IPv4_String i) eqn:E'; [|done]. destruct Hi. by eexists.
    + change (book_of h' (set_currentIP _ s)) with (book_of h' s).
      apply bs_full; [done|by apply pool_taken|]. right. eexists. split; [done|]. exists i. split; [done|].
      symmetry. eapply cache_ok_ip; eauto. apply IPv4_String_dot. by eapply in_range_u32; [apply Hp|].
    + change (book_of h' (set_currentIP _ s)) with (book_of h' s).
      apply bs_full; [done|by apply pool_taken|by left].
  - destruct Hwish as [Hwish|Hwv]; [congruence|]. rewrite request_wanted in HG by done. unfold wish_of. rewrite Hz.
    pose proof (held_lookup h s (IP_String (RequestedIPAddress req))) as Hh. rewrite IP_String_v4_dot in Hh by done.
    destruct (Subnet_leaseCache s !! IP_String (RequestedIPAddress req)); injection HG as <- <- <-;
      cbn [fmap option_fmap option_map] in *.
    + apply bs_held; [done|]. rewrite Hh. by eexists.
    + rewrite (deref_Some _ _ _ (lookup_new _ _)), (book_of_mono _ _ _ (store_le_new _ _) Hc). by apply bs_promise.
Qed.
End request.

(** ** The refinement *)

Section refine.
Context `{D : Dhcpv4}.

Lemma AddHost_book h s host :
  subnet_inv h s → is_v4 (Host_IP host) → contains_char "." (Host_MAC host) = false →
  let '(h', s') := AddHost h s host in
  book_of h' s' = assign (Host_MAC host) (IP_String (Host_IP host)) (book_of h s).
Proof.
  intros [Hp Hc] Hv Hm. cbn [AddHost new_lease].
  rewrite (book_of_AddLease _ _ _ _ (cache_ok_mono _ _ _ (store_le_new _ _) Hc) (lookup_new _ _)) by done.
  by rewrite (book_of_mono _ _ _ (store_le_new _ _) Hc).
Qed.

(** One event of a subnet is one step of its book, over the same pool. *)
Lemma subnet_event_book h s e h' s' :
  subnet_event (h, s) e (h', s') → subnet_inv h s →
  book_step (pool_of s) (book_of h s) e (book_of h' s') ∧ subnet_frame s s'.
Proof.
  intros Hev [Hp Hc]. inversion Hev as [? ? ? ? ? ? ? ? Hreq Hw HG|host ? ? Hv Hm
    |p l ? ? Hl Hok|host ? ? Hv Hm Hown|l ? ? [Hv Hm] Hown|? ? ? Hle]; subst.
  - split; [by eapply request_book_step|by eapply GetLeaseForRequest_frame].
  - pose proof (AddHost_book h s host (conj Hp Hc) Hv Hm) as E.
    cbn [AddHost new_lease] in E. split; [rewrite E; apply bs_assign|apply subnet_frame_cache].
  - split; [rewrite (book_of_AddLease _ _ _ _ Hc Hl Hok); apply bs_assign|apply subnet_frame_cache].
  - pose proof (IP_String_v4_dot _ Hv) as Hd. split; [|apply subnet_frame_cache].
    unfold DeleteHost. rewrite book_of_delete by done. apply bs_release. intros m'. rewrite held_lookup, Hd.
    destruct (Subnet_leaseCache s !! _) as [q|] eqn:E; [|done]. intros [= <-]. by apply Hown.
  - pose proof (IP_String_v4_dot _ Hv) as Hd. split; [|apply subnet_frame_cache].
    unfold DeleteLease. rewrite book_of_delete by done. apply bs_release. intros m'. rewrite held_lookup, Hd.
    destruct (Subnet_leaseCache s !! _) as [q|] eqn:E; [|done]. intros [= <-]. by apply Hown.
  - split; [|apply subnet_frame_refl]. rewrite (book_of_mono _ _ _ Hle Hc). apply bs_unobserved.
Qed.

Lemma pool_of_frame s s' a : subnet_frame s s' → pool_of s' a ↔ pool_of s a.
Proof. by intros (i & c & ->). Qed.

Lemma book_step_pool (P Q : string → Prop) b e b' :
  (∀ a, P a ↔ Q a) → book_step P b e b' → book_step Q b e b'.
Proof.
  intros HPQ. destruct 1.
  - by apply bs_known.
  - by eapply bs_other.
  - by apply bs_held.
  - by apply bs_promise.
  - apply bs_grant; [done|by apply HPQ|done].
  - apply bs_full; [done|by intros a Ha%HPQ; auto|]. naive_solver.
  - apply bs_assign.
  - by apply bs_release.
  - apply bs_unobserved.
Qed.

Lemma subnet_run_book (P : string → Prop) x es y :
  run subnet_event x es y → subnet_inv x.1 x.2 → (∀ a, P a ↔ pool_of x.2 a) →
  run (book_step P) (book_of x.1 x.2) es (book_of y.1 y.2).
Proof.
  induction 1 as [x|[h s] [h' s'] z e es Hev _ IH]; intros Hinv HP; [constructor|].
  destruct (subnet_event_book _ _ _ _ _ Hev Hinv) as [Hb Hf]. cbn [fst snd] in *. eapply run_cons.
  - eapply book_step_pool, Hb. intros a. by rewrite HP.
  - apply IH; [by eapply subnet_step_inv; [eapply subnet_event_step|]|].
    intros a. by rewrite HP, (pool_of_frame _ _ _ Hf).
Qed.

Lemma book_of_empty s : Subnet_leaseCache s = ∅ → book_of [] s = empty_book.
Proof.
  intros E. apply book_ext; intros k; rewrite ?bound_lookup, ?held_lookup, E, lookup_empty; cbn;
    rewrite lookup_empty; by destruct (contains_char "." k).
Qed.
End refine.

(** C4: a subnet refines the lease book.  Whatever happens to a subnet from its
    initialisation on, requests with and without a wish, hosts and leases entered
    and removed, other writes to the store, the events that can be observed are a
    run of the book's machine, from the empty book to the book of the subnet; and
    in that book no two clients are bound to one address. *)
Theorem subnet_refines_book (D : Dhcpv4) order cfg addrs s0 es h s :
  InitializeSubnet order cfg addrs = Ok s0 →
  Subnet_currentIP cfg = 0 → Subnet_iPTo s0 < 2 ^ 32 - 1 →
  run subnet_event ([], s0) es (h, s) →
  run (book_step (pool_of s0)) empty_book es (book_of h s) ∧
  (∀ m1 m2 a, bound (book_of h s) !! m1 = Some a → bound (book_of h s) !! m2 = Some a → m1 = m2).
Proof.
  intros Hi Hc Hmax Hrun. pose proof (InitializeSubnet_inv _ _ _ _ [] Hi Hc Hmax) as Hinv.
  pose proof (subnet_run_book (pool_of s0) _ _ _ Hrun Hinv (λ a, iff_refl _)) as Hb. cbn [fst snd] in Hb.
  assert (Subnet_leaseCache s0 = ∅) as E by (apply InitializeSubnet_Ok in Hi as (?&?&?&?&?&?&?&?&?&?&?&?&?&?&?&?&?); done).
  rewrite (book_of_empty _ E) in Hb. split; [done|]. intros m1 m2 a.
  apply book_ok_inj. by eapply book_run_ok, book_ok_empty.
Qed.

(** Two clients ask for any address, then the first for the second's. *)
Definition demo_events : list lease_event :=
  [Asked (demo_key 1) None (Some "10.1.1.1"); Asked (demo_key 2) None (Some "10.1.1.2");
   Asked (demo_key 1) (Some "10.1.1.2") None].

Lemma request_event `{D : Dhcpv4} tExp tNew req e h s r h' s' :
  client_ok req → wish_ok req → GetLeaseForRequest tExp tNew h s req = Some (r, h', s') →
  e = Asked (client_key req) (wish_of req) ((λ p, ip_key (deref h' p)) <$> r) →
  subnet_event (h, s) e (h', s').
Proof. intros ? ? ? ->. by eapply se_request. Qed.

Lemma demo_events_run : ∃ h s, run (subnet_event (D := rfc_lib)) ([], demo_subnet) demo_events (h, s).
Proof.
  do 2 eexists. eapply run_cons; [|eapply run_cons; [|eapply run_cons; [|apply run_nil]]].
  - eapply (request_event (D := rfc_lib) demo_now demo_now (demo_discover 1));
      [apply demo_discover_ok; unfold is_u8; lia|by left|vm_compute; reflexivity..].
  - eapply (request_event (D := rfc_lib) demo_now demo_now (demo_discover 2));
      [apply demo_discover_ok; unfold is_u8; lia|by left|vm_compute; reflexivity..].
  - eapply (request_event (D := rfc_lib) demo_now demo_now
      (client_packet MessageTypeRequest [0; 0; 0; 0; 0; 1] (Some [10; 1; 1; 2])));
      [apply (demo_discover_ok 1); unfold is_u8; lia|right; refine (bool_decide_unpack _ _); vm_compute; exact I
      |vm_compute; reflexivity..].
Qed.

Lemma subnet_refines_book_witness :
  ∃ h s, run (book_step (pool_of demo_subnet)) empty_book demo_events (book_of h s) ∧
  (∀ m1 m2 a, bound (book_of h s) !! m1 = Some a → bound (book_of h s) !! m2 = Some a → m1 = m2).
Proof.
  destruct demo_events_run as (h & s & Hrun). exists h, s.
  apply (subnet_refines_book rfc_lib [] demo_cfg ∅); [vm_compute; reflexivity..|exact Hrun].
Defined.

(** ** Hosts that move *)

(** A host that moves to another address keeps the old one: it stays taken,
    under the host's name, and cannot be given back by deleting the host, which
    releases the new one only; and when the old address is given to a second
    host, the first one loses its binding, although its new address stays
    taken. *)
Theorem moved_host_evicted h s old new other :
  subnet_inv h s →
  is_v4 (Host_IP old) → is_v4 (Host_IP new) → IP_String (Host_IP old) ≠ IP_String (Host_IP new) →
  contains_char "." (Host_MAC new) = false → Host_MAC old = Host_MAC new →
  Host_IP other = Host_IP old → contains_char "." (Host_MAC other) = false → Host_MAC other ≠ Host_MAC new →
  let '(h1, s1) := AddHost h s old in
  let '(h2, s2) := AddHost h1 s1 new in
  let '(h3, s3) := AddHost h2 s2 other in
  held (book_of h2 s2) !! IP_String (Host_IP old) = Some (Host_MAC new) ∧
  held (book_of h2 (DeleteHost s2 new)) !! IP_String (Host_IP old) = Some (Host_MAC new) ∧
  bound (book_of h3 s3) !! Host_MAC new = None ∧
  held (book_of h3 s3) !! IP_String (Host_IP new) = Some (Host_MAC new).
Proof.
  intros Hinv Hv1 Hv2 Hne Hm Em Eip Hmo Hneo.
  pose proof (AddHost_book h s old Hinv Hv1 ltac:(congruence)) as B1.
  pose proof (AddHost_inv h s old Hinv Hv1 ltac:(congruence)) as I1.
  destruct (AddHost h s old) as [h1 s1]. destruct I1 as [I1 _].
  pose proof (AddHost_book h1 s1 new I1 Hv2 Hm) as B2.
  pose proof (AddHost_inv h1 s1 new I1 Hv2 Hm) as I2.
  destruct (AddHost h1 s1 new) as [h2 s2]. destruct I2 as [I2 _].
  pose proof (AddHost_book h2 s2 other I2 ltac:(congruence) Hmo) as B3.
  destruct (AddHost h2 s2 other) as [h3 s3].
  assert (held (book_of h2 s2) !! IP_String (Host_IP old) = Some (Host_MAC new)) as Hold.
  { rewrite B2, B1. cbn [held assign]. by rewrite lookup_insert_ne, lookup_insert_eq, Em by congruence. }
  split_and!; [done|..].
  - unfold DeleteHost. rewrite book_of_delete by (done || by apply IP_String_v4_dot).
    cbn [held release]. by rewrite lookup_delete_ne by congruence.
  - rewrite B3. cbn [bound assign]. rewrite Eip, Hold, lookup_insert_ne by congruence. apply lookup_delete_eq.
  - rewrite B3, B2. cbn [held assign]. rewrite Eip, lookup_insert_ne by done. apply lookup_insert_eq.
Qed.

Definition host_at (mac ip : string) : Host := {|
  Host_Subnet := ""; Host_MAC := mac; Host_IP := ParseIP ip; Host_Gateway := None;
  Host_ServerHostName := ""; Host_BootFileName := ""; Host_DNS := []; Host_Options := [];
  Host_LeaseTime := 0; Host_HostName := "" |}.

Lemma moved_host_evicted_witness :
  let '(h1, s1) := AddHost [] demo_subnet (host_at "aa" "10.1.1.1") in
  let '(h2, s2) := AddHost h1 s1 (host_at "aa" "10.1.1.2") in
  let '(h3, s3) := AddHost h2 s2 (host_at "bb" "10.1.1.1") in
  held (book_of h2 s2) !! "10.1.1.1" = Some "aa" ∧
  held (book_of h2 (DeleteHost s2 (host_at "aa" "10.1.1.2"))) !! "10.1.1.1" = Some "aa" ∧
  bound (book_of h3 s3) !! "aa" = None ∧ held (book_of h3 s3) !! "10.1.1.2" = Some "aa".
Proof.
  apply (moved_host_evicted [] demo_subnet (host_at "aa" "10.1.1.1") (host_at "aa" "10.1.1.2")
    (host_at "bb" "10.1.1.1") demo_subnet_inv);
    first [done | refine (bool_decide_unpack _ _); vm_compute; exact I].
Defined.
