(* ===== verification/PoolServes.v ===== *)
(** * A pool that is large enough

    As long as a subnet has a free address for each of the clients it is to
    serve, every one of them is given an address when it asks, keeps it, and
    shares it with nobody: the counting argument behind the sizing of a range. *)

From S2P Require Import Prelude GoStrings GoNet Errors IPv4 Types Dhcpv4 Subnet.
From S2P Require Import LeaseCache Pool SubnetProps.
Open Scope string_scope.
Open Scope list_scope.
Open Scope Z_scope.

(** ** Free addresses and clients without a lease *)

Definition range_set (s : Subnet) : gset Z :=
  list_to_set (seqZ (Subnet_iPFrom s) (Subnet_iPTo s - Subnet_iPFrom s + 1)).

(** The addresses of the range that the cache does not have. *)
Definition free_set (s : Subnet) : gset Z :=
  filter (λ i, Subnet_leaseCache s !! IPv4_String i = None) (range_set s).

(** The clients of a set that the cache does not have. *)
Definition unserved (C : gset string) (s : Subnet) : gset string :=
  filter (λ m, Subnet_leaseCache s !! m = None) C.

(** There are enough free addresses. *)
Definition enough (C : gset string) (s : Subnet) : Prop :=
  (size (unserved C s) <= size (free_set s))%nat.

Lemma elem_of_range_set s i : i ∈ range_set s ↔ in_range s i.
Proof. unfold range_set, in_range. rewrite elem_of_list_to_set, elem_of_seqZ. lia. Qed.

Lemma elem_of_free_set s i : i ∈ free_set s ↔ in_range s i ∧ ¬ taken s i.
Proof.
  unfold free_set, taken. rewrite elem_of_filter, elem_of_range_set.
  rewrite <- eq_None_not_Some. by intuition.
Qed.

(** Somebody without a lease and enough addresses: then some address is free. *)
Lemma enough_free C s m :
  enough C s → m ∈ C → Subnet_leaseCache s !! m = None → ∃ i, in_range s i ∧ ¬ taken s i.
Proof.
  intros He Hm Hn. destruct (decide (free_set s = ∅)) as [E|[i Hi]%set_choose_L].
  - assert (m ∈ unserved C s) as Hu by (by apply elem_of_filter).
    unfold enough in He. rewrite E, size_empty in He.
    apply Nat.le_0_r, size_empty_inv in He. by apply (He m) in Hu.
  - exists i. by apply elem_of_free_set.
Qed.

Lemma size_remove {A} `{Countable A} (X : gset A) x : x ∈ X → size X = S (size (X ∖ {[x]})).
Proof.
  intros Hx. rewrite (union_difference_singleton_L x X Hx) at 1.
  rewrite size_union by set_solver. by rewrite size_singleton.
Qed.

(** ** Granting a free address *)

(** The cache after a client was entered at a free address. *)
Lemma grant_lookup h c p l k :
  h !! p = Some l → c !! ip_key l = None →
  cache_add h p c !! k =
    if decide (k = Lease_MAC l) then Some p else if decide (k = ip_key l) then Some p else c !! k.
Proof. intros Hl Hn. by rewrite (cache_add_spec _ _ _ _ _ Hl), Hn. Qed.

(** A cache with one more client and one more address. *)
Definition granted (s s' : Subnet) (m : string) (i : IPv4) (p : lease_ptr) : Prop :=
  ∀ k, Subnet_leaseCache s' !! k =
    if decide (k = m) then Some p else if decide (k = IPv4_String i) then Some p
    else Subnet_leaseCache s !! k.

Definition no_dots (C : gset string) : Prop := ∀ m, m ∈ C → contains_char "." m = false.

Lemma unserved_grant C s s' m i p :
  granted s s' m i p → is_u32 i → no_dots C → unserved C s' = unserved C s ∖ {[m]}.
Proof.
  intros Hg Hi HC. apply set_eq. intros k. unfold unserved.
  rewrite elem_of_difference, !elem_of_filter, Hg, not_elem_of_singleton.
  destruct (decide (k = m)) as [->|Hk]; [by intuition|].
  destruct (decide (k = IPv4_String i)) as [->|]; [|by intuition].
  split; [by intros []|]. intros [[_ Hin] _]. apply HC in Hin. by rewrite IPv4_String_dot in Hin.
Qed.

Lemma free_grant s s' m i p :
  granted s s' m i p → range_ok s → in_range s i → Subnet_iPFrom s' = Subnet_iPFrom s →
  Subnet_iPTo s' = Subnet_iPTo s → contains_char "." m = false → free_set s' = free_set s ∖ {[i]}.
Proof.
  intros Hg Hr Hi E1 E2 Hm. apply set_eq. intros j.
  rewrite elem_of_difference, !elem_of_free_set, not_elem_of_singleton.
  assert (in_range s' j ↔ in_range s j) as -> by (unfold in_range; by rewrite E1, E2).
  unfold taken. rewrite Hg. destruct (decide (in_range s j)) as [Hj|]; [|by intuition].
  pose proof (in_range_u32 s j Hr Hj) as Hju. pose proof (IPv4_String_dot j Hju) as Hdj.
  rewrite (decide_False (P := _ = m)) by congruence.
  destruct (decide (IPv4_String j = IPv4_String i)) as [E|E].
  - apply IPv4_String_inj in E as ->; [|done|by eapply in_range_u32].
    split; [intros [_ Hn]; destruct Hn; by eexists|by intros [_ []]].
  - assert (j ≠ i) by congruence. by intuition.
Qed.

(** What a client of the set finds in the cache stays what it is. *)
Definition keeps (s s' : Subnet) : Prop :=
  ∀ m p, contains_char "." m = false → Subnet_leaseCache s !! m = Some p → Subnet_leaseCache s' !! m = Some p.

#[global] Instance keeps_preorder : PreOrder keeps.
Proof. split; [by intros s m p|]. intros s1 s2 s3 H1 H2 m p Hm H. by apply H2, H1. Qed.

Section serve.
Context `{D : Dhcpv4} (tExp tNew : Time) (h : lease_store) (s : Subnet) (req : DHCPv4) (C : gset string).

Abbreviation mac := (client_key req).

Lemma grant_enough i :
  pool_ok s → in_range s i → ¬ taken s i → contains_char "." mac = false →
  mac ∈ C → Subnet_leaseCache s !! mac = None → no_dots C →
  let '(r, h', s') := answer_of h mac tNew s (first_ip s) (Free i) in
  Subnet_leaseCache s' !! mac = Some (length h) ∧ keeps s s' ∧ (enough C s → enough C s').
Proof.
  intros [Hr Hp] Hi Ht Hdot Hm Hn HC. cbn [answer_of].
  destruct (NewLease_ok tNew s mac i Hr Hi Hdot) as [Hok Hkey].
  set (l := NewLease _ _ _ _) in *. assert (Subnet_leaseCache s !! ip_key l = None) as Hfree.
  { rewrite Hkey. by apply eq_None_not_Some. }
  assert (Hl := lookup_new h l). assert (Lease_MAC l = mac) as Hlm by done.
  assert (granted s (AddLease (h ++ [l]) (set_currentIP i s) (length h)) mac i (length h)) as Hlook.
  { intros k. unfold AddLease. cbn [Subnet_leaseCache set_leaseCache set_currentIP].
    by rewrite (grant_lookup _ _ _ _ _ Hl Hfree), Hkey, Hlm. }
  assert (is_u32 i) as Hu by (by eapply in_range_u32). pose proof (IPv4_String_dot i Hu) as Hdi.
  set (s' := AddLease _ _ _) in *. split_and!.
  - by rewrite Hlook, decide_True.
  - intros k p Hk Hkp. rewrite Hlook, decide_False, decide_False; [done|congruence..].
  - unfold enough. intros He.
    assert (unserved C s' = unserved C s ∖ {[mac]}) as -> by (by eapply unserved_grant).
    assert (free_set s' = free_set s ∖ {[i]}) as -> by (by eapply free_grant).
    pose proof (size_remove (unserved C s) mac ltac:(by apply elem_of_filter)).
    pose proof (size_remove (free_set s) i ltac:(by apply elem_of_free_set)). lia.
Qed.

(** A client of the set that has no wish, or wants the address it has, is given
    a lease that the cache has under its hardware address; nobody in the cache
    loses a lease, and there are enough addresses left. *)
Lemma enough_serves :
  subnet_inv h s → client_ok req → mac ∈ C → no_dots C →
  enough C s →
  (isAddressZero (RequestedIPAddress req) = true ∨
   ∃ p, Subnet_leaseCache s !! mac = Some p ∧
        IP_Equal (RequestedIPAddress req) (Lease_IP (deref h p)) = true) →
  ∃ p h' s', GetLeaseForRequest tExp tNew h s req = Some (Some p, h', s') ∧
    Subnet_leaseCache s' !! mac = Some p ∧ keeps s s' ∧ enough C s' ∧
    (h' = h ∨ ∃ ip, h' = h ++ [NewLease tNew s mac ip]).
Proof.
  intros [Hp Hc] Hreq Hm HC He Hw. pose proof (HardwareAddr_String_no_dot _ Hreq) as Hdot.
  destruct (Subnet_leaseCache s !! mac) as [p|] eqn:Hmac.
  - rewrite (request_known _ _ _ _ _ _ Hmac). exists p, h, s.
    split_and!; [|done|reflexivity|done|by left].
    destruct Hw as [->|(p' & [= <-] & ->)]; [done|]. by rewrite orb_true_r.
  - destruct Hw as [Hz|(p' & ? & _)]; [|done].
    destruct (enough_free _ _ _ He Hm Hmac) as (j & Hj & Hjt).
    destruct (request_pool_grants tExp tNew h s req Hp Hmac Hz) as (r & E & Hg).
    inversion Hg as [pre i post Hwalk Hpre Hi Er|i q Ht _ _ _ _|Ht _]; subst; [|by destruct (Hjt (Ht j Hj))..].
    assert (in_range s i) as Hin by (by eapply probe_order_mid, Hwalk; apply first_ip_in_range).
    pose proof (grant_enough i Hp Hin Hi Hdot Hm Hmac HC) as Hgr.
    cbn [answer_of] in *. destruct Hgr as (G1 & G2 & G3). do 3 eexists.
    split; [exact E|]. split_and!; [done|done|by apply G3|right; by eexists].
Qed.
End serve.
