(* ===== verification/Network.v ===== *)
(** * What passes between the client and the server

    Both programs hand packets to the packet library and frames to [gopacket];
    what one of them gets back from the bytes that the other one sent is what
    the class [Network] and its laws say.  A packet comes back with the same
    content: an address may come back in its four-byte form, and the zero
    address as nil or as four zero bytes. *)

From S2P Require Import Prelude GoStrings GoNet Errors IPv4 Types Dhcpv4 Subnet.
From S2P Require Import LeaseCache SubnetProps LeaseSpec Socket.
Open Scope string_scope.
Open Scope list_scope.
Open Scope Z_scope.

(** ** Addresses up to their form *)

Definition norm (ip : net_IP) : net_IP :=
  if isAddressZero ip then None
  else match To4 ip with Some b => Some b | None => ip end.

Definition same_ip (a b : net_IP) : Prop := norm a = norm b.

#[global] Instance same_ip_equivalence : Equivalence same_ip.
Proof. unfold same_ip. split; [by intros a|by intros a b|]. intros a b c. congruence. Qed.

Lemma isAddressZero_norm ip : isAddressZero ip = bool_decide (norm ip = None).
Proof.
  unfold norm. destruct (isAddressZero ip) eqn:E; [done|]. symmetry. apply bool_decide_eq_false.
  destruct (To4 ip); [done|]. intros ->. done.
Qed.

#[global] Instance isAddressZero_proper : Proper (same_ip ==> eq) isAddressZero.
Proof. intros a b E. by rewrite !isAddressZero_norm, E. Qed.

(** The addresses of packet headers. *)
Definition header_ip (ip : net_IP) : Prop := isAddressZero ip = true ∨ is_v4 ip.

(** A hardware address of Ethernet. *)
Definition hw_ok (a : HardwareAddr) : Prop := length a = 6%nat ∧ Forall is_u8 a.

Lemma is_v4_To4 ip : is_v4 ip → is_v4 (To4 ip) ∧ To4 (To4 ip) = To4 ip.
Proof.
  intros (b & E & Hb). rewrite E. assert (To4 (Some b) = Some b) as E4.
  { unfold To4. rewrite bytes_of_Some. pose proof (To4_length _ _ E) as L. by rewrite L. }
  split; [by exists b|done].
Qed.

Lemma norm_v4 ip : isAddressZero ip = false → is_v4 ip → norm ip = To4 ip.
Proof. intros Hz (b & E & _). unfold norm. by rewrite Hz, E. Qed.

Lemma same_ip_v4 a b :
  same_ip a b → isAddressZero a = false → is_v4 a → isAddressZero b = false ∧ To4 b = To4 a.
Proof.
  intros E Hz Hv. unfold same_ip in E. rewrite (norm_v4 _ Hz Hv) in E. destruct Hv as (x & Ex & Hx).
  assert (isAddressZero b = false) as Hzb by (by rewrite isAddressZero_norm, <- E, Ex).
  split; [done|]. unfold norm in E. rewrite Hzb in E. destruct (To4 b) eqn:Eb; [done|].
  rewrite Ex in E. subst b. unfold To4 in Eb. destruct Hx as [L _].
  rewrite bytes_of_Some, L in Eb. done.
Qed.

Lemma isAddressZero_inv ip : isAddressZero ip = true → ip = None ∨ To4 ip = Some [0; 0; 0; 0].
Proof.
  unfold isAddressZero. case_bool_decide; [by left|]. cbn [orb]. unfold IP_Equal, IPv4zero, net_IPv4. rewrite bytes_of_Some.
  intros E. right. unfold To4. change (length (v4InV6Prefix ++ [0; 0; 0; 0])) with 16%nat in E.
  destruct (Nat.eqb_spec (length (bytes_of ip)) 16) as [L|L].
  - apply bool_decide_eq_true in E. rewrite E. reflexivity.
  - destruct (Nat.eqb_spec (length (bytes_of ip)) 4) as [L4|L4]; cbn [andb] in E; [|done].
    apply andb_true_iff in E as [_ E]. apply bool_decide_eq_true in E. destruct ip as [b|]; [|done].
    rewrite bytes_of_Some in E. by subst.
Qed.

Lemma isAddressZero_To4 ip : To4 ip = Some [0; 0; 0; 0] → isAddressZero ip = true.
Proof.
  intros E. destruct (To4_inv _ _ E) as [[Eb _]|[Eb _]]; destruct ip as [b|]; try done;
    rewrite bytes_of_Some in Eb; by subst.
Qed.

Lemma zero_v4 ip : isAddressZero ip = true → is_v4 ip → To4 ip = Some [0; 0; 0; 0].
Proof. by intros [->|]%isAddressZero_inv (b & E & _). Qed.

(** On IPv4 addresses the relation is equality of the four bytes. *)
Lemma same_ip_v4_eq a b : same_ip a b → is_v4 a → is_v4 b → To4 a = To4 b.
Proof.
  intros E Ha Hb. destruct (isAddressZero a) eqn:Z.
  - assert (isAddressZero b = true) as Zb by (by rewrite <- E). by rewrite !zero_v4.
  - symmetry. by apply same_ip_v4.
Qed.

(** The four-byte form is the same address. *)
Lemma same_ip_To4 ip : header_ip ip → same_ip (To4 ip) ip.
Proof.
  intros Hip. destruct (isAddressZero ip) eqn:Hz.
  - unfold same_ip. apply isAddressZero_inv in Hz as [->|E]; [done|].
    unfold norm. by rewrite (isAddressZero_To4 _ E), E.
  - destruct Hip as [|Hv]; [congruence|]. destruct (is_v4_To4 _ Hv) as [Hv' E].
    unfold same_ip. rewrite (norm_v4 ip), norm_v4, E; [done| |done..].
    apply not_true_is_false. intros [E'|E']%isAddressZero_inv; destruct Hv as (b & Eb & _); [congruence|].
    rewrite E in E'. by rewrite (isAddressZero_To4 _ E') in Hz.
Qed.

(** ** Packets up to the form of their addresses *)

Record same_packet `{Dhcpv4} (p q : DHCPv4) : Prop := {
  sp_op : OpCode q = OpCode p;
  sp_type : MessageType q = MessageType p;
  sp_hw : ClientHWAddr q = ClientHWAddr p;
  sp_your : same_ip (YourIPAddr p) (YourIPAddr q);
  sp_gateway : same_ip (GatewayIPAddr p) (GatewayIPAddr q);
  sp_requested : RequestedIPAddress q = RequestedIPAddress p;
  sp_server : ServerIdentifier q = ServerIdentifier p;
}.

Lemma same_packet_refl `{Dhcpv4} p : same_packet p p.
Proof. by split. Qed.

Definition header_ok (p : DHCPv4) : Prop :=
  hw_ok (ClientHWAddr p) ∧ header_ip (YourIPAddr p) ∧ header_ip (GatewayIPAddr p).

(** ** The interface *)

Class Network : Type := {
  (* dhcpv4.FromBytes and DHCPv4.ToBytes *)
  FromBytes : list Z → result error DHCPv4;
  PacketBytes : DHCPv4 → list Z;
  (* gopacket: the layer of a packet, the bytes of a frame *)
  Layer : DHCPv4 → option bool;
  SerializeLayers : frame → result error (list Z);
  (* dhcpv4.NewDiscovery and dhcpv4.NewRequestFromOffer *)
  NewDiscovery : HardwareAddr → option DHCPv4 * option error;
  NewRequestFromOffer : DHCPv4 → option DHCPv4 * option error;
}.

Class NetworkLaws (D : Dhcpv4) (N : Network) : Prop := {
  (* what is parsed is what was written *)
  FromBytes_PacketBytes : ∀ p, header_ok p → ∃ q, FromBytes (PacketBytes p) = Ok q ∧ same_packet p q;
  (* the headers of Ethernet, IPv4 without options and UDP, then the packet *)
  SerializeLayers_frame : ∀ fr b, length (fr_dstMAC fr) = 6%nat → SerializeLayers fr = Ok b →
    ∃ hdr, length hdr = 36%nat ∧ b = fr_dstMAC fr ++ hdr ++ PacketBytes (fr_payload fr);
  (* a discover asks for no address and names no server *)
  NewDiscovery_fields : ∀ mac d e, NewDiscovery mac = (Some d, e) →
    OpCode d = OpcodeBootRequest ∧ ClientHWAddr d = mac ∧ MessageType d = MessageTypeDiscover ∧
    isAddressZero (YourIPAddr d) = true ∧ isAddressZero (GatewayIPAddr d) = true ∧
    isAddressZero (RequestedIPAddress d) = true ∧ ServerIdentifier d = None;
  (* a request asks for the address that was offered, by the server that offered it *)
  NewRequestFromOffer_fields : ∀ o r e, NewRequestFromOffer o = (Some r, e) →
    (OpCode o = OpcodeBootReply → OpCode r = OpcodeBootRequest) ∧
    ClientHWAddr r = ClientHWAddr o ∧ MessageType r = MessageTypeRequest ∧
    isAddressZero (YourIPAddr r) = true ∧ GatewayIPAddr r = GatewayIPAddr o ∧
    (header_ip (YourIPAddr o) → RequestedIPAddress r = To4 (YourIPAddr o)) ∧
    ServerIdentifier r = ServerIdentifier o;
}.

(** ** A concrete network

    For examples: packets are encoded as one number, frames as the laws say. *)

#[global] Instance DHCPv4_eq_dec : EqDecision DHCPv4.
Proof. solve_decision. Defined.

Definition packet_tuple (p : DHCPv4) :=
  (OpCode p, TransactionID p, ClientHWAddr p, YourIPAddr p, ServerIPAddr p, GatewayIPAddr p,
   ServerHostName p, BootFileName p, Options p).

#[global] Instance DHCPv4_countable : Countable DHCPv4.
Proof.
  refine (inj_countable' packet_tuple
    (λ '(op, tid, hw, yi, si, gi, sname, file, opts), {|
       OpCode := op; TransactionID := tid; ClientHWAddr := hw; YourIPAddr := yi; ServerIPAddr := si;
       GatewayIPAddr := gi; ServerHostName := sname; BootFileName := file; Options := opts |}) _).
  by intros [].
Defined.

Definition toy_bytes (p : DHCPv4) : list Z := [Zpos (encode p)].
Definition toy_parse (b : list Z) : result error DHCPv4 :=
  match b with
  | [Zpos n] => match decode n with Some p => Ok p | None => Err (EExternal "malformed DHCP packet") end
  | _ => Err (EExternal "malformed DHCP packet")
  end.

Definition toy_request (o : DHCPv4) : DHCPv4 := {|
  OpCode := OpcodeBootRequest; TransactionID := TransactionID o; ClientHWAddr := ClientHWAddr o;
  YourIPAddr := None; ServerIPAddr := None; GatewayIPAddr := GatewayIPAddr o;
  ServerHostName := ""; BootFileName := "";
  Options := <[50 := bytes_of (To4 (YourIPAddr o))]>
    (match Options o !! 54 with Some b => {[54 := b]} | None => ∅ end ∪ {[53 := [MessageTypeRequest]]}) |}.

Definition toy_net : Network := {|
  FromBytes := toy_parse;
  PacketBytes := toy_bytes;
  Layer _ := Some true;
  SerializeLayers fr := Ok (fr_dstMAC fr ++ replicate 36 0 ++ toy_bytes (fr_payload fr));
  NewDiscovery mac := (Some (client_packet MessageTypeDiscover mac None), None);
  NewRequestFromOffer o := (Some (toy_request o), None);
|}.

Lemma toy_net_laws : NetworkLaws rfc_lib toy_net.
Proof.
  split.
  - intros p _. exists p. cbn [FromBytes PacketBytes toy_net]. unfold toy_bytes, toy_parse. rewrite decode_encode.
    split; [done|apply same_packet_refl].
  - intros fr b _. cbn [SerializeLayers toy_net]. intros [= <-]. by exists (replicate 36 0).
  - cbn [NewDiscovery toy_net]. intros mac d e [= <- <-]. by split_and!.
  - cbn [NewRequestFromOffer toy_net]. intros o r e [= <- <-]. cbn. unfold rfc_ip. cbn [Options toy_request].
    split_and!; [done|done| |done|done| |].
    + destruct (Options o !! 54); by simplify_map_eq.
    + intros _. rewrite lookup_insert_eq. destruct (To4 (YourIPAddr o)) as [b|] eqn:E; [|done].
      rewrite bytes_of_Some. pose proof (To4_length _ _ E) as L. by rewrite L.
    + destruct (Options o !! 54); by simplify_map_eq.
Qed.
