(* ===== verification/System.v ===== *)
(** * Clients and server together

    The load-testing client of [client.go] and the server of [server.go], with
    the sockets between them, as one transition system.  Every frame and every
    response that was ever sent stays available, so the network may lose,
    duplicate, delay and reorder; the clocks and the system calls may answer
    anything.  The steps are the functions of both programs. *)

From S2P Require Import Prelude GoStrings GoNet Errors IPv4 Types Dhcpv4 Subnet.
From S2P Require Import LeaseCache Pool SubnetProps SubnetNet Server ServerProps.
From S2P Require Import Responses ServerGuarantees RequestProcessor Pipeline.
From S2P Require Import Socket Client Sender LeaseSpec PoolServes Network.
Open Scope string_scope.
Open Scope list_scope.
Open Scope Z_scope.

Record system := {
  sys_server : Server;
  sys_clients : gmap string Client;
  sys_senders : gmap string sender;
  sys_up : list frame;               (* sent by clients *)
  sys_responses : list Response;     (* made by the server *)
  sys_down : list frame;             (* sent by the server *)
}.

(** ** The steps *)

Section steps.
Context `{D : Dhcpv4} `{N : Network} (hw_cap : HardwareAddr → nat) (ifname : interfaceName).

Inductive sys_step : system → system → Prop :=
  (* the sending goroutine of a client goes on *)
  | sys_send setnet rawsocket sockopt sendto m c st fr st' s :
      sys_clients s !! m = Some c → sys_senders s !! m = Some st →
      sender_step setnet Layer SerializeLayers rawsocket sockopt hw_cap sendto
        NewDiscovery NewRequestFromOffer c st = Ret (fr, st') →
      sys_step s
        {| sys_server := sys_server s; sys_clients := sys_clients s;
           sys_senders := <[m := st']> (sys_senders s); sys_up := option_list fr ++ sys_up s;
           sys_responses := sys_responses s; sys_down := sys_down s |}
  (* a datagram reaches the server, on the interface of the clients *)
  | sys_serve fr d sock ifindex req tExp tNew orders w srv s :
      fr ∈ sys_up s → dg_bytes d = PacketBytes (fr_payload fr) →
      NextRequest ifindex FromBytes sock (Ok d) = Ret (Ok req) → Request_InterfaceName req = ifname →
      (∀ i, range_order (orders i) (subnets (sys_server s))) →
      process_request tExp tNew orders (sys_server s) req = Ret (w, srv) →
      sys_step s
        {| sys_server := srv; sys_clients := sys_clients s; sys_senders := sys_senders s;
           sys_up := sys_up s; sys_responses := option_list w ++ sys_responses s; sys_down := sys_down s |}
  (* a response is sent *)
  | sys_reply byname rawsocket sockopt setnet sendto (us us' : UDPSocket unit BroadcastResponder) rsp fr err s :
      rsp ∈ sys_responses s → Send rsp = SendBroadcast →
      SendBroadcast_udp byname rawsocket sockopt setnet Layer SerializeLayers hw_cap sendto us
        (Response_Request rsp) (Response_Response rsp) = Ret (us', Some fr, err) →
      sys_step s
        {| sys_server := sys_server s; sys_clients := sys_clients s; sys_senders := sys_senders s;
           sys_up := sys_up s; sys_responses := sys_responses s; sys_down := fr :: sys_down s |}
  (* a frame reaches the clients *)
  | sys_receive fr bytes b clients s :
      fr ∈ sys_down s → SerializeLayers fr = Ok bytes →
      GetDHCPAddrs FromBytes (sys_clients s) [bytes] = Ret (b, clients) →
      sys_step s
        {| sys_server := sys_server s; sys_clients := clients; sys_senders := sys_senders s;
           sys_up := sys_up s; sys_responses := sys_responses s; sys_down := sys_down s |}.
End steps.

(** The state in which the clients start. *)
Definition sys_start (srv : Server) (clients : gmap string Client) : system := {|
  sys_server := srv; sys_clients := clients; sys_senders := (λ _, Discovering 0) <$> clients;
  sys_up := []; sys_responses := []; sys_down := [] |}.

(** ** What a client is told *)

(** The address is the one that the client is bound to. *)
Definition bound_at (h : lease_store) (sn : Subnet) (m : string) (ip : net_IP) : Prop :=
  ∃ p, Subnet_leaseCache sn !! m = Some p ∧ same_ip ip (Lease_IP (deref h p)).

Lemma bound_at_mono h h' sn sn' m ip :
  cache_ok h (Subnet_leaseCache sn) → contains_char "." m = false →
  store_le h h' → keeps sn sn' → bound_at h sn m ip → bound_at h' sn' m ip.
Proof.
  intros Hc Hm Hle Hk (p & Hp & E). exists p. split; [by apply Hk|].
  destruct (cache_ok_lease _ _ _ _ Hc Hp) as [Hl _]. destruct (Hle _ _ Hl) as (l' & Hl' & _ & Eip & _).
  rewrite (deref_Some _ _ _ Hl'). by rewrite Eip.
Qed.

(** Two clients are not told the same address. *)
Lemma bound_at_distinct h sn m1 m2 ip1 ip2 :
  cache_ok h (Subnet_leaseCache sn) → contains_char "." m1 = false → contains_char "." m2 = false →
  m1 ≠ m2 → bound_at h sn m1 ip1 → bound_at h sn m2 ip2 → ¬ same_ip ip1 ip2.
Proof.
  intros Hc N1 N2 Hne (p1 & H1 & E1) (p2 & H2 & E2) E. apply Hne.
  destruct (cache_ok_lease _ _ _ _ Hc H1) as [_ [V1 _]], (cache_ok_lease _ _ _ _ Hc H2) as [_ [V2 _]].
  assert (same_ip (Lease_IP (deref h p1)) (Lease_IP (deref h p2))) as Es by (by rewrite <- E1, <- E2).
  eapply cache_ok_unique; [exact Hc|done|done|done|done|]. by apply same_ip_v4_eq.
Qed.

(** A wish for the address that the client is bound to is no obstacle. *)
Lemma bound_wish h sn m ip :
  cache_ok h (Subnet_leaseCache sn) → bound_at h sn m ip →
  isAddressZero ip = true ∨
  ∃ p, Subnet_leaseCache sn !! m = Some p ∧ IP_Equal ip (Lease_IP (deref h p)) = true.
Proof.
  intros Hc (p & Hp & E). destruct (isAddressZero ip) eqn:Hz; [by left|right]. exists p. split; [done|].
  destruct (cache_ok_lease _ _ _ _ Hc Hp) as [_ [Hv _]].
  assert (isAddressZero (Lease_IP (deref h p)) = false) as Hz' by (by rewrite <- E).
  symmetry in E. destruct (same_ip_v4 _ _ E Hz' Hv) as [_ E4].
  assert (is_v4 ip) as Hv' by (destruct Hv as (b & Eb & Hb); exists b; by rewrite E4).
  rewrite IP_Equal_v4 by done. apply bool_decide_eq_true.
  destruct Hv as (b & Eb & _). by rewrite (IP_String_v4 _ _ Eb), (IP_String_v4 _ b) by congruence.
Qed.

(** ** The conditions under which requests are answered *)

(** The options of all leases are of the type that the code knows. *)
Definition strings (opts : list DOption) : Prop := Forall (λ o, Option_Type o = "string") opts.
Definition opts_ok (h : lease_store) : Prop := Forall (λ l, strings (Lease_Options l)) h.

(** A server identifier that a request may name. *)
Definition accepted (ids : gmap string bool) (id : net_IP) : bool :=
  bool_decide (id = None) || IP_Equal id IPv4zero || bool_decide (is_Some (ids !! IP_String id)).

Lemma accepted_spec `{Dhcpv4} s pkt :
  for_other_server s pkt = negb (accepted (serverIds s) (ServerIdentifier pkt)).
Proof. unfold for_other_server, accepted. by rewrite !negb_orb. Qed.

Lemma opts_ok_alter f p h :
  (∀ l, Lease_Options (f l) = Lease_Options l) → opts_ok h → opts_ok (alter f p h).
Proof. intros Hf Ho. apply Forall_alter; [done|]. intros l _ Hl. by rewrite Hf. Qed.

(** ** The server, for the clients of one subnet *)

Section serve.
Context `{D : Dhcpv4} (ifname : interfaceName) (k : string) (C : gset string).
(* the server's identifiers, and whether the conditions above are assumed *)
Context (ids : gmap string bool) (live : Prop).

(** The subnet [k] answers on the interface, and has addresses for the set [C]. *)
Record serves (srv : Server) (sn : Subnet) : Prop := {
  sv_inv : server_inv srv;
  sv_disjoint : disjoint_subnets (subnets srv);
  sv_subnet : subnets srv !! k = Some sn;
  sv_match : first_match (subnets srv) (default [] (localIpAddresses srv !! ifname)) (Some (k, sn));
  sv_enough : enough C sn;
  sv_ids : serverIds srv = ids;
  sv_live : live → opts_ok (leases srv) ∧ strings (Subnet_Options sn) ∧
                   accepted ids (To4 (Subnet_serverIPAddress sn)) = true;
}.

(** A packet of one of the clients, without a relay, with no wish or its own. *)
Record client_asks (h : lease_store) (sn : Subnet) (p : DHCPv4) : Prop := {
  ca_op : OpCode p = OpcodeBootRequest;
  ca_client : client_key p ∈ C;
  ca_hw : hw_ok (ClientHWAddr p);
  ca_gateway : isAddressZero (GatewayIPAddr p) = true;
  ca_your : header_ip (YourIPAddr p);
  ca_wish : isAddressZero (RequestedIPAddress p) = true ∨ bound_at h sn (client_key p) (RequestedIPAddress p);
}.

(** A packet for one of the clients, with the address it is bound to. *)
Record client_told (h : lease_store) (sn : Subnet) (p : DHCPv4) : Prop := {
  ct_op : OpCode p = OpcodeBootReply;
  ct_client : client_key p ∈ C;
  ct_hw : hw_ok (ClientHWAddr p);
  ct_gateway : isAddressZero (GatewayIPAddr p) = true;
  ct_your : header_ip (YourIPAddr p);
  ct_bound : bound_at h sn (client_key p) (YourIPAddr p);
  ct_server : live → accepted ids (ServerIdentifier p) = true;
}.

(** The server later: what it knows about the clients is kept. *)
Record later (srv : Server) (sn : Subnet) (srv' : Server) (sn' : Subnet) : Prop := {
  lt_serves : serves srv' sn';
  lt_store : store_le (leases srv) (leases srv');
  lt_keeps : keeps sn sn';
}.

Lemma later_refl srv sn : serves srv sn → later srv sn srv sn.
Proof. by split. Qed.

Lemma later_trans s1 n1 s2 n2 s3 n3 : later s1 n1 s2 n2 → later s2 n2 s3 n3 → later s1 n1 s3 n3.
Proof. intros [_ L1 K1] [S2 L2 K2]. split; [done|by etrans|by etrans]. Qed.

Lemma serves_cache srv sn : serves srv sn → subnet_inv (leases srv) sn ∧ Subnet_Subnet sn = k.
Proof. intros [Hi _ Hk _ _ _ _]. by destruct (Hi _ _ Hk). Qed.

(** Replacing the subnet, and growing the store. *)
Lemma later_update srv sn srv' sn' :
  serves srv sn → subnets srv' = <[k := sn']> (subnets srv) → localIpAddresses srv' = localIpAddresses srv →
  serverIds srv' = serverIds srv → (opts_ok (leases srv) → strings (Subnet_Options sn) → opts_ok (leases srv')) →
  store_le (leases srv) (leases srv') → server_inv srv' → subnet_frame sn sn' → keeps sn sn' → enough C sn' →
  later srv sn srv' sn'.
Proof.
  intros [Hi Hd Hk Hm He Hids Hlive] Es El Eids Hopts Hle Hi' Hf Hkeep He'. split; [|done|done].
  split; [done|rewrite Es; by eapply disjoint_frame|by rewrite Es, lookup_insert_eq|
    rewrite Es, El; by eapply first_match_frame|done|congruence|].
  intros Hl. destruct (Hlive Hl) as (? & ? & ?). destruct Hf as (i & c & ->). auto.
Qed.

Lemma client_told_mono srv sn srv' sn' p :
  serves srv sn → no_dots C → later srv sn srv' sn' →
  client_told (leases srv) sn p → client_told (leases srv') sn' p.
Proof.
  intros Hs HC [_ Hle Hk] [H0 H1 H2 H3 H4 H5 H6]. split; [done..| |done].
  destruct (serves_cache _ _ Hs) as [[_ Hc] _]. by eapply bound_at_mono; [done|apply HC|..].
Qed.

Lemma client_asks_mono srv sn srv' sn' p :
  serves srv sn → no_dots C → later srv sn srv' sn' →
  client_asks (leases srv) sn p → client_asks (leases srv') sn' p.
Proof.
  intros Hs HC [_ Hle Hk] [H0 H1 H2 H3 H4 [H5|H5]]; (split; [done..|]); [by left|right].
  destruct (serves_cache _ _ Hs) as [[_ Hc] _]. by eapply bound_at_mono; [done|apply HC|..].
Qed.
End serve.

(** What [getResponse] leaves, whatever it returns. *)
Lemma getResponse_leaves `{D : Dhcpv4} tExp tNew h sn pkt p h1 sn1 :
  GetLeaseForRequest tExp tNew h sn pkt = Some (Some p, h1, sn1) →
  ∃ out h', getResponse tExp tNew h sn pkt = Ret (out, h', sn1) ∧ store_le h1 h' ∧ (opts_ok h1 → opts_ok h').
Proof.
  intros E. unfold getResponse. rewrite E.
  destruct (NewReplyFromRequest pkt) as [[resp|] [err|]]; try (do 2 eexists; split; [done|by split]).
  destruct (apply_options _ _); [repeat case_match|]; do 2 eexists; (split; [done|]); (split; [by auto with dhcp|by apply opts_ok_alter]).
Qed.

Lemma GetResponse_leaves `{D : Dhcpv4} tExp tNew orders s req k sn p h1 sn1 r s' :
  getSubnet orders s req = Some (k, sn) → subnets s !! k = Some sn →
  GetLeaseForRequest tExp tNew (leases s) sn (Request_DHCPv4 req) = Some (Some p, h1, sn1) →
  GetResponse tExp tNew orders s req = Ret (r, s') →
  (∃ e, r = Err e ∧ s' = s) ∨ subnets s' = <[k := sn1]> (subnets s) ∧ store_le h1 (leases s') ∧ (opts_ok h1 → opts_ok (leases s')).
Proof.
  intros Eg Hk E. destruct (getResponse_leaves _ _ _ _ _ _ _ _ E) as (out & h' & Eo & Hle & Hop).
  unfold GetResponse. destruct (for_other_server _ _); [intros [= <- <-]; left; by eexists|]. rewrite Eg.
  destruct (orb _ _); [|intros [= <- <-]; left; by eexists]. rewrite Eo. destruct out as [[resp lease] err].
  cbn [mbind outcome_bind]. intros HG. right.
  destruct err as [e|]; [|destruct lease as [q|], resp as [resp|]]; try done; injection HG as <- <-; cbn.
  - done.
  - split; [done|]. split; [etrans; [exact Hle|]; auto with dhcp|]. intros Ho. by apply opts_ok_alter, Hop.
Qed.

Section response.
Context `{D : Dhcpv4} {L : Dhcpv4Laws D} (ifname : interfaceName) (k : string) (C : gset string).
Context (ids : gmap string bool) (live : Prop).

Lemma serves_getSubnet orders srv sn req :
  serves ifname k C ids live srv sn → (∀ i, range_order (orders i) (subnets srv)) →
  Request_InterfaceName req = ifname → isAddressZero (GatewayIPAddr (Request_DHCPv4 req)) = true →
  getSubnet orders srv req = Some (k, sn).
Proof.
  intros [Hi Hd Hk Hm He _ _] Ho Hif Hgw. eapply first_match_unique; [exact Hd|by apply getSubnet_match|].
  unfold lookup_addresses. unfold isAddressZero in Hgw. by rewrite Hgw, Hif.
Qed.

(** A client of the set that asks is answered or refused; if it is answered it
    is told the address it is bound to from then on. *)
Lemma GetResponse_serves tExp tNew orders srv sn req :
  serves ifname k C ids live srv sn → no_dots C → (∀ i, range_order (orders i) (subnets srv)) →
  Request_InterfaceName req = ifname → client_asks C (leases srv) sn (Request_DHCPv4 req) →
  ∃ r srv' sn', GetResponse tExp tNew orders srv req = Ret (r, srv') ∧
    later ifname k C ids live srv sn srv' sn' ∧
    (∀ rsp, r = Ok rsp → client_told C ids live (leases srv') sn' (Response_Response rsp) ∧ Response_Request rsp = req).
Proof.
  intros Hs HC Ho Hif [A0 A1 [A2l A2] A3 A4 A5]. set (pkt := Request_DHCPv4 req) in *.
  pose proof (serves_getSubnet orders srv sn req Hs Ho Hif A3) as Eg.
  destruct (serves_cache _ _ _ _ _ _ _ Hs) as [Hinv Hname]. pose proof Hs as [Hi Hd Hk Hm He Hids Hlive].
  assert (isAddressZero (RequestedIPAddress pkt) = true ∨
    ∃ p, Subnet_leaseCache sn !! client_key pkt = Some p ∧
         IP_Equal (RequestedIPAddress pkt) (Lease_IP (deref (leases srv) p)) = true) as Hw.
  { destruct A5 as [|A5]; [by left|]. eapply bound_wish; [apply Hinv|done]. }
  destruct (enough_serves tExp tNew (leases srv) sn pkt C Hinv A2 A1 HC He Hw)
    as (p & h1 & sn1 & E & Hp & Hkeep & He1 & Hh1).
  destruct (GetLeaseForRequest_inv tExp tNew (leases srv) sn pkt Hinv A2) as (? & ? & ? & E' & Hinv1 & Hle1).
  rewrite E in E'. injection E' as <- <- <-.
  pose proof (GetLeaseForRequest_frame _ _ _ _ _ _ _ _ (proj1 Hinv) E) as Hf.
  destruct (GetResponse_inv tExp tNew orders srv req Hi Ho A2) as (r & srv' & EG & Hi' & Hle & _).
  destruct (GetResponse_config _ _ _ _ _ _ _ EG) as (Eloc & Eids & _).
  destruct (GetResponse_leaves _ _ _ _ _ _ _ _ _ _ _ _ Eg Hk E EG) as [(e & -> & ->)|(Es & Hle2 & Hop)].
  - exists (Err e), srv, sn. split_and!; [done|by apply later_refl|done].
  - exists r, srv', sn1. split; [done|].
    split.
    { eapply later_update; try done. intros Ho1 Ho2. apply Hop. destruct Hh1 as [->|[ip ->]]; [done|].
      apply Forall_app. split; [done|]. by apply Forall_singleton. }
    intros rsp ->.
    destruct (GetResponse_lease _ _ _ _ _ _ _ Hi Ho EG) as (k0 & sn0 & sn0' & h0 & l & Hk0 & Eg0 & E0 & Hl & ER & El & _).
    rewrite Eg in Eg0. injection Eg0 as <- <-. change (Request_DHCPv4 req) with pkt in E0, ER.
    rewrite E in E0. injection E0 as Ep Eh Esn. subst h0 sn0'.
    destruct (getResponse_Ok _ _ _ _ _ _ _ _ _ ER) as (h1' & reply & E1' & Er & _ & _ & _ & Hresp).
    rewrite E in E1'. injection E1' as _ <-. destruct (NewReply_fields _ _ Er) as (Hop2 & _ & Hhw & Hgw).
    destruct (Hinv1) as [_ Hc1]. destruct (cache_ok_lease _ _ _ _ Hc1 Hp) as [Hlp [Hv _]].
    assert (ClientHWAddr (Response_Response rsp) = ClientHWAddr pkt) as Hhw' by (rewrite Hresp; exact Hhw).
    assert (YourIPAddr (Response_Response rsp) = Lease_IP (deref h1 p)) as Hip by (rewrite Hresp, Ep; done).
    split.
    + split; rewrite ?Hhw', ?Hip; [|done|done| |by right| |].
      * rewrite Hresp. by apply Hop2.
      * rewrite Hresp. cbn. by rewrite Hgw.
      * exists p. split; [done|]. destruct (Hle2 _ _ Hlp) as (l' & Hl' & _ & Eip & _).
        rewrite (deref_Some _ _ _ Hl'). by rewrite Eip.
      * intros Hlv. destruct (Hlive Hlv) as (_ & _ & Hid).
        rewrite (ServerIdentifier_option _ (Subnet_serverIPAddress sn1)).
        -- destruct Hf as (? & ? & ->). exact Hid.
        -- rewrite Hresp. cbn [Options set_Options].
           rewrite (own_options_lookup _ _ _ _ 54 (VIP (Lease_ServerId (deref (leases srv') (Response_Lease rsp)))))
             by (unfold own_options; repeat constructor).
           do 2 f_equal. rewrite El, (deref_alter _ _ _ _ Hl). done.
    + destruct (GetResponse_Ok _ _ _ _ _ _ _ EG) as (? & ? & ? & ? & ? & _ & _ & _ & _ & ? & _). done.
Qed.
End response.

(** ** The invariant of the system *)

Lemma header_ip_same a b : same_ip a b → header_ip a → header_ip b.
Proof.
  intros E [Hz|Hv]; [left; by rewrite <- E|]. destruct (isAddressZero a) eqn:Hz; [left; by rewrite <- E|].
  destruct (same_ip_v4 _ _ E Hz Hv) as [_ E4]. right. destruct Hv as (x & Ex & Hx). exists x. by rewrite E4.
Qed.

Section inv.
Context `{D : Dhcpv4} {L : Dhcpv4Laws D} `{N : Network} {NL : NetworkLaws D N}.
Context (hw_cap : HardwareAddr → nat) (ifname : interfaceName) (k : string) (C : gset string).
Context (ids : gmap string bool) (live : Prop) (HC : no_dots C).

Lemma client_told_same h sn p q : same_packet p q → client_told C ids live h sn p → client_told C ids live h sn q.
Proof.
  intros [Eop _ Ehw Ey Eg _ Esid] [H0 H1 H2 H3 H4 H5 H6]. split; rewrite ?Ehw, ?Esid; [congruence|done|done| | | |done].
  - by rewrite <- Eg.
  - by eapply header_ip_same.
  - destruct H5 as (l & Hl & E). exists l. split; [done|]. by rewrite <- Ey.
Qed.

Lemma client_asks_same h sn p q : same_packet p q → client_asks C h sn p → client_asks C h sn q.
Proof.
  intros [Eop _ Ehw Ey Eg Er _] [H0 H1 H2 H3 H4 H5]. split; rewrite ?Ehw, ?Er; [congruence|done|done| | |done].
  - by rewrite <- Eg.
  - by eapply header_ip_same.
Qed.

(** A client knows what it was told. *)
Record client_fine (h : lease_store) (sn : Subnet) (m : string) (c : Client) : Prop := {
  cf_name : m = HardwareAddr_String (Client_MAC c);
  cf_hw : hw_ok (Client_MAC c);
  cf_in : m ∈ C;
  cf_told : ∀ o, o ∈ Client_Offers c ∨ Client_Ack c = Some o →
              client_told C ids live h sn o ∧ ClientHWAddr o = Client_MAC c;
}.

Record sys_ok (s : system) (sn : Subnet) : Prop := {
  so_serves : serves ifname k C ids live (sys_server s) sn;
  so_clients : ∀ m c, sys_clients s !! m = Some c → client_fine (leases (sys_server s)) sn m c;
  so_up : ∀ fr, fr ∈ sys_up s → client_asks C (leases (sys_server s)) sn (fr_payload fr);
  so_responses : ∀ r, r ∈ sys_responses s → client_told C ids live (leases (sys_server s)) sn (Response_Response r);
  so_down : ∀ fr, fr ∈ sys_down s →
    fr_dstMAC fr = ClientHWAddr (fr_payload fr) ∧ client_told C ids live (leases (sys_server s)) sn (fr_payload fr);
}.

(** What a client sends is what it may ask. *)
Lemma send_asks h sn m c pkt :
  client_fine h sn m c →
  (NewDiscovery (Client_MAC c)).1 = Some pkt ∨
  (∃ o, list.last (Client_Offers c) = Some o ∧ (NewRequestFromOffer o).1 = Some pkt) →
  client_asks C h sn pkt.
Proof.
  intros [Em Hhw Hin Htold] [E|(o & Ho & E)].
  - destruct (NewDiscovery (Client_MAC c)) as [d e] eqn:Ed. cbn in E. subst d.
    destruct (NewDiscovery_fields _ _ _ Ed) as (E0 & E1 & _ & E2 & E3 & E4 & _).
    split; rewrite ?E1; [done|by rewrite <- Em|done|done|by left|by left].
  - destruct (NewRequestFromOffer o) as [r e] eqn:Er. cbn in E. subst r.
    destruct (NewRequestFromOffer_fields _ _ _ Er) as (E0 & E1 & _ & E2 & E3 & E4 & _).
    apply list.last_Some in Ho as [os Ho].
    destruct (Htold o) as [[H0 H1 H2 H3 H4 H5 _] Eo]; [left; rewrite Ho; apply elem_of_app; right; by left|].
    split; rewrite ?E1, ?E3; [by apply E0|done|done|done|by left|]. right. rewrite E4 by done.
    destruct H5 as (l & Hl & E). exists l. split; [done|]. by rewrite same_ip_To4.
Qed.

Lemma same_packet_header h sn p : client_told C ids live h sn p → header_ok p.
Proof. intros [_ _ H2 H3 H4 _ _]. split_and!; [done|done|by left]. Qed.

Lemma asks_header h sn p : client_asks C h sn p → header_ok p.
Proof. intros [_ _ H2 H3 H4 _]. split_and!; [done|done|by left]. Qed.

(** What a client makes of a packet for it. *)
Lemma ProcessResponse_fine h sn m c pkt :
  client_fine h sn m c → client_told C ids live h sn pkt → ClientHWAddr pkt = Client_MAC c →
  client_fine h sn m (ProcessResponse c pkt).2.
Proof.
  intros Hc Hp Ehw. unfold ProcessResponse. destruct (negb _); [exact Hc|].
  destruct (_ =? _); [|destruct (_ =? _); [destruct (Client_Ack c) as [a|] eqn:Ea|]]; [|exact Hc| |exact Hc];
    destruct Hc as [Em Hhw Hin Htold]; split; cbn [Client_MAC Client_Offers Client_Ack snd]; try done.
  - intros o [[Ho|Ho%list_elem_of_singleton]%elem_of_app|Ho]; [apply Htold; by left|by subst|apply Htold; by right].
  - intros o [Ho|[= <-]]; [apply Htold; by left|by split].
Qed.

(** The server works on a packet of a client. *)
Lemma process_serves tExp tNew orders srv sn req w srv' :
  serves ifname k C ids live srv sn → (∀ i, range_order (orders i) (subnets srv)) →
  Request_InterfaceName req = ifname → client_asks C (leases srv) sn (Request_DHCPv4 req) →
  process_request tExp tNew orders srv req = Ret (w, srv') →
  ∃ sn', later ifname k C ids live srv sn srv' sn' ∧
    (∀ rsp, w = Some rsp → client_told C ids live (leases srv') sn' (Response_Response rsp)).
Proof.
  intros Hs Ho Hif Hask. unfold process_request.
  destruct (GetResponse_serves (L := L) ifname k C ids live tExp tNew orders srv sn req Hs HC Ho Hif Hask)
    as (r & srv1 & sn1 & -> & Hl1 & Hr). cbn [mbind outcome_bind].
  destruct r as [rsp|e]; [|intros [= <- <-]; by exists sn1].
  destruct (Hr rsp eq_refl) as [Ht _].
  assert (∀ b, later ifname k C ids live srv1 sn1
    (set_leases (alter (set_AckSent b) (Response_Lease rsp) (leases srv1)) srv1) sn1) as Hack.
  { intros b. destruct Hl1 as [Hs1 _ _]. apply later_update; [done|..].
    - cbn. by rewrite insert_id by apply Hs1.
    - done.
    - done.
    - intros Ho1 _. by apply opts_ok_alter.
    - cbn. auto with dhcp.
    - eapply server_step_inv; [apply ss_ack|apply Hs1].
    - apply subnet_frame_refl.
    - reflexivity.
    - apply Hs1. }
  cbv zeta. destruct (MessageType _ =? MessageTypeOffer); [|destruct (MessageType _ =? MessageTypeAck)];
    intros [= <- <-].
  - exists sn1. split; [by eapply later_trans|]. intros ? [= <-]. eapply client_told_mono; [apply Hl1|done|apply Hack|done].
  - exists sn1. split; [by eapply later_trans|]. intros ? [= <-]. eapply client_told_mono; [apply Hl1|done|apply Hack|done].
  - by exists sn1.
Qed.

Lemma NextRequest_Ok {ifindex sock d req} :
  NextRequest ifindex FromBytes sock (Ok d) = Ret (Ok req) → FromBytes (dg_bytes d) = Ok (Request_DHCPv4 req).
Proof.
  unfold NextRequest. destruct (dg_cm d) as [[i dst]|]; [|done].
  destruct (ifindex i); [|done]. destruct (FromBytes (dg_bytes d)); [|done]. by intros [= <-].
Qed.

Lemma client_fine_mono srv sn srv' sn' m c :
  serves ifname k C ids live srv sn → later ifname k C ids live srv sn srv' sn' →
  client_fine (leases srv) sn m c → client_fine (leases srv') sn' m c.
Proof.
  intros Hs Hl [H1 H2 H3 H4]. split; [done..|]. intros o Ho. destruct (H4 o Ho) as [Ht ?].
  split; [|done]. eapply client_told_mono; [exact Hs|done|exact Hl|exact Ht].
Qed.

Lemma sys_step_ok s s' sn : sys_step hw_cap ifname s s' → sys_ok s sn → ∃ sn', sys_ok s' sn'.
Proof.
  intros Hst [Hs Hc Hu Hr Hd]. destruct Hst as [setnet rawsocket sockopt sendto m c st fr st' s Hm Hsd E
    |fr d sock ifindex req tExp tNew orders w srv s Hfr Hdg E Hif Ho Ep
    |byname rawsocket sockopt setnet sendto us us' rsp fr err s Hin Hsend E
    |fr bytes b clients s Hfr Eb E].
  - exists sn. split; cbn [sys_server sys_clients sys_up sys_responses sys_down]; try done.
    intros f [Hf|Hf]%elem_of_app; [|by apply Hu]. destruct fr as [fr|]; [|by apply not_elem_of_nil in Hf].
    apply list_elem_of_singleton in Hf as ->. apply sender_step_payload in E. eapply send_asks; [by apply Hc|done].
  - pose proof (Hu _ Hfr) as Hask. destruct (FromBytes_PacketBytes _ (asks_header _ _ _ Hask)) as (q & Eq & Hq).
    apply NextRequest_Ok in E. rewrite Hdg, Eq in E. injection E as Eq'.
    pose proof (client_asks_same _ _ _ _ Hq Hask) as Hask'. rewrite Eq' in Hask'.
    destruct (process_serves _ _ _ _ _ _ _ _ Hs Ho Hif Hask' Ep) as (sn' & Hl & Hw).
    exists sn'. split; cbn [sys_server sys_clients sys_up sys_responses sys_down].
    + apply Hl.
    + intros m c Hmc. by eapply client_fine_mono, Hc.
    + intros f Hf. eapply client_asks_mono; [exact Hs|done|exact Hl|by apply Hu].
    + intros r [Hw'|Hr']%elem_of_app.
      * destruct w as [rsp|]; [|by apply not_elem_of_nil in Hw']. apply list_elem_of_singleton in Hw' as ->. by apply Hw.
      * eapply client_told_mono; [exact Hs|done|exact Hl|by apply Hr].
    + intros f Hf. destruct (Hd f Hf) as [? Ht]. split; [done|].
      eapply client_told_mono; [exact Hs|done|exact Hl|exact Ht].
  - exists sn. split; cbn [sys_server sys_clients sys_up sys_responses sys_down]; try done.
    intros f [-> | Hf]%elem_of_cons; [|by apply Hd]. apply SendBroadcast_frame in E as [-> ->]. by split; [|apply Hr].
  - exists sn. split; cbn [sys_server sys_clients sys_up sys_responses sys_down]; try done.
    destruct (Hd _ Hfr) as [Edst Ht]. pose proof (ct_hw _ _ _ _ _ _ Ht) as [Hlen Hu8].
    destruct (SerializeLayers_frame fr bytes) as (hdr & Hhdr & ->); [by rewrite Edst|done|].
    apply GetDHCPAddrs_one in E as [[_ ->]|(c & pkt & Hk & Epkt & -> & _)]; [done|].
    rewrite app_assoc, drop_app_length' in Epkt by (rewrite length_app, Hhdr, Edst, Hlen; done).
    rewrite take_app_length' in * by (by rewrite Edst).
    destruct (FromBytes_PacketBytes _ (same_packet_header _ _ _ Ht)) as (q & Eq & Hq).
    rewrite Eq in Epkt. injection Epkt as <-. pose proof (client_told_same _ _ _ _ Hq Ht) as Ht'.
    intros m c' Hm. rewrite lookup_insert in Hm. case_decide as E; [|by apply Hc]. simplify_eq.
    apply ProcessResponse_fine; [by apply Hc|done|]. rewrite (sp_hw _ _ Hq).
    pose proof (Hc _ _ Hk) as [Em [Hl1 Hu1] _ _]. apply HardwareAddr_String_inj; [done|done| | |by rewrite <- Em, Edst];
      intros E; [rewrite E in Hlen|rewrite E in Hl1]; done.
Qed.

Lemma sys_reach_ok s s' sn : rtc (sys_step hw_cap ifname) s s' → sys_ok s sn → ∃ sn', sys_ok s' sn'.
Proof.
  intros Hr. revert sn. induction Hr as [|s1 s2 s3 Hst _ IH]; intros sn Hok; [by exists sn|].
  destruct (sys_step_ok _ _ _ Hst Hok) as [sn' Hok']. by eapply IH.
Qed.

(** Two clients that know an address each know different ones. *)
Lemma sys_ok_distinct s sn m1 m2 c1 c2 a1 a2 :
  sys_ok s sn → m1 ≠ m2 → sys_clients s !! m1 = Some c1 → sys_clients s !! m2 = Some c2 →
  Client_Ack c1 = Some a1 → Client_Ack c2 = Some a2 → ¬ same_ip (YourIPAddr a1) (YourIPAddr a2).
Proof.
  intros [Hs Hc _ _ _] Hne H1 H2 A1 A2.
  destruct (Hc _ _ H1) as [E1 _ I1 T1], (Hc _ _ H2) as [E2 _ I2 T2].
  destruct (T1 _ (or_intror A1)) as [[_ _ _ _ _ B1 _] M1], (T2 _ (or_intror A2)) as [[_ _ _ _ _ B2 _] M2].
  destruct (serves_cache _ _ _ _ _ _ _ Hs) as [[_ Hcache] _].
  eapply bound_at_distinct; [exact Hcache| | |exact Hne|by rewrite E1, <- M1|by rewrite E2, <- M2]; by apply HC.
Qed.
End inv.

(** ** The start *)

(** A server whose subnet [k] answers on the interface and has an address for
    each of the clients. *)
Record deployed (ifname : interfaceName) (k : string) (srv : Server) (sn : Subnet) (n : nat) : Prop := {
  dp_inv : server_inv srv;
  dp_disjoint : disjoint_subnets (subnets srv);
  dp_subnet : subnets srv !! k = Some sn;
  dp_match : first_match (subnets srv) (default [] (localIpAddresses srv !! ifname)) (Some (k, sn));
  dp_free : (n <= size (free_set sn))%nat;
}.

(** The conditions under which it answers: options it can write, and a server
    identifier of its own. *)
Definition answering (srv : Server) (sn : Subnet) : Prop :=
  opts_ok (leases srv) ∧ strings (Subnet_Options sn) ∧
  accepted (serverIds srv) (To4 (Subnet_serverIPAddress sn)) = true.

(** Clients that have heard nothing yet. *)
Definition fresh_clients (clients : gmap string Client) : Prop :=
  ∀ m c, clients !! m = Some c →
  m = HardwareAddr_String (Client_MAC c) ∧ hw_ok (Client_MAC c) ∧ Client_Offers c = [] ∧ Client_Ack c = None.

Lemma make_clients_fresh n start clients :
  hw_ok start → Z.of_nat n < 2 ^ 48 → make_clients n start ∅ = Ret clients →
  fresh_clients clients ∧ size clients = n.
Proof.
  intros [Hl Hf] Hn E. pose proof (be_value_bound start Hf) as Hb. rewrite Hl in Hb.
  destruct (make_clients_loop start n start 0 ∅) as (clients' & E' & [Hin Hout] & Hs).
  - split_and!; [done|done|]. rewrite Z.add_0_r, Z.mod_small; [done|exact Hb].
  - lia.
  - lia.
  - split; [lia|]. intros k [? Hk]. by rewrite lookup_empty in Hk.
  - apply map_size_empty.
  - rewrite E in E'. injection E' as <-. split; [|rewrite Hs; lia]. intros m c Hc.
    destruct (Hout m) as (j & a & Hj & Ha & ->); [by eexists|].
    destruct (Hin j Hj) as (a' & Ha' & Ec). assert (a' = a) as ->.
    { destruct Ha as (La & Fa & Va), Ha' as (La' & Fa' & Va'). apply be_value_inj; congruence. }
    rewrite Ec in Hc. injection Hc as <-. destruct Ha as (? & ? & _). done.
Qed.

Lemma fresh_no_dots clients : fresh_clients clients → no_dots (dom clients).
Proof.
  intros Hf m [c Hc]%elem_of_dom. destruct (Hf m c Hc) as (-> & [_ Hu] & _).
  by apply HardwareAddr_String_no_dot.
Qed.

Section start.
Context `{D : Dhcpv4} (ifname : interfaceName) (k : string).

Lemma sys_start_ok srv sn clients (live : Prop) :
  deployed ifname k srv sn (size clients) → fresh_clients clients → (live → answering srv sn) →
  sys_ok ifname k (dom clients) (serverIds srv) live (sys_start srv clients) sn.
Proof.
  intros [Hi Hd Hk Hm Hfree] Hf Hl. split; cbn [sys_start sys_server sys_clients sys_up sys_responses sys_down].
  - split; [done..| |done|exact Hl]. unfold enough. etrans; [|exact Hfree]. rewrite <- size_dom.
    apply subseteq_size. intros m Hm'. unfold unserved in Hm'. by apply elem_of_filter in Hm' as [_ ?].
  - intros m c Hc. destruct (Hf m c Hc) as (E & Hhw & Eo & Ea).
    split; [done|done|apply elem_of_dom; by eexists|].
    intros o [Ho|Ho]; [rewrite Eo in Ho; by apply not_elem_of_nil in Ho|congruence].
  - intros fr Hfr. by apply not_elem_of_nil in Hfr.
  - intros r Hr. by apply not_elem_of_nil in Hr.
  - intros fr Hfr. by apply not_elem_of_nil in Hfr.
Qed.
End start.
