(* ===== verification/SystemLive.v ===== *)
(** * Clients and server together: what holds of every run

    No two clients are acknowledged the same address, whatever the network, the
    clocks and the system calls do; and every client that can still be heard can
    be served: from every reachable state there is a run to a state in which all
    such clients are acknowledged. *)

From S2P Require Import Prelude GoStrings GoNet Errors IPv4 Types Dhcpv4 Subnet.
From S2P Require Import LeaseCache Pool SubnetProps SubnetNet Server ServerProps.
From S2P Require Import Responses ServerGuarantees RequestProcessor Pipeline.
From S2P Require Import Socket Client Sender LeaseSpec PoolServes Network System.
Open Scope string_scope.
Open Scope list_scope.
Open Scope Z_scope.

(** A library and a system that do not fail. *)
Class NetworkWorks (D : Dhcpv4) (N : Network) (hw_cap : HardwareAddr → nat) : Prop := {
  nw_can_send : can_send Layer SerializeLayers hw_cap NewDiscovery NewRequestFromOffer;
  nw_reply : ∀ req, ∃ reply, NewReplyFromRequest req = (Some reply, None);
}.

(** ** The server answers *)

Section answers.
Context `{D : Dhcpv4} {L : Dhcpv4Laws D} (ifname : interfaceName) (k : string) (C : gset string).
Context (ids : gmap string bool).

Definition answer_type `{Dhcpv4} (pkt : DHCPv4) : Z :=
  if MessageType pkt =? MessageTypeRequest then MessageTypeAck else MessageTypeOffer.

Lemma GetResponse_answers tExp tNew orders srv sn req reply :
  serves ifname k C ids True srv sn → no_dots C → (∀ i, range_order (orders i) (subnets srv)) →
  Request_InterfaceName req = ifname → client_asks C (leases srv) sn (Request_DHCPv4 req) →
  accepted ids (ServerIdentifier (Request_DHCPv4 req)) = true →
  MessageType (Request_DHCPv4 req) = MessageTypeRequest ∨ MessageType (Request_DHCPv4 req) = MessageTypeDiscover →
  NewReplyFromRequest (Request_DHCPv4 req) = (Some reply, None) →
  ∃ rsp srv', GetResponse tExp tNew orders srv req = Ret (Ok rsp, srv') ∧
    Response_Request rsp = req ∧ ClientHWAddr (Response_Response rsp) = ClientHWAddr (Request_DHCPv4 req) ∧
    OpCode (Response_Response rsp) = OpcodeBootReply ∧
    MessageType (Response_Response rsp) = answer_type (Request_DHCPv4 req).
Proof.
  intros Hs HC Ho Hif [A0 A1 [A2l A2] A3 A4 A5] Hid Ht Er. set (pkt := Request_DHCPv4 req) in *.
  pose proof (serves_getSubnet ifname k C ids True orders srv sn req Hs Ho Hif A3) as Eg.
  destruct (serves_cache _ _ _ _ _ _ _ Hs) as [Hinv Hname]. pose proof Hs as [Hi Hd Hk Hm He Hids Hlive].
  assert (isAddressZero (RequestedIPAddress pkt) = true ∨
    ∃ p, Subnet_leaseCache sn !! client_key pkt = Some p ∧
         IP_Equal (RequestedIPAddress pkt) (Lease_IP (deref (leases srv) p)) = true) as Hw.
  { destruct A5 as [|A5]; [by left|]. eapply bound_wish; [apply Hinv|done]. }
  destruct (enough_serves tExp tNew (leases srv) sn pkt C Hinv A2 A1 HC He Hw)
    as (p & h1 & sn1 & E & Hp & Hkeep & He1 & Hh1).
  destruct (Hlive I) as (Hopts & Hsopts & _). destruct (GetLeaseForRequest_valid _ _ _ _ _ _ _ _ Hinv E) as [l Hl].
  assert (opts_ok h1) as Hopts1.
  { destruct Hh1 as [->|[ip ->]]; [done|]. apply Forall_app. split; [done|]. by apply Forall_singleton. }
  destruct (getResponse_ack tExp tNew (leases srv) sn pkt p h1 sn1 reply E Er) as [resp Eresp]; [|exact Ht|].
  { rewrite (deref_alter _ _ _ _ Hl). cbn [Lease_Options set_ServerId].
    eapply (Forall_lookup_1 _ _ _ _ Hopts1 Hl). }
  assert (∃ rsp srv', GetResponse tExp tNew orders srv req = Ret (Ok rsp, srv') ∧
    Response_Request rsp = req ∧ Response_Response rsp = resp) as (rsp & srv' & HG & Ereq & Ersp).
  { unfold GetResponse. fold pkt. rewrite accepted_spec, Hids, Hid, Eg. cbn [negb].
    assert ((MessageType pkt =? MessageTypeDiscover) || (MessageType pkt =? MessageTypeRequest) = true) as ->
      by (destruct Ht as [-> | ->]; done).
    rewrite Eresp. cbn [mbind outcome_bind]. do 2 eexists. by split_and!. }
  exists rsp, srv'. rewrite Ersp. split_and!; [done|done|..].
  - destruct (getResponse_Ok _ _ _ _ _ _ _ _ _ Eresp) as (? & reply' & _ & Er' & _ & _ & _ & ->).
    by destruct (NewReply_fields _ _ Er') as (_ & _ & ? & _).
  - destruct (getResponse_Ok _ _ _ _ _ _ _ _ _ Eresp) as (? & reply' & _ & Er' & _ & _ & _ & ->).
    destruct (NewReply_fields _ _ Er') as (Hop & _). by apply Hop.
  - unfold answer_type. destruct (getResponse_type _ _ _ _ _ _ _ _ _ Eresp) as [[-> ->]|[-> ->]]; done.
Qed.
End answers.

(** ** Messages to and fro *)

Section live.
Context `{D : Dhcpv4} {L : Dhcpv4Laws D} `{N : Network} {NL : NetworkLaws D N}.
Context (hw_cap : HardwareAddr → nat) {W : NetworkWorks D N hw_cap}.
Context (ifname : interfaceName) (k : string) (C : gset string) (ids : gmap string bool) (HC : no_dots C).

Abbreviation step := (sys_step hw_cap ifname).
Abbreviation ok := (sys_ok ifname k C ids True).

(** A state that differs in what happened to one client, and in frames. *)
Record aside (m : string) (s s' : system) : Prop := {
  as_clients : ∀ m', m' ≠ m → sys_clients s' !! m' = sys_clients s !! m';
  as_senders : ∀ m', m' ≠ m → sys_senders s' !! m' = sys_senders s !! m';
  as_up : ∀ fr, fr ∈ sys_up s → fr ∈ sys_up s';
}.

Lemma aside_refl m s : aside m s s.
Proof. by split. Qed.

Lemma aside_trans m s1 s2 s3 : aside m s1 s2 → aside m s2 s3 → aside m s1 s3.
Proof.
  intros [C1 S1 U1] [C2 S2 U2]. split; [|  |by auto]; intros m' Hm'; [by rewrite C2, C1|by rewrite S2, S1].
Qed.

(** A frame on its way to a client is read by it. *)
Lemma frame_arrives s fr c q :
  fr ∈ sys_down s → length (fr_dstMAC fr) = 6%nat → FromBytes (PacketBytes (fr_payload fr)) = Ok q →
  sys_clients s !! HardwareAddr_String (fr_dstMAC fr) = Some c →
  ∃ s', step s s' ∧
    sys_clients s' = <[HardwareAddr_String (fr_dstMAC fr) := (ProcessResponse c q).2]> (sys_clients s) ∧
    sys_senders s' = sys_senders s ∧ sys_up s' = sys_up s.
Proof.
  intros Hin Hlen Eq Hc. destruct nw_can_send as (_ & _ & _ & Hser & _).
  pose proof (Hser fr) as Hb. destruct (SerializeLayers fr) as [bytes|] eqn:Eser; [|done].
  destruct (SerializeLayers_frame fr bytes Hlen Eser) as (hdr & Hhdr & Ebytes).
  assert (take 6 bytes = fr_dstMAC fr) as Etake by (rewrite Ebytes; by apply take_app_length').
  assert (drop 42 bytes = PacketBytes (fr_payload fr)) as Edrop.
  { rewrite Ebytes, app_assoc, drop_app_length' by (rewrite length_app, Hhdr, Hlen; done). done. }
  destruct (GetDHCPAddrs_single D FromBytes (sys_clients s) bytes c q) as [b Eget];
    [rewrite Ebytes, !length_app, Hlen, Hhdr; lia|by rewrite Etake|by rewrite Edrop|].
  rewrite Etake in Eget. eexists. split; [exact (sys_receive hw_cap ifname fr bytes b _ s Hin Eser Eget)|done].
Qed.

(** From a frame of a client to the answer in its hands. *)
Lemma exchange s sn fr c :
  ok s sn → fr ∈ sys_up s → sys_clients s !! client_key (fr_payload fr) = Some c →
  accepted ids (ServerIdentifier (fr_payload fr)) = true →
  MessageType (fr_payload fr) = MessageTypeRequest ∨ MessageType (fr_payload fr) = MessageTypeDiscover →
  ∃ s' q, rtc step s s' ∧ OpCode q = OpcodeBootReply ∧ MessageType q = answer_type (fr_payload fr) ∧
    sys_clients s' = <[client_key (fr_payload fr) := (ProcessResponse c q).2]> (sys_clients s) ∧
    sys_senders s' = sys_senders s ∧ sys_up s' = sys_up s.
Proof.
  intros Hok Hfr Hc Hacc Ht. set (p := fr_payload fr) in *. pose proof Hok as [Hs Hcl Hu _ _].
  pose proof (Hu _ Hfr) as Hask. fold p in Hask.
  destruct (FromBytes_PacketBytes _ (asks_header C _ _ _ Hask)) as (q0 & Eq0 & Hq0).
  pose proof (client_asks_same C _ _ _ _ Hq0 Hask) as Hask0.
  set (d := {| dg_bytes := PacketBytes p; dg_cm := Some (0, None); dg_src := "" |}).
  set (req := {| Request_DHCPv4 := q0; Request_Src := ""; Request_InterfaceName := ifname;
                 Request_Dst := None; Request_socket := 0%nat |}).
  assert (NextRequest (λ _, Ok ifname) FromBytes 0%nat (Ok d) = Ret (Ok req)) as Enext.
  { unfold NextRequest. cbn [dg_cm dg_bytes d]. by rewrite Eq0. }
  destruct (nw_reply q0) as [reply Er].
  destruct (GetResponse_answers ifname k C ids 0 0 (λ _, (map_to_list (subnets (sys_server s))).*1)
    (sys_server s) sn req reply Hs HC) as (rsp & srv & EG & Ereq & Ehw & Eop & Ety);
    [intros i; apply range_order_self|done|exact Hask0|cbn; by rewrite (sp_server _ _ Hq0)|
     cbn; by rewrite (sp_type _ _ Hq0)|exact Er|].
  cbn [Request_DHCPv4 req] in Ehw, Ety.
  assert (answer_type q0 = answer_type p) as Eans by (unfold answer_type; by rewrite (sp_type _ _ Hq0)).
  assert (∃ srv', process_request 0 0 (λ _, (map_to_list (subnets (sys_server s))).*1) (sys_server s) req
    = Ret (Some rsp, srv')) as [srv' Ep].
  { unfold process_request. rewrite EG. cbn [mbind outcome_bind]. rewrite Ety.
    unfold answer_type. destruct (_ =? MessageTypeRequest); cbn; by eexists. }
  pose proof (sys_serve hw_cap ifname fr d 0%nat (λ _, Ok ifname) req 0 0 _ (Some rsp) srv' s Hfr eq_refl Enext
    eq_refl (λ _, range_order_self _) Ep) as St1. cbn [option_list app] in St1.
  match type of St1 with sys_step _ _ _ ?x => set (s1 := x) in * end.
  destruct (sys_step_ok hw_cap ifname k C ids True HC _ _ _ St1 Hok) as [sn1 Hok1].
  assert (rsp ∈ sys_responses s1) as Hin1 by (by left).
  assert (Send rsp = SendBroadcast) as Esend.
  { unfold Send. rewrite Ereq. cbn [Request_DHCPv4 req]. by rewrite (ca_gateway _ _ _ _ Hask0). }
  destruct nw_can_send as (_ & _ & Hlayer & Hser & Hcap).
  destruct (broadcast_frame (λ _, Ok (0, [])) (Ok 0) (λ _, None) None Layer SerializeLayers hw_cap (λ _ _, None)
    test_socket (Response_Request rsp) (Response_Response rsp)) as (sock' & fr2 & err & Eb & Edst & _ & _ & _ & _ & Epay);
    [by right|apply Hlayer|apply Hser| |].
  { rewrite Ehw. etrans; [|apply Hcap]. destruct (ca_hw _ _ _ _ Hask0) as [-> _]. done. }
  pose proof (sys_reply hw_cap ifname _ _ _ _ _ _ _ rsp fr2 err s1 Hin1 Esend Eb) as St2.
  match type of St2 with sys_step _ _ _ ?x => set (s2 := x) in * end.
  destruct (sys_step_ok hw_cap ifname k C ids True HC _ _ _ St2 Hok1) as [sn2 Hok2].
  assert (fr2 ∈ sys_down s2) as Hin2 by (by left).
  destruct (so_down _ _ _ _ _ _ _ Hok2 _ Hin2) as [_ Htold]. rewrite Epay in Htold.
  destruct (FromBytes_PacketBytes _ (same_packet_header C _ _ _ _ _ Htold)) as (q & Eq & Hq).
  destruct (frame_arrives s2 fr2 c q Hin2) as (s3 & St3 & E1 & E2 & E3);
    [rewrite Edst, Ehw; apply (ca_hw _ _ _ _ Hask0)|by rewrite Epay|by rewrite Edst, Ehw, (sp_hw _ _ Hq0)|].
  rewrite Edst, Ehw, (sp_hw _ _ Hq0) in E1.
  exists s3, q. split; [eapply rtc_l; [exact St1|]; eapply rtc_l; [exact St2|]; by apply rtc_once|].
  split_and!; [by rewrite (sp_op _ _ Hq)|by rewrite (sp_type _ _ Hq), Ety|by rewrite E1|by rewrite E2|by rewrite E3].
Qed.

(** ** The senders *)

(** Every client has a sender, which has ended only if it was acknowledged. *)
Definition senders_ok (s : system) : Prop :=
  ∀ m c, sys_clients s !! m = Some c →
  ∃ st, sys_senders s !! m = Some st ∧ (st = Finished → is_Some (Client_Ack c)).

Lemma step_senders s s' : step s s' → senders_ok s → senders_ok s'.
Proof.
  intros Hst Hs. destruct Hst as [setnet rawsocket sockopt sendto m c st fr st' s Hm Hsd E
    | | |fr bytes b clients s Hfr Eb E]; [|done..|].
  - intros m' c' Hc'. cbn [sys_clients sys_senders] in *. rewrite lookup_insert. case_decide as Em; [|by apply Hs].
    subst m'. rewrite Hm in Hc'. injection Hc' as <-. exists st'. split; [done|]. intros ->.
    apply sender_step_finished in E as [->|Ha]; [|done]. destruct (Hs _ _ Hm) as (st1 & Est & Hfin).
    rewrite Hsd in Est. injection Est as <-. by apply Hfin.
  - intros m' c' Hc'. cbn [sys_clients sys_senders] in *.
    apply GetDHCPAddrs_one in E as [[_ ->]|(c & pkt & Hk & _ & -> & _)]; [by apply Hs|].
    rewrite lookup_insert in Hc'. case_decide as Em; [|by apply Hs]. injection Hc' as <-. subst m'.
    destruct (Hs _ _ Hk) as (st & Est & Hfin). exists st. split; [done|]. intros Hf.
    destruct (ProcessResponse_later D c pkt) as (_ & _ & [->|(_ & a & -> & _)]); [by apply Hfin|by eexists].
Qed.

Lemma reach_senders s s' : rtc step s s' → senders_ok s → senders_ok s'.
Proof. induction 1; eauto using step_senders. Qed.

(** One step of a client's sender, all system calls succeeding. *)
Definition after_send (s : system) (m : string) (fr : option frame) (st : sender) : system := {|
  sys_server := sys_server s; sys_clients := sys_clients s; sys_senders := <[m := st]> (sys_senders s);
  sys_up := option_list fr ++ sys_up s; sys_responses := sys_responses s; sys_down := sys_down s |}.

Abbreviation sender_next := (sender_step None Layer SerializeLayers (Ok 0) (λ _, None) hw_cap (λ _ _, None)
  NewDiscovery NewRequestFromOffer).

Lemma send_once s m c st fr st' :
  sys_clients s !! m = Some c → sys_senders s !! m = Some st → sender_next c st = Ret (fr, st') →
  step s (after_send s m fr st').
Proof. intros Hc Hs E. by eapply sys_send. Qed.

Lemma after_send_aside s m fr st : aside m s (after_send s m fr st).
Proof.
  split; cbn [after_send sys_clients sys_senders sys_up]; [done| |].
  - intros m' Hm'. by rewrite lookup_insert_ne.
  - intros f Hf. apply elem_of_app. by right.
Qed.

Lemma fine_hw h sn m c : client_fine C ids True h sn m c → client_hw c.
Proof.
  intros [_ [Hl _] _ Ht]. split; [done|]. intros o Ho. destruct (Ht o (or_introl Ho)) as [[_ _ [? _] _ _ _ _] _]. done.
Qed.

(** Steps until the sender comes to its requests. *)
Definition sender_measure (st : sender) : nat :=
  match st with
  | Discovering i => 2 * (discoveries - i) + 1
  | Discovered i => 2 `max` (2 * (discoveries - i))
  | Requested => 1
  | Requesting | Finished => 0
  end%nat.

Lemma sender_progress c st :
  client_hw c → Client_Ack c = None → st ≠ Requesting → st ≠ Finished →
  ∃ fr st', sender_next c st = Ret (fr, st') ∧ st' ≠ Finished ∧ (sender_measure st' < sender_measure st)%nat.
Proof.
  intros Hhw Hack Hr Hf.
  destruct (sender_step_ret Layer SerializeLayers hw_cap (λ _ _, None) 0 NewDiscovery NewRequestFromOffer
    nw_can_send c st Hhw) as (fr & st' & E). exists fr, st'. split; [done|].
  destruct st as [i|i| | |]; cbn [sender_step] in E; try done.
  - destruct (Nat.ltb_spec i discoveries).
    + destruct (client_send _ _ _ _ _ _ _ _ _); try done. injection E as <- <-. split; [done|]. cbn. unfold discoveries in *. lia.
    + injection E as <- <-. split; [done|]. cbn. lia.
  - destruct (_ && _); injection E as <- <-; (split; [done|]); cbn; unfold discoveries; lia.
  - rewrite Hack in E. injection E as <- <-. split; [done|]. cbn. lia.
Qed.

Lemma sender_to_request s m c st :
  sys_clients s !! m = Some c → client_hw c → sys_senders s !! m = Some st → Client_Ack c = None → st ≠ Finished →
  ∃ s', rtc step s s' ∧ aside m s s' ∧ sys_clients s' = sys_clients s ∧ sys_senders s' !! m = Some Requesting.
Proof.
  remember (sender_measure st) as n eqn:En. revert s st En.
  induction n as [n IH] using lt_wf_ind; intros s st En Hc Hhw Hst Hack Hfin.
  destruct (decide (st = Requesting)) as [->|Hne].
  { exists s. split_and!; [done|apply aside_refl|done|done]. }
  destruct (sender_progress c st Hhw Hack Hne Hfin) as (fr & st' & E & Hfin' & Hlt).
  destruct (IH (sender_measure st') ltac:(lia) (after_send s m fr st') st' eq_refl Hc Hhw) as (s' & Hr & Ha & Ecl & Es);
    [apply lookup_insert_eq|done|done|].
  exists s'. split_and!; [|eapply aside_trans; [apply after_send_aside|exact Ha]|done|done].
  eapply rtc_l; [by eapply send_once|exact Hr].
Qed.

(** ** One client *)

(** A frame that carries a discover of the client. *)
Definition discover_of (m : string) (fr : frame) : Prop :=
  client_key (fr_payload fr) = m ∧ MessageType (fr_payload fr) = MessageTypeDiscover ∧
  ServerIdentifier (fr_payload fr) = None.

(** The client can still be heard: it is acknowledged, or has an offer, or a
    discover of it is on its way, or it has one left to send. *)
Definition heard (s : system) (m : string) (c : Client) : Prop :=
  is_Some (Client_Ack c) ∨ Client_Offers c ≠ [] ∨ (∃ fr, fr ∈ sys_up s ∧ discover_of m fr) ∨
  ∃ i, (i < discoveries)%nat ∧
       (sys_senders s !! m = Some (Discovering i) ∨ sys_senders s !! m = Some (Discovered (i - 1)) ∧ (0 < i)%nat).

Lemma heard_aside m m' c s s' : aside m s s' → m' ≠ m → heard s m' c → heard s' m' c.
Proof.
  intros [_ Hs Hu] Hne [H|[H|[(fr & Hfr & Hd)|(i & Hi & H)]]].
  - by left.
  - right. by left.
  - right. right. left. exists fr. split; [by apply Hu|done].
  - right. right. right. exists i. rewrite !Hs by done. by split.
Qed.

(** The discover that a sender sends. *)
Lemma send_discover s sn m c i :
  ok s sn → sys_clients s !! m = Some c → sys_senders s !! m = Some (Discovering i) → (i < discoveries)%nat →
  ∃ s' fr, rtc step s s' ∧ aside m s s' ∧ sys_clients s' = sys_clients s ∧ fr ∈ sys_up s' ∧ discover_of m fr.
Proof.
  intros Hok Hc Hst Hi. pose proof (so_clients _ _ _ _ _ _ _ Hok _ _ Hc) as Hfine.
  pose proof (fine_hw _ _ _ _ Hfine) as Hhw. pose proof nw_can_send as (Hd & _).
  destruct (Hd _ (proj1 Hhw)) as (d & Ed & Ehw).
  destruct (NewDiscovery_fields _ _ _ Ed) as (_ & _ & Et & _ & _ & _ & Eid).
  assert (sender_next c (Discovering i) = Ret (Some (client_frame c d), Discovered i)) as E.
  { cbn [sender_step]. rewrite (proj2 (Nat.ltb_lt _ _) Hi), Ed. cbn [fst].
    rewrite (client_send_frame Layer SerializeLayers hw_cap (λ _ _, None) 0 NewDiscovery NewRequestFromOffer nw_can_send);
      [done|]. by rewrite Ehw; apply Hhw. }
  exists (after_send s m (Some (client_frame c d)) (Discovered i)), (client_frame c d).
  split_and!; [by apply rtc_once; eapply send_once|apply after_send_aside|done|by left|].
  split_and!; [|done|done]. cbn. rewrite Ehw. symmetry. apply Hfine.
Qed.

Lemma get_discover s sn m c :
  ok s sn → sys_clients s !! m = Some c → heard s m c → Client_Ack c = None → Client_Offers c = [] →
  ∃ s' fr, rtc step s s' ∧ aside m s s' ∧ sys_clients s' = sys_clients s ∧ fr ∈ sys_up s' ∧ discover_of m fr.
Proof.
  intros Hok Hc [[? H]|[H|[(fr & Hfr & Hd)|(i & Hi & [H|[H Hpos]])]]] Ha Ho; [congruence|done| | |].
  - exists s, fr. split_and!; [done|apply aside_refl|done|done|apply Hd..].
  - by eapply send_discover.
  - set (s1 := after_send s m None (Discovering i)).
    assert (step s s1) as Hst.
    { eapply send_once; [exact Hc|exact H|]. cbn [sender_step]. rewrite Ho, bool_decide_true, andb_false_r by done.
      do 2 f_equal. replace (S (i - 1)) with i by lia. done. }
    destruct (sys_step_ok hw_cap ifname k C ids True HC _ _ _ Hst Hok) as [sn1 Hok1].
    destruct (send_discover s1 sn1 m c i Hok1 Hc) as (s' & fr & Hr & Ha' & Ecl & Hfr); [apply lookup_insert_eq|done|].
    exists s', fr. split_and!; [by eapply rtc_l|eapply aside_trans; [apply after_send_aside|done]|done|apply Hfr..].
Qed.

Lemma exchange_aside s s' m c : sys_clients s' = <[m := c]> (sys_clients s) → sys_senders s' = sys_senders s →
  sys_up s' = sys_up s → aside m s s'.
Proof. intros E1 E2 E3. split; intros; rewrite ?E1, ?E2, ?E3; [by rewrite lookup_insert_ne|done|done]. Qed.

(** The client is offered an address. *)
Lemma get_offer s sn m c :
  ok s sn → sys_clients s !! m = Some c → heard s m c → Client_Ack c = None →
  ∃ s' c', rtc step s s' ∧ aside m s s' ∧ sys_clients s' !! m = Some c' ∧
    Client_Offers c' ≠ [] ∧ Client_Ack c' = None.
Proof.
  intros Hok Hc Hh Ha. destruct (decide (Client_Offers c = [])) as [Ho|Ho].
  2: { exists s, c. split_and!; [done|apply aside_refl|done..]. }
  destruct (get_discover s sn m c Hok Hc Hh Ha Ho) as (s1 & fr & Hr1 & Ha1 & Ecl & Hfr & Em & Et & Eid).
  destruct (sys_reach_ok hw_cap ifname k C ids True HC _ _ _ Hr1 Hok) as [sn1 Hok1].
  destruct (exchange s1 sn1 fr c Hok1 Hfr) as (s2 & q & Hr2 & Eop & Ety & E1 & E2 & E3);
    [by rewrite Em, Ecl|by rewrite Eid|by right|]. rewrite Em in E1.
  unfold answer_type in Ety. rewrite Et in Ety.
  exists s2, (ProcessResponse c q).2. split_and!.
  - by etrans.
  - eapply aside_trans; [exact Ha1|by eapply exchange_aside].
  - rewrite E1. apply lookup_insert_eq.
  - unfold ProcessResponse. rewrite Eop, Ety. cbn. by destruct (Client_Offers c).
  - unfold ProcessResponse. by rewrite Eop, Ety.
Qed.

(** The client is acknowledged. *)
Lemma client_finishes s sn m c :
  ok s sn → senders_ok s → sys_clients s !! m = Some c → heard s m c →
  ∃ s' c', rtc step s s' ∧ aside m s s' ∧ sys_clients s' !! m = Some c' ∧ is_Some (Client_Ack c').
Proof.
  intros Hok Hsend Hc Hh. destruct (Client_Ack c) as [a|] eqn:Ha.
  { exists s, c. split_and!; [done|apply aside_refl|done|by rewrite Ha]. }
  destruct (get_offer s sn m c Hok Hc Hh Ha) as (s1 & c1 & Hr1 & As1 & Hc1 & Ho1 & Ha1).
  destruct (sys_reach_ok hw_cap ifname k C ids True HC _ _ _ Hr1 Hok) as [sn1 Hok1].
  destruct (reach_senders _ _ Hr1 Hsend _ _ Hc1) as (st1 & Hst1 & Hfin1).
  pose proof (fine_hw _ _ _ _ (so_clients _ _ _ _ _ _ _ Hok1 _ _ Hc1)) as Hhw1.
  destruct (sender_to_request s1 m c1 st1 Hc1 Hhw1 Hst1 Ha1) as (s2 & Hr2 & As2 & Ecl2 & Hst2);
    [intros E; apply Hfin1 in E as [? ?]; congruence|].
  destruct (sys_reach_ok hw_cap ifname k C ids True HC _ _ _ Hr2 Hok1) as [sn2 Hok2].
  assert (sys_clients s2 !! m = Some c1) as Hc2 by (by rewrite Ecl2).
  pose proof (so_clients _ _ _ _ _ _ _ Hok2 _ _ Hc2) as Hfine.
  destruct (list.last (Client_Offers c1)) as [o|] eqn:Eo; [|by apply list.last_None in Eo].
  destruct (cf_told _ _ _ _ _ _ _ Hfine o (or_introl (last_elem _ _ Eo))) as [Htold Eohw].
  pose proof nw_can_send as (_ & Hreq & _). destruct (Hreq o) as (r & Er & Erhw).
  destruct (NewRequestFromOffer_fields _ _ _ Er) as (_ & _ & Et & _ & _ & _ & Eid).
  set (fr := client_frame c1 r). set (s3 := after_send s2 m (Some fr) Requested).
  assert (step s2 s3) as Hst3.
  { eapply send_once; [exact Hc2|exact Hst2|]. cbn [sender_step].
    rewrite (request_frame Layer SerializeLayers hw_cap (λ _ _, None) 0 NewDiscovery NewRequestFromOffer nw_can_send c1 Hhw1).
    rewrite Eo, Er. done. }
  destruct (sys_step_ok hw_cap ifname k C ids True HC _ _ _ Hst3 Hok2) as [sn3 Hok3].
  assert (client_key (fr_payload fr) = m) as Em.
  { cbn. rewrite Erhw, Eohw. symmetry. apply Hfine. }
  destruct (exchange s3 sn3 fr c1 Hok3 ltac:(by left)) as (s4 & q & Hr4 & Eop & Ety & E1 & E2 & E3);
    [by rewrite Em|cbn; rewrite Eid; by apply Htold|by left|]. rewrite Em in E1.
  unfold answer_type in Ety. cbn [fr_payload fr client_frame] in Ety. rewrite Et in Ety.
  exists s4, (ProcessResponse c1 q).2. split_and!.
  - etrans; [exact Hr1|]. etrans; [exact Hr2|]. eapply rtc_l; [exact Hst3|exact Hr4].
  - eapply aside_trans; [exact As1|]. eapply aside_trans; [exact As2|].
    eapply aside_trans; [apply after_send_aside|by eapply exchange_aside].
  - rewrite E1. apply lookup_insert_eq.
  - unfold ProcessResponse. rewrite Eop, Ety. cbn. rewrite Ha1. by eexists.
Qed.

(** ** All clients *)

Lemma all_finish ms s sn :
  NoDup ms → ok s sn → senders_ok s →
  (∀ m, m ∈ ms → ∃ c, sys_clients s !! m = Some c ∧ heard s m c) →
  ∃ s', rtc step s s' ∧ (∀ m, m ∉ ms → sys_clients s' !! m = sys_clients s !! m) ∧
    ∀ m, m ∈ ms → ∃ c, sys_clients s' !! m = Some c ∧ is_Some (Client_Ack c).
Proof.
  intros Hnd. revert s sn. induction Hnd as [|m ms Hm Hnd IH]; intros s sn Hok Hsend Hh.
  { exists s. split_and!; [done..|]. intros m Hm. by apply not_elem_of_nil in Hm. }
  destruct (Hh m ltac:(by left)) as (c & Hc & Hhc).
  destruct (client_finishes s sn m c Hok Hsend Hc Hhc) as (s1 & c1 & Hr1 & As1 & Hc1 & Ha1).
  destruct (sys_reach_ok hw_cap ifname k C ids True HC _ _ _ Hr1 Hok) as [sn1 Hok1].
  assert (∀ m', m' ∈ ms → m' ≠ m) as Hne by (intros m' Hm' ->; done).
  destruct (IH s1 sn1 Hok1 (reach_senders _ _ Hr1 Hsend)) as (s2 & Hr2 & Hout & Hin).
  { intros m' Hm'. destruct (Hh m' ltac:(by right)) as (c' & Hc' & Hh'). exists c'.
    rewrite (as_clients _ _ _ As1) by auto. split; [done|]. eapply heard_aside; eauto. }
  exists s2. split; [by etrans|]. split.
  - intros m' [Hm1 Hm2]%not_elem_of_cons. rewrite Hout, (as_clients _ _ _ As1) by done. done.
  - intros m' [->|Hm']%elem_of_cons; [|by apply Hin]. exists c1. rewrite Hout by done. by split.
Qed.
End live.

(** ** The two theorems *)

Lemma start_senders srv clients : senders_ok (sys_start srv clients).
Proof.
  intros m c Hc. cbn [sys_clients sys_senders sys_start] in *. rewrite lookup_fmap, Hc. by eexists.
Qed.

Lemma start_heard `{D : Dhcpv4} srv clients m c : sys_clients (sys_start srv clients) !! m = Some c → heard (sys_start srv clients) m c.
Proof.
  intros Hc. right. right. right. exists 0%nat. split; [unfold discoveries; lia|]. left.
  cbn [sys_clients sys_senders sys_start] in *. by rewrite lookup_fmap, Hc.
Qed.

(** C3: no two of the simulated clients are acknowledged the same address.  The
    server's subnets have no address in common, and the one that the server finds
    for the clients' interface still has a free address for each of the
    clients.  Clients and server run together in any interleaving, over a network that may lose, duplicate, delay
    and reorder, with clocks and system calls that answer anything; then whenever
    two different clients are acknowledged, their addresses differ, and each is
    the address that the server's cache has for that client. *)
Theorem acknowledged_addresses_distinct (D : Dhcpv4) (L : Dhcpv4Laws D) (N : Network) (NL : NetworkLaws D N)
    hw_cap ifname k srv sn n start clients s m1 m2 c1 c2 a1 a2 :
  deployed ifname k srv sn n → hw_ok start → Z.of_nat n < 2 ^ 48 → make_clients n start ∅ = Ret clients →
  rtc (sys_step hw_cap ifname) (sys_start srv clients) s →
  sys_clients s !! m1 = Some c1 → sys_clients s !! m2 = Some c2 → m1 ≠ m2 →
  Client_Ack c1 = Some a1 → Client_Ack c2 = Some a2 →
  ¬ same_ip (YourIPAddr a1) (YourIPAddr a2) ∧
  ∃ sn', subnets (sys_server s) !! k = Some sn' ∧
         bound_at (leases (sys_server s)) sn' m1 (YourIPAddr a1).
Proof.
  intros Hdep Hst Hn Hmk Hr H1 H2 Hne A1 A2. destruct (make_clients_fresh _ _ _ Hst Hn Hmk) as [Hf Hsize].
  pose proof (fresh_no_dots _ Hf) as HC. rewrite <- Hsize in Hdep.
  pose proof (sys_start_ok ifname k srv sn clients False Hdep Hf ltac:(done)) as Hok.
  destruct (sys_reach_ok hw_cap ifname k _ _ _ HC _ _ _ Hr Hok) as [sn' Hok'].
  split; [by eapply (sys_ok_distinct ifname k _ _ _ HC)|].
  destruct Hok' as [Hs Hc _ _ _]. exists sn'. split; [apply Hs|].
  destruct (Hc _ _ H1) as [E1 _ _ T1]. destruct (T1 _ (or_intror A1)) as [[_ _ _ _ _ B1 _] M1].
  by rewrite E1, <- M1.
Qed.

(** C9: no client that can still be heard is lost.  Under the conditions under
    which the server answers, from every reachable state of clients and server in
    which every client has an acknowledgement, an offer, a discover on its way or
    one left to send, there is a run, of the two programs' own steps, to a state
    in which all of them are acknowledged. *)
Theorem clients_can_finish (D : Dhcpv4) (L : Dhcpv4Laws D) (N : Network) (NL : NetworkLaws D N)
    hw_cap (W : NetworkWorks D N hw_cap) ifname k srv sn n start clients s :
  deployed ifname k srv sn n → answering srv sn →
  hw_ok start → Z.of_nat n < 2 ^ 48 → make_clients n start ∅ = Ret clients →
  rtc (sys_step hw_cap ifname) (sys_start srv clients) s →
  (∀ m c, sys_clients s !! m = Some c → heard s m c) →
  ∃ s', rtc (sys_step hw_cap ifname) s s' ∧ all_acked (sys_clients s') = true.
Proof.
  intros Hdep Hans Hst Hn Hmk Hr Hh. destruct (make_clients_fresh _ _ _ Hst Hn Hmk) as [Hf Hsize].
  pose proof (fresh_no_dots _ Hf) as HC. rewrite <- Hsize in Hdep.
  pose proof (sys_start_ok ifname k srv sn clients True Hdep Hf (λ _, Hans)) as Hok.
  destruct (sys_reach_ok hw_cap ifname k _ _ _ HC _ _ _ Hr Hok) as [sn' Hok'].
  pose proof (reach_senders hw_cap ifname _ _ Hr (start_senders srv clients)) as Hsend.
  destruct (all_finish hw_cap ifname k (dom clients) (serverIds srv) HC (elements (dom (sys_clients s))) s sn') as (s' & Hr' & Hout & Hin);
    [apply NoDup_elements|done|done|..].
  { intros m [c Hc]%elem_of_elements%elem_of_dom. eauto. }
  exists s'. split; [done|]. apply all_acked_spec. intros m c Hc.
  destruct (decide (m ∈ elements (dom (sys_clients s)))) as [Hm|Hm].
  - destruct (Hin m Hm) as (c' & Hc' & ?). congruence.
  - rewrite (Hout m Hm) in Hc. destruct Hm. apply elem_of_elements, elem_of_dom. by eexists.
Qed.

(** ** Three clients at the server of the source's test *)

#[export] Instance toy_net_works : NetworkWorks rfc_lib toy_net (@length Z).
Proof.
  split; [|by eexists]. split_and!; [| |done|done|done].
  - intros mac _. by eexists.
  - intros o. by eexists.
Qed.

Definition demo_start : HardwareAddr := [0; 1; 0; 0; 0; 0].
Definition demo_clients : gmap string Client :=
  match make_clients 3 demo_start ∅ with Ret c => c | _ => ∅ end.
Definition demo_answering_subnet : Subnet :=
  default demo_subnet (subnets test_server !! "10.3.1.0/24").

Lemma demo_clients_made : make_clients 3 demo_start ∅ = Ret demo_clients.
Proof. vm_compute. reflexivity. Qed.

Lemma demo_start_ok : hw_ok demo_start.
Proof. refine (bool_decide_unpack _ _). vm_compute. exact I. Qed.

Lemma demo_deployed : deployed "br1" "10.3.1.0/24" test_server demo_answering_subnet 3.
Proof.
  split.
  - apply test_server_inv.
  - apply test_server_disjoint.
  - vm_compute. reflexivity.
  - vm_compute. apply fm_here; vm_compute; reflexivity.
  - apply (bool_decide_unpack _). vm_compute. exact I.
Qed.

Lemma demo_answering : answering test_server demo_answering_subnet.
Proof. refine (bool_decide_unpack _ _). vm_compute. exact I. Qed.

Abbreviation demo_step := (sys_step (D := rfc_lib) (N := toy_net) (@length Z) "br1").

Lemma clients_can_finish_witness :
  ∃ s', rtc demo_step (sys_start test_server demo_clients) s' ∧ all_acked (sys_clients s') = true.
Proof.
  apply (clients_can_finish rfc_lib rfc_lib_laws toy_net toy_net_laws (@length Z) toy_net_works
    "br1" "10.3.1.0/24" test_server demo_answering_subnet 3 demo_start demo_clients);
    [apply demo_deployed|apply demo_answering|apply demo_start_ok|lia|apply demo_clients_made|apply rtc_refl|].
  intros m c Hc. by apply (start_heard (D := rfc_lib)).
Defined.

(** The first two of them after a run to the end. *)
Definition demo_key1 : string := "00:01:00:00:00:01".
Definition demo_key2 : string := "00:01:00:00:00:02".

Lemma demo_keys_nodup : NoDup [demo_key1; demo_key2].
Proof. refine (bool_decide_unpack _ _). vm_compute. exact I. Qed.

Lemma demo_keys_known m : m ∈ [demo_key1; demo_key2] → is_Some (demo_clients !! m).
Proof.
  intros [->|[->|[]%not_elem_of_nil]%elem_of_cons]%elem_of_cons;
    refine (bool_decide_unpack _ _); vm_compute; exact I.
Qed.

Lemma demo_finished :
  ∃ s c1 c2 a1 a2, rtc demo_step (sys_start test_server demo_clients) s ∧
    sys_clients s !! demo_key1 = Some c1 ∧ sys_clients s !! demo_key2 = Some c2 ∧
    Client_Ack c1 = Some a1 ∧ Client_Ack c2 = Some a2.
Proof.
  destruct (make_clients_fresh 3 demo_start demo_clients demo_start_ok ltac:(lia) demo_clients_made) as [Hf Hsize].
  pose proof demo_deployed as Hdep. rewrite <- Hsize in Hdep.
  pose proof (sys_start_ok (D := rfc_lib) "br1" "10.3.1.0/24" test_server demo_answering_subnet demo_clients True
    Hdep Hf (λ _, demo_answering)) as Hok.
  destruct (all_finish (D := rfc_lib) (L := rfc_lib_laws) (N := toy_net) (NL := toy_net_laws) (@length Z)
    "br1" "10.3.1.0/24" (dom demo_clients) (serverIds test_server) (fresh_no_dots _ Hf)
    [demo_key1; demo_key2] _ _ demo_keys_nodup Hok (start_senders _ _))
    as (s & Hr & _ & Hin).
  { intros m [c Hc]%demo_keys_known. exists c. split; [done|]. by apply (start_heard (D := rfc_lib)). }
  destruct (Hin demo_key1) as (c1 & Hc1 & a1 & Ha1); [by left|].
  destruct (Hin demo_key2) as (c2 & Hc2 & a2 & Ha2); [right; by left|].
  exists s, c1, c2, a1, a2. exact (conj Hr (conj Hc1 (conj Hc2 (conj Ha1 Ha2)))).
Qed.

Lemma acknowledged_addresses_distinct_witness :
  ∃ s c1 c2 a1 a2, rtc demo_step (sys_start test_server demo_clients) s ∧
    Client_Ack c1 = Some a1 ∧ Client_Ack c2 = Some a2 ∧
    ¬ same_ip (YourIPAddr a1) (YourIPAddr a2) ∧
    ∃ sn', subnets (sys_server s) !! "10.3.1.0/24" = Some sn' ∧
           bound_at (leases (sys_server s)) sn' demo_key1 (YourIPAddr a1).
Proof.
  destruct demo_finished as (s & c1 & c2 & a1 & a2 & Hr & H1 & H2 & A1 & A2).
  exists s, c1, c2, a1, a2. split; [exact Hr|]. split; [exact A1|]. split; [exact A2|].
  apply (acknowledged_addresses_distinct rfc_lib rfc_lib_laws toy_net toy_net_laws (@length Z) "br1" "10.3.1.0/24"
    test_server demo_answering_subnet 3 demo_start demo_clients s demo_key1 demo_key2 c1 c2 a1 a2);
    [apply demo_deployed|apply demo_start_ok|lia|apply demo_clients_made|exact Hr|exact H1|exact H2|done|exact A1|exact A2].
Defined.
