(* ===== verification/ApiTypes.v ===== *)
(** * [api/v1alpha1]: the objects of the cluster

    The custom resources, with the parts of their metadata that the program
    reads, and their translation to the data of package [dhcp]. *)

From S2P Require Import Prelude GoStrings GoNet Errors IPv4 Types.
Open Scope string_scope.
Open Scope list_scope.
Open Scope Z_scope.

(** The name of an object in the cluster, [client.ObjectKey]. *)
Record ObjectKey := { key_Namespace : string; key_Name : string }.

#[global] Instance ObjectKey_eq_dec : EqDecision ObjectKey.
Proof. solve_decision. Defined.

(** [type Option struct]; [ID] is a byte. *)
Record V1Option := { V1Option_ID : Z; V1Option_Type : string; V1Option_Value : string }.

Record DHCPHostSpec := {
  hs_Subnet : string;
  hs_MAC : string;
  hs_IP : string;
  hs_Gateway : string;
  hs_HostName : string;
  hs_DNS : list string;
  hs_Options : list V1Option;
  hs_ServerHostName : string;
  hs_BootFileName : string;
  hs_LeaseTime : Z;
}.

Record DHCPHost := { host_key : ObjectKey; host_Spec : DHCPHostSpec }.

Record DHCPServerSpec := {
  ss_ListenInterface : string;
  ss_ListenAddress : string;
  ss_ReuseAddr : bool;
}.

Record DHCPServer := { server_key : ObjectKey; server_Spec : DHCPServerSpec }.

Record DHCPSubnetSpec := {
  sns_Subnet : string;
  sns_RangeFrom : string;
  sns_RangeTo : string;
  sns_Gateway : string;
  sns_DNS : list string;
  sns_Options : list V1Option;
  sns_ServerHostName : string;
  sns_BootFileName : string;
  sns_LeaseTime : Z;
}.

Record V1Lease := { V1Lease_IP : string; V1Lease_UpdatedAt : Time }.

(** The map of leases is nil until the first lease is saved. *)
Record DHCPSubnetStatus := {
  status_ErrorMessage : string;
  status_Leases : option (gmap string V1Lease);
}.

Record DHCPSubnet := {
  subnet_key : ObjectKey;
  subnet_Spec : DHCPSubnetSpec;
  subnet_Status : DHCPSubnetStatus;
}.

(** ** Translations *)

Definition ToOption (o : V1Option) : DOption := {|
  Option_ID := V1Option_ID o; Option_Type := V1Option_Type o; Option_Value := V1Option_Value o |}.

Definition ToDHCPHost (s : DHCPHost) : Host := {|
  Host_Subnet := "";
  Host_MAC := hs_MAC (host_Spec s);
  Host_IP := ParseIP (hs_IP (host_Spec s));
  Host_Gateway := ParseIP (hs_Gateway (host_Spec s));
  Host_ServerHostName := hs_ServerHostName (host_Spec s);
  Host_BootFileName := hs_BootFileName (host_Spec s);
  Host_DNS := hs_DNS (host_Spec s);
  Host_Options := ToOption <$> hs_Options (host_Spec s);
  Host_LeaseTime := hs_LeaseTime (host_Spec s);
  Host_HostName := hs_HostName (host_Spec s) |}.

Definition ToListen (s : DHCPServer) : Listen := {|
  Listen_Name := key_Name (server_key s);
  Listen_Interface := ss_ListenInterface (server_Spec s);
  Listen_Addr := ss_ListenAddress (server_Spec s) |}.

Definition ToSubnet (s : DHCPSubnet) : Subnet := {|
  Subnet_Subnet := sns_Subnet (subnet_Spec s);
  Subnet_RangeFrom := sns_RangeFrom (subnet_Spec s);
  Subnet_RangeTo := sns_RangeTo (subnet_Spec s);
  Subnet_Gateway := sns_Gateway (subnet_Spec s);
  Subnet_DNS := sns_DNS (subnet_Spec s);
  Subnet_Options := ToOption <$> sns_Options (subnet_Spec s);
  Subnet_LeaseTime := sns_LeaseTime (subnet_Spec s);
  Subnet_ServerHostName := sns_ServerHostName (subnet_Spec s);
  Subnet_BootFileName := sns_BootFileName (subnet_Spec s);
  Subnet_iPFrom := 0;
  Subnet_iPTo := 0;
  Subnet_ipNet := {| IPNet_IP := None; IPNet_Mask := None |};
  Subnet_currentIP := 0;
  Subnet_leaseCache := ∅;
  Subnet_netMask := "";
  Subnet_serverIPAddress := None |}.
