(* ===== verification/Memory.v ===== *)
(** * Memory for the deep copies

    What the generated code of [api/v1alpha1/zz_generated.deepcopy.go] works on:
    structs whose slices and maps are references to memory that others may also
    refer to.  A memory maps locations to cells; for a type of values that
    refer to it, the class [Copy] says what a value reads as, and which
    locations it reaches; [copies] is the contract of a deep copy. *)

From S2P Require Import Prelude GoStrings GoNet Errors IPv4 Types ApiTypes.
Open Scope string_scope.
Open Scope list_scope.
Open Scope Z_scope.

Abbreviation loc := nat.

(** A slice: its array, nil or not, where in the array it begins, and its length.
    A pointer to a variable and a map are locations, or nil.  The type of what
    they refer to is a phantom. *)
Record slice (A : Type) := { sl_ptr : option loc; sl_off : nat; sl_len : nat }.
Arguments sl_ptr {A}.
Arguments sl_off {A}.
Arguments sl_len {A}.

Record ptr (A : Type) := { ptr_to : option loc }.
Arguments ptr_to {A}.
Definition nil_ptr {A} : ptr A := {| ptr_to := None |}.
Definition to_loc {A} (l : loc) : ptr A := {| ptr_to := Some l |}.

(** ** Memory *)

Section memory.
Context {cell : Type}.

Abbreviation mem := (gmap loc cell).

(** [new] and [make]. *)
Definition alloc (h : mem) (c : cell) : mem * loc := let l := fresh (dom h) in (<[l := c]> h, l).

Lemma alloc_fresh h c : (alloc h c).2 ∉ dom h.
Proof. apply is_fresh. Qed.

Lemma alloc_subseteq h c : h ⊆ (alloc h c).1.
Proof. apply insert_subseteq, not_elem_of_dom. exact (alloc_fresh h c). Qed.

Lemma alloc_lookup h c : (alloc h c).1 !! (alloc h c).2 = Some c.
Proof. apply lookup_insert_eq. Qed.

Lemma subseteq_dom_nat (h h' : mem) : h ⊆ h' → dom h ⊆ dom h'.
Proof. intros Hs. by apply subseteq_dom. Qed.

(** ** Values in memory *)

(** What a value reads as, if all its references are good, and the locations it
    reaches. *)
Class Copy (A : Type) := {
  view_of : Type;
  view : mem → A → option view_of;
  foot : mem → A → gset loc;
}.
#[global] Arguments view_of A {_}.

(** A value reaches only what is there, and depends on nothing else. *)
Class Framed (A : Type) `{Copy A} : Prop := {
  view_dom : ∀ h a v, view h a = Some v → foot h a ⊆ dom h;
  view_frame : ∀ h h' a v, view h a = Some v → (∀ l, l ∈ foot h a → h' !! l = h !! l) →
    view h' a = Some v ∧ foot h' a = foot h a;
}.

(** [a] reads as [v] and reaches nothing of the older memory [h0]. *)
Definition copied {A} `{Copy A} (h0 h : mem) (a : A) (v : view_of A) : Prop :=
  h0 ⊆ h ∧ view h a = Some v ∧ foot h a ## dom h0.

(** A deep copy leaves the memory as it is, but for new cells, and its result
    reads like the original and shares nothing with what was there. *)
Definition copies {A} `{Copy A} (into : mem → A → mem * A) : Prop :=
  ∀ h a v, view h a = Some v → copied h (into h a).1 (into h a).2 v.

Section laws.
Context {A : Type} `{Framed A}.

Lemma view_mono (h h' : mem) (a : A) v :
  h ⊆ h' → view h a = Some v → view h' a = Some v ∧ foot h' a = foot h a.
Proof.
  intros Hs Hv. apply (view_frame h h' a v Hv). intros l Hl. apply (view_dom _ _ _ Hv) in Hl.
  apply elem_of_dom in Hl as [c Hc]. rewrite Hc. by eapply lookup_weaken.
Qed.

Lemma copied_mono (h0 h h' : mem) (a : A) v : copied h0 h a v → h ⊆ h' → copied h0 h' a v.
Proof.
  intros (Hs & Hv & Hf) Hs'. destruct (view_mono _ _ _ _ Hs' Hv) as [Hv' E].
  split_and!; [by etrans|done|by rewrite E].
Qed.

Lemma copied_older (h0 h1 h : mem) (a : A) v : h0 ⊆ h1 → copied h1 h a v → copied h0 h a v.
Proof.
  intros Hs (Hs1 & Hv & Hf). split_and!; [by etrans|done|]. apply subseteq_dom_nat in Hs. set_solver.
Qed.

(** What a copy gives: whoever writes to memory that the copy reaches leaves the
    original as it was, and the other way round. *)
Lemma copied_isolated (h h' h'' : mem) (a a' : A) v :
  view h a = Some v → copied h h' a' v →
  ((∀ l, l ∉ foot h' a' → h'' !! l = h' !! l) → view h'' a = Some v) ∧
  ((∀ l, l ∉ foot h' a → h'' !! l = h' !! l) → view h'' a' = Some v).
Proof.
  intros Hv (Hs & Hv' & Hf). destruct (view_mono _ _ _ _ Hs Hv) as [Hv1 E1].
  pose proof (view_dom _ _ _ Hv) as Hd. split; intros Hw.
  - apply (view_frame h' h'' a v Hv1). rewrite E1. intros l Hl. apply Hw. set_solver.
  - apply (view_frame h' h'' a' v Hv'). intros l Hl. apply Hw. rewrite E1. set_solver.
Qed.

End laws.

(** ** Plain values *)

(** Values without references are copied by assignment. *)
Definition plain_copy (A : Type) : Copy A := {| view_of := A; view _ a := Some a; foot _ _ := ∅ |}.

Lemma plain_framed A : @Framed A (plain_copy A).
Proof. split; cbn; [set_solver|by intros]. Qed.

Lemma plain_copies A (into : mem → A → mem * A) :
  (∀ h a, into h a = (h, a)) → @copies A (plain_copy A) into.
Proof. intros E h a v Hv. rewrite E. cbn in *. split_and!; [done|done|set_solver]. Qed.

(** ** Slices *)

(** The cells that hold the arrays of a type. *)
Class Elem (A : Type) := {
  to_array : list A → cell;
  of_array : cell → option (list A);
  of_to_array : ∀ xs, of_array (to_array xs) = Some xs;
}.

(** The elements of a slice. *)
Definition contents {A} `{Elem A} (h : mem) (s : slice A) : option (list A) :=
  match sl_ptr s with
  | None => if decide (sl_len s = 0%nat) then Some [] else None
  | Some l =>
      match h !! l with
      | Some c =>
          xs ← of_array c;
          if decide (sl_off s + sl_len s ≤ length xs)%nat then Some (take (sl_len s) (drop (sl_off s) xs))
          else None
      | None => None
      end
  end.

Definition feet {A} `{Copy A} (h : mem) (xs : list A) : gset loc := ⋃ (foot h <$> xs).

(** A slice reads as the list of its elements; a nil slice is not an empty one. *)
#[global] Instance slice_Copy {A} `{Elem A, Copy A} : Copy (slice A) := {
  view_of := option (list (view_of A));
  view h s := xs ← contents h s; vs ← mapM (view h) xs; Some ((λ _, vs) <$> sl_ptr s);
  foot h s := match sl_ptr s with Some l => {[l]} | None => ∅ end ∪
              feet h (default [] (contents h s));
}.

(** The loop over the elements. *)
Fixpoint copy_list {A} (into : mem → A → mem * A) (h : mem) (xs : list A) : mem * list A :=
  match xs with
  | [] => (h, [])
  | x :: xs =>
      let '(h, y) := into h x in
      let '(h, ys) := copy_list into h xs in
      (h, y :: ys)
  end.

(** [if in.F != nil { ... }]: a nil slice stays nil; for another one an array of
    its length is made and its elements are copied.  (The array is written at
    once when all elements are copied; where it is makes no difference.) *)
Definition slice_copy {A} `{Elem A} (into : mem → A → mem * A) (h : mem) (s : slice A) : mem * slice A :=
  match sl_ptr s with
  | None => (h, s)
  | Some _ =>
      let '(h, ys) := copy_list into h (default [] (contents h s)) in
      let '(h, l) := alloc h (to_array ys) in
      (h, {| sl_ptr := Some l; sl_off := 0; sl_len := sl_len s |})
  end.

Section lists.
Context {A : Type} `{Framed A}.

Lemma feet_cons (h : mem) x xs : feet h (x :: xs) = foot h x ∪ feet h xs.
Proof. reflexivity. Qed.

Lemma mapM_view_cons (h : mem) x xs vs :
  mapM (view h) (x :: xs) = Some vs ↔ ∃ v vs', vs = v :: vs' ∧ view h x = Some v ∧ mapM (view h) xs = Some vs'.
Proof.
  split.
  - intros (v & Hv & E)%bind_Some. apply bind_Some in E as (vs' & Hvs & E). injection E as <-. eauto.
  - intros (v & vs' & -> & Hv & Hvs). cbn. rewrite Hv. cbn. by rewrite Hvs.
Qed.

Lemma list_view_dom (h : mem) xs vs : mapM (view h) xs = Some vs → feet h xs ⊆ dom h.
Proof.
  revert vs. induction xs as [|x xs IH]; intros vs; [intros _; apply empty_subseteq|].
  intros (v & vs' & -> & Hv & Hvs)%mapM_view_cons. rewrite feet_cons.
  pose proof (view_dom _ _ _ Hv). pose proof (IH _ Hvs). set_solver.
Qed.

Lemma list_view_frame (h h' : mem) xs vs :
  mapM (view h) xs = Some vs → (∀ l, l ∈ feet h xs → h' !! l = h !! l) →
  mapM (view h') xs = Some vs ∧ feet h' xs = feet h xs.
Proof.
  revert vs. induction xs as [|x xs IH]; intros vs; [done|].
  intros (v & vs' & -> & Hv & Hvs)%mapM_view_cons. rewrite !feet_cons. intros Hl.
  destruct (view_frame h h' x v Hv) as [Hv' E1]; [intros l ?; apply Hl; set_solver|].
  destruct (IH _ Hvs) as [Hvs' E2]; [intros l ?; apply Hl; set_solver|].
  split; [|by rewrite E1, E2]. apply mapM_view_cons. by exists v, vs'.
Qed.

Lemma copy_list_copies (into : mem → A → mem * A) (h : mem) xs vs :
  copies into → mapM (view h) xs = Some vs →
  let '(h', ys) := copy_list into h xs in
  h ⊆ h' ∧ mapM (view h') ys = Some vs ∧ feet h' ys ## dom h ∧ length ys = length xs.
Proof.
  intros Hinto. revert h vs. induction xs as [|x xs IH]; intros h vs; cbn [copy_list].
  - intros [= <-]. split_and!; [done|done|apply disjoint_empty_l|done].
  - intros (v & vs' & -> & Hv & Hvs)%mapM_view_cons. pose proof (Hinto h x v Hv) as Hx.
    destruct (into h x) as [h1 y]. cbn [fst snd] in Hx. pose proof Hx as (Hs1 & Hy & Hf1).
    destruct (list_view_frame h h1 xs vs' Hvs) as [Hvs1 _].
    { intros l Hl. apply (list_view_dom _ _ _ Hvs) in Hl. apply elem_of_dom in Hl as [c Hc].
      rewrite Hc. by eapply lookup_weaken. }
    specialize (IH h1 vs' Hvs1). destruct (copy_list into h1 xs) as [h2 ys].
    destruct IH as (Hs2 & Hys & Hf2 & Hlen).
    destruct (view_mono _ _ _ _ Hs2 Hy) as [Hy2 E2]. split_and!.
    + by etrans.
    + apply mapM_view_cons. by exists v, vs'.
    + rewrite feet_cons, E2. pose proof (subseteq_dom_nat _ _ Hs1). set_solver.
    + cbn. by rewrite Hlen.
Qed.

Context `{!Elem A}.

Lemma contents_length (h : mem) (s : slice A) xs : contents h s = Some xs → length xs = sl_len s.
Proof.
  unfold contents. destruct (sl_ptr s) as [l|].
  - destruct (h !! l) as [c|]; [|done]. destruct (of_array c) as [ys|]; [|done]. cbn.
    case_decide; [|done]. intros [= <-]. rewrite length_take, length_drop. lia.
  - case_decide as E; [|done]. intros [= <-]. by rewrite E.
Qed.

Lemma contents_nil (h : mem) (s : slice A) xs : sl_ptr s = None → contents h s = Some xs → xs = [].
Proof. unfold contents. intros ->. case_decide; congruence. Qed.

Lemma contents_whole (h : mem) l xs :
  h !! l = Some (to_array xs) → contents h {| sl_ptr := Some l; sl_off := 0; sl_len := length xs |} = Some xs.
Proof.
  intros Hl. unfold contents. cbn. rewrite Hl, of_to_array. cbn. rewrite decide_True by lia.
  by rewrite drop_0, firstn_all.
Qed.

Lemma slice_view (h : mem) (s : slice A) w :
  view h s = Some w ↔
  ∃ xs vs, contents h s = Some xs ∧ mapM (view h) xs = Some vs ∧ w = (λ _, vs) <$> sl_ptr s.
Proof.
  split.
  - intros (xs & Hc & (vs & Hvs & E)%bind_Some)%bind_Some. injection E as <-. eauto.
  - intros (xs & vs & Hc & Hvs & ->). cbn. rewrite Hc. cbn. by rewrite Hvs.
Qed.

Lemma slice_foot (h : mem) (s : slice A) xs :
  contents h s = Some xs → foot h s = match sl_ptr s with Some l => {[l]} | None => ∅ end ∪ feet h xs.
Proof. intros Hc. cbn [foot slice_Copy]. by rewrite Hc. Qed.

#[global] Instance slice_Framed : Framed (slice A).
Proof.
  split.
  - intros h s w (xs & vs & Hc & Hvs & _)%slice_view. rewrite (slice_foot _ _ _ Hc).
    pose proof (list_view_dom _ _ _ Hvs). apply union_subseteq. split; [|done].
    unfold contents in Hc. destruct (sl_ptr s) as [l|]; [|apply empty_subseteq].
    apply singleton_subseteq_l, elem_of_dom. destruct (h !! l); [by eexists|done].
  - intros h h' s w (xs & vs & Hc & Hvs & ->)%slice_view Hl. rewrite (slice_foot _ _ _ Hc) in Hl.
    assert (contents h' s = Some xs) as Hc'.
    { unfold contents in *. destruct (sl_ptr s) as [l|]; [|done]. rewrite (Hl l) by set_solver. done. }
    destruct (list_view_frame h h' xs vs Hvs) as [Hvs' E]; [intros l ?; apply Hl; set_solver|].
    split; [apply slice_view; by exists xs, vs|].
    rewrite (slice_foot _ _ _ Hc), (slice_foot _ _ _ Hc'). by rewrite E.
Qed.

Lemma slice_copies (into : mem → A → mem * A) : copies into → copies (A := slice A) (slice_copy into).
Proof.
  intros Hinto h s w (xs & vs & Hc & Hvs & ->)%slice_view. unfold slice_copy.
  destruct (sl_ptr s) as [l|] eqn:Ep.
  - rewrite Hc. change (default [] (Some xs)) with xs.
    pose proof (copy_list_copies into h xs vs Hinto Hvs) as Hl.
    destruct (copy_list into h xs) as [h1 ys]. destruct Hl as (Hs1 & Hys & Hf & Hlen).
    pose proof (alloc_fresh h1 (to_array ys)) as Hfr. pose proof (alloc_subseteq h1 (to_array ys)) as Hs2.
    pose proof (alloc_lookup h1 (to_array ys)) as Hlk. destruct (alloc h1 (to_array ys)) as [h2 l'].
    cbn [fst snd] in *. pose proof (contents_whole _ _ _ Hlk) as Hc2.
    rewrite Hlen, (contents_length _ _ _ Hc) in Hc2.
    destruct (list_view_frame h1 h2 ys vs Hys) as [Hys2 E2].
    { intros x Hx. apply (list_view_dom _ _ _ Hys) in Hx. apply elem_of_dom in Hx as [c Hx].
      rewrite Hx. by eapply lookup_weaken. }
    split_and!; [by etrans|apply slice_view; by exists ys, vs|].
    rewrite (slice_foot _ _ _ Hc2), E2. cbn [sl_ptr]. pose proof (subseteq_dom_nat _ _ Hs1). set_solver.
  - cbn [fst snd]. pose proof (contents_nil _ _ _ Ep Hc) as ->.
    split_and!; [done|apply slice_view; exists [], vs; by rewrite Ep|].
    rewrite (slice_foot _ _ _ Hc), Ep. change (feet h []) with (∅ : gset loc). set_solver.
Qed.
End lists.

(** ** Structs *)

(** Two fields, copied one after the other. *)
#[global] Instance pair_Copy {A B} `{Copy A, Copy B} : Copy (A * B) := {
  view_of := view_of A * view_of B;
  view h p := v ← view h p.1; w ← view h p.2; Some (v, w);
  foot h p := foot h p.1 ∪ foot h p.2;
}.

Definition pair_copy {A B} (ia : mem → A → mem * A) (ib : mem → B → mem * B) (h : mem) (p : A * B) :
    mem * (A * B) :=
  let '(h, a) := ia h p.1 in
  let '(h, b) := ib h p.2 in
  (h, (a, b)).

Section pairs.
Context {A B : Type} `{Framed A, Framed B}.

Lemma pair_view (h : mem) (p : A * B) w :
  view h p = Some w ↔ view h p.1 = Some w.1 ∧ view h p.2 = Some w.2.
Proof.
  split.
  - intros (v & Hv & (u & Hu & E)%bind_Some)%bind_Some. by injection E as <-.
  - intros [Hv Hu]. cbn. rewrite Hv. cbn. rewrite Hu. cbn. by destruct w.
Qed.

#[global] Instance pair_Framed : Framed (A * B).
Proof.
  split.
  - intros h p w [Hv Hu]%pair_view. cbn [foot pair_Copy].
    pose proof (view_dom _ _ _ Hv). pose proof (view_dom _ _ _ Hu). set_solver.
  - intros h h' p w [Hv Hu]%pair_view. cbn [foot pair_Copy]. intros Hl.
    destruct (view_frame h h' _ _ Hv) as [Hv' E1]; [intros l ?; apply Hl; set_solver|].
    destruct (view_frame h h' _ _ Hu) as [Hu' E2]; [intros l ?; apply Hl; set_solver|].
    split; [by apply pair_view|by rewrite E1, E2].
Qed.

Lemma pair_copies (ia : mem → A → mem * A) (ib : mem → B → mem * B) :
  copies ia → copies ib → copies (A := A * B) (pair_copy ia ib).
Proof.
  intros Ha Hb h p w [Hv Hu]%pair_view. unfold pair_copy.
  pose proof (Ha h _ _ Hv) as Hca. destruct (ia h p.1) as [h1 a]. cbn [fst snd] in Hca.
  pose proof Hca as (Hs1 & _ & _). destruct (view_mono _ _ _ _ Hs1 Hu) as [Hu1 _].
  pose proof (Hb h1 _ _ Hu1) as Hcb. destruct (ib h1 p.2) as [h2 b]. cbn [fst snd] in Hcb |- *.
  pose proof Hcb as (Hs2 & _ & _).
  pose proof (copied_mono _ _ _ _ _ Hca Hs2) as (_ & Hva & Hfa).
  pose proof (copied_older _ _ _ _ _ Hs1 Hcb) as (_ & Hvb & Hfb).
  split_and!; [by etrans|by apply pair_view|]. cbn [foot pair_Copy fst snd]. set_solver.
Qed.
End pairs.

(** A struct [A] with some fields [B] that hold references: [get] gives them, [set]
    puts others in their place, [read] puts what they read as. *)
Section structs.
Context {A B VA : Type} `{Framed B}.
Context (get : A → B) (read : A → view_of B → VA).

Definition struct_Copy : Copy A := {|
  view_of := VA;
  view h a := read a <$> view h (get a);
  foot h a := foot h (get a) |}.

Lemma struct_view (h : mem) (a : A) w :
  @view A struct_Copy h a = Some w ↔ ∃ v, view h (get a) = Some v ∧ w = read a v.
Proof. cbn. rewrite fmap_Some. naive_solver. Qed.

Lemma struct_framed : @Framed A struct_Copy.
Proof.
  split.
  - intros h a w (v & Hv & _)%struct_view. exact (view_dom _ _ _ Hv).
  - intros h h' a w (v & Hv & ->)%struct_view Hl. destruct (view_frame h h' _ _ Hv Hl) as [Hv' E].
    split; [|exact E]. apply struct_view. by exists v.
Qed.

Lemma struct_copies (set : A → B → A) (fields : mem → B → mem * B) (into : mem → A → mem * A) :
  (∀ a b, get (set a b) = b) → (∀ a b v, read (set a b) v = read a v) →
  (∀ h a, into h a = let '(h, b) := fields h (get a) in (h, set a b)) →
  copies fields → @copies A struct_Copy into.
Proof.
  intros Hget Hread Hinto Hf h a w (v & Hv & ->)%struct_view. rewrite Hinto.
  pose proof (Hf h _ _ Hv) as (Hs & Hb & Hd). destruct (fields h (get a)) as [h1 b]. cbn [fst snd] in *.
  split_and!; [done|apply struct_view; exists v; by rewrite Hget, Hread|].
  cbn [foot struct_Copy]. by rewrite Hget.
Qed.
End structs.

(** ** Pointers *)

(** A variable of a struct type is an array of one. *)
Definition deref {A} `{Elem A} (h : mem) (l : loc) : option A :=
  match h !! l with
  | Some c => match of_array c with Some [x] => Some x | _ => None end
  | None => None
  end.

#[global] Instance ptr_Copy {A} `{Elem A, Copy A} : Copy (ptr A) := {
  view_of := option (view_of A);
  view h p :=
    match ptr_to p with
    | None => Some None
    | Some l => x ← deref h l; Some <$> view h x
    end;
  foot h p :=
    match ptr_to p with
    | None => ∅
    | Some l => {[l]} ∪ match deref h l with Some x => foot h x | None => ∅ end
    end;
}.

(** The body of every generated [DeepCopy]: nil for nil, and else a new variable
    into which the struct is copied. *)
Definition pointer_copy {A} `{Elem A} (into : mem → A → mem * A) (h : mem) (p : ptr A) : mem * ptr A :=
  match ptr_to p with
  | None => (h, nil_ptr)
  | Some l =>
      match deref h l with
      | Some x =>
          let '(h, y) := into h x in
          let '(h, l') := alloc h (to_array [y]) in
          (h, to_loc l')
      | None => (h, nil_ptr)
      end
  end.

Section pointers.
Context {A : Type} `{Framed A, !Elem A}.

Lemma deref_alloc (h : mem) l (x : A) : h !! l = Some (to_array [x]) → deref h l = Some x.
Proof. intros Hl. unfold deref. by rewrite Hl, of_to_array. Qed.

Lemma deref_dom (h : mem) l (x : A) : deref h l = Some x → l ∈ dom h.
Proof. unfold deref. intros E. apply elem_of_dom. destruct (h !! l); [by eexists|done]. Qed.

Lemma ptr_view (h : mem) (p : ptr A) w :
  view h p = Some w ↔
  (ptr_to p = None ∧ w = None) ∨
  ∃ l x v, ptr_to p = Some l ∧ deref h l = Some x ∧ view h x = Some v ∧ w = Some v.
Proof.
  cbn. destruct (ptr_to p) as [l|].
  - split.
    + intros (x & Hx & (v & Hv & ->)%fmap_Some)%bind_Some. right. by exists l, x, v.
    + intros [[? _]|(l' & x & v & [= <-] & Hx & Hv & ->)]; [done|]. rewrite Hx. cbn. by rewrite Hv.
  - split; [intros [= <-]; by left|]. intros [[_ ->]|(l' & ? & ? & ? & _)]; done.
Qed.

Lemma ptr_foot (h : mem) (p : ptr A) l (x : A) :
  ptr_to p = Some l → deref h l = Some x → foot h p = {[l]} ∪ foot h x.
Proof. intros Hp Hx. cbn. by rewrite Hp, Hx. Qed.

#[global] Instance ptr_Framed : Framed (ptr A).
Proof.
  split.
  - intros h p w [[Hp _]|(l & x & v & Hp & Hx & Hv & _)]%ptr_view.
    + cbn. rewrite Hp. apply empty_subseteq.
    + rewrite (ptr_foot _ _ _ _ Hp Hx). pose proof (view_dom _ _ _ Hv). pose proof (deref_dom _ _ _ Hx). set_solver.
  - intros h h' p w [[Hp ->]|(l & x & v & Hp & Hx & Hv & ->)]%ptr_view.
    { cbn. by rewrite Hp. }
    rewrite (ptr_foot _ _ _ _ Hp Hx). intros Hl.
    assert (deref h' l = Some x) as Hx' by (unfold deref; by rewrite (Hl l) by set_solver).
    destruct (view_frame h h' _ _ Hv) as [Hv' E]; [intros k ?; apply Hl; set_solver|].
    rewrite (ptr_foot _ _ _ _ Hp Hx'), E. split; [|done]. apply ptr_view. right. by exists l, x, v.
Qed.

Lemma pointer_copies (into : mem → A → mem * A) : copies into → copies (A := ptr A) (pointer_copy into).
Proof.
  intros Hinto h p w [[Hp ->]|(l & x & v & Hp & Hx & Hv & ->)]%ptr_view; unfold pointer_copy; rewrite Hp.
  - split_and!; [done|by apply ptr_view; left|apply disjoint_empty_l].
  - rewrite Hx. pose proof (Hinto h x v Hv) as Hc.
    destruct (into h x) as [h1 y]. cbn [fst snd] in Hc.
    pose proof (alloc_fresh h1 (to_array [y])) as Hfr. pose proof (alloc_subseteq h1 (to_array [y])) as Hs.
    pose proof (alloc_lookup h1 (to_array [y])) as Hlk. destruct (alloc h1 (to_array [y])) as [h2 l'].
    cbn [fst snd] in *. apply deref_alloc in Hlk. pose proof Hc as (Hs1 & _ & _).
    pose proof (copied_mono _ _ _ _ _ Hc Hs) as (Hs2 & Hy & Hf).
    split_and!; [done|apply ptr_view; right; by exists l', y, v|].
    rewrite (ptr_foot _ (to_loc l') _ _ eq_refl Hlk). pose proof (subseteq_dom_nat _ _ Hs1). set_solver.
Qed.

Lemma pointer_copy_nil (into : mem → A → mem * A) (h : mem) (p : ptr A) w :
  view h p = Some w → (ptr_to (pointer_copy into h p).2 = None ↔ ptr_to p = None).
Proof.
  intros [[Hp _]|(l & x & v & Hp & Hx & _ & _)]%ptr_view; unfold pointer_copy; rewrite Hp; [done|].
  rewrite Hx. destruct (into h x) as [h1 y]. by destruct (alloc h1 _).
Qed.
End pointers.
End memory.
#[global] Arguments Copy : clear implicits.
#[global] Arguments Elem : clear implicits.
