(* ===== verification/DeepCopy.v ===== *)
(** * [api/v1alpha1/zz_generated.deepcopy.go]: the generated deep copies

    Objects of the cluster are shared: the client library keeps them in a cache
    and hands out copies that the program may change.  The copies are made by this
    code.  Every [DeepCopyInto] and [DeepCopy] of the file is a definition here,
    over the memory of [Memory.v], statement by statement; so is every
    [DeepCopyObject].

    The third-party structs inside the resources ([metav1.ObjectMeta],
    [metav1.ListMeta], [metav1.OwnerReference]) are parameters with a
    [DeepCopyInto] of their own, which is assumed to keep the contract this file
    proves for the types of the program; [metav1.TypeMeta] holds two strings, and
    the documentation of [metav1.Time] says that it is copied by assignment. *)

From S2P Require Import Prelude GoStrings GoNet Errors IPv4 Types ApiTypes.
From S2P Require Import Memory.
Open Scope string_scope.
Open Scope list_scope.
Open Scope Z_scope.

(** ** The resources in memory

    The types of the fields that hold references are arguments: with [slice] and
    [ptr] for them the records are the structs in memory, with lists and maps they
    are what the structs read as. *)

Record mDHCPHostSpec (S O : Type) := {
  mhs_Subnet : string;
  mhs_MAC : string;
  mhs_IP : string;
  mhs_Gateway : string;
  mhs_HostName : string;
  mhs_DNS : S;
  mhs_Options : O;
  mhs_ServerHostName : string;
  mhs_BootFileName : string;
  mhs_LeaseTime : Z;
}.

(** [type DHCPHostStatus struct {}] *)
Record mDHCPHostStatus := {}.

Record mDHCPHost (T M Sp : Type) := {
  mh_TypeMeta : T;
  mh_ObjectMeta : M;
  mh_Spec : Sp;
  mh_Status : mDHCPHostStatus;
}.

Record mDHCPServerStatus := { mss_ErrorMessage : string; mss_LastUpdate : Time }.

Record mDHCPServer (T M : Type) := {
  ms_TypeMeta : T;
  ms_ObjectMeta : M;
  ms_Spec : DHCPServerSpec;
  ms_Status : mDHCPServerStatus;
}.

Record mDHCPSubnetSpec (S O R : Type) := {
  msn_Subnet : string;
  msn_RangeFrom : string;
  msn_RangeTo : string;
  msn_Gateway : string;
  msn_DNS : S;
  msn_Options : O;
  msn_ServerHostName : string;
  msn_BootFileName : string;
  msn_LeaseTime : Z;
  msn_Server : R;
}.

Record mDHCPSubnetStatus (L : Type) := { mst_ErrorMessage : string; mst_Leases : L }.

Record mDHCPSubnet (T M Sp St : Type) := {
  msu_TypeMeta : T;
  msu_ObjectMeta : M;
  msu_Spec : Sp;
  msu_Status : St;
}.

(** [DHCPHostList], [DHCPServerList] and [DHCPSubnetList] differ in the type of
    their items. *)
Record mList (T M I : Type) := { ml_TypeMeta : T; ml_ListMeta : M; ml_Items : I }.

(** The same struct with other references in it. *)
Definition with_host_spec {S O S' O'} (s : mDHCPHostSpec S O) (p : S' * O') : mDHCPHostSpec S' O' := {|
  mhs_Subnet := mhs_Subnet _ _ s; mhs_MAC := mhs_MAC _ _ s; mhs_IP := mhs_IP _ _ s;
  mhs_Gateway := mhs_Gateway _ _ s; mhs_HostName := mhs_HostName _ _ s;
  mhs_DNS := p.1; mhs_Options := p.2;
  mhs_ServerHostName := mhs_ServerHostName _ _ s; mhs_BootFileName := mhs_BootFileName _ _ s;
  mhs_LeaseTime := mhs_LeaseTime _ _ s |}.

Definition with_host {T M Sp M' Sp'} (s : mDHCPHost T M Sp) (p : M' * Sp') : mDHCPHost T M' Sp' := {|
  mh_TypeMeta := mh_TypeMeta _ _ _ s; mh_ObjectMeta := p.1; mh_Spec := p.2;
  mh_Status := mh_Status _ _ _ s |}.

Definition with_server {T M M'} (s : mDHCPServer T M) (p : M' * mDHCPServerStatus) : mDHCPServer T M' := {|
  ms_TypeMeta := ms_TypeMeta _ _ s; ms_ObjectMeta := p.1; ms_Spec := ms_Spec _ _ s; ms_Status := p.2 |}.

Definition with_subnet_spec {S O R S' O' R'} (s : mDHCPSubnetSpec S O R) (p : S' * O' * R') :
    mDHCPSubnetSpec S' O' R' := {|
  msn_Subnet := msn_Subnet _ _ _ s; msn_RangeFrom := msn_RangeFrom _ _ _ s;
  msn_RangeTo := msn_RangeTo _ _ _ s; msn_Gateway := msn_Gateway _ _ _ s;
  msn_DNS := p.1.1; msn_Options := p.1.2;
  msn_ServerHostName := msn_ServerHostName _ _ _ s; msn_BootFileName := msn_BootFileName _ _ _ s;
  msn_LeaseTime := msn_LeaseTime _ _ _ s; msn_Server := p.2 |}.

Definition with_subnet_status {L L'} (s : mDHCPSubnetStatus L) (l : L') : mDHCPSubnetStatus L' := {|
  mst_ErrorMessage := mst_ErrorMessage _ s; mst_Leases := l |}.

Definition with_subnet {T M Sp St M' Sp' St'} (s : mDHCPSubnet T M Sp St) (p : M' * Sp' * St') :
    mDHCPSubnet T M' Sp' St' := {|
  msu_TypeMeta := msu_TypeMeta _ _ _ _ s; msu_ObjectMeta := p.1.1; msu_Spec := p.1.2; msu_Status := p.2 |}.

Definition with_list {T M I M' I'} (s : mList T M I) (p : M' * I') : mList T M' I' := {|
  ml_TypeMeta := ml_TypeMeta _ _ _ s; ml_ListMeta := p.1; ml_Items := p.2 |}.

Section deepcopy.
Context {TypeMeta ObjectMeta ListMeta OwnerReference : Type}.

(** The types with references to the memory. *)
Abbreviation HostSpec := (mDHCPHostSpec (slice string) (slice V1Option)).
Abbreviation Host := (mDHCPHost TypeMeta ObjectMeta HostSpec).
Abbreviation HostList := (mList TypeMeta ListMeta (slice Host)).
Abbreviation Server := (mDHCPServer TypeMeta ObjectMeta).
Abbreviation ServerList := (mList TypeMeta ListMeta (slice Server)).
Abbreviation Leases := (gmap string V1Lease).
Abbreviation SubnetSpec := (mDHCPSubnetSpec (slice string) (slice V1Option) OwnerReference).
Abbreviation SubnetStatus := (mDHCPSubnetStatus (ptr Leases)).
Abbreviation SubnetObj := (mDHCPSubnet TypeMeta ObjectMeta SubnetSpec SubnetStatus).
Abbreviation SubnetList := (mList TypeMeta ListMeta (slice SubnetObj)).

(** A cell of memory: an array of one of the program's types.  A variable, or a
    map, is an array of one.  The third-party structs refer to arrays of strings
    and of booleans. *)
Inductive cell :=
  | CStrings (_ : list string)
  | CBools (_ : list bool)
  | COptions (_ : list V1Option)
  | CLease (_ : list V1Lease)
  | CLeases (_ : list Leases)
  | CHostSpec (_ : list HostSpec)
  | CHostStatus (_ : list mDHCPHostStatus)
  | CHost (_ : list Host)
  | CHostList (_ : list HostList)
  | CServerSpec (_ : list DHCPServerSpec)
  | CServerStatus (_ : list mDHCPServerStatus)
  | CServer (_ : list Server)
  | CServerList (_ : list ServerList)
  | CSubnetSpec (_ : list SubnetSpec)
  | CSubnetStatus (_ : list SubnetStatus)
  | CSubnet (_ : list SubnetObj)
  | CSubnetList (_ : list SubnetList).

Abbreviation mem := (gmap loc cell).
#[global] Instance string_Elem : Elem cell string := {|
  to_array := CStrings; of_array c := match c with CStrings xs => Some xs | _ => None end; of_to_array _ := eq_refl |}.
#[global] Instance bool_Elem : Elem cell bool := {|
  to_array := CBools; of_array c := match c with CBools xs => Some xs | _ => None end; of_to_array _ := eq_refl |}.
#[global] Instance Option_Elem : Elem cell V1Option := {|
  to_array := COptions; of_array c := match c with COptions xs => Some xs | _ => None end; of_to_array _ := eq_refl |}.
#[global] Instance Lease_Elem : Elem cell V1Lease := {|
  to_array := CLease; of_array c := match c with CLease xs => Some xs | _ => None end; of_to_array _ := eq_refl |}.
#[global] Instance Leases_Elem : Elem cell Leases := {|
  to_array := CLeases; of_array c := match c with CLeases xs => Some xs | _ => None end; of_to_array _ := eq_refl |}.
#[global] Instance HostSpec_Elem : Elem cell HostSpec := {|
  to_array := CHostSpec; of_array c := match c with CHostSpec xs => Some xs | _ => None end; of_to_array _ := eq_refl |}.
#[global] Instance HostStatus_Elem : Elem cell mDHCPHostStatus := {|
  to_array := CHostStatus; of_array c := match c with CHostStatus xs => Some xs | _ => None end; of_to_array _ := eq_refl |}.
#[global] Instance Host_Elem : Elem cell Host := {|
  to_array := CHost; of_array c := match c with CHost xs => Some xs | _ => None end; of_to_array _ := eq_refl |}.
#[global] Instance HostList_Elem : Elem cell HostList := {|
  to_array := CHostList; of_array c := match c with CHostList xs => Some xs | _ => None end; of_to_array _ := eq_refl |}.
#[global] Instance ServerSpec_Elem : Elem cell DHCPServerSpec := {|
  to_array := CServerSpec; of_array c := match c with CServerSpec xs => Some xs | _ => None end; of_to_array _ := eq_refl |}.
#[global] Instance ServerStatus_Elem : Elem cell mDHCPServerStatus := {|
  to_array := CServerStatus; of_array c := match c with CServerStatus xs => Some xs | _ => None end; of_to_array _ := eq_refl |}.
#[global] Instance Server_Elem : Elem cell Server := {|
  to_array := CServer; of_array c := match c with CServer xs => Some xs | _ => None end; of_to_array _ := eq_refl |}.
#[global] Instance ServerList_Elem : Elem cell ServerList := {|
  to_array := CServerList; of_array c := match c with CServerList xs => Some xs | _ => None end; of_to_array _ := eq_refl |}.
#[global] Instance SubnetSpec_Elem : Elem cell SubnetSpec := {|
  to_array := CSubnetSpec; of_array c := match c with CSubnetSpec xs => Some xs | _ => None end; of_to_array _ := eq_refl |}.
#[global] Instance SubnetStatus_Elem : Elem cell SubnetStatus := {|
  to_array := CSubnetStatus; of_array c := match c with CSubnetStatus xs => Some xs | _ => None end; of_to_array _ := eq_refl |}.
#[global] Instance Subnet_Elem : Elem cell SubnetObj := {|
  to_array := CSubnet; of_array c := match c with CSubnet xs => Some xs | _ => None end; of_to_array _ := eq_refl |}.
#[global] Instance SubnetList_Elem : Elem cell SubnetList := {|
  to_array := CSubnetList; of_array c := match c with CSubnetList xs => Some xs | _ => None end; of_to_array _ := eq_refl |}.

(** ** The contract of a deep copy, as an interface *)

Class DeepCopier (A : Type) := {
  DeepCopier_Copy :: Copy cell A;
  DeepCopier_Framed :: Framed A;
  DeepCopyInto : mem → A → mem * A;
  DeepCopyInto_copies : copies DeepCopyInto;
}.

Context `{!DeepCopier ObjectMeta, !DeepCopier ListMeta, !DeepCopier OwnerReference}.

(** [metav1.Time] *)
Context (Time_DeepCopyInto : Time → Time).

(** Go's maps are visited in any order. *)
Context (order : Leases → list string).

(** [*out = *in], and [copy] of an element without references. *)
Definition assign {A} (h : mem) (x : A) : mem * A := (h, x).

(** ** Options, leases and the structs without references *)

Definition Option_DeepCopyInto (h : mem) (inn : V1Option) : mem * V1Option := (h, inn).

Definition Option_DeepCopy (h : mem) (inn : ptr V1Option) : mem * ptr V1Option :=
  pointer_copy Option_DeepCopyInto h inn.

Definition Lease_DeepCopyInto (h : mem) (inn : V1Lease) : mem * V1Lease :=
  (h, {| V1Lease_IP := V1Lease_IP inn; V1Lease_UpdatedAt := Time_DeepCopyInto (V1Lease_UpdatedAt inn) |}).

Definition Lease_DeepCopy (h : mem) (inn : ptr V1Lease) : mem * ptr V1Lease :=
  pointer_copy Lease_DeepCopyInto h inn.

Definition DHCPHostStatus_DeepCopyInto (h : mem) (inn : mDHCPHostStatus) : mem * mDHCPHostStatus := (h, inn).

Definition DHCPHostStatus_DeepCopy (h : mem) (inn : ptr mDHCPHostStatus) : mem * ptr mDHCPHostStatus :=
  pointer_copy DHCPHostStatus_DeepCopyInto h inn.

Definition DHCPServerSpec_DeepCopyInto (h : mem) (inn : DHCPServerSpec) : mem * DHCPServerSpec := (h, inn).

Definition DHCPServerSpec_DeepCopy (h : mem) (inn : ptr DHCPServerSpec) : mem * ptr DHCPServerSpec :=
  pointer_copy DHCPServerSpec_DeepCopyInto h inn.

Definition DHCPServerStatus_DeepCopyInto (h : mem) (inn : mDHCPServerStatus) : mem * mDHCPServerStatus :=
  (h, {| mss_ErrorMessage := mss_ErrorMessage inn;
         mss_LastUpdate := Time_DeepCopyInto (mss_LastUpdate inn) |}).

Definition DHCPServerStatus_DeepCopy (h : mem) (inn : ptr mDHCPServerStatus) : mem * ptr mDHCPServerStatus :=
  pointer_copy DHCPServerStatus_DeepCopyInto h inn.

(** ** Hosts *)

Definition DHCPHostSpec_DeepCopyInto (h : mem) (inn : HostSpec) : mem * HostSpec :=
  let '(h, dns) := slice_copy assign h (mhs_DNS _ _ inn) in
  let '(h, options) := slice_copy assign h (mhs_Options _ _ inn) in
  (h, with_host_spec inn (dns, options)).

Definition DHCPHostSpec_DeepCopy (h : mem) (inn : ptr HostSpec) : mem * ptr HostSpec :=
  pointer_copy DHCPHostSpec_DeepCopyInto h inn.

Definition DHCPHost_DeepCopyInto (h : mem) (inn : Host) : mem * Host :=
  let '(h, meta) := DeepCopyInto h (mh_ObjectMeta _ _ _ inn) in
  let '(h, spec) := DHCPHostSpec_DeepCopyInto h (mh_Spec _ _ _ inn) in
  (h, with_host inn (meta, spec)).

Definition DHCPHost_DeepCopy (h : mem) (inn : ptr Host) : mem * ptr Host :=
  pointer_copy DHCPHost_DeepCopyInto h inn.

Definition DHCPHostList_DeepCopyInto (h : mem) (inn : HostList) : mem * HostList :=
  let '(h, meta) := DeepCopyInto h (ml_ListMeta _ _ _ inn) in
  let '(h, items) := slice_copy DHCPHost_DeepCopyInto h (ml_Items _ _ _ inn) in
  (h, with_list inn (meta, items)).

Definition DHCPHostList_DeepCopy (h : mem) (inn : ptr HostList) : mem * ptr HostList :=
  pointer_copy DHCPHostList_DeepCopyInto h inn.

(** ** Servers *)

Definition DHCPServer_DeepCopyInto (h : mem) (inn : Server) : mem * Server :=
  let '(h, meta) := DeepCopyInto h (ms_ObjectMeta _ _ inn) in
  let '(h, status) := DHCPServerStatus_DeepCopyInto h (ms_Status _ _ inn) in
  (h, with_server inn (meta, status)).

Definition DHCPServer_DeepCopy (h : mem) (inn : ptr Server) : mem * ptr Server :=
  pointer_copy DHCPServer_DeepCopyInto h inn.

Definition DHCPServerList_DeepCopyInto (h : mem) (inn : ServerList) : mem * ServerList :=
  let '(h, meta) := DeepCopyInto h (ml_ListMeta _ _ _ inn) in
  let '(h, items) := slice_copy DHCPServer_DeepCopyInto h (ml_Items _ _ _ inn) in
  (h, with_list inn (meta, items)).

Definition DHCPServerList_DeepCopy (h : mem) (inn : ptr ServerList) : mem * ptr ServerList :=
  pointer_copy DHCPServerList_DeepCopyInto h inn.

(** ** Subnets *)

Definition DHCPSubnetSpec_DeepCopyInto (h : mem) (inn : SubnetSpec) : mem * SubnetSpec :=
  let '(h, dns) := slice_copy assign h (msn_DNS _ _ _ inn) in
  let '(h, options) := slice_copy assign h (msn_Options _ _ _ inn) in
  let '(h, server) := DeepCopyInto h (msn_Server _ _ _ inn) in
  (h, with_subnet_spec inn (dns, options, server)).

Definition DHCPSubnetSpec_DeepCopy (h : mem) (inn : ptr SubnetSpec) : mem * ptr SubnetSpec :=
  pointer_copy DHCPSubnetSpec_DeepCopyInto h inn.

(** [for key, val := range *in { ( *out)[key] = *val.DeepCopy() }]: the variable
    [val] is copied into a new one for every entry. *)
Fixpoint copy_leases (h : mem) (entries : Leases) (keys : list string) (out : Leases) : mem * Leases :=
  match keys with
  | [] => (h, out)
  | key :: keys =>
      match entries !! key with
      | Some v =>
          let '(h, val) := alloc h (to_array [v]) in
          let '(h, p) := Lease_DeepCopy h (to_loc val) in
          let copy := match ptr_to p with Some l => deref h l | None => None end in
          copy_leases h entries keys (match copy with Some lease => <[key := lease]> out | None => out end)
      | None => copy_leases h entries keys out
      end
  end.

(** The field [Leases] of the status: a nil map stays nil. *)
Definition leases_copy (h : mem) (inn : ptr Leases) : mem * ptr Leases :=
  match ptr_to inn with
  | None => (h, inn)
  | Some l =>
      let entries := default ∅ (deref h l) in
      let '(h, out) := copy_leases h entries (order entries) ∅ in
      let '(h, l') := alloc h (to_array [out]) in
      (h, to_loc l')
  end.

Definition DHCPSubnetStatus_DeepCopyInto (h : mem) (inn : SubnetStatus) : mem * SubnetStatus :=
  let '(h, leases) := leases_copy h (mst_Leases _ inn) in
  (h, with_subnet_status inn leases).

Definition DHCPSubnetStatus_DeepCopy (h : mem) (inn : ptr SubnetStatus) : mem * ptr SubnetStatus :=
  pointer_copy DHCPSubnetStatus_DeepCopyInto h inn.

Definition DHCPSubnet_DeepCopyInto (h : mem) (inn : SubnetObj) : mem * SubnetObj :=
  let '(h, meta) := DeepCopyInto h (msu_ObjectMeta _ _ _ _ inn) in
  let '(h, spec) := DHCPSubnetSpec_DeepCopyInto h (msu_Spec _ _ _ _ inn) in
  let '(h, status) := DHCPSubnetStatus_DeepCopyInto h (msu_Status _ _ _ _ inn) in
  (h, with_subnet inn (meta, spec, status)).

Definition DHCPSubnet_DeepCopy (h : mem) (inn : ptr SubnetObj) : mem * ptr SubnetObj :=
  pointer_copy DHCPSubnet_DeepCopyInto h inn.

Definition DHCPSubnetList_DeepCopyInto (h : mem) (inn : SubnetList) : mem * SubnetList :=
  let '(h, meta) := DeepCopyInto h (ml_ListMeta _ _ _ inn) in
  let '(h, items) := slice_copy DHCPSubnet_DeepCopyInto h (ml_Items _ _ _ inn) in
  (h, with_list inn (meta, items)).

Definition DHCPSubnetList_DeepCopy (h : mem) (inn : ptr SubnetList) : mem * ptr SubnetList :=
  pointer_copy DHCPSubnetList_DeepCopyInto h inn.

(** ** Objects

    A [runtime.Object] is nil or a pointer with its type; a nil pointer with a type
    is not nil, which is why [DeepCopyObject] tests the pointer. *)
Inductive Object :=
  | ObjHost (_ : ptr Host)
  | ObjHostList (_ : ptr HostList)
  | ObjServer (_ : ptr Server)
  | ObjServerList (_ : ptr ServerList)
  | ObjSubnet (_ : ptr SubnetObj)
  | ObjSubnetList (_ : ptr SubnetList).

Definition if_not_nil {A} (O : ptr A → Object) (c : mem * ptr A) : mem * option Object :=
  match ptr_to c.2 with Some _ => (c.1, Some (O c.2)) | None => (c.1, None) end.

Definition DHCPHost_DeepCopyObject (h : mem) (inn : ptr Host) : mem * option Object :=
  if_not_nil ObjHost (DHCPHost_DeepCopy h inn).

Definition DHCPHostList_DeepCopyObject (h : mem) (inn : ptr HostList) : mem * option Object :=
  if_not_nil ObjHostList (DHCPHostList_DeepCopy h inn).

Definition DHCPServer_DeepCopyObject (h : mem) (inn : ptr Server) : mem * option Object :=
  if_not_nil ObjServer (DHCPServer_DeepCopy h inn).

Definition DHCPServerList_DeepCopyObject (h : mem) (inn : ptr ServerList) : mem * option Object :=
  if_not_nil ObjServerList (DHCPServerList_DeepCopy h inn).

Definition DHCPSubnet_DeepCopyObject (h : mem) (inn : ptr SubnetObj) : mem * option Object :=
  if_not_nil ObjSubnet (DHCPSubnet_DeepCopy h inn).

Definition DHCPSubnetList_DeepCopyObject (h : mem) (inn : ptr SubnetList) : mem * option Object :=
  if_not_nil ObjSubnetList (DHCPSubnetList_DeepCopy h inn).

(** A call through the interface. *)
Definition DeepCopyObject (h : mem) (o : Object) : mem * option Object :=
  match o with
  | ObjHost p => DHCPHost_DeepCopyObject h p
  | ObjHostList p => DHCPHostList_DeepCopyObject h p
  | ObjServer p => DHCPServer_DeepCopyObject h p
  | ObjServerList p => DHCPServerList_DeepCopyObject h p
  | ObjSubnet p => DHCPSubnet_DeepCopyObject h p
  | ObjSubnetList p => DHCPSubnetList_DeepCopyObject h p
  end.

(** ** What the structs read as *)

#[global] Instance string_Copy : Copy cell string := plain_copy string.
#[global] Instance V1Option_Copy : Copy cell V1Option := plain_copy V1Option.
#[global] Instance V1Lease_Copy : Copy cell V1Lease := plain_copy V1Lease.
#[global] Instance Leases_Copy : Copy cell Leases := plain_copy Leases.
#[global] Instance HostStatus_Copy : Copy cell mDHCPHostStatus := plain_copy mDHCPHostStatus.
#[global] Instance ServerSpec_Copy : Copy cell DHCPServerSpec := plain_copy DHCPServerSpec.
#[global] Instance ServerStatus_Copy : Copy cell mDHCPServerStatus := plain_copy mDHCPServerStatus.

#[global] Instance string_Framed : Framed string := plain_framed _.
#[global] Instance V1Option_Framed : Framed V1Option := plain_framed _.
#[global] Instance V1Lease_Framed : Framed V1Lease := plain_framed _.
#[global] Instance Leases_Framed : Framed Leases := plain_framed _.
#[global] Instance HostStatus_Framed : Framed mDHCPHostStatus := plain_framed _.
#[global] Instance ServerSpec_Framed : Framed DHCPServerSpec := plain_framed _.
#[global] Instance ServerStatus_Framed : Framed mDHCPServerStatus := plain_framed _.

Definition host_spec_fields (s : HostSpec) := (mhs_DNS _ _ s, mhs_Options _ _ s).
Definition host_fields (s : Host) := (mh_ObjectMeta _ _ _ s, mh_Spec _ _ _ s).
Definition server_fields (s : Server) := (ms_ObjectMeta _ _ s, ms_Status _ _ s).
Definition subnet_spec_fields (s : SubnetSpec) := (msn_DNS _ _ _ s, msn_Options _ _ _ s, msn_Server _ _ _ s).
Definition subnet_fields (s : SubnetObj) :=
  (msu_ObjectMeta _ _ _ _ s, msu_Spec _ _ _ _ s, msu_Status _ _ _ _ s).
Definition list_fields {I} (s : mList TypeMeta ListMeta (slice I)) := (ml_ListMeta _ _ _ s, ml_Items _ _ _ s).

#[global] Instance HostSpec_Copy : Copy cell HostSpec := struct_Copy host_spec_fields with_host_spec.
#[global] Instance Host_Copy : Copy cell Host := struct_Copy host_fields with_host.
#[global] Instance Server_Copy : Copy cell Server := struct_Copy server_fields with_server.
#[global] Instance SubnetSpec_Copy : Copy cell SubnetSpec := struct_Copy subnet_spec_fields with_subnet_spec.
#[global] Instance SubnetStatus_Copy : Copy cell SubnetStatus :=
  struct_Copy (mst_Leases _) with_subnet_status.
#[global] Instance Subnet_Copy : Copy cell SubnetObj := struct_Copy subnet_fields with_subnet.
#[global] Instance mList_Copy {I} `{!Copy cell I, !Elem cell I} : Copy cell (mList TypeMeta ListMeta (slice I)) :=
  struct_Copy list_fields with_list.

#[global] Instance HostSpec_Framed : Framed HostSpec := struct_framed _ _.
#[global] Instance Host_Framed : Framed Host := struct_framed _ _.
#[global] Instance Server_Framed : Framed Server := struct_framed _ _.
#[global] Instance SubnetSpec_Framed : Framed SubnetSpec := struct_framed _ _.
#[global] Instance SubnetStatus_Framed : Framed SubnetStatus := struct_framed _ _.
#[global] Instance Subnet_Framed : Framed SubnetObj := struct_framed _ _.
#[global] Instance mList_Framed {I} `{!Copy cell I, !Framed I, !Elem cell I} :
  Framed (mList TypeMeta ListMeta (slice I)) := struct_framed _ _.

(** ** The copies keep the contract *)

#[local] Create HintDb deepcopy.
Hypothesis Time_copy : ∀ t, Time_DeepCopyInto t = t.
Hypothesis order_range : ∀ m, range_order (order m) m.

(** The side conditions of [struct_copies], and its use for a [DeepCopyInto]. *)
Ltac destruct_lets :=
  repeat match goal with
  | |- context [let '(_, _) := ?e in _] =>
      lazymatch e with
      | context [let '(_, _) := _ in _] => fail
      | _ => destruct e; cbn beta iota
      end
  end.
Ltac struct_law := intros; repeat match goal with p : _ * _ |- _ => destruct p end; unfold pair_copy; cbn; destruct_lets; reflexivity.
Ltac struct_tac into set fields := unfold into; apply (struct_copies _ _ set fields); [struct_law..|auto 10 with deepcopy].

Hint Extern 1 (copies (pair_copy _ _)) => apply pair_copies : deepcopy.
Hint Extern 1 (copies (slice_copy _)) => apply slice_copies : deepcopy.
Hint Extern 1 (copies DeepCopyInto) => apply DeepCopyInto_copies : deepcopy.

Lemma assign_string_copies : copies (A := string) assign.
Proof. by apply plain_copies. Qed.
Lemma assign_option_copies : copies (A := V1Option) assign.
Proof. by apply plain_copies. Qed.
Lemma Option_copies : copies Option_DeepCopyInto.
Proof. by apply plain_copies. Qed.
Lemma HostStatus_copies : copies DHCPHostStatus_DeepCopyInto.
Proof. by apply plain_copies. Qed.
Lemma ServerSpec_copies : copies DHCPServerSpec_DeepCopyInto.
Proof. by apply plain_copies. Qed.
Lemma Lease_copies : copies Lease_DeepCopyInto.
Proof. apply plain_copies. intros h []. unfold Lease_DeepCopyInto. cbn. by rewrite Time_copy. Qed.
Lemma ServerStatus_copies : copies DHCPServerStatus_DeepCopyInto.
Proof. apply plain_copies. intros h []. unfold DHCPServerStatus_DeepCopyInto. cbn. by rewrite Time_copy. Qed.
Hint Resolve assign_string_copies assign_option_copies Option_copies HostStatus_copies : deepcopy.
Hint Resolve ServerSpec_copies Lease_copies ServerStatus_copies : deepcopy.

Lemma HostSpec_copies : copies DHCPHostSpec_DeepCopyInto.
Proof.
  struct_tac DHCPHostSpec_DeepCopyInto (λ s : HostSpec, with_host_spec (S' := slice string) (O' := slice V1Option) s)
    (pair_copy (slice_copy (A := string) assign) (slice_copy (A := V1Option) assign)).
Qed.
Hint Resolve HostSpec_copies : deepcopy.

Lemma Host_copies : copies DHCPHost_DeepCopyInto.
Proof.
  struct_tac DHCPHost_DeepCopyInto (λ s : Host, with_host (M' := ObjectMeta) (Sp' := HostSpec) s)
    (pair_copy (DeepCopyInto (A := ObjectMeta)) DHCPHostSpec_DeepCopyInto).
Qed.

Lemma Server_copies : copies DHCPServer_DeepCopyInto.
Proof.
  struct_tac DHCPServer_DeepCopyInto (λ s : Server, with_server (M' := ObjectMeta) s)
    (pair_copy (DeepCopyInto (A := ObjectMeta)) DHCPServerStatus_DeepCopyInto).
Qed.

Lemma SubnetSpec_copies : copies DHCPSubnetSpec_DeepCopyInto.
Proof.
  struct_tac DHCPSubnetSpec_DeepCopyInto
    (λ s : SubnetSpec, with_subnet_spec (S' := slice string) (O' := slice V1Option) (R' := OwnerReference) s)
    (pair_copy (pair_copy (slice_copy (A := string) assign) (slice_copy (A := V1Option) assign))
       (DeepCopyInto (A := OwnerReference))).
Qed.
Hint Resolve Host_copies Server_copies SubnetSpec_copies : deepcopy.

(** One turn of the loop over the leases leaves the memory as it was, but for new
    cells, and gives the lease itself. *)
Lemma Lease_DeepCopy_value h (v : V1Lease) :
  let '(h1, val) := alloc h (to_array [v]) in
  let '(h2, p) := Lease_DeepCopy h1 (to_loc val) in
  h ⊆ h2 ∧ match ptr_to p with Some l => deref h2 l | None => None end = Some v.
Proof.
  pose proof (alloc_lookup h (to_array [v])) as Hl. pose proof (alloc_subseteq h (to_array [v])) as Hs.
  destruct (alloc h (to_array [v])) as [h1 val]. cbn [fst snd] in *. apply deref_alloc in Hl.
  pose proof (pointer_copies _ Lease_copies h1 (to_loc val) (Some v)) as Hc.
  change (pointer_copy Lease_DeepCopyInto) with Lease_DeepCopy in Hc.
  destruct (Lease_DeepCopy h1 (to_loc val)) as [h2 p]. destruct Hc as (Hs2 & Hv & _).
  { apply ptr_view. right. by exists val, v, v. }
  cbn [fst snd] in *. split; [by etrans|].
  apply ptr_view in Hv as [[_ ?]|(l & x & w & Hp & Hx & Hw & E)]; [done|]. rewrite Hp, Hx.
  cbn in Hw. congruence.
Qed.

Lemma copy_leases_spec h (m : Leases) keys out :
  let '(h', out') := copy_leases h m keys out in
  h ⊆ h' ∧ ∀ k, out' !! k = if decide (k ∈ keys ∧ is_Some (m !! k)) then m !! k else out !! k.
Proof.
  revert h out. induction keys as [|key keys IH]; intros h out; cbn [copy_leases].
  - split; [done|]. intros k. rewrite decide_False; [done|]. intros [[]%not_elem_of_nil _].
  - destruct (m !! key) as [v|] eqn:Hk.
    + pose proof (Lease_DeepCopy_value h v) as Hv.
      destruct (alloc h (to_array [v])) as [h1 val]. destruct (Lease_DeepCopy h1 (to_loc val)) as [h2 p].
      destruct Hv as [Hs ->]. specialize (IH h2 (<[key := v]> out)).
      destruct (copy_leases h2 m keys (<[key := v]> out)) as [h3 out']. destruct IH as [Hs3 Hout].
      split; [by etrans|]. intros k. rewrite Hout. destruct (decide (k = key)) as [->|Hne].
      * rewrite lookup_insert_eq, Hk. rewrite (decide_True (P := key ∈ key :: keys ∧ _));
          [by case_decide|split; [apply list_elem_of_here|by eexists]].
      * rewrite lookup_insert_ne by done. apply decide_ext. rewrite elem_of_cons. naive_solver.
    + specialize (IH h out). destruct (copy_leases h m keys out) as [h3 out']. destruct IH as [Hs3 Hout].
      split; [done|]. intros k. rewrite Hout. apply decide_ext. rewrite elem_of_cons.
      split; [naive_solver|]. intros [[->|?] Hk']; [|done]. rewrite Hk in Hk'. by destruct Hk'.
Qed.

(** The loop visits every entry. *)
Lemma copy_leases_all h (m : Leases) : let '(h', out) := copy_leases h m (order m) ∅ in h ⊆ h' ∧ out = m.
Proof.
  pose proof (copy_leases_spec h m (order m) ∅) as Hc. destruct (copy_leases h m (order m) ∅) as [h' out].
  destruct Hc as [Hs Hout]. split; [done|]. apply map_eq. intros k. rewrite Hout, lookup_empty.
  pose proof (range_order_elem _ _ k (order_range m)) as Hk. case_decide as Hd; [done|].
  destruct (m !! k) as [v|] eqn:E; [|done]. exfalso. apply Hd. split; [apply Hk|]; by eexists.
Qed.

Lemma leases_copies : copies leases_copy.
Proof.
  intros h p w [[Hp ->]|(l & m & v & Hp & Hm & Hv & ->)]%ptr_view; unfold leases_copy; rewrite Hp.
  - split_and!; [done|by apply ptr_view; left|]. cbn. rewrite Hp. apply disjoint_empty_l.
  - rewrite Hm. change (default ∅ (Some m)) with m. pose proof (copy_leases_all h m) as Hc.
    destruct (copy_leases h m (order m) ∅) as [h1 out]. destruct Hc as [Hs1 ->].
    pose proof (alloc_fresh h1 (to_array [m])) as Hfr. pose proof (alloc_subseteq h1 (to_array [m])) as Hs.
    pose proof (alloc_lookup h1 (to_array [m])) as Hlk. destruct (alloc h1 (to_array [m])) as [h2 l'].
    cbn [fst snd] in *. apply deref_alloc in Hlk.
    split_and!; [by etrans|apply ptr_view; right; by exists l', m, v|].
    rewrite (ptr_foot _ (to_loc l') _ _ eq_refl Hlk). pose proof (subseteq_dom_nat _ _ Hs1).
    change (foot h2 m) with (∅ : gset loc). set_solver.
Qed.
Hint Resolve leases_copies : deepcopy.

Lemma SubnetStatus_copies : copies DHCPSubnetStatus_DeepCopyInto.
Proof. struct_tac DHCPSubnetStatus_DeepCopyInto (λ s : SubnetStatus, with_subnet_status (L' := ptr Leases) s) leases_copy. Qed.
Hint Resolve SubnetStatus_copies : deepcopy.

Lemma Subnet_copies : copies DHCPSubnet_DeepCopyInto.
Proof.
  struct_tac DHCPSubnet_DeepCopyInto
    (λ s : SubnetObj, with_subnet (M' := ObjectMeta) (Sp' := SubnetSpec) (St' := SubnetStatus) s)
    (pair_copy (pair_copy (DeepCopyInto (A := ObjectMeta)) DHCPSubnetSpec_DeepCopyInto)
       DHCPSubnetStatus_DeepCopyInto).
Qed.
Hint Resolve Subnet_copies : deepcopy.

Lemma HostList_copies : copies DHCPHostList_DeepCopyInto.
Proof.
  struct_tac DHCPHostList_DeepCopyInto (λ s : HostList, with_list (M' := ListMeta) (I' := slice Host) s)
    (pair_copy (DeepCopyInto (A := ListMeta)) (slice_copy DHCPHost_DeepCopyInto)).
Qed.

Lemma ServerList_copies : copies DHCPServerList_DeepCopyInto.
Proof.
  struct_tac DHCPServerList_DeepCopyInto (λ s : ServerList, with_list (M' := ListMeta) (I' := slice Server) s)
    (pair_copy (DeepCopyInto (A := ListMeta)) (slice_copy DHCPServer_DeepCopyInto)).
Qed.

Lemma SubnetList_copies : copies DHCPSubnetList_DeepCopyInto.
Proof.
  struct_tac DHCPSubnetList_DeepCopyInto (λ s : SubnetList, with_list (M' := ListMeta) (I' := slice SubnetObj) s)
    (pair_copy (DeepCopyInto (A := ListMeta)) (slice_copy DHCPSubnet_DeepCopyInto)).
Qed.
Hint Resolve HostList_copies ServerList_copies SubnetList_copies : deepcopy.
(** ** Copies are isolated *)

(** [q] in [h'] is a copy of [p] in [h]: nothing that was there has changed, the copy
    reads as the original, and writing to all the memory that one of them reaches
    does not change what the other one reads as. *)
Definition deep_copy_of {A} `{Copy cell A} (h : mem) (p : A) (h' : mem) (q : A) : Prop :=
  h ⊆ h' ∧ view h' q = view h p ∧
  (∀ h'', (∀ l, l ∉ foot h' q → h'' !! l = h' !! l) → view h'' p = view h p) ∧
  (∀ h'', (∀ l, l ∉ foot h' p → h'' !! l = h' !! l) → view h'' q = view h p).

(** [DeepCopy] returns a copy, and nil for nil only. *)
Definition deep_copies {A} `{Copy cell A, Elem cell A} (copy : mem → ptr A → mem * ptr A) : Prop :=
  ∀ h p, is_Some (view h p) →
  let '(h', q) := copy h p in (ptr_to q = None ↔ ptr_to p = None) ∧ deep_copy_of h p h' q.

(** The references of an object are good. *)
Definition good_object (h : mem) (o : Object) : Prop :=
  match o with
  | ObjHost p => is_Some (view h p)
  | ObjHostList p => is_Some (view h p)
  | ObjServer p => is_Some (view h p)
  | ObjServerList p => is_Some (view h p)
  | ObjSubnet p => is_Some (view h p)
  | ObjSubnetList p => is_Some (view h p)
  end.

Definition object_ptr (o : Object) : option loc :=
  match o with
  | ObjHost p => ptr_to p | ObjHostList p => ptr_to p
  | ObjServer p => ptr_to p | ObjServerList p => ptr_to p
  | ObjSubnet p => ptr_to p | ObjSubnetList p => ptr_to p
  end.

(** An object of the same type that is a copy. *)
Definition object_copy_of (h : mem) (o : Object) (h' : mem) (o' : Object) : Prop :=
  match o, o' with
  | ObjHost p, ObjHost q => deep_copy_of h p h' q
  | ObjHostList p, ObjHostList q => deep_copy_of h p h' q
  | ObjServer p, ObjServer q => deep_copy_of h p h' q
  | ObjServerList p, ObjServerList q => deep_copy_of h p h' q
  | ObjSubnet p, ObjSubnet q => deep_copy_of h p h' q
  | ObjSubnetList p, ObjSubnetList q => deep_copy_of h p h' q
  | _, _ => False
  end.

Lemma pointer_deep_copies {A} `{!Copy cell A, !Framed A, !Elem cell A} (into : mem → A → mem * A) :
  copies into → deep_copies (pointer_copy into).
Proof.
  intros Hinto h p [w Hw]. pose proof (pointer_copies into Hinto h p w Hw) as Hc.
  pose proof (pointer_copy_nil into h p w Hw) as Hn.
  destruct (pointer_copy into h p) as [h' q]. cbn [fst snd] in *. split; [done|].
  pose proof Hc as (Hs & Hv & _). unfold deep_copy_of. rewrite Hw.
  split_and!; [done|done|..]; intros h''; by apply (copied_isolated h h' h'' p q w Hw Hc).
Qed.

(** What [DeepCopyObject] does with its pointer. *)
Lemma object_case {A} `{!Copy cell A, !Elem cell A} (O : ptr A → Object) copy h p :
  deep_copies copy → is_Some (view h p) → object_ptr (O p) = ptr_to p →
  (∀ h' q, deep_copy_of h p h' q → object_copy_of h (O p) h' (O q)) →
  match if_not_nil O (copy h p) with
  | (h', None) => object_ptr (O p) = None
  | (h', Some o') => is_Some (object_ptr (O p)) ∧ object_copy_of h (O p) h' o'
  end.
Proof.
  intros Hc Hv -> Ho. specialize (Hc h p Hv). unfold if_not_nil. destruct (copy h p) as [h' q]. cbn [fst snd].
  destruct Hc as [Hn Hd]. destruct (ptr_to q) as [l'|] eqn:Eq; [|by apply Hn].
  split; [|by apply Ho]. destruct (ptr_to p) as [l|]; [by eexists|]. by destruct (proj2 Hn eq_refl).
Qed.

(** C14: deep copies are deep.  [DeepCopyObject] of an object whose references are good
    gives the nil interface for a nil pointer, and else an object of the same type
    that reads as the original, nil slices and maps included; no cell that was
    there is changed, and whatever is written later through one of the two leaves
    the other one as it is.  So do the [DeepCopy] methods of the structs that are
    not objects. *)
Theorem deep_copies_isolated :
  (∀ h o, good_object h o →
    match DeepCopyObject h o with
    | (h', None) => object_ptr o = None
    | (h', Some o') => is_Some (object_ptr o) ∧ object_copy_of h o h' o'
    end) ∧
  deep_copies DHCPHostSpec_DeepCopy ∧ deep_copies DHCPHostStatus_DeepCopy ∧
  deep_copies DHCPServerSpec_DeepCopy ∧ deep_copies DHCPServerStatus_DeepCopy ∧
  deep_copies DHCPSubnetSpec_DeepCopy ∧ deep_copies DHCPSubnetStatus_DeepCopy ∧
  deep_copies Lease_DeepCopy ∧ deep_copies Option_DeepCopy.
Proof.
  split; [|split_and!; apply pointer_deep_copies; auto with deepcopy].
  intros h [p|p|p|p|p|p] Hgood;
    [apply (object_case ObjHost) | apply (object_case ObjHostList) | apply (object_case ObjServer)
    |apply (object_case ObjServerList) | apply (object_case ObjSubnet) | apply (object_case ObjSubnetList)];
    try done; apply pointer_deep_copies; auto with deepcopy.
Qed.
End deepcopy.

(** ** An instance

    Metadata that is a slice of strings, a reference to an owner that is a slice of
    booleans: structs that reach into the memory, as the real ones do. *)

Abbreviation demo_cell :=
  (@cell string (slice string) (slice string) (slice bool)).
Abbreviation DemoCopier := (@DeepCopier string (slice string) (slice string) (slice bool)).

Definition demo_strings : DemoCopier (slice string) := {|
  DeepCopier_Copy := slice_Copy;
  DeepCopier_Framed := slice_Framed;
  DeepCopyInto := slice_copy assign;
  DeepCopyInto_copies := slice_copies _ assign_string_copies |}.

#[local] Instance demo_bool_Copy : Copy demo_cell bool := plain_copy bool.
#[local] Instance demo_bool_Framed : Framed bool := plain_framed bool.

Definition demo_owner : DemoCopier (slice bool) := {|
  DeepCopier_Copy := slice_Copy;
  DeepCopier_Framed := slice_Framed;
  DeepCopyInto := slice_copy assign;
  DeepCopyInto_copies := slice_copies _ (plain_copies bool _ (λ _ _, eq_refl)) |}.

#[local] Existing Instance demo_strings.
#[local] Existing Instance demo_owner.

(** A subnet with one DNS server, options that are nil, two leases and an owner. *)
Definition demo_leases : gmap string V1Lease := {[
  "02:00:00:00:00:01" := {| V1Lease_IP := "10.0.0.10"; V1Lease_UpdatedAt := 5 |};
  "02:00:00:00:00:02" := {| V1Lease_IP := "10.0.0.11"; V1Lease_UpdatedAt := 9 |} ]}.

Definition demo_memory : gmap loc demo_cell := {[
  0%nat := CStrings ["default"; "net"];
  1%nat := CStrings ["10.0.0.1"; "unused"];
  2%nat := CBools [true];
  3%nat := CLeases [demo_leases];
  4%nat := CSubnet [ {|
    msu_TypeMeta := "DHCPSubnet";
    msu_ObjectMeta := {| sl_ptr := Some 0%nat; sl_off := 0; sl_len := 2 |};
    msu_Spec := {|
      msn_Subnet := "10.0.0.0/24"; msn_RangeFrom := "10.0.0.10"; msn_RangeTo := "10.0.0.20"; msn_Gateway := "";
      msn_DNS := {| sl_ptr := Some 1%nat; sl_off := 0; sl_len := 1 |};
      msn_Options := {| sl_ptr := None; sl_off := 0; sl_len := 0 |};
      msn_ServerHostName := ""; msn_BootFileName := ""; msn_LeaseTime := 60;
      msn_Server := {| sl_ptr := Some 2%nat; sl_off := 0; sl_len := 1 |} |};
    msu_Status := {| mst_ErrorMessage := ""; mst_Leases := to_loc 3 |} |} ] ]}.

Definition demo_order (m : gmap string V1Lease) : list string := (map_to_list m).*1.

(** The copy of the subnet has its own array of DNS servers. *)
Example demo_copy_dns :
  let '(h, o) := DeepCopyObject id demo_order demo_memory (ObjSubnet (to_loc 4)) in
  match o with
  | Some (ObjSubnet p) =>
      match ptr_to p ≫= deref h with
      | Some s =>
          msn_DNS _ _ _ (msu_Spec _ _ _ _ s) = {| sl_ptr := Some 6%nat; sl_off := 0; sl_len := 1 |} ∧
          h !! 6%nat = Some (CStrings ["10.0.0.1"])
      | None => False
      end
  | _ => False
  end.
Proof. vm_compute. split; reflexivity. Qed.

(** The theorem at this memory: the subnet is copied, and a write to the copy's
    array of DNS servers does not reach the original. *)
Lemma deep_copies_isolated_witness :
  match DeepCopyObject id demo_order demo_memory (ObjSubnet (to_loc 4)) with
  | (h', None) => Some 4%nat = None
  | (h', Some o') => is_Some (Some 4%nat) ∧ object_copy_of demo_memory (ObjSubnet (to_loc 4)) h' o'
  end.
Proof.
  apply (deep_copies_isolated id demo_order (λ _, eq_refl) range_order_self).
  eexists. vm_compute. reflexivity.
Defined.
