(* ===== verification/Controllers.v ===== *)
(** * [controllers]: from the cluster to the server and back

    The cache of objects that arrived before what they belong to, the three
    reconcilers, and the callback that saves leases in the status of the
    subnets.  What the cluster's API answers is an argument. *)

From S2P Require Import Prelude GoStrings GoNet Errors IPv4 Types Dhcpv4 Subnet Server.
From S2P Require Import ApiTypes.
Open Scope string_scope.
Open Scope list_scope.
Open Scope Z_scope.

(** ** [storage.go] *)

(** [knownLeases] is a map that [NewObjectsCache] does not make. *)
Record ObjectsCache := {
  knownSubnets : gmap string Subnet;
  unknownHosts : gmap string (list DHCPHost);
  knownListens : gmap string DHCPServer;
  knownLeases : option (gmap string bool);
}.

Definition NewObjectsCache : ObjectsCache := {|
  knownSubnets := ∅; unknownHosts := ∅; knownListens := ∅; knownLeases := None |}.

Definition set_knownSubnets (m : gmap string Subnet) (c : ObjectsCache) : ObjectsCache := {|
  knownSubnets := m; unknownHosts := unknownHosts c; knownListens := knownListens c;
  knownLeases := knownLeases c |}.
Definition set_unknownHosts (m : gmap string (list DHCPHost)) (c : ObjectsCache) : ObjectsCache := {|
  knownSubnets := knownSubnets c; unknownHosts := m; knownListens := knownListens c;
  knownLeases := knownLeases c |}.
Definition set_knownListens (m : gmap string DHCPServer) (c : ObjectsCache) : ObjectsCache := {|
  knownSubnets := knownSubnets c; unknownHosts := unknownHosts c; knownListens := m;
  knownLeases := knownLeases c |}.

Definition cache_AddLease (c : ObjectsCache) (mac : string) : outcome ObjectsCache :=
  match knownLeases c with
  | None => Panic "assignment to entry in nil map"
  | Some m => Ret {| knownSubnets := knownSubnets c; unknownHosts := unknownHosts c;
                     knownListens := knownListens c; knownLeases := Some (<[mac := true]> m) |}
  end.

Definition cache_HasLease (c : ObjectsCache) (mac : string) : bool :=
  default false (default ∅ (knownLeases c) !! mac).

Definition AddHostIfNotKnown (c : ObjectsCache) (host : DHCPHost) : bool * ObjectsCache :=
  let subnetName := hs_Subnet (host_Spec host) in
  match knownSubnets c !! subnetName with
  | None =>
      match unknownHosts c !! subnetName with
      | None => (true, set_unknownHosts (<[subnetName := [host]]> (unknownHosts c)) c)
      | Some hosts => (true, set_unknownHosts (<[subnetName := hosts ++ [host]]> (unknownHosts c)) c)
      end
  | Some _ => (false, c)
  end.

Definition AddSubnetIfNotKnown (c : ObjectsCache) (subnet : Subnet) : bool * ObjectsCache :=
  match knownSubnets c !! Subnet_Subnet subnet with
  | Some _ => (false, c)
  | None => (true, set_knownSubnets (<[Subnet_Subnet subnet := subnet]> (knownSubnets c)) c)
  end.

Definition PopUnknownHosts (c : ObjectsCache) (subnet : string) : list DHCPHost * ObjectsCache :=
  (default [] (unknownHosts c !! subnet), set_unknownHosts (delete subnet (unknownHosts c)) c).

(** ** The logger of the framework

    [log.FromContext(ctx)] gives the reconcilers a logger whose [Info] takes a
    message and keys with their values.  The framework's logger panics in its
    development mode, which [main] asks for, if a key has no value; otherwise it
    writes.  One call of the reconcilers has a key without a value, that for a host
    that waited for its subnet; the others, which have pairs or nothing, are not
    modelled. *)

Class ReconcileLog : Type := { log_Info : string → list string → outcome () }.

(** What is known of the two modes. *)
Definition production_log (K : ReconcileLog) : Prop := ∀ msg kvs, log_Info msg kvs = Ret ().

Definition development_log (K : ReconcileLog) : Prop :=
  ∀ msg kvs, if Nat.even (length kvs) then log_Info msg kvs = Ret () else ∃ why, log_Info msg kvs = Panic why.

(** A logger of either mode. *)
Definition zap_log (development : bool) : ReconcileLog := {|
  log_Info _ kvs :=
    if development && negb (Nat.even (length kvs))
    then Panic "odd number of arguments passed as key-value pairs for logging" else Ret () |}.

Lemma zap_log_production : production_log (zap_log false).
Proof. by intros msg kvs. Qed.

Lemma zap_log_development : development_log (zap_log true).
Proof. intros msg kvs. cbn. destruct (Nat.even (length kvs)); [done|by eexists]. Qed.

(** ** The reconcilers *)

(** What [Client.Get] answers. *)
Inductive get_result (A : Type) : Type :=
  | Found (a : A)
  | NotFound
  | GetError (e : error).
Arguments Found {A} a.
Arguments NotFound {A}.
Arguments GetError {A} e.

(** [ctrl.Result] *)
Record Result := { Requeue : bool; RequeueAfter : Z }.

Definition no_requeue : Result := {| Requeue := false; RequeueAfter := 0 |}.
Definition requeue_after (seconds : Z) : Result := {| Requeue := true; RequeueAfter := seconds |}.

(** The state that the reconcilers share or own.  [hostsCache] belongs to the
    host reconciler, the two maps after it to the subnet reconciler. *)
Record controllers := {
  objects : ObjectsCache;
  dhcpServer : Server;
  hostsCache : gmap string Host;
  SubnetCache : gmap string string;
  SubnetToObjectKey : gmap string ObjectKey;
}.

Definition set_objects (c : ObjectsCache) (w : controllers) : controllers := {|
  objects := c; dhcpServer := dhcpServer w; hostsCache := hostsCache w;
  SubnetCache := SubnetCache w; SubnetToObjectKey := SubnetToObjectKey w |}.
Definition set_dhcpServer (s : Server) (w : controllers) : controllers := {|
  objects := objects w; dhcpServer := s; hostsCache := hostsCache w;
  SubnetCache := SubnetCache w; SubnetToObjectKey := SubnetToObjectKey w |}.
Definition set_SubnetCache (m : gmap string string) (w : controllers) : controllers := {|
  objects := objects w; dhcpServer := dhcpServer w; hostsCache := hostsCache w;
  SubnetCache := m; SubnetToObjectKey := SubnetToObjectKey w |}.
Definition set_SubnetToObjectKey (m : gmap string ObjectKey) (w : controllers) : controllers := {|
  objects := objects w; dhcpServer := dhcpServer w; hostsCache := hostsCache w;
  SubnetCache := SubnetCache w; SubnetToObjectKey := m |}.

Definition NewControllers (s : Server) : controllers := {|
  objects := NewObjectsCache; dhcpServer := s; hostsCache := ∅; SubnetCache := ∅;
  SubnetToObjectKey := ∅ |}.

(** [DHCPHostReconciler.Reconcile]. *)
Definition HostReconcile (order : list string) (w : controllers) (req : ObjectKey)
    (got : get_result DHCPHost) : Result * option error * controllers :=
  let key := key_Namespace req +:+ "/" +:+ key_Name req in
  match got with
  | NotFound =>
      match hostsCache w !! key with
      | None => (no_requeue, Some (EUnknownHostDeleted key), w)
      | Some sn =>
          let '(err, s) := Server_DeleteHost order (dhcpServer w) sn in
          (no_requeue, err, set_dhcpServer s w)
      end
  | GetError e => (requeue_after 30, Some e, w)
  | Found host =>
      let '(saved, c) := AddHostIfNotKnown (objects w) host in
      let w := set_objects c w in
      if saved then (no_requeue, None, w)
      else
        let '(_, s) := Server_AddHost order (dhcpServer w) (ToDHCPHost host) in
        (no_requeue, None, set_dhcpServer s w)
  end.

Section subnet.
Context `{K : ReconcileLog}.

(** The loop over the hosts that waited for the subnet; the errors are logged, and the
    successes, with the name of the host as a key without a value. *)
Fixpoint add_saved_hosts (orders : nat → list string) (i : nat) (s : Server) (hosts : list DHCPHost)
    : outcome Server :=
  match hosts with
  | [] => Ret s
  | host :: hosts =>
      match Server_AddHost (orders i) s (ToDHCPHost host) with
      | (Some _, s) => add_saved_hosts orders (S i) s hosts
      | (None, s) =>
          _ ← log_Info "Added previously saved host %s" [key_Name (host_key host)];
          add_saved_hosts orders (S i) s hosts
      end
  end.

(** [DHCPSubnetReconciler.Reconcile].  [addrOrder] and [order] are the map
    orders of [AddSubnet], [orders] those of the searches for each host. *)
Definition SubnetReconcile (addrOrder order : list string) (orders : nat → list string)
    (w : controllers) (req : ObjectKey) (got : get_result DHCPSubnet)
    : outcome (Result * option error * controllers) :=
  match got with
  | NotFound =>
      match SubnetCache w !! key_Name req with
      | None => Ret (no_requeue, Some (EUnknownSubnetDeleted (key_Name req)), w)
      | Some sn =>
          let w := set_SubnetToObjectKey (delete sn (SubnetToObjectKey w)) w in
          let '(err, s) := DeleteSubnet (dhcpServer w) sn in
          Ret (no_requeue, err, set_dhcpServer s w)
      end
  | GetError e => Ret (requeue_after 30, Some e, w)
  | Found subnet =>
      let w := set_SubnetToObjectKey
        (<[sns_Subnet (subnet_Spec subnet) := subnet_key subnet]> (SubnetToObjectKey w)) w in
      let s := ToSubnet subnet in
      let '(added, c) := AddSubnetIfNotKnown (objects w) s in
      let w := set_objects c w in
      if negb added then Ret (no_requeue, None, w)
      else
        let w := set_SubnetCache (<[key_Name req := Subnet_Subnet s]> (SubnetCache w)) w in
        let '(err, srv) := AddSubnet addrOrder order (dhcpServer w) s in
        let w := set_dhcpServer srv w in
        match err with
        | Some _ => Ret (no_requeue, err, w)
        | None =>
            let '(hosts, c) := PopUnknownHosts (objects w) (Subnet_Subnet s) in
            let w := set_objects c w in
            srv ← add_saved_hosts orders 0 (dhcpServer w) hosts;
            Ret (no_requeue, None, set_dhcpServer srv w)
        end
  end.
End subnet.

(** The loop of [Initialize] over the subnets of the cluster. *)
Fixpoint initialize_subnets (addrOrder : list string) (orders : nat → list string) (i : nat) (s : Server)
    (items : list DHCPSubnet) : option error * Server :=
  match items with
  | [] => (None, s)
  | sn :: items =>
      match AddSubnet addrOrder (orders i) s (ToSubnet sn) with
      | (Some e, s) => (Some e, s)
      | (None, s) => initialize_subnets addrOrder orders (S i) s items
      end
  end.

Definition Initialize (addrOrder : list string) (orders : nat → list string) (s : Server)
    (listed : result error (list DHCPSubnet)) : option error * Server :=
  match listed with
  | Err e => (Some e, s)
  | Ok items => initialize_subnets addrOrder orders 0 s items
  end.

(** [DHCPServerReconciler.Reconcile]. *)
Definition ServerReconcile (factory : string → string → result error socket_id) (addrOrder : list string)
    (orders : nat → list string) (listed : result error (list DHCPSubnet))
    (w : controllers) (req : ObjectKey) (got : get_result DHCPServer) : Result * option error * controllers :=
  let name := key_Name req in
  match got with
  | NotFound =>
      let '(err, s) := DeleteListen (dhcpServer w) name in
      (no_requeue, err,
       set_objects (set_knownListens (delete name (knownListens (objects w))) (objects w)) (set_dhcpServer s w))
  | GetError e => (requeue_after 10, Some e, w)
  | Found sv =>
      let '(err, s) :=
        match knownListens (objects w) !! name with
        | Some _ => DeleteListen (dhcpServer w) name
        | None => (None, dhcpServer w)
        end in
      let w := set_dhcpServer s w in
      match err with
      | Some e => (requeue_after 10, Some e, w)
      | None =>
          let '(err, s) := AddListen factory (dhcpServer w) (ToListen sv) in
          let w := set_dhcpServer s w in
          let w :=
            match err with
            | Some _ => w
            | None => set_objects (set_knownListens (<[name := sv]> (knownListens (objects w))) (objects w)) w
            end in
          if decide (knownListens (objects w) = ∅) then
            match Initialize addrOrder orders (dhcpServer w) listed with
            | (Some e, s) => ({| Requeue := true; RequeueAfter := 0 |}, Some e, set_dhcpServer s w)
            | (None, s) => (no_requeue, None, set_dhcpServer s w)
            end
          else (no_requeue, err, w)
      end
  end.

(** ** [CallbackSaveLeases] *)

(** The leases of the responses, by subnet, in order. *)
Definition group_leases (h : lease_store) (responses : list Response) : gmap string (list Lease) :=
  foldl (λ m r, let l := deref h (Response_Lease r) in
                <[Lease_Subnet l := default [] (m !! Lease_Subnet l) ++ [l]]> m) ∅ responses.

(** The status after the leases were written to it at time [now]. *)
Definition save_leases (now : Time) (subnet : DHCPSubnet) (ls : list Lease) : DHCPSubnet := {|
  subnet_key := subnet_key subnet;
  subnet_Spec := subnet_Spec subnet;
  subnet_Status := {|
    status_ErrorMessage := status_ErrorMessage (subnet_Status subnet);
    status_Leases := Some (foldl (λ m l,
      <[Lease_MAC l := {| V1Lease_IP := IP_String (Lease_IP l); V1Lease_UpdatedAt := now |}]> m)
      (default ∅ (status_Leases (subnet_Status subnet))) ls) |} |}.

Section callback.
(* the API: what the [i]-th [Get] and the [i]-th [Status().Update] answer *)
Variable get : nat → ObjectKey → result error DHCPSubnet.
Variable update : nat → DHCPSubnet → option error.
Variable now : Time.

(** The loop over the subnets: the objects whose status was updated, and the
    error. *)
Fixpoint save_loop (keys : gmap string ObjectKey) (i : nat) (entries : list (string * list Lease))
    : list DHCPSubnet * option error :=
  match entries with
  | [] => ([], None)
  | (prefix, ls) :: entries =>
      match keys !! prefix with
      | None => save_loop keys i entries
      | Some key =>
          match get i key with
          | Err e => ([], Some e)
          | Ok subnet =>
              match update i (save_leases now subnet ls) with
              | Some e => ([], Some e)
              | None =>
                  let '(updated, err) := save_loop keys (S i) entries in
                  (save_leases now subnet ls :: updated, err)
              end
          end
      end
  end.

Definition CallbackSaveLeases (order : list string) (w : controllers) (responses : list Response)
    : list DHCPSubnet * option error :=
  let subnetMap := group_leases (leases (dhcpServer w)) responses in
  save_loop (SubnetToObjectKey w) 0
    (omap (λ k, (λ ls, (k, ls)) <$> subnetMap !! k) order).
End callback.
