(* ===== verification/ControllersProps.v ===== *)
(** * Properties of the controllers

    When the order in which objects arrive does not matter; what a reconciler
    never does; and what the callback writes to the cluster. *)

From S2P Require Import Prelude GoStrings GoNet Errors IPv4 Types Dhcpv4 Subnet.
From S2P Require Import LeaseCache Pool SubnetProps SubnetNet Server ServerProps.
From S2P Require Import Responses ServerGuarantees ServerReach ApiTypes Controllers.
Open Scope string_scope.
Open Scope list_scope.
Open Scope Z_scope.

(** ** Objects for the examples *)

Definition cr_subnet : DHCPSubnet := {|
  subnet_key := {| key_Namespace := "default"; key_Name := "lan" |};
  subnet_Spec := {| sns_Subnet := "10.3.1.0/24"; sns_RangeFrom := "10.3.1.10"; sns_RangeTo := "10.3.1.13";
    sns_Gateway := "10.3.1.254"; sns_DNS := ["1.1.1.1"]; sns_Options := []; sns_ServerHostName := "";
    sns_BootFileName := ""; sns_LeaseTime := 3600 |};
  subnet_Status := {| status_ErrorMessage := ""; status_Leases := None |} |}.

Definition cr_host : DHCPHost := {|
  host_key := {| key_Namespace := "default"; key_Name := "printer" |};
  host_Spec := {| hs_Subnet := "10.3.1.0/24"; hs_MAC := "aa:aa:aa:aa:aa:aa"; hs_IP := "10.3.1.20";
    hs_Gateway := ""; hs_HostName := "printer"; hs_DNS := []; hs_Options := []; hs_ServerHostName := "";
    hs_BootFileName := ""; hs_LeaseTime := 0 |} |}.

Definition cr_server (address : string) : DHCPServer := {|
  server_key := {| key_Namespace := "default"; key_Name := "l" |};
  server_Spec := {| ss_ListenInterface := "br1"; ss_ListenAddress := address; ss_ReuseAddr := false |} |}.

Definition start : controllers := NewControllers empty_server.

Lemma start_accepts : ∃ s, AddSubnet ifaces [] (dhcpServer start) (ToSubnet cr_subnet) = (None, s).
Proof. eexists. vm_compute. reflexivity. Qed.

(** ** Hosts and subnets *)

Section saved.
Context `{K : ReconcileLog}.

(** One of the hosts is accepted when the loop comes to it, if none before it was. *)
Definition saved_host_enters (orders : nat → list string) (i : nat) (s : Server) (hosts : list DHCPHost) : Prop :=
  ∃ j host, hosts !! j = Some host ∧ is_Some (getSubnetForIp (orders (i + j)%nat) s (Host_IP (ToDHCPHost host))).

(** The loop, when the logger writes everything: the hosts are added one after the other. *)
Lemma add_saved_hosts_production orders i s hosts :
  production_log K → ∃ s', add_saved_hosts orders i s hosts = Ret s'.
Proof.
  intros HK. revert i s. induction hosts as [|host hosts IH]; intros i s; cbn [add_saved_hosts]; [by eexists|].
  destruct (Server_AddHost _ _ _) as [[e|] s']; [apply IH|]. rewrite HK. apply IH.
Qed.

(** In the development mode the first host that is accepted ends the program. *)
Lemma add_saved_hosts_development orders i s hosts :
  development_log K →
  (saved_host_enters orders i s hosts ∧ ∃ why, add_saved_hosts orders i s hosts = Panic why) ∨
  (¬ saved_host_enters orders i s hosts ∧ add_saved_hosts orders i s hosts = Ret s).
Proof.
  intros HK. revert i. induction hosts as [|host hosts IH]; intros i; cbn [add_saved_hosts].
  { right. split; [|done]. by intros (j & host & Hj & _). }
  unfold Server_AddHost. destruct (getSubnetForIp (orders i) s _) as [[k sn]|] eqn:E.
  - left. split; [exists 0%nat, host; split; [done|]; rewrite Nat.add_0_r; by eexists|].
    destruct (AddHost _ _ _) as [h sn']. destruct (HK "Added previously saved host %s" [key_Name (host_key host)]) as [why ->].
    by exists why.
  - destruct (IH (S i)) as [[(j & x & Hj & Hx) Hp]|[Hn Hr]]; [left|right]; (split; [|done]).
    + exists (S j), x. split; [done|]. by rewrite Nat.add_succ_r.
    + intros (j & x & Hj & Hx). destruct j as [|j].
      * injection Hj as <-. rewrite Nat.add_0_r, E in Hx. by destruct Hx.
      * apply Hn. exists j, x. split; [done|]. by rewrite Nat.add_succ_r in Hx.
Qed.

(** A subnet that is new to the cache and that the server accepts. *)
Lemma SubnetReconcile_new addrOrder order orders w req subnet s :
  let text := sns_Subnet (subnet_Spec subnet) in
  knownSubnets (objects w) !! text = None →
  AddSubnet addrOrder order (dhcpServer w) (ToSubnet subnet) = (None, s) →
  SubnetReconcile addrOrder order orders w req (Found subnet) =
    (srv ← add_saved_hosts orders 0 s (default [] (unknownHosts (objects w) !! text));
     Ret (no_requeue, None,
     {| objects := {| knownSubnets := <[text := ToSubnet subnet]> (knownSubnets (objects w));
                      unknownHosts := delete text (unknownHosts (objects w));
                      knownListens := knownListens (objects w);
                      knownLeases := knownLeases (objects w) |};
        dhcpServer := srv;
        hostsCache := hostsCache w;
        SubnetCache := <[key_Name req := text]> (SubnetCache w);
        SubnetToObjectKey := <[text := subnet_key subnet]> (SubnetToObjectKey w) |})).
Proof.
  intros text Hk Ha. unfold SubnetReconcile, AddSubnetIfNotKnown, PopUnknownHosts.
  cbn [objects set_SubnetToObjectKey ToSubnet Subnet_Subnet]. fold text. rewrite Hk. cbn [negb].
  cbn [dhcpServer set_objects set_SubnetCache set_SubnetToObjectKey]. by rewrite Ha.
Qed.

(** Everything else that a subnet's event can be is handled without a panic. *)
Lemma SubnetReconcile_returns addrOrder order orders w req got :
  (∀ subnet, got = Found subnet → knownSubnets (objects w) !! sns_Subnet (subnet_Spec subnet) = None →
     ∀ s, AddSubnet addrOrder order (dhcpServer w) (ToSubnet subnet) ≠ (None, s)) →
  ∃ res, SubnetReconcile addrOrder order orders w req got = Ret res.
Proof.
  intros Hn. destruct got as [subnet| |e]; [|cbn; destruct (SubnetCache w !! _);
    [destruct (DeleteSubnet _ _)|]; by eexists|by eexists].
  specialize (Hn subnet eq_refl). unfold SubnetReconcile, AddSubnetIfNotKnown.
  cbn [objects set_SubnetToObjectKey ToSubnet Subnet_Subnet].
  destruct (knownSubnets (objects w) !! _); cbn [negb]; [by eexists|].
  cbn [dhcpServer set_objects set_SubnetCache set_SubnetToObjectKey].
  destruct (AddSubnet _ _ _ _) as [[e|] s] eqn:E; [by eexists|]. by destruct (Hn eq_refl s).
Qed.

(** A host may arrive before its subnet or after it.  If the server accepts
    the subnet, no other host waits for it, and the logger does not panic, the
    state afterwards is the same either way, down to the leases and the maps of
    the reconcilers. *)
Theorem host_and_subnet_commute addrOrder order order1 orders w hreq host sreq subnet s :
  production_log K →
  let text := sns_Subnet (subnet_Spec subnet) in
  hs_Subnet (host_Spec host) = text →
  knownSubnets (objects w) !! text = None → unknownHosts (objects w) !! text = None →
  AddSubnet addrOrder order (dhcpServer w) (ToSubnet subnet) = (None, s) →
  ∃ w1 w2, SubnetReconcile addrOrder order orders w sreq (Found subnet) = Ret (no_requeue, None, w1) ∧
    SubnetReconcile addrOrder order orders (HostReconcile order1 w hreq (Found host)).2 sreq (Found subnet) =
      Ret (no_requeue, None, w2) ∧
    (HostReconcile (orders 0%nat) w1 hreq (Found host)).2 = w2.
Proof.
  intros HK text Hh Hk Hu Ha.
  assert (HostReconcile order1 w hreq (Found host) = (no_requeue, None,
    set_objects (set_unknownHosts (<[text := [host]]> (unknownHosts (objects w))) (objects w)) w)) as ->.
  { unfold HostReconcile, AddHostIfNotKnown. by rewrite Hh, Hk, Hu. }
  rewrite (SubnetReconcile_new addrOrder order orders w sreq subnet s Hk Ha).
  erewrite (SubnetReconcile_new addrOrder order orders _ sreq subnet s); [|done|done].
  cbn [snd]. fold text. cbn [objects set_objects unknownHosts set_unknownHosts dhcpServer].
  rewrite lookup_insert_eq, Hu, delete_insert_eq. cbn [default id add_saved_hosts].
  unfold HostReconcile, AddHostIfNotKnown.
  destruct (Server_AddHost (orders 0%nat) s (ToDHCPHost host)) as [[e|] s'] eqn:E; rewrite ?HK;
    do 2 eexists; (split; [reflexivity|]; split; [reflexivity|]);
    cbn [objects knownSubnets]; rewrite Hh, lookup_insert_eq; cbn [set_objects dhcpServer]; by rewrite E.
Qed.

(** The reconciler adds a subnet text once in the life of the program: if
    the object is deleted and created again, the server does not serve it, and
    the reconciler reports success. *)
Theorem recreated_subnet_not_served addrOrder order orders w req subnet s1 r1 e1 w1
    addrOrder' order' orders' subnet' :
  let text := sns_Subnet (subnet_Spec subnet) in
  knownSubnets (objects w) !! text = None →
  AddSubnet addrOrder order (dhcpServer w) (ToSubnet subnet) = (None, s1) →
  sns_Subnet (subnet_Spec subnet') = text →
  SubnetReconcile addrOrder order orders w req (Found subnet) = Ret (r1, e1, w1) →
  ∃ r2 e2 w2 w3, SubnetReconcile addrOrder order orders w1 req NotFound = Ret (r2, e2, w2) ∧
    SubnetReconcile addrOrder' order' orders' w2 req (Found subnet') = Ret (no_requeue, None, w3) ∧
    subnets (dhcpServer w3) !! text = None.
Proof.
  intros text Hk Ha Ht. rewrite (SubnetReconcile_new addrOrder order orders w req subnet s1 Hk Ha). fold text.
  destruct (add_saved_hosts _ _ _ _) as [srv| |]; [|done..]. cbn [mbind outcome_bind]. intros [= <- <- <-].
  unfold SubnetReconcile at 1. cbn [SubnetCache]. rewrite lookup_insert_eq.
  cbn [dhcpServer set_SubnetToObjectKey].
  assert (∃ e s2, DeleteSubnet srv text = (e, s2) ∧ subnets s2 !! text = None) as (e & s2 & -> & Hnone).
  { unfold DeleteSubnet. destruct (subnets srv !! text) eqn:E; do 2 eexists; (split; [reflexivity|]); [|done].
    apply lookup_delete_eq. }
  do 4 eexists. split; [reflexivity|]. unfold SubnetReconcile, AddSubnetIfNotKnown.
  cbn [objects set_dhcpServer set_SubnetToObjectKey ToSubnet Subnet_Subnet knownSubnets].
  rewrite Ht, lookup_insert_eq. cbn [negb]. split; [reflexivity|]. exact Hnone.
Qed.
End saved.

Lemma host_and_subnet_commute_witness :
  let k := ["10.3.1.0/24"] in
  ∃ w1 w2, SubnetReconcile (K := zap_log false) ifaces [] (λ _, k) start (subnet_key cr_subnet) (Found cr_subnet) =
      Ret (no_requeue, None, w1) ∧
    SubnetReconcile (K := zap_log false) ifaces [] (λ _, k) (HostReconcile [] start (host_key cr_host) (Found cr_host)).2
      (subnet_key cr_subnet) (Found cr_subnet) = Ret (no_requeue, None, w2) ∧
    (HostReconcile k w1 (host_key cr_host) (Found cr_host)).2 = w2.
Proof.
  destruct start_accepts as [s Hs].
  apply (host_and_subnet_commute (K := zap_log false) ifaces [] [] (λ _, ["10.3.1.0/24"]) start (host_key cr_host) cr_host
    (subnet_key cr_subnet) cr_subnet s); [exact zap_log_production|reflexivity..|exact Hs].
Defined.

(** The test subnet in a server that serves nothing. *)
Definition with_lan `{K : ReconcileLog} : controllers :=
  match SubnetReconcile ifaces [] (λ _, []) start (subnet_key cr_subnet) (Found cr_subnet) with
  | Ret (_, _, w) => w
  | _ => start
  end.

Lemma with_lan_eq (K : ReconcileLog) :
  SubnetReconcile ifaces [] (λ _, []) start (subnet_key cr_subnet) (Found cr_subnet) =
    Ret (no_requeue, None, with_lan).
Proof. vm_compute. reflexivity. Qed.

Lemma recreated_subnet_not_served_witness :
  ∃ r2 e2 w2 w3,
    SubnetReconcile (K := zap_log true) ifaces [] (λ _, []) (with_lan (K := zap_log true)) (subnet_key cr_subnet) NotFound =
      Ret (r2, e2, w2) ∧
    SubnetReconcile (K := zap_log true) ifaces [] (λ _, []) w2 (subnet_key cr_subnet) (Found cr_subnet) =
      Ret (no_requeue, None, w3) ∧
    subnets (dhcpServer w3) !! "10.3.1.0/24" = None.
Proof.
  destruct start_accepts as [s Hs].
  apply (recreated_subnet_not_served (K := zap_log true) ifaces [] (λ _, []) start (subnet_key cr_subnet) cr_subnet s
    no_requeue None _ ifaces [] (λ _, []) cr_subnet); [reflexivity|exact Hs|reflexivity|apply with_lan_eq].
Defined.

(** ** Deleting hosts *)

Section reach.
Context `{D : Dhcpv4} {K : ReconcileLog}.

(** Everything that happens to the controllers: reconciliations that return, whatever
    the API answers, and the server's own steps. *)
Inductive controllers_step : controllers → controllers → Prop :=
  | cs_host order req got w : controllers_step w (HostReconcile order w req got).2
  | cs_subnet addrOrder order orders req got w res :
      SubnetReconcile addrOrder order orders w req got = Ret res → controllers_step w res.2
  | cs_server factory addrOrder orders listed req got w :
      controllers_step w (ServerReconcile factory addrOrder orders listed w req got).2
  | cs_dhcp s w : server_step (dhcpServer w) s → controllers_step w (set_dhcpServer s w).

Lemma controllers_step_hosts w w' : controllers_step w w' → hostsCache w' = hostsCache w.
Proof.
  intros Hst. destruct Hst as [order req got w|addrOrder order orders req got w res E
    |factory addrOrder orders listed req got w|s w Hs]; [| | |done].
  - unfold HostReconcile. destruct got as [host| |e]; [|by repeat case_match|done].
    destruct (AddHostIfNotKnown _ _) as [[] c]; [done|]. by destruct (Server_AddHost _ _ _).
  - revert E. unfold SubnetReconcile. destruct got as [sn| |e]; [|by repeat case_match; intros [= <-]|by intros [= <-]].
    destruct (AddSubnetIfNotKnown _ _) as [[] c]; cbn [negb]; [|by intros [= <-]].
    destruct (AddSubnet _ _ _ _) as [[e|] srv]; [by intros [= <-]|].
    destruct (PopUnknownHosts _ _) as [hosts c']. destruct (add_saved_hosts _ _ _ _); [by intros [= <-]|done..].
  - unfold ServerReconcile. destruct got as [sv| |e]; [|by destruct (DeleteListen _ _)|done].
    destruct (match knownListens (objects w) !! _ with Some _ => _ | None => _ end) as [[e|] s]; [done|].
    destruct (AddListen _ _ _) as [err s']. destruct err; cbv zeta; case_decide; try done;
      by destruct (Initialize _ _ _ _) as [[]].
Qed.
End reach.

(** C39: deleting a host object never deletes the host: in every state the
    controllers reach from their construction the reconciler knows no host, so
    it reports an error, and the server keeps the host's lease. *)
Theorem host_deletion_never_works (D : Dhcpv4) (K : ReconcileLog) s w order req :
  rtc controllers_step (NewControllers s) w →
  HostReconcile order w req NotFound =
    (no_requeue, Some (EUnknownHostDeleted (key_Namespace req +:+ "/" +:+ key_Name req)), w).
Proof.
  intros Hr. assert (hostsCache w = ∅) as Hh.
  { change (∅ : gmap string Host) with (hostsCache (NewControllers s)).
    induction Hr as [|w w1 w2 Hst _ IH]; [done|]. rewrite IH. by eapply controllers_step_hosts. }
  unfold HostReconcile. by rewrite Hh, lookup_empty.
Qed.

Lemma host_deletion_never_works_witness :
  let w := (HostReconcile ["10.3.1.0/24"] (with_lan (K := zap_log true)) (host_key cr_host) (Found cr_host)).2 in
  HostReconcile ["10.3.1.0/24"] w (host_key cr_host) NotFound =
    (no_requeue, Some (EUnknownHostDeleted "default/printer"), w).
Proof.
  intros w. apply (host_deletion_never_works rfc_lib (zap_log true) empty_server w).
  eapply rtc_l; [eapply (cs_subnet ifaces [] (λ _, []) (subnet_key cr_subnet) (Found cr_subnet)), with_lan_eq|].
  eapply rtc_l; [apply (cs_host ["10.3.1.0/24"] (host_key cr_host) (Found cr_host))|]. apply rtc_refl.
Defined.

(** ** Updating a listener *)

(** An update of a listener that fails cannot be repaired: if the new
    address cannot be opened the listener is gone, and every later update of the
    object, with whatever address and whatever the system answers, fails before
    it tries. *)
Theorem failed_listener_update_is_final factory addrOrder orders listed w req sv old e0 :
  knownListens (objects w) !! key_Name req = Some old →
  is_Some (listeners (dhcpServer w) !! key_Name req) →
  key_Name (server_key sv) = key_Name req →
  factory (ss_ListenAddress (server_Spec sv)) (ss_ListenInterface (server_Spec sv)) = Err e0 →
  ∃ w', ServerReconcile factory addrOrder orders listed w req (Found sv) = (no_requeue, Some e0, w') ∧
    listeners (dhcpServer w') !! key_Name req = None ∧
    ∀ factory' addrOrder' orders' listed' sv',
      ServerReconcile factory' addrOrder' orders' listed' w' req (Found sv') =
        (requeue_after 10, Some (EUnknownListen (key_Name req)), w').
Proof.
  intros Hold [sock Hsock] Hname Hf. unfold ServerReconcile at 1. rewrite Hold.
  unfold DeleteListen at 1. rewrite Hsock. unfold AddListen. cbn [dhcpServer set_dhcpServer].
  cbn [listeners set_listeners set_closed ToListen Listen_Name Listen_Addr Listen_Interface].
  rewrite Hname, lookup_delete_eq, Hf. cbn [objects set_dhcpServer].
  rewrite decide_False by (intros E; by rewrite E, lookup_empty in Hold).
  eexists. split; [reflexivity|]. split; [apply lookup_delete_eq|].
  intros factory' addrOrder' orders' listed' sv'. unfold ServerReconcile. cbn [objects set_dhcpServer].
  rewrite Hold. unfold DeleteListen. cbn [dhcpServer set_dhcpServer listeners set_listeners set_closed].
  rewrite lookup_delete_eq. done.
Qed.

(** A listener on port 67, then moved to a port that cannot be opened. *)
Definition toy_factory (addr iface : string) : result error socket_id :=
  if String.eqb addr "0.0.0.0:67" then Ok 0%nat else Err (EExternal "cannot bind").

Definition listening : controllers :=
  (ServerReconcile toy_factory [] (λ _, []) (Ok []) start (server_key (cr_server "")) (Found (cr_server "0.0.0.0:67"))).2.

Lemma failed_listener_update_is_final_witness :
  ∃ w', ServerReconcile toy_factory [] (λ _, []) (Ok []) listening (server_key (cr_server ""))
          (Found (cr_server "0.0.0.0:99")) = (no_requeue, Some (EExternal "cannot bind"), w') ∧
    listeners (dhcpServer w') !! "l" = None ∧
    ∀ factory' addrOrder' orders' listed' sv',
      ServerReconcile factory' addrOrder' orders' listed' w' (server_key (cr_server "")) (Found sv') =
        (requeue_after 10, Some (EUnknownListen "l"), w').
Proof.
  apply (failed_listener_update_is_final toy_factory [] (λ _, []) (Ok []) listening
    (server_key (cr_server "")) (cr_server "0.0.0.0:99") (cr_server "0.0.0.0:67")).
  - reflexivity.
  - exists 0%nat. reflexivity.
  - reflexivity.
  - reflexivity.
Defined.

(** ** Saving leases *)

(** The leases of the responses that belong to a subnet. *)
Definition batch (h : lease_store) (responses : list Response) (prefix : string) : list Lease :=
  filter (λ l, Lease_Subnet l = prefix) (deref h ∘ Response_Lease <$> responses).

Lemma group_leases_spec h responses prefix :
  group_leases h responses !! prefix =
    match batch h responses prefix with [] => None | ls => Some ls end.
Proof.
  unfold group_leases, batch. induction responses as [|r rs IH] using rev_ind; [apply lookup_empty|].
  rewrite foldl_app, fmap_app, list.filter_app. cbn [foldl fmap list_fmap]. rewrite lookup_insert.
  unfold compose at 2. case_decide as E.
  - subst. rewrite list.filter_cons_True by done. rewrite list.filter_nil, IH.
    by destruct (filter _ _).
  - rewrite list.filter_cons_False by done. by rewrite list.filter_nil, app_nil_r, IH.
Qed.

(** A status after a batch: the last lease of each hardware address, and what
    was there before for the others. *)
Lemma save_leases_spec now subnet ls mac :
  default ∅ (status_Leases (subnet_Status (save_leases now subnet ls))) !! mac =
    match list.last (filter (λ l, Lease_MAC l = mac) ls) with
    | Some l => Some {| V1Lease_IP := IP_String (Lease_IP l); V1Lease_UpdatedAt := now |}
    | None => default ∅ (status_Leases (subnet_Status subnet)) !! mac
    end.
Proof.
  cbn [save_leases subnet_Status status_Leases default]. induction ls as [|l ls IH] using rev_ind; [done|].
  rewrite foldl_app, list.filter_app. cbn [foldl]. unfold id in *. rewrite lookup_insert. case_decide as E.
  - rewrite list.filter_cons_True by done. by rewrite list.filter_nil, list.last_snoc.
  - rewrite list.filter_cons_False by done. by rewrite list.filter_nil, app_nil_r.
Qed.

Lemma save_loop_spec get update now keys i entries updated :
  save_loop get update now keys i entries = (updated, None) →
  Forall2 (λ '(prefix, ls) obj, ∃ j key subnet, keys !! prefix = Some key ∧ get j key = Ok subnet ∧
             obj = save_leases now subnet ls)
    (filter (λ e, is_Some (keys !! e.1)) entries) updated.
Proof.
  revert i updated. induction entries as [|[prefix ls] entries IH]; intros i updated; cbn [save_loop].
  - intros [= <-]. constructor.
  - destruct (keys !! prefix) as [key|] eqn:Hk.
    + rewrite list.filter_cons_True by (cbn; eauto). destruct (get i key) as [subnet|] eqn:Eg; [|done].
      destruct (update i _); [done|]. destruct (save_loop _ _ _ _ _ _) as [upd err] eqn:El.
      intros [= <- ->]. constructor; [by exists i, key, subnet|]. by eapply IH.
    + rewrite list.filter_cons_False by (cbn; rewrite Hk; by intros []). apply IH.
Qed.

(** The object of a known subnet with leases in the batch is among those written. *)
Lemma CallbackSaveLeases_known get update now order w responses updated prefix key :
  let h := leases (dhcpServer w) in
  range_order order (group_leases h responses) →
  CallbackSaveLeases get update now order w responses = (updated, None) →
  SubnetToObjectKey w !! prefix = Some key → batch h responses prefix ≠ [] →
  ∃ i subnet, get i key = Ok subnet ∧ save_leases now subnet (batch h responses prefix) ∈ updated.
Proof.
  intros h Ho Hc Hk Hb. unfold CallbackSaveLeases in Hc. fold h in Hc. apply save_loop_spec in Hc.
  assert ((prefix, batch h responses prefix) ∈ filter (λ e : string * list Lease, is_Some (SubnetToObjectKey w !! e.1))
    (omap (λ k, (λ ls, (k, ls)) <$> group_leases h responses !! k) order)) as Hin.
  { apply list_elem_of_filter. split; [by eexists|]. apply list_elem_of_omap. exists prefix.
    rewrite group_leases_spec. destruct (batch h responses prefix) eqn:Eb; [done|]. split; [|done].
    apply (range_order_elem _ _ _ Ho). rewrite group_leases_spec, Eb. by eexists. }
  apply list_elem_of_lookup in Hin as [n Hn]. destruct (Forall2_lookup_l _ _ _ _ _ Hc Hn) as (obj & Hobj & Hx).
  destruct Hx as (j & key' & subnet & Hk' & Hg & ->). rewrite Hk in Hk'. injection Hk' as <-.
  exists j, subnet. split; [done|]. by apply list_elem_of_lookup_2 in Hobj.
Qed.

(** C29: when the callback succeeds, it has updated one object for each subnet
    of the batch whose object is known, read from the API just before; in its
    status each hardware address of the batch has the address of its last lease
    in the batch, and the others what they had.  A subnet without a known object
    is skipped, without an error, and its leases are saved nowhere. *)
Theorem CallbackSaveLeases_spec get update now order w responses updated :
  let h := leases (dhcpServer w) in
  range_order order (group_leases h responses) →
  CallbackSaveLeases get update now order w responses = (updated, None) →
  (∀ prefix key, SubnetToObjectKey w !! prefix = Some key → batch h responses prefix ≠ [] →
     ∃ i subnet, get i key = Ok subnet ∧ save_leases now subnet (batch h responses prefix) ∈ updated) ∧
  (∀ obj, obj ∈ updated → ∃ prefix key i subnet, SubnetToObjectKey w !! prefix = Some key ∧
     get i key = Ok subnet ∧ obj = save_leases now subnet (batch h responses prefix) ∧
     ∀ mac, default ∅ (status_Leases (subnet_Status obj)) !! mac =
       match list.last (filter (λ l, Lease_MAC l = mac) (batch h responses prefix)) with
       | Some l => Some {| V1Lease_IP := IP_String (Lease_IP l); V1Lease_UpdatedAt := now |}
       | None => default ∅ (status_Leases (subnet_Status subnet)) !! mac
       end).
Proof.
  intros h Ho Hc. split.
  - intros prefix key Hk Hb. by apply (CallbackSaveLeases_known get update now order w).
  - unfold CallbackSaveLeases in Hc. fold h in Hc. apply save_loop_spec in Hc.
    intros obj Hobj. apply list_elem_of_lookup in Hobj as [n Hn].
    destruct (Forall2_lookup_r _ _ _ _ _ Hc Hn) as ([prefix ls] & Hin & j & key & subnet & Hk & Hg & ->).
    apply list_elem_of_lookup_2, list_elem_of_filter in Hin as [_ Hin].
    apply list_elem_of_omap in Hin as (k & _ & Hl). rewrite group_leases_spec in Hl.
    destruct (batch h responses k) eqn:Eb; [done|]. injection Hl as <- <-. rewrite <- Eb.
    exists k, key, j, subnet. split_and!; [done|done|done|]. intros mac. apply save_leases_spec.
Qed.

(** A server with two leases of the subnet, and the callback for the second. *)
Definition saving : controllers :=
  set_dhcpServer (set_leases [NewLease 0 test_sn2 "m1" (ParseIP "10.3.1.10"); NewLease 0 test_sn2 "m2" (ParseIP "10.3.1.11")]
    empty_server)
    (with_lan (K := zap_log true)).

Definition second_lease : Response := {|
  Response_Request := test_discover; Response_Response := Request_DHCPv4 test_discover; Response_Lease := 1%nat |}.

Lemma CallbackSaveLeases_spec_witness :
  ∃ subnet, save_leases 7 subnet (batch (leases (dhcpServer saving)) [second_lease] "10.3.1.0/24") ∈
    (CallbackSaveLeases (λ _ _, Ok cr_subnet) (λ _ _, None) 7 ["10.3.1.0/24"] saving [second_lease]).1.
Proof.
  destruct (CallbackSaveLeases_spec (λ _ _, Ok cr_subnet) (λ _ _, None) 7 ["10.3.1.0/24"] saving [second_lease]
    (CallbackSaveLeases (λ _ _, Ok cr_subnet) (λ _ _, None) 7 ["10.3.1.0/24"] saving [second_lease]).1)
    as [Hsave _].
  - unfold range_order. vm_compute. reflexivity.
  - vm_compute. reflexivity.
  - destruct (Hsave "10.3.1.0/24" (subnet_key cr_subnet)) as (i & subnet & _ & Hin).
    + vm_compute. reflexivity.
    + vm_compute. discriminate.
    + exists subnet. exact Hin.
Defined.
