(* ===== verification/Arrival.v ===== *)
(** * The objects of a cluster arrive in any order, and more than once

    At the start, and again at every resynchronisation, the framework hands the
    objects of the cluster to the reconcilers in an order that is not fixed.  Hosts
    that come before their subnet wait in the objects cache.  This file shows that
    the order, and how often an object comes, do not matter for what the reconcilers
    do in the end: once every object has
    arrived, the server serves the declared subnets with exactly the declared
    hosts.  It matters for whether they get there: a logger in development mode
    panics when a host that waited is added. *)

From S2P Require Import Prelude GoStrings GoNet Errors IPv4 Types Dhcpv4 Subnet.
From S2P Require Import LeaseCache Pool SubnetProps SubnetNet Server ServerProps.
From S2P Require Import Responses ServerGuarantees ServerReach SubnetMap LeaseSpec.
From S2P Require Import ApiTypes Controllers ControllersProps.
Open Scope string_scope.
Open Scope list_scope.
Open Scope Z_scope.

(** ** Hosts in the cache of a subnet *)

Definition host_ip (x : Host) : string := IP_String (Host_IP x).

(** Hosts that do not get in each other's way: no two have a hardware address or an
    address in common, and no text is both. *)
Definition separate (P : Host → Prop) : Prop :=
  ∀ x y, P x → P y → (Host_MAC x = Host_MAC y ∨ host_ip x = host_ip y → x = y) ∧ Host_MAC x ≠ host_ip y.

(** The cache [c] holds exactly the hosts of [P], each under both its keys. *)
Definition holds (h : lease_store) (c : gmap string lease_ptr) (cfg : Subnet) (P : Host → Prop) : Prop :=
  (∀ key p, c !! key = Some p →
    ∃ x, P x ∧ (key = Host_MAC x ∨ key = host_ip x) ∧ h !! p = Some (host_lease cfg x)) ∧
  (∀ x, P x → is_Some (c !! Host_MAC x) ∧ is_Some (c !! host_ip x)).

Lemma holds_empty h cfg P : (∀ x, ¬ P x) → holds h ∅ cfg P.
Proof. intros HP. split; [intros key p; by rewrite lookup_empty|]. by intros x Hx%HP. Qed.

Lemma holds_iff h c cfg P Q : (∀ x, P x ↔ Q x) → holds h c cfg P → holds h c cfg Q.
Proof.
  intros E [H1 H2]. split; [|intros x Hx; by apply H2, E].
  intros key p Hk. destruct (H1 key p Hk) as (x & Hx & ?). exists x. split; [by apply E|done].
Qed.

Lemma holds_app h h' c cfg P : holds h c cfg P → holds (h ++ h') c cfg P.
Proof.
  intros [H1 H2]. split; [|done]. intros key p Hk. destruct (H1 key p Hk) as (x & ? & ? & Hp).
  exists x. split_and!; [done|done|]. by apply lookup_app_l_Some.
Qed.

(** Adding a host, new or again. *)
Lemma holds_add h c cfg P x :
  separate (λ y, P y ∨ y = x) → holds h c cfg P →
  holds (h ++ [host_lease cfg x]) (cache_add (h ++ [host_lease cfg x]) (length h) c) cfg (λ y, P y ∨ y = x).
Proof.
  intros Hsep Hc. set (h' := h ++ [host_lease cfg x]).
  assert (h' !! length h = Some (host_lease cfg x)) as Hl by (by apply list_lookup_middle).
  pose proof (holds_app h [host_lease cfg x] c cfg P Hc) as [H1 H2]. fold h' in H1.
  destruct (Hsep x x) as [_ Hne]; [by right|by right|].
  unfold cache_add. rewrite (deref_Some _ _ _ Hl). cbn [Lease_IP Lease_MAC host_lease]. fold (host_ip x).
  set (c' := match c !! host_ip x with Some old => delete (Lease_MAC (deref h' old)) c | None => c end).
  assert (∀ key, key ≠ Host_MAC x → c' !! key = c !! key) as Hc'.
  { intros key Hkey. subst c'. destruct (c !! host_ip x) as [old|] eqn:Eo; [|done].
    destruct (H1 _ _ Eo) as (y & Hy & Hk & Hp). rewrite (deref_Some _ _ _ Hp). cbn [Lease_MAC host_lease].
    assert (y = x) as ->; [|by rewrite lookup_delete_ne].
    destruct (Hsep x y) as [He Hn]; [by right|by left|].
    destruct (Hsep y x) as [_ Hn']; [by left|by right|].
    destruct Hk as [Hk|Hk]; [by destruct Hn'|]. symmetry. by apply He; right. }
  split.
  - intros key p. rewrite lookup_insert. case_decide as Em.
    { intros [= <-]. exists x. split_and!; [by right|by left|done]. }
    rewrite lookup_insert. case_decide as Ei.
    { intros [= <-]. exists x. split_and!; [by right|by right|done]. }
    rewrite Hc' by done. intros Hk. destruct (H1 key p Hk) as (y & ? & ? & ?). exists y.
    split_and!; [by left|done|done].
  - intros y Hy. rewrite !lookup_insert. split; repeat case_decide; try (by eexists).
    + rewrite Hc' by done. destruct Hy as [Hy| ->]; [by apply H2|done].
    + rewrite Hc' by done. destruct Hy as [Hy| ->]; [by apply H2|done].
Qed.

(** What is under a key. *)
Lemma holds_lookup h c cfg P key l :
  separate P → holds h c cfg P →
  (c !! key ≫= λ p, h !! p) = Some l ↔
  ∃ x, P x ∧ (key = Host_MAC x ∨ key = host_ip x) ∧ l = host_lease cfg x.
Proof.
  intros Hsep [H1 H2]. split.
  - intros (p & Hp & Hl)%bind_Some. destruct (H1 key p Hp) as (x & ? & ? & Hl'). exists x.
    split_and!; [done|done|congruence].
  - intros (x & Hx & Hk & ->). assert (is_Some (c !! key)) as [p Hp].
    { destruct (H2 x Hx). by destruct Hk as [-> | ->]. }
    rewrite Hp. cbn. destruct (H1 key p Hp) as (y & Hy & Hk' & ->). do 2 f_equal.
    destruct (Hsep x y Hx Hy) as [E N], (Hsep y x Hy Hx) as [_ N']. symmetry.
    destruct Hk as [-> | ->], Hk' as [?|?]; [apply E; by left|done|by destruct N'|apply E; by right].
Qed.

Lemma run_app {St Ev} (step : St → Ev → St → Prop) x es1 es2 z :
  run step x (es1 ++ es2) z → ∃ y, run step x es1 y ∧ run step y es2 z.
Proof.
  revert x. induction es1 as [|e es1 IH]; intros x Hr; [exists x; split; [apply run_nil|done]|].
  inversion Hr as [|? y ? ? ? He Hr']; subst. destruct (IH _ Hr') as (y' & ? & ?).
  exists y'. split; [by eapply run_cons|done].
Qed.

(** ** The cluster *)

Inductive object := AHost (host : DHCPHost) | ASubnet (subnet : DHCPSubnet).

Definition subnet_text (sn : DHCPSubnet) : string := sns_Subnet (subnet_Spec sn).
Definition subnet_of_host (x : DHCPHost) : string := hs_Subnet (host_Spec x).

Section cluster.
Context `{Klog : ReconcileLog}.
Context (addrs : LocalIPAddresses) (subs : list DHCPSubnet) (hosts : list DHCPHost).

(** What the server makes of a subnet. *)
Definition initialised (sn : DHCPSubnet) (cfg : Subnet) : Prop :=
  ∃ order, range_order order addrs ∧ InitializeSubnet order (ToSubnet sn) addrs = Ok cfg.

(** A cluster that makes sense: the subnets are accepted, have different texts and
    have no address in common; the hosts of each declared subnet are in its network
    and do not get in each other's way. *)
Record cluster_ok := {
  ck_init : ∀ sn order, sn ∈ subs → range_order order addrs →
    ∃ cfg, InitializeSubnet order (ToSubnet sn) addrs = Ok cfg;
  ck_texts : ∀ sn sn', sn ∈ subs → sn' ∈ subs → subnet_text sn = subnet_text sn' → sn = sn';
  ck_disjoint : ∀ sn sn' cfg cfg' ip, sn ∈ subs → sn' ∈ subs → initialised sn cfg → initialised sn' cfg' →
    Contains cfg ip = true → Contains cfg' ip = true → subnet_text sn = subnet_text sn';
  ck_inside : ∀ x sn cfg, x ∈ hosts → sn ∈ subs → subnet_of_host x = subnet_text sn → initialised sn cfg →
    Contains cfg (Host_IP (ToDHCPHost x)) = true;
  ck_hosts : ∀ text, separate (λ x, ∃ dh, dh ∈ hosts ∧ subnet_of_host dh = text ∧ x = ToDHCPHost dh);
}.

(** The hosts of [P] that belong to the subnet [text]. *)
Definition hosts_of (P : DHCPHost → Prop) (text : string) (x : Host) : Prop :=
  ∃ dh, P dh ∧ subnet_of_host dh = text ∧ x = ToDHCPHost dh.

(** The server serves the subnets with a text in [K], each with its hosts of [P]. *)
Definition serves (s : Server) (K : string → Prop) (P : DHCPHost → Prop) : Prop :=
  localIpAddresses s = addrs ∧
  (∀ text, is_Some (subnets s !! text) ↔ K text) ∧
  ∀ text sub, subnets s !! text = Some sub →
    ∃ sn cfg, sn ∈ subs ∧ subnet_text sn = text ∧ initialised sn cfg ∧
      sub = set_leaseCache (Subnet_leaseCache sub) cfg ∧
      holds (leases s) (Subnet_leaseCache sub) cfg (hosts_of P text).

Context (Hck : cluster_ok).

(** A host whose subnet is served is accepted, by its subnet. *)
Lemma host_enters s K P order x :
  serves s K P → (∀ k, k ∈ order ↔ K k) → x ∈ hosts → K (subnet_of_host x) →
  ∃ sub, getSubnetForIp order s (Host_IP (ToDHCPHost x)) = Some (subnet_of_host x, sub).
Proof.
  intros (Hl & HK & Hs) Ho Hx Hk. apply HK in Hk as Hsome. destruct Hsome as [sub Hsub].
  destruct (Hs _ _ Hsub) as (sn & cfg & Hsn & Et & Hi & Ec & _).
  pose proof (ck_inside Hck x sn cfg Hx Hsn ltac:(done) Hi) as Hin.
  unfold getSubnetForIp. destruct (find_subnet order (subnets s) _) as [[k sub']|] eqn:E.
  - apply find_subnet_Some in E as (_ & Hk' & Hin').
    destruct (Hs _ _ Hk') as (sn' & cfg' & Hsn' & Et' & Hi' & Ec' & _). rewrite Ec' in Hin'.
    pose proof (ck_disjoint Hck sn sn' cfg cfg' _ Hsn Hsn' Hi Hi' Hin Hin') as Et2.
    exists sub'. by rewrite <- Et, Et2, Et'.
  - pose proof (find_subnet_None _ _ _ E _ _ (proj2 (Ho _) Hk) Hsub) as Hno.
    rewrite Ec in Hno. change (Contains cfg (Host_IP (ToDHCPHost x)) = false) in Hno. congruence.
Qed.

Lemma Server_AddHost_serves s K P order x :
  serves s K P → (∀ k, k ∈ order ↔ K k) → x ∈ hosts → (∀ y, P y → y ∈ hosts) → K (subnet_of_host x) →
  serves (Server_AddHost order s (ToDHCPHost x)).2 K (λ y, P y ∨ y = x).
Proof.
  intros Hserves Ho Hx HP Hk. destruct (host_enters s K P order x Hserves Ho Hx Hk) as [sub Ef].
  destruct Hserves as (Hl & HK & Hs).
  unfold Server_AddHost. rewrite Ef. apply find_subnet_Some in Ef as (_ & Hsub & _).
  destruct (Hs _ _ Hsub) as (sn & cfg & Hsn & Et & Hi & Ec & Hh). unfold AddHost, new_lease, AddLease.
  cbn [snd]. split_and!; [done|..].
  - intros text. rewrite <- HK. cbn [subnets set_leases set_subnets]. rewrite lookup_insert.
    case_decide as E; [subst text|done]. rewrite Hsub. split; by eexists.
  - assert (host_lease sub (ToDHCPHost x) = host_lease cfg (ToDHCPHost x)) as El by (by rewrite Ec).
    intros text sub'. cbn [subnets leases set_leases set_subnets]. rewrite lookup_insert, El.
    case_decide as E; [subst text; intros [= <-]|intros Hsub'].
    + exists sn, cfg. split_and!; [done|done|done|by rewrite Ec|]. cbn [Subnet_leaseCache set_leaseCache].
      eapply holds_iff; [|apply holds_add; [|exact Hh]].
      * intros y. unfold hosts_of. split.
        -- intros [(dh & ? & ? & ?)| ->]; [|exists x; by split_and!; [right| |]].
           exists dh. by split_and!; [left| |].
        -- intros (dh & [Hd| ->] & ? & ?); [left; by exists dh|by right].
      * intros a b Ha Hb. apply (ck_hosts Hck (subnet_of_host x)).
        -- destruct Ha as [(dh & ? & ? & ?)| ->]; [exists dh|exists x]; split_and!; auto.
        -- destruct Hb as [(dh & ? & ? & ?)| ->]; [exists dh|exists x]; split_and!; auto.
    + destruct (Hs _ _ Hsub') as (sn' & cfg' & ? & Et' & ? & ? & Hh').
      exists sn', cfg'. split_and!; [done..|]. apply holds_app. eapply holds_iff; [|exact Hh'].
      intros y. unfold hosts_of. split; [intros (dh & ? & ? & ?); exists dh; by split_and!; [left| |]|].
      intros (dh & [Hd| ->] & Hd' & ?); [by exists dh|done].
Qed.

Lemma serves_iff s K K' P P' :
  (∀ text, K text ↔ K' text) → (∀ text x, K text → hosts_of P text x ↔ hosts_of P' text x) →
  serves s K P → serves s K' P'.
Proof.
  intros EK EP (Hl & HK & Hs). split_and!; [done|intros text; by rewrite HK|].
  intros text sub Hsub. destruct (Hs _ _ Hsub) as (sn & cfg & ? & ? & ? & ? & Hh).
  exists sn, cfg. split_and!; [done..|]. eapply holds_iff; [|exact Hh]. intros x. apply EP, HK. by eexists.
Qed.

(** The loop that returns took its next host and went on. *)
Lemma add_saved_hosts_cons orders i s x hs s1 :
  add_saved_hosts orders i s (x :: hs) = Ret s1 →
  add_saved_hosts orders (S i) (Server_AddHost (orders i) s (ToDHCPHost x)).2 hs = Ret s1.
Proof.
  cbn [add_saved_hosts]. destruct (Server_AddHost _ _ _) as [[e|] s']; [done|]. by destruct (log_Info _ _).
Qed.

Lemma add_saved_hosts_serves s K P orders i hs s1 :
  serves s K P → (∀ i k, k ∈ orders i ↔ K k) → (∀ y, P y → y ∈ hosts) →
  (∀ y, y ∈ hs → y ∈ hosts ∧ K (subnet_of_host y)) →
  add_saved_hosts orders i s hs = Ret s1 → serves s1 K (λ y, P y ∨ y ∈ hs).
Proof.
  intros Hs Ho HP. revert i s P Hs HP. induction hs as [|x hs IH]; intros i s P Hs HP Hhs E.
  - injection E as <-. eapply serves_iff; [done| |exact Hs]. intros text y _. unfold hosts_of.
    split; intros (dh & Hd & ?); exists dh; (split; [|done]); [by left|].
    destruct Hd as [?|Hd]; [done|by apply not_elem_of_nil in Hd].
  - destruct (Hhs x) as [Hx Hk]; [by left|].
    pose proof (Server_AddHost_serves s K P (orders i) x Hs (Ho i) Hx HP Hk) as Hs'.
    apply add_saved_hosts_cons in E.
    eapply serves_iff; [done| |apply (IH (S i) _ _ Hs'); [| |exact E]].
    + intros text y _. unfold hosts_of. split; intros (dh & Hd & ?); exists dh; (split; [|done]).
      * destruct Hd as [[?| ->]|?]; [by left|right; by left|right; by right].
      * destruct Hd as [?|[->|?]%elem_of_cons]; [left; by left|left; by right|by right].
    + intros y [?| ->]; auto.
    + intros y Hy. apply Hhs. by right.
Qed.

Lemma Server_AddHost_dom order s x k : is_Some (subnets (Server_AddHost order s x).2 !! k) ↔ is_Some (subnets s !! k).
Proof.
  unfold Server_AddHost, getSubnetForIp. destruct (find_subnet _ _ _) as [[k' sn]|] eqn:E; [|done].
  apply find_subnet_Some in E as (_ & Hk & _). destruct (AddHost _ _ _) as [h sn'].
  cbn [snd subnets set_leases set_subnets]. rewrite lookup_insert. case_decide; [subst|done].
  rewrite Hk. split; by eexists.
Qed.

Lemma add_saved_hosts_dom orders i s hs s1 k :
  add_saved_hosts orders i s hs = Ret s1 → is_Some (subnets s1 !! k) ↔ is_Some (subnets s !! k).
Proof.
  revert i s. induction hs as [|x hs IH]; intros i s E; [by injection E as <-|].
  apply add_saved_hosts_cons in E. by rewrite (IH _ _ E), Server_AddHost_dom.
Qed.

(** A new subnet. *)
Lemma AddSubnet_serves s K P addrOrder order sn :
  serves s K P → range_order addrOrder addrs → range_order order (subnets s) → sn ∈ subs →
  ¬ K (subnet_text sn) →
  ∃ s', AddSubnet addrOrder order s (ToSubnet sn) = (None, s') ∧
    serves s' (λ text, K text ∨ text = subnet_text sn) (λ x, P x ∧ subnet_of_host x ≠ subnet_text sn).
Proof.
  intros (Hl & HK & Hs) Ha Ho Hsn Hnew. unfold AddSubnet. rewrite Hl.
  destruct (ck_init Hck sn addrOrder Hsn Ha) as [cfg Hi]. rewrite Hi.
  assert (Subnet_Subnet cfg = subnet_text sn) as En by (by rewrite (InitializeSubnet_name _ _ _ _ Hi)).
  assert (Subnet_leaseCache cfg = ∅) as Ecache.
  { by apply InitializeSubnet_Ok in Hi as (? & ? & ? & ? & ? & _ & _ & _ & _ & _ & _ & _ & _ & _ & _ & E & _). }
  assert (find_overlap (range_values order (subnets s)) cfg = None) as ->.
  { apply find_overlap_None, Forall_forall. intros sub Hsub. apply list_elem_of_In in Hsub.
    apply (range_values_elem _ _ _ Ho) in Hsub as [k Hk]. destruct (Hs _ _ Hk) as (sn' & cfg' & _ & Et & (o & _ & Hi') & -> & _).
    change (Subnet_Subnet cfg' ≠ Subnet_Subnet cfg). rewrite (InitializeSubnet_name _ _ _ _ Hi'), En.
    change (subnet_text sn' ≠ subnet_text sn). rewrite Et. intros ->. apply Hnew, HK. by eexists. }
  eexists. split; [done|]. rewrite En. split_and!; [done|..].
  - intros text. cbn [subnets set_subnets]. rewrite lookup_insert. case_decide as E.
    + subst. split; [by right|by eexists].
    + rewrite HK. split; [by left|]. by intros [?| ->].
  - intros text sub. cbn [subnets leases set_subnets]. rewrite lookup_insert. case_decide as E.
    + intros [= <-]. subst. exists sn, cfg. split_and!; [done|done|by exists addrOrder| |].
      * by destruct cfg.
      * rewrite Ecache. apply holds_empty. by intros x (dh & [_ ?] & ? & _).
    + intros Hsub. destruct (Hs _ _ Hsub) as (sn' & cfg' & ? & Et & ? & ? & Hh). exists sn', cfg'.
      split_and!; [done..|]. eapply holds_iff; [|exact Hh]. intros x. unfold hosts_of.
      split; [intros (dh & ? & ? & ?)|intros (dh & [? ?] & ? & ?)]; exists dh; split_and!; try done. congruence.
Qed.

(** ** The arrivals *)

(** An object of the cluster is reconciled, with whatever request brought it, and
    the maps visited in any order.  (While the hosts that waited are added, the
    keys of the map of the subnets are those that it has at the end.) *)
Inductive arrival (w : controllers) : object → controllers → Prop :=
  | arrival_host order req x :
      range_order order (subnets (dhcpServer w)) → arrival w (AHost x) (HostReconcile order w req (Found x)).2
  | arrival_subnet addrOrder order orders req sn res :
      range_order addrOrder (localIpAddresses (dhcpServer w)) → range_order order (subnets (dhcpServer w)) →
      SubnetReconcile addrOrder order orders w req (Found sn) = Ret res →
      (∀ i, range_order (orders i) (subnets (dhcpServer res.2))) → arrival w (ASubnet sn) res.2.

Definition known (seen : list object) (text : string) : Prop := ∃ sn, ASubnet sn ∈ seen ∧ subnet_text sn = text.

(** The state after the objects in [seen] arrived: the hosts without their subnet
    wait, the others are served. *)
Record arrived (w : controllers) (seen : list object) : Prop := {
  ar_known : ∀ text, is_Some (knownSubnets (objects w) !! text) ↔ known seen text;
  ar_waiting : ∀ text x, x ∈ default [] (unknownHosts (objects w) !! text) ↔
    AHost x ∈ seen ∧ subnet_of_host x = text ∧ ¬ known seen text;
  ar_serves : serves (dhcpServer w) (known seen) (λ x, AHost x ∈ seen);
}.

Definition declared (o : object) : Prop :=
  match o with AHost x => x ∈ hosts | ASubnet sn => sn ∈ subs end.

Lemma known_host x seen text : known (seen ++ [AHost x]) text ↔ known seen text.
Proof.
  unfold known. split; intros (sn & Hin & ?); exists sn; (split; [|done]).
  - apply elem_of_app in Hin as [?|?%list_elem_of_singleton]; done.
  - apply elem_of_app. by left.
Qed.

Lemma known_subnet sn seen text :
  known (seen ++ [ASubnet sn]) text ↔ known seen text ∨ text = subnet_text sn.
Proof.
  unfold known. split.
  - intros (sn' & [?|[= ->]%list_elem_of_singleton]%elem_of_app & <-); [left; by exists sn'|by right].
  - intros [(sn' & ? & ?)| ->]; [exists sn'|exists sn]; (split; [|done]); apply elem_of_app; [by left|right].
    by apply list_elem_of_singleton.
Qed.

Lemma known_em seen text : known seen text ∨ ¬ known seen text.
Proof.
  induction seen as [|o seen IH] using rev_ind; [right; by intros (sn & ?%not_elem_of_nil & _)|].
  destruct o as [x|sn]; [by rewrite known_host|]. rewrite known_subnet.
  destruct (decide (text = subnet_text sn)); naive_solver.
Qed.

Lemma elem_of_host x y seen : AHost x ∈ seen ++ [AHost y] ↔ AHost x ∈ seen ∨ x = y.
Proof. rewrite elem_of_app, list_elem_of_singleton. naive_solver. Qed.

Lemma elem_of_host_subnet x sn seen : AHost x ∈ seen ++ [ASubnet sn] ↔ AHost x ∈ seen.
Proof. rewrite elem_of_app, list_elem_of_singleton. naive_solver. Qed.

(** A host that must wait. *)
Lemma arrived_waits order w req x seen :
  arrived w seen → ¬ known seen (subnet_of_host x) →
  arrived (HostReconcile order w req (Found x)).2 (seen ++ [AHost x]).
Proof.
  intros [Hk Hw Hs] Hn. unfold HostReconcile, AddHostIfNotKnown. fold (subnet_of_host x).
  destruct (knownSubnets (objects w) !! subnet_of_host x) eqn:E; [destruct Hn; apply Hk; by eexists|].
  set (m := <[subnet_of_host x := default [] (unknownHosts (objects w) !! subnet_of_host x) ++ [x]]> (unknownHosts (objects w))).
  assert (match unknownHosts (objects w) !! subnet_of_host x with
    | Some hs => (true, set_unknownHosts (<[subnet_of_host x := hs ++ [x]]> (unknownHosts (objects w))) (objects w))
    | None => (true, set_unknownHosts (<[subnet_of_host x := [x]]> (unknownHosts (objects w))) (objects w))
    end = (true, set_unknownHosts m (objects w))) as -> by (unfold m; by destruct (unknownHosts (objects w) !! subnet_of_host x)).
  cbn [snd]. split.
  - intros text. cbn. by rewrite Hk, known_host.
  - intros text y. cbn [objects set_objects unknownHosts set_unknownHosts]. unfold m.
    rewrite known_host, elem_of_host, lookup_insert. case_decide as Et.
    + subst text. cbn [from_option id]. rewrite elem_of_app, list_elem_of_singleton, Hw. naive_solver.
    + rewrite Hw. naive_solver.
  - apply (serves_iff _ (known seen) _ (λ x, AHost x ∈ seen)); [intros text; by rewrite known_host| |exact Hs].
    intros text y Ht. unfold hosts_of. split; intros (dh & Hd & ? & ?); exists dh; (split; [|done]).
    + apply elem_of_host. by left.
    + apply elem_of_host in Hd as [?| ->]; [done|]. by subst text.
Qed.

(** A host whose subnet is there. *)
Lemma arrived_host order w req x seen :
  Forall declared (seen ++ [AHost x]) → arrived w seen → range_order order (subnets (dhcpServer w)) →
  known seen (subnet_of_host x) → arrived (HostReconcile order w req (Found x)).2 (seen ++ [AHost x]).
Proof.
  intros [Hd [Hx _]%Forall_cons_1]%Forall_app [Hk Hw Hs] Ho Hkn.
  unfold HostReconcile, AddHostIfNotKnown. fold (subnet_of_host x).
  destruct (proj2 (Hk _) Hkn) as [sub E]. rewrite E.
  destruct (Server_AddHost order (dhcpServer (set_objects (objects w) w)) (ToDHCPHost x)) as [e s'] eqn:Es.
  cbn [snd]. split.
  - intros text. cbn. by rewrite Hk, known_host.
  - intros text y. cbn [objects set_dhcpServer set_objects]. rewrite known_host, elem_of_host, Hw. naive_solver.
  - cbn [dhcpServer set_dhcpServer]. replace s' with (Server_AddHost order (dhcpServer w) (ToDHCPHost x)).2
      by (change (dhcpServer w) with (dhcpServer (set_objects (objects w) w)); by rewrite Es).
    apply (serves_iff _ (known seen) _ (λ y, AHost y ∈ seen ∨ y = x)); [intros text; by rewrite known_host| |].
    2: { apply (Server_AddHost_serves _ _ _ order x Hs); [|done| |done].
      - intros k. rewrite (range_order_elem _ _ _ Ho). apply Hs.
      - intros y Hy. exact (proj1 (Forall_forall _ _) Hd _ (proj1 (list_elem_of_In _ _) Hy)). }
    intros text y _. unfold hosts_of. split; intros (dh & Hdh & ?); exists dh; (split; [|done]); by apply elem_of_host.
Qed.

(** A subnet that has arrived before. *)
Lemma arrived_again addrOrder order orders w req sn seen :
  arrived w seen → known seen (subnet_text sn) →
  ∃ res, SubnetReconcile addrOrder order orders w req (Found sn) = Ret res ∧
    dhcpServer res.2 = dhcpServer w ∧ arrived res.2 (seen ++ [ASubnet sn]).
Proof.
  intros [Hk Hw Hs] Hkn. unfold SubnetReconcile, AddSubnetIfNotKnown.
  cbn [objects set_SubnetToObjectKey ToSubnet Subnet_Subnet]. fold (subnet_text sn).
  destruct (proj2 (Hk _) Hkn) as [sub ->]. cbn [negb]. eexists. split; [reflexivity|]. split; [done|]. cbn [snd].
  assert (∀ text, known (seen ++ [ASubnet sn]) text ↔ known seen text) as Ek.
  { intros text. rewrite known_subnet. naive_solver. }
  split.
  - intros text. cbn. by rewrite Hk, Ek.
  - intros text x. cbn [objects set_objects]. by rewrite Ek, elem_of_host_subnet, Hw.
  - apply (serves_iff _ (known seen) _ (λ x, AHost x ∈ seen)); [intros text; by rewrite Ek| |exact Hs]. intros text x _. unfold hosts_of.
    split; intros (dh & Hd & ?); exists dh; (split; [|done]); by apply elem_of_host_subnet in Hd || apply elem_of_host_subnet.
Qed.

(** A subnet that is new: the server takes it, and then the hosts that waited for it
    are added. *)
Lemma arrived_new addrOrder order orders w req sn seen :
  declared (ASubnet sn) → arrived w seen → ¬ known seen (subnet_text sn) →
  range_order addrOrder (localIpAddresses (dhcpServer w)) → range_order order (subnets (dhcpServer w)) →
  ∃ s', serves s' (λ text, known seen text ∨ text = subnet_text sn)
          (λ x, AHost x ∈ seen ∧ subnet_of_host x ≠ subnet_text sn) ∧
    SubnetReconcile addrOrder order orders w req (Found sn) =
      (srv ← add_saved_hosts orders 0 s' (default [] (unknownHosts (objects w) !! subnet_text sn));
       Ret (no_requeue, None,
       {| objects := {| knownSubnets := <[subnet_text sn := ToSubnet sn]> (knownSubnets (objects w));
                        unknownHosts := delete (subnet_text sn) (unknownHosts (objects w));
                        knownListens := knownListens (objects w);
                        knownLeases := knownLeases (objects w) |};
          dhcpServer := srv; hostsCache := hostsCache w;
          SubnetCache := <[key_Name req := subnet_text sn]> (SubnetCache w);
          SubnetToObjectKey := <[subnet_text sn := subnet_key sn]> (SubnetToObjectKey w) |})).
Proof.
  intros Hsn [Hk Hw Hs] Hkn Ha Ho.
  assert (localIpAddresses (dhcpServer w) = addrs) as El by apply Hs. rewrite El in Ha.
  destruct (AddSubnet_serves _ _ _ addrOrder order sn Hs Ha Ho Hsn Hkn) as (s' & Es & Hs').
  assert (knownSubnets (objects w) !! subnet_text sn = None) as En.
  { destruct (_ !! _) eqn:E; [|done]. destruct Hkn. apply Hk. by eexists. }
  exists s'. split; [done|]. exact (SubnetReconcile_new addrOrder order orders w req sn s' En Es).
Qed.

Lemma arrived_subnet addrOrder order orders w req sn res seen :
  Forall declared (seen ++ [ASubnet sn]) → arrived w seen → ¬ known seen (subnet_text sn) →
  range_order addrOrder (localIpAddresses (dhcpServer w)) → range_order order (subnets (dhcpServer w)) →
  SubnetReconcile addrOrder order orders w req (Found sn) = Ret res →
  (∀ i, range_order (orders i) (subnets (dhcpServer res.2))) →
  arrived res.2 (seen ++ [ASubnet sn]).
Proof.
  intros [Hd [Hsn _]%Forall_cons_1]%Forall_app Harr Hkn Ha Ho Hres Hos.
  destruct (arrived_new addrOrder order orders w req sn seen Hsn Harr Hkn Ha Ho) as (s' & Hs' & Eq).
  destruct Harr as [Hk Hw Hs]. rewrite Eq in Hres.
  set (hs := default [] (unknownHosts (objects w) !! subnet_text sn)) in *.
  destruct (add_saved_hosts orders 0 s' hs) as [srv| |] eqn:Esv; [|done..].
  cbn [mbind outcome_bind] in Hres. injection Hres as <-. cbn [snd dhcpServer] in Hos |- *. split.
  - intros text. cbn [objects knownSubnets]. rewrite known_subnet, lookup_insert, <- Hk. case_decide; subst.
    + split; [by right|by eexists].
    + naive_solver.
  - intros text x. cbn [objects unknownHosts]. rewrite known_subnet, elem_of_host_subnet, lookup_delete.
    case_decide; subst; cbn [from_option id].
    + split; [by intros ?%not_elem_of_nil|naive_solver].
    + rewrite Hw. naive_solver.
  - cbn [dhcpServer].
    apply (serves_iff _ (λ text, known seen text ∨ text = subnet_text sn) _
      (λ x, (AHost x ∈ seen ∧ subnet_of_host x ≠ subnet_text sn) ∨ x ∈ hs)); [intros text; by rewrite known_subnet| |].
    2: { apply (add_saved_hosts_serves s' _ _ orders 0 hs srv Hs'); [| | |exact Esv].
      - intros i k. rewrite (range_order_elem _ _ _ (Hos i)), (add_saved_hosts_dom _ _ _ _ _ _ Esv). apply Hs'.
      - intros y [Hy _]. exact (proj1 (Forall_forall _ _) Hd _ (proj1 (list_elem_of_In _ _) Hy)).
      - intros y (Hy & -> & _)%Hw. split; [|by right].
        exact (proj1 (Forall_forall _ _) Hd _ (proj1 (list_elem_of_In _ _) Hy)). }
    intros text x _. unfold hosts_of. split; intros (dh & Hdh & ? & ?); exists dh; (split; [|done]).
    + apply elem_of_host_subnet. destruct Hdh as [[? _]|(? & _)%Hw]; done.
    + apply elem_of_host_subnet in Hdh. destruct (decide (subnet_of_host dh = subnet_text sn)); [right|by left].
      by apply Hw.
Qed.

Lemma arrival_arrived w o w' seen :
  Forall declared (seen ++ [o]) → arrived w seen → arrival w o w' → arrived w' (seen ++ [o]).
Proof.
  intros Hd Hw Ha. destruct Ha as [order req x Ho|addrOrder order orders req sn res Ha Ho Hres Hos].
  - destruct (knownSubnets (objects w) !! subnet_of_host x) as [sub|] eqn:E.
    + apply arrived_host; [done..|]. apply (ar_known _ _ Hw). by eexists.
    + apply arrived_waits; [done|]. rewrite <- (ar_known _ _ Hw), E. by intros [? ?].
  - destruct (knownSubnets (objects w) !! subnet_text sn) as [sub|] eqn:E.
    + destruct (arrived_again addrOrder order orders w req sn seen Hw) as (res' & E' & _ & Ha');
        [apply (ar_known _ _ Hw); by eexists|]. rewrite Hres in E'. by injection E' as <-.
    + apply (arrived_subnet addrOrder order orders w req sn res); try done.
      rewrite <- (ar_known _ _ Hw), E. by intros [? ?].
Qed.

Lemma run_arrived w evs w' seen :
  Forall declared (seen ++ evs) → arrived w seen → run arrival w evs w' → arrived w' (seen ++ evs).
Proof.
  intros Hd Hw Hr. revert seen Hd Hw. induction Hr as [w|w w1 w2 o evs Ha _ IH]; intros seen Hd Hw.
  - by rewrite app_nil_r.
  - replace (seen ++ o :: evs) with ((seen ++ [o]) ++ evs) in * by (by rewrite <- app_assoc).
    apply IH; [done|]. apply Forall_app in Hd as [Hd _]. by eapply arrival_arrived.
Qed.

(** ** When the program lives through the arrivals *)

(** The next object can arrive, if the logger writes everything, or if no host waits
    for it. *)
Lemma arrival_exists w seen o :
  Forall declared (seen ++ [o]) → arrived w seen →
  (production_log Klog ∨
   ∀ sn x, o = ASubnet sn → AHost x ∈ seen → subnet_of_host x = subnet_text sn → known seen (subnet_text sn)) →
  ∃ w', arrival w o w'.
Proof.
  intros [_ [Ho _]%Forall_cons_1]%Forall_app Harr Hlog. destruct o as [x|sn].
  { eexists. apply (arrival_host w (map_to_list (subnets (dhcpServer w))).*1 (host_key x) x), range_order_self. }
  pose (o1 := (map_to_list (localIpAddresses (dhcpServer w))).*1).
  pose (o2 := (map_to_list (subnets (dhcpServer w))).*1).
  destruct (knownSubnets (objects w) !! subnet_text sn) as [sub|] eqn:E.
  - assert (known seen (subnet_text sn)) as Hkn by (apply (ar_known _ _ Harr); by eexists).
    destruct (arrived_again o1 o2 (λ _, o2) w (subnet_key sn) sn seen Harr Hkn) as (res & Hres & Ed & _).
    exists res.2. eapply arrival_subnet; [apply range_order_self..|exact Hres|]. intros i. rewrite Ed. apply range_order_self.
  - pose (o3 := (map_to_list (<[subnet_text sn := ToSubnet sn]> (subnets (dhcpServer w)))).*1).
    assert (¬ known seen (subnet_text sn)) as Hkn by (rewrite <- (ar_known _ _ Harr), E; by intros [? ?]).
    destruct (arrived_new o1 o2 (λ _, o3) w (subnet_key sn) sn seen Ho Harr Hkn) as (s' & Hs' & Eq);
      [apply range_order_self..|].
    assert (∃ srv, add_saved_hosts (λ _, o3) 0 s' (default [] (unknownHosts (objects w) !! subnet_text sn)) = Ret srv)
      as [srv Esv].
    { destruct Hlog as [HK|Hno]; [by apply add_saved_hosts_production|].
      destruct (default [] (unknownHosts (objects w) !! subnet_text sn)) as [|x hs] eqn:Eh; [by eexists|]. exfalso.
      destruct (proj1 (ar_waiting _ _ Harr (subnet_text sn) x)) as (Hx & Et & _); [rewrite Eh; by left|].
      by apply Hkn, (Hno sn x). }
    rewrite Esv in Eq. cbn [mbind outcome_bind] in Eq.
    eexists. eapply arrival_subnet; [apply range_order_self..|exact Eq|]. intros i. cbn [snd dhcpServer].
    eapply range_order_dom; [apply range_order_self|]. intros text.
    rewrite (add_saved_hosts_dom _ _ _ _ _ text Esv). destruct Hs' as (_ & HK' & _). rewrite HK', lookup_insert.
    destruct (ar_serves _ _ Harr) as (_ & HK & _). case_decide; subst.
    + split; [by right|by eexists].
    + rewrite HK. naive_solver.
Qed.

(** In the development mode a subnet for which a host waits does not arrive. *)
Lemma waiting_blocks w seen sn x w' :
  development_log Klog → Forall declared (seen ++ [ASubnet sn]) → arrived w seen → AHost x ∈ seen →
  ¬ known seen (subnet_text sn) → subnet_of_host x = subnet_text sn → ¬ arrival w (ASubnet sn) w'.
Proof.
  intros HK Hd Harr Hx Hkn Et Ha. inversion Ha as [|addrOrder order orders req ? res H1 H2 Hres Hos]; subst.
  pose proof Hd as [Hds [Hsn _]%Forall_cons_1]%Forall_app.
  destruct (arrived_new addrOrder order orders w req sn seen Hsn Harr Hkn H1 H2) as (s' & Hs' & Eq).
  rewrite Eq in Hres. set (hs := default [] _) in *.
  destruct (add_saved_hosts_development orders 0 s' hs HK) as [[_ [why E]]|[Hno E]]; rewrite E in Hres; [done|].
  cbn [mbind outcome_bind] in Hres. injection Hres as <-. cbn [snd dhcpServer] in Hos.
  assert (x ∈ hs) as Hin by (by apply (ar_waiting _ _ Harr)).
  apply list_elem_of_lookup in Hin as [j Hj]. apply Hno. exists j, x. split; [done|].
  destruct (host_enters s' _ _ (orders (0 + j)%nat) x Hs') as [sub ->]; [| |by right|by eexists].
  - intros k. rewrite (range_order_elem _ _ _ (Hos _)). apply Hs'.
  - exact (proj1 (Forall_forall _ _) Hds _ (proj1 (list_elem_of_In _ _) Hx)).
Qed.

Lemma waiting_blocks_run w seen x evs w' :
  development_log Klog → run arrival w evs w' → Forall declared (seen ++ evs) → arrived w seen → AHost x ∈ seen →
  ¬ known seen (subnet_of_host x) → ¬ known evs (subnet_of_host x).
Proof.
  intros HK Hr. revert seen. induction Hr as [w|w w1 w2 o evs Ha _ IH]; intros seen Hd Harr Hx Hkn.
  { by intros (sn & ?%not_elem_of_nil & _). }
  assert (Forall declared (seen ++ [o]) ∧ Forall declared ((seen ++ [o]) ++ evs)) as [Hd1 Hd2].
  { rewrite <- app_assoc. split; [|exact Hd]. apply Forall_app in Hd as [? [? _]%Forall_cons_1].
    apply Forall_app. split; [done|by apply Forall_singleton]. }
  pose proof (arrival_arrived _ _ _ _ Hd1 Harr Ha) as Harr1.
  assert (¬ known (seen ++ [o]) (subnet_of_host x)) as Hkn1.
  { destruct o as [y|sn]; [by rewrite known_host|]. rewrite known_subnet. intros [?|Et]; [done|].
    rewrite Et in Hkn. by eapply waiting_blocks. }
  intros (sn & [E|Hin]%elem_of_cons & Et).
  - subst o. apply Hkn1. rewrite known_subnet. by right.
  - apply (IH (seen ++ [o])); [done|done|apply elem_of_app; by left|done|]. by exists sn.
Qed.

(** No host comes before its subnet, if its subnet is declared. *)
Definition hosts_follow (evs : list object) : Prop :=
  ∀ pre x post, evs = pre ++ AHost x :: post → (∃ sn, sn ∈ subs ∧ subnet_text sn = subnet_of_host x) →
    known pre (subnet_of_host x).

Lemma run_follows w evs w' :
  development_log Klog → arrived w [] → Forall declared evs → (∀ o, declared o → o ∈ evs) →
  run arrival w evs w' → hosts_follow evs.
Proof.
  intros HK Harr Hd Hall Hr pre x post -> (sn & Hsn & Et).
  destruct (known_em pre (subnet_of_host x)) as [|Hkn]; [done|].
  replace (pre ++ AHost x :: post) with ((pre ++ [AHost x]) ++ post) in * by (by rewrite <- app_assoc).
  apply run_app in Hr as (w1 & Hr1 & Hr2). exfalso.
  pose proof Hd as [Hd1 _]%Forall_app.
  apply (waiting_blocks_run w1 (pre ++ [AHost x]) x post w'); [done|done|done| | | |].
  - exact (run_arrived _ _ _ [] Hd1 Harr Hr1).
  - apply elem_of_app. right. by left.
  - by rewrite known_host.
  - exists sn. split; [|done]. pose proof (Hall (ASubnet sn) Hsn) as Hin.
    apply elem_of_app in Hin as [[Hin|Hin%list_elem_of_singleton]%elem_of_app|?]; [|done..].
    destruct Hkn. by exists sn.
Qed.

(** A run goes on as long as objects arrive that can. *)
Lemma run_exists evs w seen :
  Forall declared (seen ++ evs) → arrived w seen → production_log Klog ∨ hosts_follow (seen ++ evs) →
  ∃ w', run arrival w evs w'.
Proof.
  revert w seen. induction evs as [|o evs IH]; intros w seen Hd Harr Hlog; [by eexists; apply run_nil|].
  replace (seen ++ o :: evs) with ((seen ++ [o]) ++ evs) in * by (by rewrite <- app_assoc).
  pose proof Hd as [Hd1 _]%Forall_app. destruct (arrival_exists w seen o Hd1 Harr) as [w1 Ha].
  { destruct Hlog as [?|Hf]; [by left|right]. intros sn x -> Hx Et.
    apply list_elem_of_split in Hx as (pre & post & ->). rewrite <- Et.
    destruct (Hf pre x (post ++ ASubnet sn :: evs)) as (sn' & ? & ?).
    - by rewrite <- !app_assoc.
    - exists sn. split; [|done]. by apply Forall_app in Hd1 as [_ [? _]%Forall_cons_1].
    - exists sn'. split; [apply elem_of_app; by left|done]. }
  destruct (IH w1 (seen ++ [o]) Hd (arrival_arrived _ _ _ _ Hd1 Harr Ha) Hlog) as [w' Hr].
  exists w'. by eapply run_cons.
Qed.

Lemma start_arrived s : localIpAddresses s = addrs → subnets s = ∅ → arrived (NewControllers s) [].
Proof.
  intros Hl Hs. split.
  - intros text. cbn. rewrite lookup_empty. split; [by intros [? ?]|]. by intros (? & ?%not_elem_of_nil & _).
  - intros text x. cbn [NewControllers NewObjectsCache objects unknownHosts]. rewrite lookup_empty.
    cbn [from_option id]. split; [by intros ?%not_elem_of_nil|]. by intros [?%not_elem_of_nil _].
  - split_and!; [done|..].
    + intros text. cbn [NewControllers dhcpServer]. rewrite Hs, lookup_empty.
      split; [by intros [? ?]|]. by intros (? & ?%not_elem_of_nil & _).
    + intros text sub. cbn [NewControllers dhcpServer]. by rewrite Hs, lookup_empty.
Qed.

(** The state that the cluster declares: the server has the declared subnets, as
    they initialise; under a key of a subnet there is the lease of the declared
    host of that subnet with this hardware address or address, and nothing else;
    the hosts without a subnet wait. *)
Definition as_declared (w : controllers) : Prop :=
  (∀ text, is_Some (subnets (dhcpServer w) !! text) ↔ ∃ sn, sn ∈ subs ∧ subnet_text sn = text) ∧
  (∀ sn, sn ∈ subs → ∃ cfg sub, initialised sn cfg ∧ subnets (dhcpServer w) !! subnet_text sn = Some sub ∧
    sub = set_leaseCache (Subnet_leaseCache sub) cfg ∧
    ∀ key l, (Subnet_leaseCache sub !! key ≫= λ p, leases (dhcpServer w) !! p) = Some l ↔
      ∃ x, x ∈ hosts ∧ subnet_of_host x = subnet_text sn ∧
        (key = hs_MAC (host_Spec x) ∨ key = host_ip (ToDHCPHost x)) ∧ l = host_lease cfg (ToDHCPHost x)) ∧
  (∀ text x, x ∈ default [] (unknownHosts (objects w) !! text) ↔
    x ∈ hosts ∧ subnet_of_host x = text ∧ ¬ ∃ sn, sn ∈ subs ∧ subnet_text sn = text).

Lemma arrived_all w evs :
  Forall declared evs → (∀ o, declared o → o ∈ evs) → arrived w evs → as_declared w.
Proof.
  intros Hd Hall [Hk Hw Hs].
  assert (∀ text, known evs text ↔ ∃ sn, sn ∈ subs ∧ subnet_text sn = text) as Ek.
  { intros text. split; intros (sn & Hsn & ?); exists sn; (split; [|done]); [|by apply Hall].
    exact (proj1 (Forall_forall _ _) Hd _ (proj1 (list_elem_of_In _ _) Hsn)). }
  assert (∀ x, AHost x ∈ evs ↔ x ∈ hosts) as Eh.
  { intros x. split; [|by apply (Hall (AHost x))]. intros Hx.
    exact (proj1 (Forall_forall _ _) Hd _ (proj1 (list_elem_of_In _ _) Hx)). }
  destruct Hs as (_ & HK & Hs). split_and!.
  - intros text. by rewrite HK, Ek.
  - intros sn Hsn. destruct (proj2 (HK (subnet_text sn))) as [sub Hsub]; [apply Ek; by exists sn|].
    destruct (Hs _ _ Hsub) as (sn' & cfg & Hsn' & Et & Hi & Ec & Hh).
    apply (ck_texts Hck) in Et; [|done|done]. subst sn'.
    exists cfg, sub. split_and!; [done..|]. intros key l.
    assert (∀ x, hosts_of (λ x, AHost x ∈ evs) (subnet_text sn) x ↔ hosts_of (λ x, x ∈ hosts) (subnet_text sn) x) as E.
    { intros x. unfold hosts_of. by setoid_rewrite Eh. }
    rewrite (holds_lookup _ _ cfg _ key l (ck_hosts Hck (subnet_text sn)) (holds_iff _ _ _ _ _ E Hh)).
    split; [intros (x & (dh & ? & ? & ->) & ? & ->)|intros (dh & ? & ? & ? & ->)]; [by exists dh|].
    exists (ToDHCPHost dh). split_and!; [by exists dh|done|done].
  - intros text x. by rewrite Hw, Eh, Ek.
Qed.
End cluster.


(** ** An example: a host, its subnet, and a host without a subnet *)

Definition lan_addrs : LocalIPAddresses := {[ "br1" := [ParseIP "10.3.1.1"] ]}.
Definition lan_server : Server := {|
  listeners := ∅; subnets := ∅; localIpAddresses := lan_addrs; serverIds := server_ids ["br1"] lan_addrs;
  leases := []; closed := [] |}.

Definition lost_host : DHCPHost := {|
  host_key := {| key_Namespace := "default"; key_Name := "lost" |};
  host_Spec := {| hs_Subnet := "10.9.9.0/24"; hs_MAC := "bb:bb:bb:bb:bb:bb"; hs_IP := "10.9.9.9";
    hs_Gateway := ""; hs_HostName := ""; hs_DNS := []; hs_Options := []; hs_ServerHostName := "";
    hs_BootFileName := ""; hs_LeaseTime := 0 |} |}.

Definition lan_subs : list DHCPSubnet := [cr_subnet].
Definition lan_hosts : list DHCPHost := [cr_host; lost_host].

(** The printer comes before its subnet, and again after it. *)
Definition lan_arrivals : list object :=
  [AHost cr_host; AHost lost_host; ASubnet cr_subnet; AHost cr_host; ASubnet cr_subnet].

Lemma lan_order order : range_order order lan_addrs → order = ["br1"].
Proof. intros Ho. apply Permutation_singleton_r. rewrite Ho. vm_compute. reflexivity. Qed.

Lemma lan_init cfg : initialised lan_addrs cr_subnet cfg → InitializeSubnet ["br1"] (ToSubnet cr_subnet) lan_addrs = Ok cfg.
Proof. by intros (order & ->%lan_order & ?). Qed.

Lemma lan_host text x :
  (∃ dh, dh ∈ lan_hosts ∧ subnet_of_host dh = text ∧ x = ToDHCPHost dh) →
  (text = "10.3.1.0/24" ∧ x = ToDHCPHost cr_host) ∨ (text = "10.9.9.0/24" ∧ x = ToDHCPHost lost_host).
Proof.
  intros (dh & [->|[->|[]%not_elem_of_nil]%elem_of_cons]%elem_of_cons & <- & ->); [by left|by right].
Qed.

Lemma lan_cluster_ok : cluster_ok lan_addrs lan_subs lan_hosts.
Proof.
  split.
  - intros sn order ->%list_elem_of_singleton ->%lan_order. eexists. vm_compute. reflexivity.
  - by intros sn sn' ->%list_elem_of_singleton ->%list_elem_of_singleton.
  - by intros sn sn' cfg cfg' ip ->%list_elem_of_singleton ->%list_elem_of_singleton.
  - intros x sn cfg Hx ->%list_elem_of_singleton Et Hi%lan_init.
    apply elem_of_cons in Hx as [->|[->|[]%not_elem_of_nil]%elem_of_cons]; [|done].
    injection Hi as <-. vm_compute. reflexivity.
  - intros text x y [[Hx ->]|[Hx ->]]%lan_host [[Hy ->]|[Hy ->]]%lan_host; try congruence;
      (split; [done|vm_compute; discriminate]).
Qed.

Lemma lan_declared : Forall (declared lan_subs lan_hosts) lan_arrivals.
Proof. repeat constructor; (by left) || (right; by left) || by apply list_elem_of_singleton. Qed.

(** The arrivals with the subnet first. *)
Definition lan_follow : list object :=
  [ASubnet cr_subnet; AHost cr_host; AHost lost_host; ASubnet cr_subnet].

