(* ===== verification/Program.v ===== *)
(** * [main.go]: the program

    How [main] builds the reconcilers, registers them with the framework's
    manager, makes the server and connects it to them, and what the program then
    does with the events the manager delivers.  The framework (flags, manager,
    health checks) is a record of what it answers.

    The program makes one objects cache and one server, so a pointer to one of them
    is a boolean: whether it is set.  A reconciler that is registered is shared
    with the manager: fields that [main] sets later are seen by it. *)

From S2P Require Import Prelude GoStrings GoNet Errors IPv4 Types Dhcpv4 Subnet.
From S2P Require Import LeaseCache Pool SubnetProps SubnetNet Server ServerProps.
From S2P Require Import Responses ServerGuarantees ServerReach ApiTypes Controllers.
From S2P Require Import ControllersProps.
Open Scope string_scope.
Open Scope list_scope.
Open Scope Z_scope.

(** ** The reconcilers *)

Record DHCPServerReconciler := { sr_DHCPServer : bool; sr_cache : bool }.
Record DHCPSubnetReconciler := { nr_DHCPServer : bool; nr_knownObjects : bool }.

(** [hostsCache] is a map, nil unless made.  (The two maps of the subnet reconciler
    are in [controllers].) *)
Record DHCPHostReconciler := {
  hr_DHCPServer : bool;
  hr_hostsCache : option (gmap string Host);
  hr_knownObjects : bool;
}.

Definition NewDHCPServerReconciler (cache : bool) : DHCPServerReconciler := {|
  sr_DHCPServer := false; sr_cache := cache |}.

Definition NewDHCPSubnetReconciler (storage : bool) : DHCPSubnetReconciler := {|
  nr_DHCPServer := false; nr_knownObjects := storage |}.

Definition NewDHCPHostReconciler (knownObjects : bool) : DHCPHostReconciler := {|
  hr_DHCPServer := false; hr_hostsCache := None; hr_knownObjects := knownObjects |}.

Inductive reconciler :=
  | RServer (r : DHCPServerReconciler)
  | RSubnet (r : DHCPSubnetReconciler)
  | RHost (r : DHCPHostReconciler).

(** [r.DHCPServer = dhcpServer] *)
Definition set_DHCPServer (r : reconciler) : reconciler :=
  match r with
  | RServer r => RServer {| sr_DHCPServer := true; sr_cache := sr_cache r |}
  | RSubnet r => RSubnet {| nr_DHCPServer := true; nr_knownObjects := nr_knownObjects r |}
  | RHost r => RHost {| hr_DHCPServer := true; hr_hostsCache := hr_hostsCache r;
                        hr_knownObjects := hr_knownObjects r |}
  end.

(** ** [main] *)

(** What the framework and the system answer: the values of the two flags, given
    their defaults; the error, if any, of [NewManager] for them, of the [i]-th
    registration of a controller, and of the two health checks; the local
    addresses, and the order in which the map of them is visited. *)
Record framework := {
  fw_flags : string → string → string * string;
  fw_NewManager : string → string → option error;
  fw_Complete : nat → option error;
  fw_AddHealthzCheck : option error;
  fw_AddReadyzCheck : option error;
  fw_GetLocalAddresses : result error LocalIPAddresses;
  fw_order : list string;
}.

(** The registered reconcilers, in order, and the state they work on. *)
Record program := { prog_reconcilers : list reconciler; prog_world : controllers }.

(** [if err != nil { ...; os.Exit(code) }] *)
Definition or_exit (code : Z) (err : option error) : result Z () :=
  match err with Some _ => Err code | None => Ok () end.

(** [r.SetupWithManager(mgr)]: the manager's list of controllers grows. *)
Definition SetupWithManager (fw : framework) (r : reconciler) (mgr : list reconciler)
    : result error (list reconciler) :=
  match fw_Complete fw (length mgr) with
  | Some e => Err e
  | None => Ok (mgr ++ [r])
  end.

Definition setup (fw : framework) (r : reconciler) (mgr : list reconciler) : result Z (list reconciler) :=
  match SetupWithManager fw r mgr with Err _ => Err 1 | Ok mgr => Ok mgr end.

(** [main] until the manager starts: the exit code, or the program. *)
Definition main (fw : framework) : outcome (result Z program) :=
  let '(metricsAddr, probeAddr) := fw_flags fw ":8180" ":8181" in
  let registered : result Z (list reconciler) :=
    _ ← or_exit 1 (fw_NewManager fw metricsAddr probeAddr);
    mgr ← setup fw (RServer (NewDHCPServerReconciler true)) [];
    mgr ← setup fw (RSubnet (NewDHCPSubnetReconciler true)) mgr;
    mgr ← setup fw (RHost (NewDHCPHostReconciler true)) mgr;
    mgr ← setup fw (RHost {| hr_DHCPServer := false; hr_hostsCache := None; hr_knownObjects := false |}) mgr;
    _ ← or_exit 1 (fw_AddHealthzCheck fw);
    _ ← or_exit 1 (fw_AddReadyzCheck fw);
    Ok mgr in
  match registered with
  | Err code => Ret (Err code)
  | Ok mgr =>
      let local := match fw_GetLocalAddresses fw with Ok rv => (rv, None) | Err e => (∅, Some e) end in
      dhcpServer ← NewServer (fw_order fw) true true local;
      match dhcpServer with
      | (Some s, None) =>
          let mgr := alter set_DHCPServer 0%nat mgr in
          let mgr := alter set_DHCPServer 1%nat mgr in
          let mgr := alter set_DHCPServer 2%nat mgr in
          Ret (Ok {| prog_reconcilers := mgr; prog_world := NewControllers s |})
      | _ => Ret (Err 2)
      end
  end.

(** ** Events *)

(** An object that was created, changed or deleted, what the API answers when the
    reconciler asks for it, and the orders of the maps that are visited. *)
Inductive event :=
  | HostEvent (order : list string) (req : ObjectKey) (got : get_result DHCPHost)
  | SubnetEvent (addrOrder order : list string) (orders : nat → list string) (req : ObjectKey)
      (got : get_result DHCPSubnet)
  | ServerEvent (factory : string → string → result error socket_id) (addrOrder : list string)
      (orders : nat → list string) (listed : result error (list DHCPSubnet)) (req : ObjectKey)
      (got : get_result DHCPServer).

(** The manager delivers an event to every controller for its kind of object. *)
Definition handles (r : reconciler) (e : event) : bool :=
  match r, e with
  | RHost _, HostEvent _ _ _ => true
  | RSubnet _, SubnetEvent _ _ _ _ _ => true
  | RServer _, ServerEvent _ _ _ _ _ _ => true
  | _, _ => false
  end.

Definition nil_dereference {A} : outcome A := Panic "invalid memory address or nil pointer dereference".

Definition set_hostsCache (m : gmap string Host) (w : controllers) : controllers := {|
  objects := objects w; dhcpServer := dhcpServer w; hostsCache := m;
  SubnetCache := SubnetCache w; SubnetToObjectKey := SubnetToObjectKey w |}.

Section reconcile.
Context `{K : ReconcileLog}.

(** [Reconcile] of a host reconciler, with its own cache of hosts and with pointers
    that may be nil: a method of the objects cache or of the server panics if the
    pointer to it is nil. *)
Definition RHost_Reconcile (r : DHCPHostReconciler) (order : list string) (w : controllers) (req : ObjectKey)
    (got : get_result DHCPHost) : outcome (Result * option error * controllers) :=
  let w := set_hostsCache (default ∅ (hr_hostsCache r)) w in
  let key := key_Namespace req +:+ "/" +:+ key_Name req in
  let calls_cache := match got with Found _ => true | _ => false end in
  let calls_server :=
    match got with
    | Found host => negb (AddHostIfNotKnown (objects w) host).1
    | NotFound => bool_decide (is_Some (hostsCache w !! key))
    | GetError _ => false
    end in
  if calls_cache && negb (hr_knownObjects r) then nil_dereference
  else if calls_server && negb (hr_DHCPServer r) then nil_dereference
  else Ret (HostReconcile order w req got).

Definition RSubnet_Reconcile (r : DHCPSubnetReconciler) (addrOrder order : list string)
    (orders : nat → list string) (w : controllers) (req : ObjectKey) (got : get_result DHCPSubnet)
    : outcome (Result * option error * controllers) :=
  let calls_cache := match got with Found _ => true | _ => false end in
  let calls_server :=
    match got with
    | Found subnet => (AddSubnetIfNotKnown (objects w) (ToSubnet subnet)).1
    | NotFound => bool_decide (is_Some (SubnetCache w !! key_Name req))
    | GetError _ => false
    end in
  if calls_cache && negb (nr_knownObjects r) then nil_dereference
  else if calls_server && negb (nr_DHCPServer r) then nil_dereference
  else SubnetReconcile addrOrder order orders w req got.

(** The server reconciler takes a lock of the cache first. *)
Definition RServer_Reconcile (r : DHCPServerReconciler) (factory : string → string → result error socket_id)
    (addrOrder : list string) (orders : nat → list string) (listed : result error (list DHCPSubnet))
    (w : controllers) (req : ObjectKey) (got : get_result DHCPServer)
    : outcome (Result * option error * controllers) :=
  let calls_server := match got with GetError _ => false | _ => true end in
  if negb (sr_cache r) then nil_dereference
  else if calls_server && negb (sr_DHCPServer r) then nil_dereference
  else Ret (ServerReconcile factory addrOrder orders listed w req got).

Definition reconcile (r : reconciler) (e : event) (w : controllers) : outcome (Result * option error * controllers) :=
  match r, e with
  | RHost r, HostEvent order req got => RHost_Reconcile r order w req got
  | RSubnet r, SubnetEvent addrOrder order orders req got =>
      RSubnet_Reconcile r addrOrder order orders w req got
  | RServer r, ServerEvent factory addrOrder orders listed req got =>
      RServer_Reconcile r factory addrOrder orders listed w req got
  | _, _ => NoReturn
  end.

(** What the server and cache do with the event, if the pointers are good. *)
Definition handled (e : event) (w : controllers) : outcome (Result * option error * controllers) :=
  match e with
  | HostEvent order req got => Ret (HostReconcile order w req got)
  | SubnetEvent addrOrder order orders req got => SubnetReconcile addrOrder order orders w req got
  | ServerEvent factory addrOrder orders listed req got =>
      Ret (ServerReconcile factory addrOrder orders listed w req got)
  end.
End reconcile.

Definition set_world (w : controllers) (p : program) : program := {|
  prog_reconcilers := prog_reconcilers p; prog_world := w |}.

(** [mgr.Start] returned.  [os.Exit] does not run the deferred [dhcpServer.Close]. *)
Definition main_end (order : list string) (err : option error) (p : program) : Z * Server :=
  match err with
  | Some _ => (1, dhcpServer (prog_world p))
  | None => (0, Close order (dhcpServer (prog_world p)))
  end.

Section run.
Context {D : Dhcpv4} {K : ReconcileLog}.

(** The program at work: a reconciler handles an event, or the server answers. *)
Inductive program_step (p : program) : program → Prop :=
  | step_reconcile i r e res :
      prog_reconcilers p !! i = Some r → handles r e = true →
      reconcile r e (prog_world p) = Ret res → program_step p (set_world res.2 p)
  | step_dhcp s :
      server_step (dhcpServer (prog_world p)) s →
      program_step p (set_world (set_dhcpServer s (prog_world p)) p).

(** The program ends when a controller that the event is delivered to panics. *)
Definition crashes (p : program) (e : event) : Prop :=
  ∃ i r why, prog_reconcilers p !! i = Some r ∧ handles r e = true ∧ reconcile r e (prog_world p) = Panic why.

Lemma program_step_reconcilers p p' : rtc program_step p p' → prog_reconcilers p' = prog_reconcilers p.
Proof. induction 1 as [|p p1 p2 Hs _ IH]; [done|]. rewrite IH. by destruct Hs. Qed.

(** A reconciler without a cache of hosts: what it does, when it does not panic. *)
Definition no_hosts (r : reconciler) : Prop :=
  match r with RHost r => hr_hostsCache r = None | _ => True end.

Lemma set_hostsCache_same w : hostsCache w = ∅ → set_hostsCache ∅ w = w.
Proof. destruct w. cbn. by intros ->. Qed.

Lemma reconcile_handled r e w :
  handles r e = true → no_hosts r → hostsCache w = ∅ →
  reconcile r e w = handled e w ∨ reconcile r e w = nil_dereference.
Proof.
  intros He Hn Hw. destruct r as [r|r|r], e; try done; cbn [reconcile handled].
  - unfold RServer_Reconcile. destruct (sr_cache r); cbn [negb]; [|by right].
    destruct (_ && _); [by right|by left].
  - unfold RSubnet_Reconcile. destruct (_ && _); [by right|]. destruct (_ && _); [by right|by left].
  - cbn in Hn. unfold RHost_Reconcile. rewrite Hn. cbn [default]. rewrite set_hostsCache_same by done.
    destruct (_ && _); [by right|]. destruct (_ && _); [by right|by left].
Qed.

Lemma handled_step e w res : handled e w = Ret res → controllers_step w res.2.
Proof.
  destruct e; cbn [handled]; [intros [= <-]; constructor| |intros [= <-]; constructor].
  by apply cs_subnet.
Qed.

(** No step fills the cache of the hosts; so every step is a step of the controllers. *)
Lemma program_step_controllers p p' :
  Forall no_hosts (prog_reconcilers p) → hostsCache (prog_world p) = ∅ → program_step p p' →
  controllers_step (prog_world p) (prog_world p').
Proof.
  intros Hn Hw [i r e res Hi He Hr|s Hs]; [|by apply cs_dhcp].
  pose proof (proj1 (Forall_lookup _ _) Hn i r Hi) as Hri.
  destruct (reconcile_handled r e _ He Hri Hw) as [E|E]; rewrite E in Hr; [|done].
  by apply (handled_step e).
Qed.

Lemma program_reach p p' :
  Forall no_hosts (prog_reconcilers p) → hostsCache (prog_world p) = ∅ → rtc program_step p p' →
  prog_reconcilers p' = prog_reconcilers p ∧ hostsCache (prog_world p') = ∅ ∧
  rtc controllers_step (prog_world p) (prog_world p').
Proof.
  intros Hn Hw. induction 1 as [p|p p1 p2 Hs _ IH]; [by split_and!; [| |apply rtc_refl]|].
  pose proof (program_step_controllers _ _ Hn Hw Hs) as Hc.
  assert (prog_reconcilers p1 = prog_reconcilers p) as E by (by destruct Hs).
  destruct IH as (E2 & Hw2 & Hr); [by rewrite E|by rewrite (controllers_step_hosts _ _ Hc)|].
  split_and!; [congruence|done|]. by eapply rtc_l.
Qed.
End run.

(** ** The start *)

(** The first step that fails, of those before the server is made. *)
Definition setup_fails (fw : framework) : bool :=
  let '(metricsAddr, probeAddr) := fw_flags fw ":8180" ":8181" in
  existsb (λ e : option error, match e with Some _ => true | None => false end)
    [fw_NewManager fw metricsAddr probeAddr; fw_Complete fw 0; fw_Complete fw 1; fw_Complete fw 2;
     fw_Complete fw 3; fw_AddHealthzCheck fw; fw_AddReadyzCheck fw].

Definition wired_reconcilers : list reconciler := [
  RServer {| sr_DHCPServer := true; sr_cache := true |};
  RSubnet {| nr_DHCPServer := true; nr_knownObjects := true |};
  RHost {| hr_DHCPServer := true; hr_hostsCache := None; hr_knownObjects := true |};
  RHost {| hr_DHCPServer := false; hr_hostsCache := None; hr_knownObjects := false |} ].

Lemma main_eq fw :
  main fw =
  if setup_fails fw then Ret (Err 1)
  else match fw_GetLocalAddresses fw with
       | Err _ => Ret (Err 2)
       | Ok addrs => Ret (Ok {| prog_reconcilers := wired_reconcilers; prog_world := NewControllers
           {| listeners := ∅; subnets := ∅; localIpAddresses := addrs;
              serverIds := server_ids (fw_order fw) addrs; leases := []; closed := [] |} |})
       end.
Proof.
  unfold main, setup_fails, setup, SetupWithManager, or_exit. cbn [length app].
  destruct (fw_flags fw ":8180" ":8181") as [metricsAddr probeAddr]. cbn [existsb].
  destruct (fw_NewManager fw _ _); [done|]. cbn.
  destruct (fw_Complete fw 0); [done|]. cbn. destruct (fw_Complete fw 1); [done|]. cbn.
  destruct (fw_Complete fw 2); [done|]. cbn. destruct (fw_Complete fw 3); [done|]. cbn.
  destruct (fw_AddHealthzCheck fw); [done|]. cbn. destruct (fw_AddReadyzCheck fw); [done|]. cbn.
  by destruct (fw_GetLocalAddresses fw).
Qed.

(** The reconcilers that [main] made with the cache and gave the server. *)
Section wired.
Context `{K : ReconcileLog}.

Lemma wired_reconcile i r e w :
  (i < 3)%nat → wired_reconcilers !! i = Some r → handles r e = true → hostsCache w = ∅ →
  reconcile r e w = handled e w.
Proof.
  intros Hi Hr He Hw. destruct i as [|[|[|i]]]; [| | |lia]; injection Hr as <-; destruct e; try done;
    cbn [reconcile handled].
  - unfold RServer_Reconcile. cbn. by rewrite andb_false_r.
  - unfold RSubnet_Reconcile. cbn. by rewrite !andb_false_r.
  - unfold RHost_Reconcile. cbn. rewrite !andb_false_r. by rewrite set_hostsCache_same.
Qed.

(** The one that it did not. *)
Lemma loose_reconcile r order req got w :
  wired_reconcilers !! 3%nat = Some r → hostsCache w = ∅ →
  reconcile r (HostEvent order req got) w =
  match got with Found _ => nil_dereference | _ => Ret (HostReconcile order w req got) end.
Proof.
  intros [= <-] Hw. cbn [reconcile]. unfold RHost_Reconcile. cbn [hr_hostsCache hr_knownObjects hr_DHCPServer].
  cbn [default]. rewrite (set_hostsCache_same w Hw). destruct got; cbn [andb negb]; [done| |done].
  rewrite Hw, lookup_empty. by rewrite bool_decide_eq_false_2 by (intros [? ?]; done).
Qed.

(** An event for a new subnet that the server accepts, while a host waits for the
    subnet that the server, with it, accepts too. *)
Definition subnet_of_waiting_host (e : event) (w : controllers) : Prop :=
  ∃ addrOrder order orders req subnet s,
    e = SubnetEvent addrOrder order orders req (Found subnet) ∧
    let text := sns_Subnet (subnet_Spec subnet) in
    knownSubnets (objects w) !! text = None ∧
    AddSubnet addrOrder order (dhcpServer w) (ToSubnet subnet) = (None, s) ∧
    saved_host_enters orders 0 s (default [] (unknownHosts (objects w) !! text)).

(** The first three reconcilers panic only there, in the development mode. *)
Lemma handled_panics e w :
  development_log K → (∃ why, handled e w = Panic why) ↔ subnet_of_waiting_host e w.
Proof.
  intros HK. split.
  - intros [why E]. destruct e as [?|addrOrder order orders req got|?]; cbn [handled] in E; [done| |done].
    destruct got as [subnet| |]; [|cbn in E; by repeat case_match..].
    destruct (knownSubnets (objects w) !! sns_Subnet (subnet_Spec subnet)) as [sub|] eqn:Ek.
    { destruct (SubnetReconcile_returns addrOrder order orders w req (Found subnet)) as [res E']; [|congruence].
      intros ? [= <-]. by rewrite Ek. }
    destruct (AddSubnet addrOrder order (dhcpServer w) (ToSubnet subnet)) as [[e|] s] eqn:Ea.
    { destruct (SubnetReconcile_returns addrOrder order orders w req (Found subnet)) as [res E']; [|congruence].
      intros ? [= <-] _ s'. by rewrite Ea. }
    rewrite (SubnetReconcile_new _ _ _ _ _ _ _ Ek Ea) in E.
    exists addrOrder, order, orders, req, subnet, s. split_and!; [done..|].
    destruct (add_saved_hosts_development orders 0 s (default [] (unknownHosts (objects w) !!
      sns_Subnet (subnet_Spec subnet))) HK) as [[? _]|[_ Er]]; [done|]. by rewrite Er in E.
  - intros (addrOrder & order & orders & req & subnet & s & -> & Ek & Ea & Hin). cbn [handled].
    rewrite (SubnetReconcile_new _ _ _ _ _ _ _ Ek Ea).
    destruct (add_saved_hosts_development orders 0 s (default [] (unknownHosts (objects w) !!
      sns_Subnet (subnet_Spec subnet))) HK) as [[_ [why ->]]|[? _]]; [by exists why|done].
Qed.
End wired.

(** C38: which events end the program.  If [main] gets to start the manager, with the
    logger in the development mode that [main] asks for, then in every
    state the program reaches, an event makes a reconciler panic if and only if it
    is for a host that exists, or for a subnet that is new and accepted and for which
    a host waits that is then accepted as well.  A host that exists is delivered also to the second
    host reconciler, which has neither an objects cache nor a server; a waiting host is
    logged with a key that has no value.  (Hosts can wait, in the program that a host's
    event ends: the first host reconciler may be done with the event before the second.)
    The other reconcilers do what [Controllers.v] says. *)
Theorem existing_host_crashes (D : Dhcpv4) (K : ReconcileLog) fw p0 p e :
  development_log K → main fw = Ret (Ok p0) → rtc program_step p0 p →
  (crashes p e ↔
     (∃ order req host, e = HostEvent order req (Found host)) ∨ subnet_of_waiting_host e (prog_world p)) ∧
  ∀ i r, (i < 3)%nat → prog_reconcilers p !! i = Some r → handles r e = true →
    reconcile r e (prog_world p) = handled e (prog_world p).
Proof.
  intros HK. rewrite main_eq. destruct (setup_fails fw); [done|].
  destruct (fw_GetLocalAddresses fw) as [addrs|]; [|done]. intros [= <-] Hr.
  apply program_reach in Hr as (E & Hw & _); [|by repeat constructor|done].
  unfold crashes. rewrite E. split.
  - split.
    + intros (i & r & why & Hi & He & Hp). destruct (decide (i < 3)%nat) as [Hlt|Hge].
      { rewrite (wired_reconcile i r e _ Hlt Hi He Hw) in Hp. right. apply (handled_panics e _ HK). by exists why. }
      do 3 (destruct i as [|i]; [lia|]). destruct i as [|i]; [|done]. left.
      assert (∃ order req got, e = HostEvent order req got) as (order & req & got & ->)
        by (injection Hi as <-; destruct e; [by eauto|done|done]).
      rewrite (loose_reconcile _ _ _ _ _ Hi Hw) in Hp. destruct got as [host| |]; [by eauto|done|done].
    + intros [(order & req & host & ->)|Hs].
      * eexists 3%nat, _, _. split_and!; [reflexivity|done|].
        by rewrite (loose_reconcile _ _ _ _ _ eq_refl Hw).
      * destruct (proj2 (handled_panics e _ HK) Hs) as [why Hp].
        assert (handles (RSubnet {| nr_DHCPServer := true; nr_knownObjects := true |}) e = true) as He
          by (by destruct Hs as (? & ? & ? & ? & ? & ? & -> & _)).
        eexists 1%nat, _, why. split_and!; [reflexivity|done|].
        by rewrite (wired_reconcile 1 _ e _ ltac:(lia) eq_refl He Hw).
  - intros i r Hlt Hi He. by apply (wired_reconcile i).
Qed.

(** ** An example *)

Definition good_framework : framework := {|
  fw_flags metrics probe := (metrics, probe);
  fw_NewManager _ _ := None; fw_Complete _ := None; fw_AddHealthzCheck := None; fw_AddReadyzCheck := None;
  fw_GetLocalAddresses := Ok {[ "br1" := [ParseIP "10.3.1.1"] ]};
  fw_order := ["br1"] |}.

Definition lan_event : event := SubnetEvent ["br1"] [] (λ _, ["10.3.1.0/24"]) (subnet_key cr_subnet) (Found cr_subnet).
Definition printer_event : event := HostEvent ["10.3.1.0/24"] (host_key cr_host) (Found cr_host).

Definition good_start : program :=
  match main good_framework with
  | Ret (Ok p) => p
  | _ => {| prog_reconcilers := []; prog_world := start |}
  end.

(** The printer came first, to the first host reconciler. *)
Definition printer_waits : program :=
  set_world (HostReconcile ["10.3.1.0/24"] (prog_world good_start) (host_key cr_host) (Found cr_host)).2 good_start.

(** Any event for the printer ends the program, at the start the event for its subnet does
    not, and while the printer waits it does. *)
Lemma existing_host_crashes_witness :
  crashes (K := zap_log true) good_start printer_event ∧ ¬ crashes (K := zap_log true) good_start lan_event ∧
  crashes (K := zap_log true) printer_waits lan_event.
Proof.
  assert (main good_framework = Ret (Ok good_start)) as Hm by (unfold good_start; rewrite main_eq; reflexivity).
  assert (rtc (program_step (D := rfc_lib) (K := zap_log true)) good_start printer_waits) as Hr.
  { apply rtc_once, (step_reconcile good_start 2%nat
      (RHost {| hr_DHCPServer := true; hr_hostsCache := None; hr_knownObjects := true |}) printer_event
      (HostReconcile ["10.3.1.0/24"] (prog_world good_start) (host_key cr_host) (Found cr_host))); reflexivity. }
  split_and!.
  - apply (existing_host_crashes rfc_lib (zap_log true) _ _ _ printer_event zap_log_development Hm (rtc_refl _ _)).
    left. by do 3 eexists.
  - intros Hc. apply (existing_host_crashes rfc_lib (zap_log true) _ _ _ lan_event zap_log_development Hm (rtc_refl _ _))
      in Hc as [(? & ? & ? & ?)|(a & o & os & rq & sn & s & [= <- <- <- <- <-] & _ & _ & j & x & Hj & _)]; [done|].
    vm_compute in Hj. by destruct j.
  - apply (existing_host_crashes rfc_lib (zap_log true) _ _ _ lan_event zap_log_development Hm Hr). right.
    eexists _, _, _, _, _, _. split; [reflexivity|]. split_and!; [vm_compute; reflexivity..|].
    exists 0%nat, cr_host. split; [vm_compute; reflexivity|]. eexists. vm_compute. reflexivity.
Defined.
