(* ===== verification/Persist.v ===== *)
(** * What is sent is recorded in the cluster

    The request processor and the controllers together: the callback that the
    processor saves a batch with is the subnet reconciler's [CallbackSaveLeases],
    which reads and updates objects of the cluster; meanwhile the reconcilers
    change the server and the map of objects. *)

From S2P Require Import Prelude GoStrings GoNet Errors IPv4 Types Dhcpv4 Subnet.
From S2P Require Import LeaseCache Pool SubnetProps SubnetNet Server ServerProps.
From S2P Require Import Responses ServerGuarantees ServerReach RequestProcessor Pipeline.
From S2P Require Import ApiTypes Controllers ControllersProps Program.
Open Scope string_scope.
Open Scope list_scope.
Open Scope Z_scope.

(** A batch that was saved: the map of objects at that time, the responses, the time,
    and the objects as they were written. *)
Record save := {
  sv_keys : gmap string ObjectKey;
  sv_batch : list Response;
  sv_now : Time;
  sv_updated : list DHCPSubnet;
}.

(** The state: the controllers, one listener's processor, and the batches that were
    saved so far.  The server is the processor's; the controllers' is the same. *)
Record daemon := { d_ctrl : controllers; d_pipe : pipeline; d_saves : list save }.

Definition d_world (d : daemon) : controllers := set_dhcpServer (server (d_pipe d)) (d_ctrl d).

Definition set_server (s : Server) (p : pipeline) : pipeline := {|
  dhcpRequestChan := dhcpRequestChan p; worker := worker p; responseChan := responseChan p;
  processor := processor p; server := s; handed := handed p; events := events p |}.

(** The batches that the callback accepted, in order. *)
Definition saved_batches (evs : list rp_event) : list (list Response) :=
  omap (λ e, match e with Saved rs true => Some rs | _ => None end) evs.

Section daemon.
Context {D : Dhcpv4} {K : ReconcileLog}.

Inductive daemon_step (d : daemon) : daemon → Prop :=
  (* the goroutines of the listener, except for the call of the callback *)
  | ds_pipe p :
      pipeline_step (d_pipe d) p → saved_batches (events p) = saved_batches (events (d_pipe d)) →
      daemon_step d {| d_ctrl := d_ctrl d; d_pipe := p; d_saves := d_saves d |}
  (* the callback, with what the API answers: an object under the key that was asked for *)
  | ds_save get update now order responses updated err chan st evs :
      processor (d_pipe d) = Selecting responses → responseChan (d_pipe d) = [] → responses ≠ [] →
      (∀ i key subnet, get i key = Ok subnet → subnet_key subnet = key) →
      range_order order (group_leases (leases (server (d_pipe d))) responses) →
      CallbackSaveLeases get update now order (d_world d) responses = (updated, err) →
      rp_step (bool_decide (err = None)) [] false (Selecting responses) = Some (chan, st, evs) →
      daemon_step d {|
        d_ctrl := d_ctrl d;
        d_pipe := {| dhcpRequestChan := dhcpRequestChan (d_pipe d); worker := worker (d_pipe d);
                     responseChan := chan; processor := st; server := server (d_pipe d);
                     handed := handed (d_pipe d); events := events (d_pipe d) ++ evs |};
        d_saves := d_saves d ++ match err with
                                | None => [ {| sv_keys := SubnetToObjectKey (d_ctrl d); sv_batch := responses;
                                               sv_now := now; sv_updated := updated |} ]
                                | Some _ => []
                                end |}
  (* a reconciler that returns, for an object that makes sense to the server *)
  | ds_reconcile e res :
      handled e (d_world d) = Ret res → rtc server_step (server (d_pipe d)) (dhcpServer res.2) →
      daemon_step d {| d_ctrl := res.2;
                       d_pipe := set_server (dhcpServer res.2) (d_pipe d);
                       d_saves := d_saves d |}.

(** The status of an object of the batch has an address for the client of the
    response: that of a response to the same client in the same batch. *)
Definition recorded (h : lease_store) (sv : save) (r : Response) : Prop :=
  ∀ l key, h !! Response_Lease r = Some l → sv_keys sv !! Lease_Subnet l = Some key →
  ∃ obj r' l', obj ∈ sv_updated sv ∧ subnet_key obj = key ∧
    r' ∈ sv_batch sv ∧ h !! Response_Lease r' = Some l' ∧ Lease_MAC l' = Lease_MAC l ∧
    default ∅ (status_Leases (subnet_Status obj)) !! Lease_MAC l =
      Some {| V1Lease_IP := IP_String (Lease_IP l'); V1Lease_UpdatedAt := sv_now sv |}.

(** The leases of the batch exist; then what is recorded stays recorded. *)
Definition save_ok (h : lease_store) (sv : save) : Prop :=
  Forall (λ r, is_Some (h !! Response_Lease r) ∧ recorded h sv r) (sv_batch sv).

Lemma save_ok_mono h h' sv : store_le h h' → save_ok h sv → save_ok h' sv.
Proof.
  intros Hle Hok. unfold save_ok in *. rewrite Forall_forall in *. intros r Hr.
  destruct (Hok r Hr) as [[l Hl] Hrec]. destruct (Hle _ _ Hl) as (l1 & Hl1 & B).
  split; [by eexists|]. intros l2 key Hl2 Hk. rewrite Hl1 in Hl2. injection Hl2 as <-.
  destruct B as (Em & Eip & Es & _). rewrite Es in Hk.
  destruct (Hrec l key Hl Hk) as (obj & r' & l' & Hobj & Hkey & Hr' & Hl' & Em' & Est).
  destruct (Hle _ _ Hl') as (l3 & Hl3 & (Em3 & Eip3 & _)).
  exists obj, r', l3. split_and!; [done..|congruence|]. by rewrite Em, Eip3.
Qed.

(** One call of the callback. *)
Lemma CallbackSaveLeases_recorded get update now order w responses updated :
  let h := leases (dhcpServer w) in
  (∀ i key subnet, get i key = Ok subnet → subnet_key subnet = key) →
  range_order order (group_leases h responses) → Forall (λ r, is_Some (h !! Response_Lease r)) responses →
  CallbackSaveLeases get update now order w responses = (updated, None) →
  save_ok h {| sv_keys := SubnetToObjectKey w; sv_batch := responses; sv_now := now; sv_updated := updated |}.
Proof.
  intros h Hget Ho Hex Hc. unfold save_ok. rewrite Forall_forall in *. intros r Hr. cbn in Hr.
  split; [by apply Hex|]. intros l key Hl Hk. cbn [sv_keys sv_batch sv_now sv_updated] in *.
  assert (l ∈ batch h responses (Lease_Subnet l)) as Hb.
  { apply list_elem_of_filter. split; [done|]. apply list_elem_of_fmap. exists r.
    split; [symmetry; exact (deref_Some _ _ _ Hl)|by apply list_elem_of_In]. }
  destruct (CallbackSaveLeases_known get update now order w responses updated (Lease_Subnet l) key Ho Hc Hk)
    as (i & subnet & Hg & Hin); [fold h; intros E; rewrite E in Hb; by apply not_elem_of_nil in Hb|].
  fold h in Hin.
  pose proof (save_leases_spec now subnet (batch h responses (Lease_Subnet l)) (Lease_MAC l)) as Hs.
  destruct (list.last (filter (λ x, Lease_MAC x = Lease_MAC l) (batch h responses (Lease_Subnet l)))) as [l'|] eqn:El.
  - apply list.last_Some_elem_of, list_elem_of_filter in El as [Em [_ Hl']%list_elem_of_filter].
    apply list_elem_of_fmap in Hl' as (r' & -> & Hr'). apply list_elem_of_In in Hr'.
    destruct (Hex r' Hr') as [l2 Hl2]. pose proof (deref_Some _ _ _ Hl2) as E2.
    exists (save_leases now subnet (batch h responses (Lease_Subnet l))), r', (deref h (Response_Lease r')).
    split_and!; [done|exact (Hget i key subnet Hg)|by apply list_elem_of_In|by rewrite Hl2, E2|done|exact Hs].
  - apply list.last_None in El.
    assert (l ∈ filter (λ x, Lease_MAC x = Lease_MAC l) (batch h responses (Lease_Subnet l))) as Hn
      by (by apply list_elem_of_filter). rewrite El in Hn. by apply not_elem_of_nil in Hn.
Qed.

(** ** The invariant *)

Context (L : Dhcpv4Laws D).

Definition daemon_inv (d : daemon) : Prop :=
  pipeline_inv (d_pipe d) ∧ sv_batch <$> d_saves d = saved_batches (events (d_pipe d)) ∧
  Forall (save_ok (leases (server (d_pipe d)))) (d_saves d).

Lemma saves_mono h h' svs : store_le h h' → Forall (save_ok h) svs → Forall (save_ok h') svs.
Proof. intros Hle. apply Forall_impl. intros sv. by apply save_ok_mono. Qed.

Lemma pipeline_step_store p p' :
  pipeline_inv p → pipeline_step p p' → store_le (leases (server p)) (leases (server p')).
Proof.
  intros (Hs & Hq & _) Hst. destruct Hst as
    [req p Hlen Hc|tExp tNew orders req reqs p w s Eq Ew Ho E|r p Ew Hlen|ok chan st evs p E|s p E];
    cbn [server]; try reflexivity.
  - rewrite Eq in Hq. inversion Hq as [|? ? Hc Hq']; subst.
    destruct (process_request_inv D L tExp tNew orders (server p) req Hs Ho Hc) as (w' & s' & E' & _ & Hle & _).
    rewrite E in E'. by injection E' as <- <-.
  - by apply (server_step_store D).
Qed.

Lemma server_steps_store s s' : rtc server_step s s' → server_inv s → store_le (leases s) (leases s').
Proof.
  induction 1 as [|s s1 s2 Hst _ IH]; intros Hs; [reflexivity|].
  etrans; [by apply (server_step_store D)|]. apply IH. by eapply server_step_inv.
Qed.

Lemma saved_batches_app e1 e2 : saved_batches (e1 ++ e2) = saved_batches e1 ++ saved_batches e2.
Proof. apply omap_app. Qed.

Lemma in_hand_leases p rs :
  pipeline_inv p → processor p = Selecting rs → Forall (λ r, is_Some (leases (server p) !! Response_Lease r)) rs.
Proof.
  intros (_ & _ & (Hh & _) & Ha) E. rewrite Forall_forall in *. intros r Hr.
  destruct (Ha r) as (l & Hl & _); [|by eexists]. apply list_elem_of_In. apply list_elem_of_In in Hr.
  unfold all_responses. rewrite Hh, E, !elem_of_app. cbn [in_hand]. tauto.
Qed.

Lemma daemon_step_inv d d' : daemon_inv d → daemon_step d d' → daemon_inv d'.
Proof.
  intros (Hp & Hb & Hs) Hst. destruct Hst as
    [p Hst Ebs|get update now order responses updated err chan st evs Epr Ech Hne Hget Ho Hc Est|e res _ Hst].
  - pose proof (pipeline_step_inv D L _ _ Hst Hp) as Hp'. split_and!; [done|by cbn; rewrite Ebs|].
    eapply saves_mono, Hs. by apply pipeline_step_store.
  - assert (pipeline_step (d_pipe d) {|
      dhcpRequestChan := dhcpRequestChan (d_pipe d); worker := worker (d_pipe d); responseChan := chan;
      processor := st; server := server (d_pipe d); handed := handed (d_pipe d);
      events := events (d_pipe d) ++ evs |}) as Hst by (eapply ps_response; by rewrite Ech, Epr).
    split; [exact (pipeline_step_inv D L _ _ Hst Hp)|]. cbn [d_saves d_pipe events server].
    rewrite fmap_app, saved_batches_app, Hb. destruct responses as [|r rs]; [done|].
    destruct err as [e|]; cbn [bool_decide decide rp_step] in Est; injection Est as <- <- <-.
    + split; [done|]. by rewrite app_nil_r.
    + split; [done|]. apply Forall_app. split; [done|]. apply Forall_singleton.
      by apply (CallbackSaveLeases_recorded get update now order (d_world d) _ updated Hget Ho
        (in_hand_leases _ _ Hp Epr)).
  - destruct Hp as (Hsrv & Hq & Hf & Ha). pose proof (server_steps_store _ _ Hst Hsrv) as Hle.
    split_and!; [|done|by eapply saves_mono]. cbn [d_pipe].
    split_and!; [by eapply server_reachable_inv|done|done|by eapply addresses_mono].
Qed.

Lemma daemon_reachable_inv d d' : rtc daemon_step d d' → daemon_inv d → daemon_inv d'.
Proof. induction 1 as [|d d1 d2 Hst _ IH]; eauto using daemon_step_inv. Qed.

Lemma saved_ok_batch evs r : r ∈ saved_ok evs → ∃ i rs, saved_batches evs !! i = Some rs ∧ r ∈ rs.
Proof.
  unfold saved_ok, saved_batches. induction evs as [|e evs IH]; [by intros ?%not_elem_of_nil|].
  cbn. destruct e as [rs []|r' k]; [|done|done]. intros [Hr|Hr]%elem_of_app.
  - by exists 0%nat, rs.
  - destruct (IH Hr) as (i & rs' & Hi & ?). by exists (S i), rs'.
Qed.
End daemon.

(** C13: an address is on the wire only after the cluster knows about it.  In every
    state that a listener and the controllers reach together, a response that was
    sent was in a batch that the callback had saved before; it carries the address
    of its lease; and if the object of the lease's subnet was known, the callback
    wrote that object with an entry for the client in its status, whose address is
    that of a response to the same client in the same batch. *)
Theorem sent_is_recorded (D : Dhcpv4) (L : Dhcpv4Laws D) (K : ReconcileLog) factory s listen sock p0 ctrl d pre r kind post :
  server_inv s → NewRequestProcessor factory s listen = Ok (sock, p0) →
  rtc daemon_step {| d_ctrl := ctrl; d_pipe := p0; d_saves := [] |} d →
  events (d_pipe d) = pre ++ Sent r kind :: post →
  ∃ i sv l, saved_batches pre !! i = Some (sv_batch sv) ∧ d_saves d !! i = Some sv ∧ r ∈ sv_batch sv ∧
    leases (server (d_pipe d)) !! Response_Lease r = Some l ∧ YourIPAddr (Response_Response r) = Lease_IP l ∧
    ∀ key, sv_keys sv !! Lease_Subnet l = Some key →
    ∃ obj r' l', obj ∈ sv_updated sv ∧ subnet_key obj = key ∧
      r' ∈ sv_batch sv ∧ leases (server (d_pipe d)) !! Response_Lease r' = Some l' ∧ Lease_MAC l' = Lease_MAC l ∧
      default ∅ (status_Leases (subnet_Status obj)) !! Lease_MAC l =
        Some {| V1Lease_IP := IP_String (Lease_IP l'); V1Lease_UpdatedAt := sv_now sv |}.
Proof.
  intros Hs HN Hr He. pose proof (NewRequestProcessor_inv _ _ _ _ _ Hs HN) as H0.
  assert (daemon_inv {| d_ctrl := ctrl; d_pipe := p0; d_saves := [] |}) as Hd0.
  { split_and!; [done| |constructor]. unfold NewRequestProcessor in HN. destruct (factory _ _); [|done]. by injection HN as <- <-. }
  destruct (daemon_reachable_inv L _ _ Hr Hd0) as ((_ & _ & (Hh & Hok & Hf) & Ha) & Hb & Hsv).
  destruct (Hf pre r kind post He) as [Hin _]. destruct (saved_ok_batch _ _ Hin) as (i & rs & Hi & Hr').
  assert (saved_batches (events (d_pipe d)) !! i = Some rs) as Hi2
    by (rewrite He, saved_batches_app; by apply lookup_app_l_Some).
  rewrite <- Hb, list_lookup_fmap in Hi2. apply fmap_Some in Hi2 as (sv & Esv & ->).
  rewrite Forall_forall in Ha. destruct (Ha r) as (l & Hl & Ey).
  { apply list_elem_of_In. unfold all_responses. rewrite Hh, !elem_of_app. left. left.
    apply saved_ok_all. rewrite He, saved_ok_app, elem_of_app. by left. }
  exists i, sv, l. split_and!; [done..|]. intros key Hkey.
  pose proof (proj1 (Forall_lookup _ _) Hsv i sv Esv) as Hso. unfold save_ok in Hso. rewrite Forall_forall in Hso.
  destruct (Hso r (proj1 (list_elem_of_In _ _) Hr')) as [_ Hrec]. by apply Hrec.
Qed.

(** ** The test's discover, from the socket to the cluster and the wire *)

Definition test_outcome : outcome (option Response * Server) :=
  process_request (D := rfc_lib) test_now test_now (λ _, keys12) test_server test_discover.
Definition test_offer : Response :=
  match test_outcome with Ret (Some r, _) => r | _ => test_response end.
Definition offer_server : Server :=
  match test_outcome with Ret (_, s) => s | _ => test_server end.

Lemma test_outcome_eq : test_outcome = Ret (Some test_offer, offer_server).
Proof. vm_compute. reflexivity. Qed.

Definition lan_get (i : nat) (key : ObjectKey) : result error DHCPSubnet :=
  if decide (key = subnet_key cr_subnet) then Ok cr_subnet else Err (EExternal "not found").

Lemma lan_get_key i key subnet : lan_get i key = Ok subnet → subnet_key subnet = key.
Proof. unfold lan_get. case_decide; [|done]. by intros [= <-]. Qed.

Definition lan_ctrl : controllers := with_lan (K := zap_log true).

Definition lan_save : list DHCPSubnet * option error :=
  CallbackSaveLeases lan_get (λ _ _, None) 7 ["10.3.1.0/24"] (set_dhcpServer offer_server lan_ctrl) [test_offer].

Lemma lan_save_ok : lan_save = (lan_save.1, None).
Proof. vm_compute. reflexivity. Qed.

Lemma daemon_run :
  ∃ d, rtc (daemon_step (D := rfc_lib) (K := zap_log true)) {| d_ctrl := lan_ctrl; d_pipe := test_pipeline; d_saves := [] |} d ∧
    events (d_pipe d) = [Saved [test_offer] true; Sent test_offer (Send test_offer)].
Proof.
  eexists. split.
  - eapply rtc_l.
    { apply ds_pipe; [apply (ps_serve test_discover); [by apply Nat.ltb_lt|apply test_discover_ok]|reflexivity]. }
    eapply rtc_l.
    { apply ds_pipe; [apply (ps_request test_now test_now (λ _, keys12) test_discover [] _ (Some test_offer) offer_server);
        [reflexivity|reflexivity|apply test_server_orders|exact test_outcome_eq]|reflexivity]. }
    eapply rtc_l.
    { apply ds_pipe; [eapply ps_hand; [reflexivity|by apply Nat.ltb_lt]|reflexivity]. }
    eapply rtc_l.
    { apply ds_pipe; [eapply (ps_response true); reflexivity|reflexivity]. }
    eapply rtc_l.
    { eapply (ds_save _ lan_get (λ _ _, None) 7 ["10.3.1.0/24"] [test_offer] lan_save.1 None);
        [reflexivity|reflexivity|discriminate|exact lan_get_key| |exact lan_save_ok|reflexivity].
      unfold range_order. vm_compute. reflexivity. }
    eapply rtc_l; [|apply rtc_refl].
    apply ds_pipe; [eapply (ps_response true); reflexivity|reflexivity].
  - reflexivity.
Qed.

Lemma sent_is_recorded_witness :
  ∃ d i sv, rtc (daemon_step (D := rfc_lib) (K := zap_log true)) {| d_ctrl := lan_ctrl; d_pipe := test_pipeline; d_saves := [] |} d ∧
    d_saves d !! i = Some sv ∧ test_offer ∈ sv_batch sv.
Proof.
  destruct daemon_run as (d & Hr & He).
  destruct (sent_is_recorded rfc_lib rfc_lib_laws (zap_log true) (λ _ _, Ok 0%nat) test_server test_listen 0%nat test_pipeline
    lan_ctrl d [Saved [test_offer] true] test_offer (Send test_offer) [] test_server_inv eq_refl Hr He)
    as (i & sv & l & _ & Hi & Hin & _). by exists d, i, sv.
Defined.
