(* ===== verification/Descriptors.v ===== *)
(** * The descriptors of a listener

    [socket.go] and [broadcast_responder.go] again, with the table of the descriptors
    that the process has open: what opening, sending and closing do to it, on the error
    paths too, and what is left of a listener that was closed. *)

From S2P Require Import Prelude GoStrings GoNet Errors IPv4 Types Dhcpv4 Subnet.
From S2P Require Import LeaseCache Pool SubnetProps SubnetNet Server ServerProps.
From S2P Require Import Responses ServerGuarantees ServerReach RequestProcessor Pipeline Socket.
Open Scope string_scope.
Open Scope list_scope.
Open Scope Z_scope.

(** The open descriptors; the system picks a number for a new one that is not in use. *)
Abbreviation table := (gset Z).

Class Descriptors := { pick : table → Z; pick_fresh T : pick T ∉ T }.

(** The system call [close], of Go's connections too: a second one fails. *)
Definition close_fd (fd : Z) (T : table) : table * option error :=
  if decide (fd ∈ T) then (T ∖ {[fd]}, None)
  else (T, Some (EExternal "use of closed network connection")).

(** ** The operations *)

(** What a call that opens a descriptor gives. *)
Definition opened `{Descriptors} (T : table) (err : option error) : result error Z :=
  match err with None => Ok (pick T) | Some e => Err e end.

(** What the system and [gopacket] answer to the calls of one operation. *)
Record answers := {
  a_InterfaceByName : string → result error (Z * HardwareAddr);
  a_RawSocket : option error;
  a_SetsockoptInt : Z → option error;
  a_SetNetworkLayerForChecksum : option error;
  a_Layer : DHCPv4 → option bool;
  a_SerializeLayers : frame → result error (list Z);
  a_hw_cap : HardwareAddr → nat;
  a_Sendto : Z → list Z → option error;
  a_DialUDP : net_IP → Z → result error net_IP;   (* the local address of the connection *)
  a_WriteTo : DHCPv4 → string → option error;
}.

Abbreviation socket := (UDPSocket Z BroadcastResponder).

Section operations.
Context `{O : Descriptors, D : Dhcpv4}.

(** [UDPSocket.Close]: an error is only logged. *)
Definition UDPSocket_Close (s : socket) (T : table) : table := (close_fd (udpConn s) T).1.

(** [BroadcastResponder.Close]: likewise. *)
Definition BroadcastResponder_Close (r : BroadcastResponder) (T : table) : table := (close_fd (br_fd r) T).1.

(** [getSrcAddr]: a connection is opened to ask for its local address, and closed
    again. *)
Definition getSrcAddr (a : answers) (dst : net_IP) (T : table) : table * result error net_IP :=
  match a_DialUDP a dst 123 with
  | Err e => (T, Err e)
  | Ok src => let fd := pick T in ((close_fd fd ({[fd]} ∪ T)).1, Ok src)
  end.

(** [NewUDPSocket]: a connection that was opened stays open when the control message
    cannot be set. *)
Definition NewUDPSocket_fd (NewIPv4UDPConn : string → net_IP → Z → option error)
    (SetControlMessage : Z → option error) (listenAddress listenInterface : string) (T : table)
    : table * (option socket * option error) :=
  let res := NewUDPSocket (λ i ip port, opened T (NewIPv4UDPConn i ip port)) SetControlMessage listenAddress listenInterface in
  (match res.1 with Some s => {[udpConn s]} ∪ T | None => T end, res).

(** [NewRequestProcessor] drops a socket that comes with an error. *)
Definition usable (res : option socket * option error) : option socket :=
  match res with (Some s, None) => Some s | _ => None end.

(** The factory of responders: a raw socket that was opened stays open when a later call
    fails, and nothing refers to it. *)
Definition factory_fd (a : answers) (ifName : interfaceName) (T : table)
    : table * result error BroadcastResponder :=
  (match a_InterfaceByName a ifName, opened T (a_RawSocket a) with Ok _, Ok fd => {[fd]} ∪ T | _, _ => T end,
   RawSocketBroadcastResponderFactory (a_InterfaceByName a) (opened T (a_RawSocket a)) (a_SetsockoptInt a)
     (a_SetNetworkLayerForChecksum a) ifName).

Definition SendResponse_fd (a : answers) (req : Request) (resp : DHCPv4) (T : table)
    : table * (option (DHCPv4 * string) * option error) :=
  let '(T, src) := getSrcAddr a (GatewayIPAddr (Request_DHCPv4 req)) T in
  (T, SendResponse_udp (λ _, src) (a_WriteTo a) req resp).

Definition SendBroadcast_fd (a : answers) (s : socket) (req : Request) (resp : DHCPv4) (T : table)
    : outcome (table * socket * option error) :=
  let T' := match bcResponders s !! Request_InterfaceName req with
            | Some _ => T
            | None => (factory_fd a (Request_InterfaceName req) T).1
            end in
  '(s, _, err) ← SendBroadcast_udp (a_InterfaceByName a) (opened T (a_RawSocket a)) (a_SetsockoptInt a)
    (a_SetNetworkLayerForChecksum a) (a_Layer a) (a_SerializeLayers a) (a_hw_cap a) (a_Sendto a) s req resp;
  Ret (T', s, err).

(** [Response.Send]: the two ways to answer. *)
Definition Send_fd (a : answers) (s : socket) (rsp : Response) (T : table)
    : outcome (table * socket * option error) :=
  if isAddressZero (GatewayIPAddr (Request_DHCPv4 (Response_Request rsp)))
  then SendBroadcast_fd a s (Response_Request rsp) (Response_Response rsp) T
  else let '(T, (_, err)) := SendResponse_fd a (Response_Request rsp) (Response_Response rsp) T in
       Ret (T, s, err).

(** The response processor sends, whatever the errors, until it panics. *)
Fixpoint send_all (s : socket) (rsps : list (answers * Response)) (T : table) : outcome (table * socket) :=
  match rsps with
  | [] => Ret (T, s)
  | (a, rsp) :: rsps => '(T, s, _) ← Send_fd a s rsp T; send_all s rsps T
  end.

(** One life of a listener: it is opened, answers, and is closed by
    [RequestProcessor.Close].  What is left: the table, and the socket as it was. *)
Definition listener_life NewIPv4UDPConn SetControlMessage (addr iface : string)
    (rsps : list (answers * Response)) (T : table) : outcome (table * option socket) :=
  let '(T, res) := NewUDPSocket_fd NewIPv4UDPConn SetControlMessage addr iface T in
  match usable res with
  | None => Ret (T, None)
  | Some s => '(T, s) ← send_all s rsps T; Ret (UDPSocket_Close s T, Some s)
  end.
End operations.

(** ** Accounting *)

(** The table holds [L], each once, beside what was open before. *)
Definition tracked (T0 : table) (L : list Z) (T : table) : Prop :=
  NoDup L ∧ Forall (λ fd, fd ∉ T0) L ∧ T = list_to_set L ∪ T0.

#[global] Instance tracked_proper T0 : Proper ((≡ₚ) ==> (=) ==> iff) (tracked T0).
Proof.
  intros L L' HL T ? <-. unfold tracked. by rewrite HL.
Qed.

Lemma tracked_start T0 : tracked T0 [] T0.
Proof. split_and!; [constructor|constructor|]. set_solver. Qed.

Lemma tracked_open T0 L T fd : tracked T0 L T → fd ∉ T → tracked T0 (fd :: L) ({[fd]} ∪ T).
Proof.
  intros (Hn & Hf & ->) Hfd. rewrite not_elem_of_union, not_elem_of_list_to_set in Hfd.
  split_and!; [apply NoDup_cons_2; tauto|apply List.Forall_cons; tauto|]. cbn. by rewrite (assoc_L (∪)).
Qed.

Lemma tracked_close T0 L T fd : tracked T0 (fd :: L) T → tracked T0 L (close_fd fd T).1.
Proof.
  intros (Hn & Hf & ->). inversion Hn as [|? ? Hx Hn']; subst.
  inversion Hf as [|? ? Hf1 Hf2]; subst. unfold close_fd. rewrite decide_True by set_solver.
  split_and!; [done|done|]. cbn.
  apply (not_elem_of_list_to_set (C := table)) in Hx. set_solver.
Qed.

Lemma tracked_size T0 L T : tracked T0 L T → size T = (size T0 + length L)%nat.
Proof.
  intros (Hn & Hf & ->). rewrite size_union.
  - rewrite size_list_to_set by done. lia.
  - intros x Hx Hx0. apply elem_of_list_to_set, list_elem_of_lookup in Hx as [i Hi].
    exact (proj1 (Forall_lookup _ _) Hf i x Hi Hx0).
Qed.

(** The raw sockets of the responders. *)
Definition raw_fds (m : gmap string BroadcastResponder) : list Z := br_fd <$> (map_to_list m).*2.

Lemma raw_fds_new m k r : m !! k = None → raw_fds (<[k := r]> m) ≡ₚ br_fd r :: raw_fds m.
Proof. intros Hk. unfold raw_fds. by rewrite map_to_list_insert. Qed.

Lemma raw_fds_same m k r r' : m !! k = Some r → br_fd r' = br_fd r → raw_fds (<[k := r']> m) ≡ₚ raw_fds m.
Proof.
  intros Hk Hr. rewrite <- (insert_delete_eq m k r'). rewrite <- (insert_delete_id m k r Hk) at 2.
  by rewrite !raw_fds_new, Hr by apply lookup_delete_eq.
Qed.

Section accounting.
Context `{O : Descriptors, D : Dhcpv4}.

(** The descriptors of a listener in use, and the ones it has lost. *)
Abbreviation owned s lost := (udpConn s :: raw_fds (bcResponders s) ++ lost).

(** The calls that follow the opening of a raw socket succeed. *)
Definition options_set (a : answers) : Prop :=
  (∀ fd, a_SetsockoptInt a fd = None) ∧ a_SetNetworkLayerForChecksum a = None.

Lemma getSrcAddr_table a dst T : (getSrcAddr a dst T).1 = T.
Proof.
  unfold getSrcAddr. destruct (a_DialUDP a dst 123); [|done]. cbn. unfold close_fd.
  pose proof (pick_fresh T). rewrite decide_True by set_solver. cbn. set_solver.
Qed.

(** What making a responder does. *)
Lemma factory_tracked a ifName T0 L T T' res :
  tracked T0 L T → factory_fd a ifName T = (T', res) →
  match res with
  | Ok r => tracked T0 (br_fd r :: L) T'
  | Err _ => ∃ new, tracked T0 (new ++ L) T' ∧ (options_set a → new = [])
  end.
Proof.
  intros Ht. unfold factory_fd, RawSocketBroadcastResponderFactory, opened. intros [= <- <-].
  destruct (a_InterfaceByName a ifName) as [[ifindex mac]|]; [|by exists []].
  destruct (a_RawSocket a) as [|]; [by exists []|].
  pose proof (tracked_open _ _ _ _ Ht (pick_fresh T)) as Ho.
  destruct (a_SetsockoptInt a (pick T)) as [|] eqn:E1.
  { exists [pick T]. split; [done|]. intros [Hs _]. by rewrite Hs in E1. }
  destruct (a_SetNetworkLayerForChecksum a) as [|] eqn:E2; [|done].
  exists [pick T]. split; [done|]. intros [_ Hs]. by rewrite Hs in E2.
Qed.

Lemma SendBroadcast_tracked a s req resp T0 lost T T' s' err :
  tracked T0 (owned s lost) T → SendBroadcast_fd a s req resp T = Ret (T', s', err) →
  ∃ new, tracked T0 (owned s' (new ++ lost)) T' ∧ (options_set a → new = []).
Proof.
  intros Ht. unfold SendBroadcast_fd, SendBroadcast_udp. set (i := Request_InterfaceName req).
  destruct (bcResponders s !! i) as [r|] eqn:Hi.
  - destruct (Broadcast_Send _ _ _ _ r resp) as [[[r' fr] err']| |] eqn:Es; try done.
    apply Broadcast_Send_same in Es as ->. cbn [mbind outcome_bind]. intros [= <- <- <-].
    exists []. split; [|done]. cbn. by rewrite (raw_fds_same _ _ r) by done.
  - destruct (factory_fd a i T) as [T1 res] eqn:Ef. pose proof (factory_tracked _ _ _ _ _ _ _ Ht Ef) as Hf.
    apply (f_equal snd) in Ef. cbn in Ef. rewrite Ef. destruct res as [r|e].
    + destruct (Broadcast_Send _ _ _ _ r resp) as [[[r' fr] err']| |] eqn:Es; try done.
      apply Broadcast_Send_same in Es as ->. cbn [mbind outcome_bind]. intros [= <- <- <-].
      exists []. split; [|done]. cbn. rewrite insert_insert_eq, raw_fds_new by done. cbn.
      by rewrite Permutation_swap.
    + intros [= <- <- <-]. destruct Hf as (new & Hn & Ho). exists new. split; [|done].
      eapply (tracked_proper T0); [|reflexivity|exact Hn]. solve_Permutation.
Qed.

(** Neither way to answer closes anything; a relayed answer opens nothing that stays
    open. *)
Lemma Send_tracked a s rsp T0 lost T T' s' err :
  tracked T0 (owned s lost) T → Send_fd a s rsp T = Ret (T', s', err) →
  ∃ new, tracked T0 (owned s' (new ++ lost)) T' ∧ (options_set a → new = []).
Proof.
  intros Ht. unfold Send_fd. destruct (isAddressZero _); [by apply SendBroadcast_tracked|].
  unfold SendResponse_fd.
  pose proof (getSrcAddr_table a (GatewayIPAddr (Request_DHCPv4 (Response_Request rsp))) T) as Hg.
  destruct (getSrcAddr a _ T) as [T1 src]. cbn in Hg. subst T1.
  destruct (SendResponse_udp _ _ _ _) as [w e]. intros [= <- <- <-]. by exists [].
Qed.

Lemma send_all_tracked rsps s T0 lost T T' s' :
  tracked T0 (owned s lost) T → send_all s rsps T = Ret (T', s') →
  ∃ lost', tracked T0 (owned s' lost') T' ∧ (Forall (λ x, options_set x.1) rsps → lost' = lost).
Proof.
  revert s lost T. induction rsps as [|[a rsp] rsps IH]; intros s lost T Ht; cbn [send_all].
  { intros [= <- <-]. by exists lost. }
  destruct (Send_fd a s rsp T) as [[[T1 s1] e1]| |] eqn:E1; try done. cbn [mbind outcome_bind]. intros E.
  destruct (Send_tracked _ _ _ _ _ _ _ _ _ Ht E1) as (new & Ht1 & Ho).
  destruct (IH _ _ _ Ht1 E) as (lost' & Ht' & Ho'). exists lost'. split; [done|].
  intros Hall. inversion Hall as [|? ? Ha Hr]; subst. rewrite (Ho' Hr). by rewrite (Ho Ha).
Qed.

Lemma NewUDPSocket_tracked conn ctl addr iface T T' s err :
  NewUDPSocket_fd conn ctl addr iface T = (T', (Some s, err)) →
  tracked T (owned s []) T' ∧ bcResponders s = ∅.
Proof.
  unfold NewUDPSocket_fd, NewUDPSocket, open_socket, opened. intros [= <- E].
  repeat case_match; simplify_eq/=; (split; [|done]); apply (tracked_open _ _ _ _ (tracked_start T) (pick_fresh T)).
Qed.

(** The calls of [BroadcastResponder.Close] that are not made. *)
Definition close_responders (s : socket) (T : table) : table :=
  foldl (λ T r, BroadcastResponder_Close r T) T (map_to_list (bcResponders s)).*2.

Lemma close_responders_tracked s T0 lost T :
  tracked T0 (raw_fds (bcResponders s) ++ lost) T → tracked T0 lost (close_responders s T).
Proof.
  unfold close_responders, raw_fds. generalize (map_to_list (bcResponders s)).*2 as rs.
  intros rs. revert T. induction rs as [|r rs IH]; intros T Ht; [done|]. cbn [foldl].
  apply IH. by apply tracked_close.
Qed.
End accounting.

(** C32: the descriptors of a listener, from opening to [Close], whatever it answered and
    whatever failed on the way.  The table is left with what was open before and, for
    every interface that was answered by broadcast, one raw socket: [Close] closes the
    connection and nothing else.  Closing the responders too, which no code does,
    would give these back.  Beside them only sockets of responders whose options
    could not be set remain, [lost], which nothing refers to any more. *)
Theorem listener_leaves `{O : Descriptors, D : Dhcpv4} conn ctl addr iface rsps T T' s :
  listener_life conn ctl addr iface rsps T = Ret (T', Some s) →
  ∃ lost, tracked T (raw_fds (bcResponders s) ++ lost) T' ∧
    size T' = (size T + size (bcResponders s) + length lost)%nat ∧
    close_responders s T' = list_to_set lost ∪ T ∧
    (Forall (λ x, options_set x.1) rsps → lost = []).
Proof.
  unfold listener_life. destruct (NewUDPSocket_fd _ _ _ _ _) as [T1 [[s1|] [e|]]] eqn:En; cbn; try done.
  destruct (send_all s1 rsps T1) as [[T2 s2]| |] eqn:Es; try done. cbn. intros [= <- <-].
  destruct (NewUDPSocket_tracked _ _ _ _ _ _ _ _ En) as [Ht Hb].
  destruct (send_all_tracked _ _ _ _ _ _ _ Ht Es) as (lost & Ht2 & Ho).
  pose proof (tracked_close _ _ _ _ Ht2) as Ht3. exists lost.
  split_and!; [exact Ht3| |by destruct (close_responders_tracked s2 _ _ _ Ht3) as (_ & _ & ?)|exact Ho].
  etransitivity; [exact (tracked_size _ _ _ Ht3)|]. unfold raw_fds.
  rewrite length_app, !length_fmap, length_map_to_list. lia.
Qed.

(** Any number that is not in use. *)
Definition next_fd : Descriptors.
Proof. refine {| pick T := fresh T; pick_fresh T := is_fresh T |}. Defined.

Definition test_answers : answers := {|
  a_InterfaceByName _ := Ok (4, [2; 0; 0; 0; 0; 1]); a_RawSocket := None; a_SetsockoptInt _ := None;
  a_SetNetworkLayerForChecksum := None; a_Layer _ := Some true; a_SerializeLayers _ := Ok [1];
  a_hw_cap := @length Z; a_Sendto _ _ := None; a_DialUDP _ _ := Ok None; a_WriteTo _ _ := None |}.

(** A listener that answers two broadcasts on one interface leaves one descriptor. *)
Lemma listener_leaves_witness :
  ∃ T' s, listener_life (O := next_fd) (D := rfc_lib) (λ _ _ _, None) (λ _, None) "" "br1"
      [(test_answers, test_response); (test_answers, test_response)] {[0; 1; 2]} = Ret (T', Some s) ∧
    size T' = 4%nat ∧ close_responders s T' = {[0; 1; 2]}.
Proof.
  destruct (listener_life (O := next_fd) (D := rfc_lib) (λ _ _ _, None) (λ _, None) "" "br1"
    [(test_answers, test_response); (test_answers, test_response)] {[0; 1; 2]})
    as [[T' [s|]]| |] eqn:E; try by vm_compute in E.
  exists T', s. split; [done|].
  destruct (listener_leaves (O := next_fd) (D := rfc_lib) _ _ _ _ _ _ _ _ E) as (lost & _ & Hs & Hc & Ho).
  assert (size (bcResponders s) = 1%nat) as Hb.
  { assert (match listener_life (O := next_fd) (D := rfc_lib) (λ _ _ _, None) (λ _, None) "" "br1"
      [(test_answers, test_response); (test_answers, test_response)] {[0; 1; 2]} with
      | Ret (_, Some s) => size (bcResponders s) | _ => 0%nat end = 1%nat) as H by (vm_compute; reflexivity).
    by rewrite E in H. }
  rewrite Ho in Hs, Hc by by repeat constructor. rewrite Hs, Hb, Hc. split; [reflexivity|]. set_solver.
Defined.
