(* ===== verification/ClientMain.v ===== *)
(** * [dhcp/client/client.go]: [main]

    The load-testing client from its flags to its last line: the start address is read,
    the clients are made, a goroutine hands them the frames that arrive, and when all
    of them are acknowledged, or the time is over, the ones that succeeded are counted,
    while that goroutine may still be at work. *)

From S2P Require Import Prelude GoStrings GoNet Errors IPv4 Types Dhcpv4 Subnet SubnetNet.
From S2P Require Import Socket Client Sender.
Open Scope string_scope.
Open Scope list_scope.
Open Scope Z_scope.

(** ** Go's [net.ParseMAC] *)

Definition hex_pair (a b : ascii) : option Z :=
  d ← hex_digit_val a; e ← hex_digit_val b; Some (d * 16 + e).

(** Two digits for each byte, between separators. *)
Fixpoint mac_pairs (sep : ascii) (l : list ascii) : option (list Z) :=
  match l with
  | [a; b] => x ← hex_pair a b; Some [x]
  | a :: b :: c :: l =>
      if Ascii.eqb c sep then x ← hex_pair a b; xs ← mac_pairs sep l; Some (x :: xs) else None
  | _ => None
  end.

(** Four digits for every two bytes. *)
Fixpoint mac_quads (l : list ascii) : option (list Z) :=
  match l with
  | [a; b; c; d] => x ← hex_pair a b; y ← hex_pair c d; Some [x; y]
  | a :: b :: c :: d :: e :: l =>
      if Ascii.eqb e "." then x ← hex_pair a b; y ← hex_pair c d; xs ← mac_quads l; Some (x :: y :: xs)
      else None
  | _ => None
  end.

Definition mac_length (n : nat) : bool := (n =? 6)%nat || (n =? 8)%nat || (n =? 20)%nat.

Definition ParseMAC (s : string) : result error HardwareAddr :=
  let l := String.list_ascii_of_string s in
  let bad := Err (EExternal ("address " +:+ s +:+ ": invalid MAC address")) in
  let checked (o : option (list Z)) :=
    match o with Some hw => if mac_length (length hw) then Ok hw else bad | None => bad end in
  if (length l <? 14)%nat then bad
  else match l !! 2%nat, l !! 4%nat with
       | Some c, Some d =>
           if Ascii.eqb c ":" || Ascii.eqb c "-" then checked (mac_pairs c l)
           else if Ascii.eqb d "." then checked (mac_quads l) else bad
       | _, _ => bad
       end.

Lemma hex_byte_pair b :
  is_u8 b → ∃ h l, hex_byte b = String h (String l "") ∧ hex_pair h l = Some b.
Proof.
  intros Hb. pose proof (hex_byte_read b Hb) as H. unfold hex_byte in *. by do 2 eexists.
Qed.

Lemma mac_pairs_String a :
  a ≠ [] → Forall is_u8 a → mac_pairs ":" (String.list_ascii_of_string (HardwareAddr_String a)) = Some a.
Proof.
  intros Hne Ha. unfold HardwareAddr_String. induction Ha as [|b a Hb Ha IH]; [done|].
  destruct (hex_byte_pair b Hb) as (h & l & E & Hp). destruct a as [|b' a].
  - cbn [fmap list_fmap join]. rewrite E. cbn. by rewrite Hp.
  - destruct (hex_byte_pair b' (Forall_inv Ha)) as (h' & l' & E' & _).
    specialize (IH ltac:(done)). cbn [fmap list_fmap] in IH |- *.
    change (join ":" (hex_byte b :: hex_byte b' :: (hex_byte <$> a)))
      with (hex_byte b +:+ String ":" (join ":" (hex_byte b' :: (hex_byte <$> a)))).
    rewrite E. set (rest := join ":" (hex_byte b' :: (hex_byte <$> a))) in *.
    change (String.list_ascii_of_string _) with (h :: l :: ":"%char :: String.list_ascii_of_string rest).
    assert (∃ l0 ls, String.list_ascii_of_string rest = l0 :: ls) as (l0 & ls & El).
    { unfold rest. destruct a; cbn [fmap list_fmap join]; rewrite E'; cbn; by do 2 eexists. }
    change (join ":" (hex_byte b' :: list_fmap _ _ hex_byte a)) with rest in IH.
    rewrite El in *. change (mac_pairs ":" (h :: l :: ":"%char :: l0 :: ls))
      with (x ← hex_pair h l; xs ← mac_pairs ":" (l0 :: ls); Some (x :: xs)). by rewrite Hp, IH.
Qed.

(** The text of an address parses back to it. *)
Lemma ParseMAC_String a :
  mac_length (length a) = true → Forall is_u8 a → ParseMAC (HardwareAddr_String a) = Ok a.
Proof.
  intros Hl Ha. assert (a ≠ []) as Hne by by intros ->.
  pose proof (mac_pairs_String a Hne Ha) as Hp. unfold ParseMAC.
  destruct a as [|a0 [|a1 [|a2 [|a3 [|a4 [|a5 a]]]]]]; try done.
  assert (∃ c0 c1 rest, String.list_ascii_of_string (HardwareAddr_String (a0 :: a1 :: a2 :: a3 :: a4 :: a5 :: a)) =
    c0 :: c1 :: ":"%char :: rest ∧ (12 <= length rest)%nat) as (c0 & c1 & rest & E & Hr).
  { cbv [HardwareAddr_String fmap list_fmap join String.append hex_byte].
    destruct a; cbv [String.list_ascii_of_string]; do 3 eexists; (split; [reflexivity|]);
      cbn [length]; lia. }
  rewrite E in *. destruct (Nat.ltb_spec (length (c0 :: c1 :: ":"%char :: rest)) 14) as [Hlt|_]; [cbn in Hlt; lia|].
  destruct rest as [|c3 [|c4 rest]]; [cbn in Hr; lia..|]. cbn [lookup list_lookup].
  cbn [Ascii.eqb Bool.eqb orb]. by rewrite Hp, Hl.
Qed.

(** ** [main] *)

Section main.
Context {D : Dhcpv4} (FromBytes : list Z → result error DHCPv4).

(** Up to the start of the goroutines.  Errors are fatal. *)
Definition main_setup (InterfaceByName : string → result error (Z * HardwareAddr))
    (Socket : Z * option error) (Bind : Z → option error)
    (numClients : Z) (ifName startMac : string) : outcome (result error (gmap string Client)) :=
  match InterfaceByName ifName with
  | Err e => Ret (Err e)
  | Ok _ =>
      match ParseMAC startMac with
      | Err e => Ret (Err e)
      | Ok cm =>
          clients ← make_clients (Z.to_nat numClients) cm ∅;
          match getEthernetReceiver Socket Bind with
          | (_, _, Some e) => Ret (Err e)
          | (_, _, None) => Ret (Ok clients)
          end
      end
  end.

(** What the program prints last, or why it did not. *)
Inductive ending := Reported (success total : nat) | Crashed (why : string).

(** The clients when [j] of the frames were handled. *)
Definition handled_frames (clients : gmap string Client) (frames : list (list Z)) (j : nat)
    : outcome (bool * gmap string Client) := GetDHCPAddrs FromBytes clients (take j frames).

(** The ways in which [main] ends, where [frames] are all that the receiver delivers: on the
    message of [GetDHCPAddrs]; when the time is over, after [t] frames, while the clients
    are looked at one after the other and more frames are handled; or with a panic of the
    goroutine. *)
Inductive main_ends (clients : gmap string Client) (frames : list (list Z)) : option nat → ending → Prop :=
  | ends_done clients' :
      GetDHCPAddrs FromBytes clients frames = Ret (true, clients') →
      main_ends clients frames None (Reported (count_success clients') (size clients'))
  | ends_timeout (t : nat) (seen : string → nat) (report : gmap string Client) :
      (∀ k, (t <= seen k)%nat ∧ ∃ b m, handled_frames clients frames (seen k) = Ret (b, m) ∧ report !! k = m !! k) →
      main_ends clients frames (Some t) (Reported (count_success report) (size report))
  | ends_crash why :
      GetDHCPAddrs FromBytes clients frames = Panic why → main_ends clients frames None (Crashed why).

(** ** Frames handled later *)

Lemma GetDHCPAddrs_app clients f1 f2 :
  GetDHCPAddrs FromBytes clients (f1 ++ f2) =
    match GetDHCPAddrs FromBytes clients f1 with
    | Ret (false, m) => GetDHCPAddrs FromBytes m f2
    | r => r
    end.
Proof.
  revert clients. induction f1 as [|buf f1 IH]; intros clients; cbn [app GetDHCPAddrs]; [done|].
  repeat case_match; simplify_eq; auto; try (rewrite IH; by repeat case_match; simplify_eq).
Qed.

Lemma GetDHCPAddrs_later clients frames b m :
  GetDHCPAddrs FromBytes clients frames = Ret (b, m) → clients_later D clients m.
Proof.
  revert clients. induction frames as [|buf frames IH]; intros clients; cbn [GetDHCPAddrs].
  { by intros [= _ <-]. }
  destruct (length buf <? 6)%nat; [done|]. destruct (clients !! _) as [c|] eqn:Hc; [|by apply IH].
  destruct (length buf <? 42)%nat; [done|]. destruct (FromBytes _) as [pkt|]; [|by apply IH].
  pose proof (insert_later D _ _ _ _ Hc (ProcessResponse_later D c pkt)) as Hl.
  destruct (_ && _); [by intros [= _ <-]|]. intros E. etrans; [exact Hl|by apply IH].
Qed.

(** More frames, later clients. *)
Lemma handled_frames_later clients frames i j b1 m1 b2 m2 :
  handled_frames clients frames i = Ret (b1, m1) → (i <= j)%nat →
  handled_frames clients frames j = Ret (b2, m2) → clients_later D m1 m2.
Proof.
  unfold handled_frames. intros E1 Hij E2.
  rewrite <- (take_drop i (take j frames)), take_take, Nat.min_l, GetDHCPAddrs_app, E1 in E2 by done.
  destruct b1; [by injection E2 as <- <-|]. by eapply GetDHCPAddrs_later.
Qed.

(** ** Counting *)

Lemma succeeded_later c c' : client_later D c c' → succeeded c = true → succeeded c' = true.
Proof.
  unfold succeeded. intros (_ & [rest Ho] & Ha). rewrite !andb_true_iff, !negb_true_iff, !bool_decide_eq_false, !bool_decide_eq_true.
  rewrite Ho. intros [H1 [a H2]]. split.
  - intros E. apply app_eq_nil in E as [E _]. by destruct H1.
  - rewrite H2 in Ha. destruct Ha as [->|[? _]]; [by eexists|done].
Qed.

Lemma filter_succeeded l : filter (λ c, succeeded c = true) l = List.filter succeeded l.
Proof.
  induction l as [|c l IH]; [done|]. rewrite filter_cons. cbn [List.filter].
  destruct (succeeded c); [by rewrite decide_True, IH by done|by rewrite decide_False, IH by done].
Qed.

Lemma count_success_size m : count_success m = size (filter (λ kc, succeeded kc.2 = true) m).
Proof.
  induction m as [|k c m Hk IH] using map_ind; [by rewrite map_filter_empty|].
  assert (count_success (<[k := c]> m) = (if succeeded c then S else id) (count_success m)) as ->.
  { unfold count_success. rewrite <- !filter_succeeded. rewrite map_to_list_insert by done.
    cbn [fmap list_fmap snd]. rewrite filter_cons. destruct (succeeded c); [by rewrite decide_True|by rewrite decide_False]. }
  rewrite IH. destruct (succeeded c) eqn:E.
  - rewrite map_filter_insert_True by done. rewrite map_size_insert_None; [done|].
    apply map_lookup_filter_None. by left.
  - rewrite map_filter_insert_False by (cbn; congruence). by rewrite delete_id.
Qed.

Lemma count_success_later m m' : clients_later D m m' → (count_success m <= count_success m')%nat.
Proof.
  rewrite clients_later_lookup. intros Hl. rewrite !count_success_size, <- !size_dom.
  apply subseteq_size. intros k [c Hk]%elem_of_dom. apply map_lookup_filter_Some in Hk as [Hk Hs].
  specialize (Hl k). rewrite Hk in Hl. destruct (m' !! k) as [c'|] eqn:Hk'; [|done].
  apply elem_of_dom. exists c'. apply map_lookup_filter_Some. split; [done|]. by eapply succeeded_later.
Qed.

Lemma count_success_total m : (count_success m <= size m)%nat.
Proof.
  rewrite count_success_size. apply map_size_filter.
Qed.

Lemma clients_later_size m m' : clients_later D m m' → size m' = size m.
Proof.
  rewrite clients_later_lookup. intros Hl. rewrite <- !size_dom. f_equal. apply set_eq. intros k.
  rewrite !elem_of_dom. specialize (Hl k). destruct (m !! k), (m' !! k); try done; split; eauto.
Qed.

Lemma GetDHCPAddrs_returns clients frames :
  Forall (λ buf, (42 <= length buf)%nat) frames → ∃ b m, GetDHCPAddrs FromBytes clients frames = Ret (b, m).
Proof.
  intros Hf. revert clients. induction Hf as [|buf frames Hb _ IH]; intros clients; cbn [GetDHCPAddrs]; [by do 2 eexists|].
  rewrite (proj2 (Nat.ltb_ge _ 6)) by lia. destruct (clients !! _); [|apply IH].
  rewrite (proj2 (Nat.ltb_ge _ 42)) by lia. destruct (FromBytes _); [|apply IH].
  destruct (_ && _); [by do 2 eexists|apply IH].
Qed.

Lemma handled_frames_returns clients frames j :
  Forall (λ buf, (42 <= length buf)%nat) frames → ∃ b m, handled_frames clients frames j = Ret (b, m).
Proof. intros Hf. by apply GetDHCPAddrs_returns, Forall_take. Qed.

(** Success is reported only when all are acknowledged. *)
Lemma GetDHCPAddrs_reports clients frames m :
  GetDHCPAddrs FromBytes clients frames = Ret (true, m) → all_acked m = true.
Proof.
  revert clients. induction frames as [|buf frames IH]; intros clients; cbn [GetDHCPAddrs]; [done|].
  repeat (case_match; try done); try apply IH. intros [= <-].
  match goal with H : _ && _ = true |- _ => by apply andb_true_iff in H as [_ ?] end.
Qed.

(** The report of a timeout lies between the clients then and the clients in the end. *)
Lemma report_between clients frames t seen report b1 m1 b2 m2 :
  (∀ k, (t <= seen k)%nat ∧ ∃ b m, handled_frames clients frames (seen k) = Ret (b, m) ∧ report !! k = m !! k) →
  handled_frames clients frames t = Ret (b1, m1) → GetDHCPAddrs FromBytes clients frames = Ret (b2, m2) →
  clients_later D m1 report ∧ clients_later D report m2.
Proof.
  intros Hs E1 E2. rewrite !clients_later_lookup. split; intros k; destruct (Hs k) as (Hk & b & m & E & ->).
  - pose proof (handled_frames_later _ _ _ _ _ _ _ _ E1 Hk E) as Hl. rewrite clients_later_lookup in Hl. apply Hl.
  - assert (handled_frames clients frames (seen k + length frames) = Ret (b2, m2)) as E3
      by (unfold handled_frames; by rewrite take_ge by lia).
    assert (seen k <= seen k + length frames)%nat as Hle by lia.
    pose proof (handled_frames_later _ _ _ _ _ _ _ _ E Hle E3) as Hl. rewrite clients_later_lookup in Hl. apply Hl.
Qed.
End main.

(** The clients that were offered an address and got an acknowledgement. *)
Definition successful (clients : gmap string Client) : gmap string Client :=
  filter (λ kc, Client_Offers kc.2 ≠ [] ∧ is_Some (Client_Ack kc.2)) clients.

Lemma count_success_successful clients : count_success clients = size (successful clients).
Proof.
  rewrite count_success_size. unfold successful. f_equal. apply map_filter_ext. intros k c _. cbn.
  unfold succeeded. by rewrite andb_true_iff, negb_true_iff, bool_decide_eq_false, bool_decide_eq_true.
Qed.

(** C31: what the load test reports.  From a start address of six bytes, given as text, as
    many clients are made as the flag says, and the last line has that number as total.
    The number of successes is the number of clients that have both an offer and an
    acknowledgement.  If the goroutine reported, all clients are acknowledged, and
    the successes are those among them with an offer, after all the frames it handled.
    After a timeout, although
    frames are handled during the count, it lies between the successes at the time
    and those after all frames.  Frames that hold their headers crash nothing. *)
Theorem main_reports (D : Dhcpv4) FromBytes InterfaceByName Socket Bind ifName iface fd m n frames :
  length m = 6%nat → Forall is_u8 m → Z.of_nat n < 2 ^ 48 →
  InterfaceByName ifName = Ok iface → Socket = (fd, None) → Bind fd = None →
  Forall (λ buf, (42 <= length buf)%nat) frames →
  ∃ clients, main_setup InterfaceByName Socket Bind (Z.of_nat n) ifName (HardwareAddr_String m) = Ret (Ok clients) ∧
    size clients = n ∧
    ∃ b final, GetDHCPAddrs FromBytes clients frames = Ret (b, final) ∧
    ∀ when e, main_ends FromBytes clients frames when e →
      ∃ s, e = Reported s n ∧ (s <= size (successful final) <= n)%nat ∧
        match when with
        | None => s = size (successful final) ∧ ∀ k c, final !! k = Some c → is_Some (Client_Ack c)
        | Some t => ∃ b m, handled_frames FromBytes clients frames t = Ret (b, m) ∧ (size (successful m) <= s)%nat
        end.
Proof.
  intros Hl Hu Hn Hif -> Hb Hf. destruct (make_clients_distinct m n Hl Hu Hn) as (clients & E & Hs & _).
  exists clients. split; [|split; [done|]].
  { unfold main_setup. rewrite Hif, ParseMAC_String by (done || by rewrite Hl). rewrite Nat2Z.id, E. cbn. by rewrite Hb. }
  destruct (GetDHCPAddrs_returns FromBytes clients frames Hf) as (b & final & Ef). exists b, final. split; [done|].
  pose proof (clients_later_size _ _ (GetDHCPAddrs_later _ _ _ _ _ Ef)) as Hsf. rewrite Hs in Hsf.
  pose proof (count_success_total final) as Ht. rewrite Hsf in Ht. rewrite <- count_success_successful.
  intros when e He. destruct He as [m' E'|t seen report Hr|why E'].
  - rewrite Ef in E'. injection E' as -> <-. exists (count_success final). rewrite Hsf.
    split_and!; [done|lia|lia|done|]. by eapply all_acked_spec, GetDHCPAddrs_reports.
  - destruct (handled_frames_returns FromBytes clients frames t Hf) as (b1 & m1 & E1).
    destruct (report_between _ _ _ _ _ _ _ _ _ _ Hr E1 Ef) as [L1 L2].
    exists (count_success report). rewrite <- (clients_later_size _ _ L2), Hsf.
    split_and!; [done|by apply count_success_later|lia|].
    exists b1, m1. rewrite <- count_success_successful. split; [done|by apply count_success_later].
  - by rewrite Ef in E'.
Qed.

(** A frame for the one client, its offer, and its acknowledgement: the parser takes
    the packet without a byte for the offer. *)
Definition toy_frame (payload : list Z) : list Z := [0; 1; 0; 0; 0; 1] ++ repeat 0 36 ++ payload.

Definition toy_offer : DHCPv4 := set_Options {[53 := [MessageTypeOffer]]} toy_ack.

Definition toy_parser (payload : list Z) : result error (DHCPv4) :=
  match payload with [] => Ok toy_offer | _ => Ok toy_ack end.

Definition toy_setup : outcome (result error (gmap string Client)) :=
  main_setup (λ _, Ok (4, [])) (3, None) (λ _, None) 1 "br0" "00:01:00:00:00:00".

(** The one client in the end, with the offers it got. *)
Definition toy_final (offers : list DHCPv4) : gmap string Client :=
  {["00:01:00:00:00:01" := {| Client_MAC := [0; 1; 0; 0; 0; 1]; Client_Offers := offers; Client_Ack := Some toy_ack |}]}.

Lemma toy_setup_eq : toy_setup = Ret (Ok toy_clients).
Proof. vm_compute. reflexivity. Qed.

Lemma toy_offered :
  GetDHCPAddrs (D := rfc_lib) toy_parser toy_clients [toy_frame []; toy_frame [0]] = Ret (true, toy_final [toy_offer]).
Proof. vm_compute. reflexivity. Qed.

Lemma toy_not_offered :
  GetDHCPAddrs (D := rfc_lib) toy_parser toy_clients [toy_frame [0]] = Ret (true, toy_final []).
Proof. vm_compute. reflexivity. Qed.

Lemma toy_counts : size (successful (toy_final [toy_offer])) = 1%nat ∧ size (successful (toy_final [])) = 0%nat.
Proof. split; vm_compute; reflexivity. Qed.

Lemma toy_frames_ok : Forall (λ buf, (42 <= length buf)%nat) [toy_frame []; toy_frame [0]].
Proof. repeat constructor. Qed.

Lemma toy_mac_ok : Forall is_u8 [0; 1; 0; 0; 0; 0].
Proof. repeat (apply List.Forall_cons; [by unfold is_u8|]). apply List.Forall_nil. Qed.

(** With the offer the one client counts; without it the goroutine reports as well,
    and counts none. *)
Lemma main_reports_witness :
  toy_setup = Ret (Ok toy_clients) ∧
  (∀ e, main_ends (D := rfc_lib) toy_parser toy_clients [toy_frame []; toy_frame [0]] None e → e = Reported 1 1) ∧
  (∃ e, main_ends (D := rfc_lib) toy_parser toy_clients [toy_frame []; toy_frame [0]] None e) ∧
  (∀ e, main_ends (D := rfc_lib) toy_parser toy_clients [toy_frame [0]] None e → e = Reported 0 1) ∧
  (∃ e, main_ends (D := rfc_lib) toy_parser toy_clients [toy_frame [0]] None e).
Proof.
  split; [exact toy_setup_eq|]. split_and!.
  - destruct (main_reports rfc_lib toy_parser (λ _, Ok (4, [])) (3, None) (λ _, None) "br0" (4, []) 3
      [0; 1; 0; 0; 0; 0] 1 [toy_frame []; toy_frame [0]] eq_refl toy_mac_ok ltac:(lia) eq_refl eq_refl eq_refl toy_frames_ok)
      as (clients & E & _ & b & final & Ef & H).
    change (toy_setup = Ret (Ok clients)) in E. rewrite toy_setup_eq in E. injection E as <-.
    rewrite toy_offered in Ef. injection Ef as <- <-. intros e (s & -> & _ & -> & _)%H. by rewrite (proj1 toy_counts).
  - eexists. eapply ends_done, toy_offered.
  - destruct (main_reports rfc_lib toy_parser (λ _, Ok (4, [])) (3, None) (λ _, None) "br0" (4, []) 3
      [0; 1; 0; 0; 0; 0] 1 [toy_frame [0]] eq_refl toy_mac_ok ltac:(lia) eq_refl eq_refl eq_refl (Forall_inv_tail toy_frames_ok))
      as (clients & E & _ & b & final & Ef & H).
    change (toy_setup = Ret (Ok clients)) in E. rewrite toy_setup_eq in E. injection E as <-.
    rewrite toy_not_offered in Ef. injection Ef as <- <-. intros e (s & -> & _ & -> & _)%H. by rewrite (proj2 toy_counts).
  - eexists. eapply ends_done, toy_not_offered.
Defined.

(** ** Longer start addresses *)

Lemma incMac_long x rest x' : incMac x = Ret x' → incMac (x ++ rest) = Ret (x' ++ rest).
Proof.
  destruct x as [|a0 [|a1 [|a2 [|a3 [|a4 [|a5 x]]]]]]; try done. unfold incMac. cbn [app]. cbv zeta.
  repeat case_match; by intros [= <-].
Qed.

(** Addresses of [n] bytes, and clients that nobody answered. *)
Definition unanswered (n : nat) (clients : gmap string Client) : Prop :=
  ∀ k c, clients !! k = Some c → succeeded c = false ∧ Client_Ack c = None ∧
    ∃ a, k = HardwareAddr_String a ∧ length a = n ∧ Forall is_u8 a.

Lemma make_clients_long i n cm clients :
  (6 <= n)%nat → length cm = n → Forall is_u8 cm → unanswered n clients →
  ∃ clients', make_clients i cm clients = Ret clients' ∧ unanswered n clients' ∧
    (i ≠ 0%nat → clients' ≠ ∅) ∧ (clients ≠ ∅ → clients' ≠ ∅).
Proof.
  intros Hn. revert cm clients. induction i as [|i IH]; intros cm clients Hl Hu Hc; cbn [make_clients]; [by exists clients|].
  rewrite <- (take_drop 6 cm) in Hu |- *. apply Forall_app in Hu as [Hu1 Hu2].
  destruct (incMac_spec (take 6 cm)) as (x & Ex & Hlx & Hux & _); [rewrite length_take; lia|done|].
  rewrite (incMac_long _ (drop 6 cm) _ Ex). cbn [mbind outcome_bind].
  assert (length (x ++ drop 6 cm) = n) as Hlen by (rewrite length_app, length_drop; lia).
  assert (Forall is_u8 (x ++ drop 6 cm)) as Hall by by apply Forall_app.
  destruct (IH (x ++ drop 6 cm) (<[HardwareAddr_String (x ++ drop 6 cm) :=
    {| Client_MAC := take 6 (x ++ drop 6 cm); Client_Offers := []; Client_Ack := None |}]> clients))
    as (m & E & Hm & _ & Hne); [done|done| |].
  - intros k c. rewrite lookup_insert. case_decide as Ek; [|by apply Hc].
    intros [= <-]. split_and!; [done|done|]. by exists (x ++ drop 6 cm).
  - exists m. assert (m ≠ ∅) by apply Hne, insert_non_empty. by split_and!.
Qed.

(** Nobody is addressed by six bytes. *)
Lemma unanswered_frames `{D : Dhcpv4} FromBytes n clients frames :
  n ≠ 6%nat → unanswered n clients → Forall (λ buf, (42 <= length buf)%nat ∧ Forall is_u8 buf) frames →
  GetDHCPAddrs FromBytes clients frames = Ret (false, clients).
Proof.
  intros Hn Hc. induction 1 as [|buf frames [Hb Hu] _ IH]; cbn [GetDHCPAddrs]; [done|].
  rewrite (proj2 (Nat.ltb_ge _ 6)) by lia.
  destruct (clients !! HardwareAddr_String (take 6 buf)) as [c|] eqn:Hk; [|exact IH].
  destruct (Hc _ _ Hk) as (_ & _ & a & E & Hl & Ha). exfalso. apply Hn. rewrite <- Hl.
  apply HardwareAddr_String_inj in E; [subst a; rewrite length_take; lia|by apply Forall_take|done| |].
  - intros E'. apply (f_equal length) in E'. rewrite length_take in E'. cbn [length] in E'. lia.
  - intros ->. destruct (take 6 buf) as [|b l] eqn:Et; [|by destruct l].
    apply (f_equal length) in Et. rewrite length_take in Et. cbn [length] in Et. lia.
Qed.

(** A start address of eight or twenty bytes, which [net.ParseMAC] accepts, is
    accepted by the load test too, and then no test succeeds.  The clients are kept under the texts
    of their whole addresses, and looked up by the first six bytes of a frame: no
    frame is for any of them, the goroutine never reports, and after the timeout the
    number of successes is zero. *)
Theorem long_start_address (D : Dhcpv4) FromBytes InterfaceByName Socket Bind ifName iface fd m n frames :
  mac_length (length m) = true → length m ≠ 6%nat → Forall is_u8 m → (0 < n)%nat →
  InterfaceByName ifName = Ok iface → Socket = (fd, None) → Bind fd = None →
  Forall (λ buf, (42 <= length buf)%nat ∧ Forall is_u8 buf) frames →
  ∃ clients, main_setup InterfaceByName Socket Bind (Z.of_nat n) ifName (HardwareAddr_String m) = Ret (Ok clients) ∧
    (0 < size clients)%nat ∧
    ∀ when e, main_ends FromBytes clients frames when e → when ≠ None ∧ e = Reported 0 (size clients).
Proof.
  intros Hl H6 Hu Hn Hif -> Hb Hf.
  destruct (make_clients_long n (length m) m ∅) as (clients & E & Hc & Hne & _);
    [revert Hl; unfold mac_length; rewrite !orb_true_iff, !Nat.eqb_eq; clear; intros; lia|done|done|by intros k c; rewrite lookup_empty|].
  exists clients. split.
  { unfold main_setup. rewrite Hif, ParseMAC_String by done. rewrite Nat2Z.id, E. cbn. by rewrite Hb. }
  assert (∀ j, handled_frames FromBytes clients frames j = Ret (false, clients)) as Hh.
  { intros j. apply (unanswered_frames FromBytes (length m)); [done|done|by apply Forall_take]. }
  assert (GetDHCPAddrs FromBytes clients frames = Ret (false, clients)) as Hall by by eapply unanswered_frames.
  split.
  { apply Nat.neq_0_lt_0. intros Hz. apply map_size_empty_inv in Hz. apply Hne; [lia|done]. }
  intros when e He. destruct He as [m' E'|t seen report Hr|why E']; [congruence| |congruence].
  assert (report = clients) as ->.
  { apply map_eq. intros k. destruct (Hr k) as (_ & b & m' & E' & ->). rewrite Hh in E'. by injection E' as _ <-. }
  split; [done|]. f_equal. rewrite count_success_size.
  rewrite map_empty_filter_2; [done|]. intros k c Hk. cbn. by destruct (Hc k c Hk) as [-> _].
Qed.

Lemma long_start_address_witness :
  ∃ clients, main_setup (λ _, Ok (4, [])) (3, None) (λ _, None) 2 "br0" "02:00:5e:10:00:00:00:01" = Ret (Ok clients) ∧
    ∀ when e, main_ends (D := rfc_lib) (λ _, Ok toy_ack) clients [] when e → when ≠ None.
Proof.
  destruct (long_start_address rfc_lib (λ _, Ok toy_ack) (λ _, Ok (4, [])) (3, None) (λ _, None) "br0" (4, []) 3
    [2; 0; 94; 16; 0; 0; 0; 1] 2 []) as (clients & E & _ & He); [done|done| |lia|done..|].
  - repeat (apply List.Forall_cons; [by unfold is_u8|]). apply List.Forall_nil.
  - exists clients. split; [exact E|]. intros when e Hm. exact (proj1 (He when e Hm)).
Defined.
