(* ===== verification/Restart.v ===== *)
(** * What a restart forgets

    The leases that were written to the status of a subnet's object are never read back:
    the server that the program starts with, and the subnet that a reconciler adds to
    it, know none of them. *)

From S2P Require Import Prelude GoStrings GoNet Errors IPv4 Types Dhcpv4 Subnet.
From S2P Require Import LeaseCache Pool SubnetProps SubnetNet Server ServerProps.
From S2P Require Import Responses ServerGuarantees ServerReach ApiTypes Controllers ControllersProps.
Open Scope string_scope.
Open Scope list_scope.
Open Scope Z_scope.

(** The first client of a subnet that was just initialised, if it has no wish, is
    given the first address of the range. *)
Lemma first_client `{D : Dhcpv4} addrOrder cfg addrs sn tExp tNew h req :
  InitializeSubnet addrOrder cfg addrs = Ok sn → Subnet_currentIP cfg = 0 → Subnet_iPTo sn < 2 ^ 32 - 1 →
  isAddressZero (RequestedIPAddress req) = true →
  let l := NewLease tNew sn (client_key req) (ParseIP (IPv4_String (Subnet_iPFrom sn))) in
  ∃ sn', GetLeaseForRequest tExp tNew h sn req = Some (Some (length h), h ++ [l], sn').
Proof.
  intros Hi Hc Hmax Hz l. destruct (InitializeSubnet_inv _ _ _ _ h Hi Hc Hmax) as [Hp _].
  apply InitializeSubnet_Ok in Hi as (? & ? & ? & ? & ? & _ & _ & _ & _ & _ & _ & _ & _ & _ & Hcur & Hcache & _).
  assert (∀ i, ¬ taken sn i) as Hfree.
  { intros i [p Hi]. rewrite Hcache in Hi. by rewrite lookup_empty in Hi. }
  assert (first_ip sn = Subnet_iPFrom sn) as Hf by (unfold first_ip; by rewrite Hcur, Hc).
  pose proof (first_ip_in_range sn Hp) as Hin.
  destruct (request_pool_grants tExp tNew h sn req Hp) as (r & -> & Hg);
    [by rewrite Hcache, lookup_empty|done|].
  inversion Hg as [pre i post Hw Hpre Hi Er|i q Ht _ _ _ _|Ht _]; subst; [|by destruct (Hfree _ (Ht _ Hin))..].
  destruct Hpre as [|j pre Hj _]; [|by destruct (Hfree j)].
  destruct (probe_order_head (Subnet_iPFrom sn) (Subnet_iPTo sn) (first_ip sn)) as [rest Er]; [apply Hin|].
  rewrite Er in Hw. injection Hw as <- _. rewrite Hf. by eexists.
Qed.

(** C36: leases do not survive the program.  Whatever leases the status of a subnet's
    object records, the program that starts after them and reconciles the object
    serves the subnet as if there were none: the first client that asks for any address is
    given the first one of the range, also when the status says that this address belongs to
    another client, whose lease may have been renewed a moment ago. *)
Theorem restart_forgets_leases (D : Dhcpv4) (K : ReconcileLog) local e srv o addrOrder order orders req subnet sn mac0 rec tExp tNew pkt :
  NewServer o true true local = Ret (Some srv, e) →
  InitializeSubnet addrOrder (ToSubnet subnet) (localIpAddresses srv) = Ok sn →
  range_order order (subnets srv) → Subnet_iPTo sn < 2 ^ 32 - 1 →
  default ∅ (status_Leases (subnet_Status subnet)) !! mac0 = Some rec →
  V1Lease_IP rec = IPv4_String (Subnet_iPFrom sn) →
  isAddressZero (RequestedIPAddress pkt) = true → client_key pkt ≠ mac0 →
  ∃ w, SubnetReconcile addrOrder order orders (NewControllers srv) req (Found subnet) = Ret (no_requeue, None, w) ∧
  let s := dhcpServer w in
  subnets s !! sns_Subnet (subnet_Spec subnet) = Some sn ∧
  ∃ p h' sn' l, GetLeaseForRequest tExp tNew (leases s) sn pkt = Some (Some p, h', sn') ∧
    h' !! p = Some l ∧ Lease_MAC l = client_key pkt ∧ Lease_MAC l ≠ mac0 ∧
    IP_String (Lease_IP l) = V1Lease_IP rec.
Proof.
  intros HN Hi Ho Hmax Hrec Hip Hz Hne.
  assert (subnets srv = ∅ ∧ leases srv = []) as [Hs Hl].
  { unfold NewServer in HN. cbn in HN. destruct local as [addrs err]; by injection HN as <- _. }
  assert (AddSubnet addrOrder order srv (ToSubnet subnet) =
    (None, set_subnets (<[Subnet_Subnet sn := sn]> (subnets srv)) srv)) as Ha.
  { unfold AddSubnet. rewrite Hi. assert (order = []) as ->; [|done].
    apply Permutation_nil_r. unfold range_order in Ho. rewrite Hs, map_to_list_empty in Ho. done. }
  assert (Subnet_Subnet sn = sns_Subnet (subnet_Spec subnet)) as En.
  { by apply InitializeSubnet_Ok in Hi as (? & ? & ? & ? & ? & _ & _ & _ & _ & _ & _ & _ & ? & _). }
  rewrite (SubnetReconcile_new _ _ _ (NewControllers srv) _ _ _ eq_refl Ha). cbn.
  rewrite lookup_empty, En. cbn. eexists. split; [reflexivity|]. cbn.
  split; [apply lookup_insert_eq|]. rewrite Hl.
  destruct (first_client (D := D) _ _ _ _ tExp tNew [] pkt Hi eq_refl Hmax Hz) as [sn' E].
  do 4 eexists. split; [exact E|]. split; [reflexivity|]. cbn. split_and!; [done|done|].
  rewrite Hip. apply ParseIP_IPv4_String.
  apply InitializeSubnet_Ok in Hi as (from & ? & ? & ? & ? & Hf & _ & _ & _ & _ & -> & _).
  by apply ParseIPv4_u32 in Hf.
Qed.

(** The test network after a restart, with the lease of the client [...01]. *)
Definition recorded_subnet : DHCPSubnet := {|
  subnet_key := subnet_key cr_subnet; subnet_Spec := subnet_Spec cr_subnet;
  subnet_Status := {| status_ErrorMessage := "";
    status_Leases := Some {["02:00:00:00:00:01" := {| V1Lease_IP := "10.3.1.10"; V1Lease_UpdatedAt := demo_now |}]} |} |}.

Lemma restart_forgets_leases_witness :
  ∃ srv w p h' sn sn' l,
    NewServer ifaces true true (test_local, None) = Ret (Some srv, None) ∧
    SubnetReconcile (K := zap_log true) ifaces [] (λ _, []) (NewControllers srv) (subnet_key cr_subnet)
      (Found recorded_subnet) = Ret (no_requeue, None, w) ∧
    GetLeaseForRequest (H := rfc_lib) demo_now demo_now (leases (dhcpServer w)) sn (demo_discover 7) = Some (Some p, h', sn') ∧
    h' !! p = Some l ∧ Lease_MAC l ≠ "02:00:00:00:00:01" ∧ IP_String (Lease_IP l) = "10.3.1.10".
Proof.
  destruct (InitializeSubnet ifaces (ToSubnet recorded_subnet) (localIpAddresses empty_server)) as [sn|] eqn:Hi;
    [|by vm_compute in Hi].
  assert (Subnet_iPFrom sn = 167969034 ∧ Subnet_iPTo sn = 167969037) as [Hf Ht].
  { apply InitializeSubnet_Ok in Hi as (from & to & ? & ? & ? & Hf & Ht & _ & _ & _ & -> & -> & _).
    vm_compute in Hf, Ht. by simplify_eq. }
  destruct (restart_forgets_leases rfc_lib (zap_log true) (test_local, None) None empty_server ifaces ifaces [] (λ _, [])
    (subnet_key cr_subnet) recorded_subnet sn "02:00:00:00:00:01"
    {| V1Lease_IP := "10.3.1.10"; V1Lease_UpdatedAt := demo_now |} demo_now demo_now (demo_discover 7)
    eq_refl Hi) as (w & Hw & _ & p & h' & sn' & l & E & Hl & _ & Hm & Hip).
  - exact (range_order_self (subnets empty_server)).
  - rewrite Ht. lia.
  - reflexivity.
  - rewrite Hf. vm_compute. reflexivity.
  - reflexivity.
  - vm_compute. discriminate.
  - exists empty_server, w, p, h', sn, sn', l. split_and!; [reflexivity|exact Hw|exact E|done..].
Defined.
