(* ===== verification/Atomic.v ===== *)
(** * The requests of several listeners at the same time

    The state machine of the server takes [GetResponse] as one step.  The code does it
    in several: each lookup of a subnet is done under the server's mutex, the lease is
    chosen under the subnet's own, and the response is filled in under none, while
    the workers of other listeners and the reconcilers go on.  Here these are separate
    steps of any number of workers, and the two machines are related. *)

From S2P Require Import Prelude GoStrings GoNet Errors IPv4 Types Dhcpv4 Subnet.
From S2P Require Import LeaseCache Pool SubnetProps SubnetNet Server ServerProps.
From S2P Require Import Responses ServerGuarantees ServerReach.
Open Scope string_scope.
Open Scope list_scope.
Open Scope Z_scope.

(** ** Leases up to what is filled in *)

(** A lease without the fields that are written after it is made. *)
Definition bare (l : Lease) : Lease := set_AckSent false (set_ServerId None l).

(** Stores that agree on everything else. *)
Definition alike (h1 h2 : lease_store) : Prop := bare <$> h1 = bare <$> h2.

#[global] Instance alike_equivalence : Equivalence alike.
Proof. unfold alike. split; [done|by intros ?? ->|by intros ??? -> ->]. Qed.

Lemma alike_app h1 h2 l : alike h1 h2 → alike (h1 ++ [l]) (h2 ++ [l]).
Proof. unfold alike. intros H. by rewrite !fmap_app, H. Qed.

Lemma alike_length h1 h2 : alike h1 h2 → length h1 = length h2.
Proof. intros H%(f_equal length). by rewrite !length_fmap in H. Qed.

Lemma alike_deref h1 h2 p : alike h1 h2 → bare (deref h1 p) = bare (deref h2 p).
Proof.
  unfold alike, deref. intros H. apply (f_equal (.!! p)) in H. rewrite !list_lookup_fmap in H.
  rewrite !list_lookup_total_alt. destruct (h1 !! p), (h2 !! p); cbn in *; congruence.
Qed.

Lemma alike_MAC h1 h2 p : alike h1 h2 → Lease_MAC (deref h1 p) = Lease_MAC (deref h2 p).
Proof. intros H%(alike_deref _ _ p). exact (f_equal Lease_MAC H). Qed.

Lemma alike_IP h1 h2 p : alike h1 h2 → Lease_IP (deref h1 p) = Lease_IP (deref h2 p).
Proof. intros H%(alike_deref _ _ p). exact (f_equal Lease_IP H). Qed.

Lemma alike_LastUpdate h1 h2 p : alike h1 h2 → Lease_LastUpdate (deref h1 p) = Lease_LastUpdate (deref h2 p).
Proof. intros H%(alike_deref _ _ p). exact (f_equal Lease_LastUpdate H). Qed.

Lemma alike_alter f h p : (∀ l, bare (f l) = bare l) → alike (alter f p h) h.
Proof.
  unfold alike. intros Hf. apply list_eq. intros i. rewrite !list_lookup_fmap.
  destruct (decide (p = i)) as [->|]; [|by rewrite list_lookup_alter_ne].
  rewrite list_lookup_alter_eq. destruct (h !! i); cbn; by rewrite ?Hf.
Qed.

Lemma alike_ServerId ip h p : alike (alter (set_ServerId ip) p h) h.
Proof. by apply alike_alter. Qed.

Lemma alike_AckSent b h p : alike (alter (set_AckSent b) p h) h.
Proof. by apply alike_alter. Qed.

(** ** Operations on stores that are alike *)

#[global] Instance cache_add_alike : Proper (alike ==> (=) ==> (=) ==> (=)) cache_add.
Proof.
  intros h1 h2 H p ? <- c ? <-. unfold cache_add. rewrite (alike_MAC _ _ p H), (alike_IP _ _ p H).
  destruct (c !! _) as [old|]; [|done]. by rewrite (alike_MAC _ _ old H).
Qed.

#[global] Instance AddLease_alike : Proper (alike ==> (=) ==> (=) ==> (=)) AddLease.
Proof. intros h1 h2 H s ? <- p ? <-. unfold AddLease. by rewrite H. Qed.

#[global] Instance keep_oldest_alike : Proper (alike ==> (=) ==> (=) ==> (=) ==> (=)) keep_oldest.
Proof.
  intros h1 h2 H t ? <- o ? <- p ? <-. unfold keep_oldest. rewrite (alike_LastUpdate _ _ p H).
  destruct o as [o|]; [|done]. by rewrite (alike_LastUpdate _ _ o H).
Qed.

Definition answers_alike (a1 a2 : lease_answer) : Prop :=
  a1.1.1 = a2.1.1 ∧ alike a1.1.2 a2.1.2 ∧ a1.2 = a2.2.

(** Loops whose bodies do the same up to their results. *)
Lemma iter_pos_rel {S R} (Q : R → R → Prop) (body1 body2 : S → S + R) n s :
  (∀ s, match body1 s, body2 s with
        | inl s1, inl s2 => s1 = s2
        | inr r1, inr r2 => Q r1 r2
        | _, _ => False
        end) →
  match iter_pos body1 n s, iter_pos body2 n s with
  | inl s1, inl s2 => s1 = s2
  | inr r1, inr r2 => Q r1 r2
  | _, _ => False
  end.
Proof.
  intros Hb. rewrite !iter_pos_nat. revert s. induction (Pos.to_nat n) as [|m IH]; intros s; cbn [iter_nat]; [done|].
  specialize (Hb s). destruct (body1 s) as [s1|r1], (body2 s) as [s2|r2]; try done. subst. apply IH.
Qed.

Lemma pool_body_alike h1 h2 mac now e first st :
  alike h1 h2 →
  match pool_body h1 mac now e first st, pool_body h2 mac now e first st with
  | inl s1, inl s2 => s1 = s2
  | inr r1, inr r2 => answers_alike r1 r2
  | _, _ => False
  end.
Proof.
  intros H. unfold pool_body. destruct st as [s oldest]. destruct (Subnet_leaseCache s !! _) as [p|].
  - rewrite (keep_oldest_alike _ _ H e e eq_refl oldest oldest eq_refl p p eq_refl).
    destruct (first =? _); [|done]. by destruct (keep_oldest h2 e oldest p).
  - cbn [new_lease]. rewrite (alike_length _ _ H). split_and!; [done|by apply alike_app|].
    cbn. by rewrite (alike_app _ _ _ H).
Qed.

Lemma GetLeaseForRequest_alike `{D : Dhcpv4} tExp tNew h1 h2 s req :
  alike h1 h2 →
  option_relation answers_alike (λ _, False) (λ _, False)
    (GetLeaseForRequest tExp tNew h1 s req) (GetLeaseForRequest tExp tNew h2 s req).
Proof.
  intros H. unfold GetLeaseForRequest. destruct (Subnet_leaseCache s !! _) as [p|].
  { rewrite (alike_IP _ _ p H). by destruct (_ && _). }
  destruct (negb _).
  - destruct (Subnet_leaseCache s !! _) as [p|]; cbn; rewrite ?(alike_length _ _ H); split_and!; try done.
    by apply alike_app.
  - cbv zeta. match goal with |- context [iter_pos (pool_body h1 ?m ?n ?e ?f) ?fuel ?st] =>
      pose proof (iter_pos_rel answers_alike (pool_body h1 m n e f) (pool_body h2 m n e f) fuel st
        (λ x, pool_body_alike h1 h2 m n e f x H)) as Hi end.
    destruct (iter_pos _ _ _), (iter_pos _ _ _); done.
Qed.

(** A store that has at least the leases of another. *)
Definition grows (h1 h2 : lease_store) : Prop :=
  ∀ p l, h1 !! p = Some l → ∃ l', h2 !! p = Some l' ∧ bare l' = bare l.

#[global] Instance grows_preorder : PreOrder grows.
Proof.
  split; [intros h p l Hl; by exists l|]. intros h1 h2 h3 H12 H23 p l (l2 & H2 & E2)%H12.
  apply H23 in H2 as (l3 & H3 & E3). exists l3. split; [done|congruence].
Qed.

Lemma alike_grows h1 h2 : alike h1 h2 → grows h1 h2.
Proof.
  intros H p l Hl. apply (f_equal (.!! p)) in H. rewrite !list_lookup_fmap, Hl in H.
  destruct (h2 !! p) as [l'|]; [|done]. exists l'. split; [done|]. cbn in H. congruence.
Qed.

Lemma grows_app h new : grows h (h ++ new).
Proof. intros p l Hl. exists l. split; [by apply lookup_app_l_Some|done]. Qed.

Lemma GetLeaseForRequest_grows `{D : Dhcpv4} tExp tNew h s req r h' s' :
  subnet_inv h s → GetLeaseForRequest tExp tNew h s req = Some (r, h', s') → grows h h'.
Proof.
  intros [Hp _] HG. assert (h' = h ∨ ∃ l, h' = h ++ [l]) as [->|[l ->]]; [|done|apply grows_app].
  destruct (Subnet_leaseCache s !! client_key req) as [q|] eqn:Hm;
    [|destruct (isAddressZero (RequestedIPAddress req)) eqn:Hz].
  - rewrite (request_known _ _ _ _ _ _ Hm) in HG. case_match; simplify_eq; by left.
  - destruct (request_pool_grants tExp tNew h s req Hp Hm Hz) as (x & E & Hg).
    rewrite E in HG. injection HG as ->. inversion Hg; subst; [right; by eexists|by left..].
  - rewrite request_wanted in HG by done. case_match; simplify_eq; [by left|right; by eexists].
Qed.

(** ** The rest of [GetResponse] *)

Section fill.
Context `{D : Dhcpv4}.

(** What [getResponse] and [GetResponse] do with the lease that was found, in a subnet
    with server address [addr]. *)
Definition fill (addr : net_IP) (h : lease_store) (req : Request) (lease : option lease_ptr)
    : result error Response * lease_store :=
  match lease with
  | None => (Err ENilLease, h)
  | Some p =>
      match NewReplyFromRequest (Request_DHCPv4 req) with
      | (_, Some e) => (Err e, h)
      | (None, None) => (Err ENoReply, h)
      | (Some resp, None) =>
          let resp := set_ServerIPAddr addr (set_YourIPAddr (Lease_IP (deref h p)) resp) in
          let h := alter (set_ServerId addr) p h in
          match apply_options (Lease_Options (deref h p)) resp with
          | Err e => (Err e, h)
          | Ok resp =>
              let t := if MessageType (Request_DHCPv4 req) =? MessageTypeRequest
                       then MessageTypeAck else MessageTypeOffer in
              (Ok {| Response_Request := req;
                     Response_Response := UpdateOption 53 (VMessageType t) (finish_response (deref h p) resp);
                     Response_Lease := p |},
               alter (set_ServerId addr) p h)
          end
      end
  end.

Lemma GetResponse_split tExp tNew orders s req k sn r h' sn' :
  for_other_server s (Request_DHCPv4 req) = false → getSubnet orders s req = Some (k, sn) →
  (MessageType (Request_DHCPv4 req) =? MessageTypeDiscover) || (MessageType (Request_DHCPv4 req) =? MessageTypeRequest) = true →
  GetLeaseForRequest tExp tNew (leases s) sn (Request_DHCPv4 req) = Some (r, h', sn') →
  GetResponse tExp tNew orders s req =
    Ret ((fill (Subnet_serverIPAddress sn') h' req r).1,
         set_leases (fill (Subnet_serverIPAddress sn') h' req r).2 (set_subnets (<[k := sn']> (subnets s)) s)).
Proof.
  intros Ho Hg Ht Hl. unfold GetResponse. rewrite Ho, Hg, Ht. unfold getResponse. rewrite Hl.
  unfold fill. destruct r as [p|]; [|done].
  destruct (NewReplyFromRequest _) as [[resp|] [e|]]; try done. cbv zeta.
  destruct (apply_options _ _) as [resp'|e]; [|done].
  destruct (Z.eqb_spec (MessageType (Request_DHCPv4 req)) MessageTypeRequest); [done|].
  destruct (Z.eqb_spec (MessageType (Request_DHCPv4 req)) MessageTypeDiscover); done.
Qed.

(** It depends on the one lease, and writes only what does not matter. *)
Lemma fill_alike addr h req lease : alike (fill addr h req lease).2 h.
Proof.
  unfold fill. destruct lease as [p|]; [|done].
  destruct (NewReplyFromRequest _) as [[resp|] [e|]]; try done. cbv zeta.
  destruct (apply_options _ _); cbn [snd]; [|apply alike_ServerId].
  by rewrite !alike_ServerId.
Qed.

Lemma fill_entry addr h1 h2 req p l1 l2 :
  h1 !! p = Some l1 → h2 !! p = Some l2 → bare l1 = bare l2 →
  (fill addr h1 req (Some p)).1 = (fill addr h2 req (Some p)).1.
Proof.
  intros H1 H2 E. unfold fill.
  destruct (NewReplyFromRequest _) as [[resp|] [e|]]; try done. cbv zeta.
  rewrite !(deref_alter _ _ _ _ H1), !(deref_alter _ _ _ _ H2), (deref_Some _ _ _ H1), (deref_Some _ _ _ H2).
  assert (Lease_IP l1 = Lease_IP l2) as -> by exact (f_equal Lease_IP E).
  assert (Lease_Options (set_ServerId addr l1) = Lease_Options (set_ServerId addr l2)) as ->
    by exact (f_equal Lease_Options E).
  destruct (apply_options _ _) as [resp'|]; [|done]. cbn [fst]. do 3 f_equal.
  change (finish_response (set_AckSent false (set_ServerId addr (bare l1))) resp' =
    finish_response (set_AckSent false (set_ServerId addr (bare l2))) resp'). by rewrite E.
Qed.
End fill.

#[global] Arguments fill : simpl never.

(** ** The steps of the program *)

Section steps.
Context `{D : Dhcpv4}.

(** What the reconcilers and the acknowledging workers do, except to the map of
    subnets. *)
Inductive host_step (s : Server) : Server → Prop :=
  | hs_ack p b : host_step s (set_leases (alter (set_AckSent b) p (leases s)) s)
  | hs_add_host order host e s' :
      is_v4 (Host_IP host) → contains_char "." (Host_MAC host) = false →
      Server_AddHost order s host = (e, s') → host_step s s'
  | hs_delete_host order host e s' :
      contains_char "." (Host_MAC host) = false →
      (∀ k sn, subnets s !! k = Some sn → owns (leases s) sn (Host_MAC host) (IP_String (Host_IP host))) →
      Server_DeleteHost order s host = (e, s') → host_step s s'
  | hs_add_listen factory listen e s' : AddListen factory s listen = (e, s') → host_step s s'
  | hs_delete_listen name e s' : DeleteListen s name = (e, s') → host_step s s'.

(** What they do to the map of subnets. *)
Inductive net_step (s : Server) : Server → Prop :=
  | ns_add addrOrder order cfg e s' :
      cfg_ok cfg → AddSubnet addrOrder order s cfg = (e, s') → net_step s s'
  | ns_delete k e s' : DeleteSubnet s k = (e, s') → net_step s s'.

Abbreviation answered := (Request * result error Response)%type.

(** How far a worker is with a request: the addresses that are not yet looked up; the
    subnet that was found; the lease that was chosen, with the subnet's server address. *)
Inductive task :=
  | Idle
  | Searching (req : Request) (ips : list net_IP)
  | Holding (req : Request) (k : string)
  | Filling (req : Request) (addr : net_IP) (lease : option lease_ptr).

(** A worker is between the lookup of a subnet and the choice of a lease. *)
Definition in_search (t : task) : bool :=
  match t with Searching _ _ | Holding _ _ => true | _ => false end.

Definition served_type (req : Request) : bool :=
  (MessageType (Request_DHCPv4 req) =? MessageTypeDiscover) || (MessageType (Request_DHCPv4 req) =? MessageTypeRequest).

(** A step of a worker with its task, and the answer if it has one. *)
Inductive worker_step (s : Server) : task → Server → task → option answered → Prop :=
  | ws_refuse req :
      client_ok (Request_DHCPv4 req) → for_other_server s (Request_DHCPv4 req) = true →
      worker_step s Idle s Idle
        (Some (req, Err (EUnknownServerId (IP_String (ServerIdentifier (Request_DHCPv4 req))))))
  | ws_start req :
      client_ok (Request_DHCPv4 req) → for_other_server s (Request_DHCPv4 req) = false →
      worker_step s Idle s (Searching req (lookup_addresses s req)) None
  | ws_next req ip ips order :
      range_order order (subnets s) → getSubnetForIp order s ip = None →
      worker_step s (Searching req (ip :: ips)) s (Searching req ips) None
  | ws_found req ip ips order k sn :
      range_order order (subnets s) → getSubnetForIp order s ip = Some (k, sn) →
      worker_step s (Searching req (ip :: ips)) s (Holding req k) None
  | ws_unknown req :
      worker_step s (Searching req []) s Idle
        (Some (req, Err (EUnknownSubnet (GatewayIPAddr (Request_DHCPv4 req)) (Request_InterfaceName req))))
  | ws_type req k :
      served_type req = false →
      worker_step s (Holding req k) s Idle (Some (req, Err (EUnknownPacketType (MessageType (Request_DHCPv4 req)))))
  | ws_lease req k sn tExp tNew r h' sn' :
      served_type req = true → subnets s !! k = Some sn →
      GetLeaseForRequest tExp tNew (leases s) sn (Request_DHCPv4 req) = Some (r, h', sn') →
      worker_step s (Holding req k) (set_leases h' (set_subnets (<[k := sn']> (subnets s)) s))
        (Filling req (Subnet_serverIPAddress sn') r) None
  | ws_fill req addr r :
      worker_step s (Filling req addr r) (set_leases (fill addr (leases s) req r).2 s) Idle
        (Some (req, (fill addr (leases s) req r).1)).

Definition log (o : list answered) (a : option answered) : list answered := o ++ option_list a.

(** The server and its workers, each with what it answered so far. *)
Inductive interleaved : Server * list (task * list answered) → Server * list (task * list answered) → Prop :=
  | il_worker i t o s s' t' a ws :
      ws !! i = Some (t, o) → worker_step s t s' t' a →
      interleaved (s, ws) (s', <[i := (t', log o a)]> ws)
  | il_host s s' ws : host_step s s' → interleaved (s, ws) (s', ws)
  | il_net s s' ws :
      net_step s s' → Forall (λ w, in_search w.1 = false) ws → interleaved (s, ws) (s', ws).

(** The same with requests that are answered in one step. *)
Inductive atomic : Server * list (list answered) → Server * list (list answered) → Prop :=
  | at_answer i o tExp tNew orders req r s s' outs :
      outs !! i = Some o → (∀ j, range_order (orders j) (subnets s)) → client_ok (Request_DHCPv4 req) →
      GetResponse tExp tNew orders s req = Ret (r, s') →
      atomic (s, outs) (s', <[i := o ++ [(req, r)]]> outs)
  | at_host s s' outs : host_step s s' → atomic (s, outs) (s', outs)
  | at_net s s' outs : net_step s s' → atomic (s, outs) (s', outs).

(** The atomic steps are those of the state machine. *)
Lemma host_step_server s s' : host_step s s' → server_step s s'.
Proof.
  destruct 1; [apply ss_ack|eapply ss_add_host|eapply ss_delete_host|eapply ss_add_listen|eapply ss_delete_listen]; done.
Qed.

Lemma net_step_server s s' : net_step s s' → server_step s s'.
Proof. destruct 1; [by eapply ss_add_subnet|by eapply ss_delete_subnet]. Qed.

Lemma atomic_server x y : atomic x y → server_step x.1 y.1.
Proof.
  destruct 1; [by eapply ss_response|by apply host_step_server|by apply net_step_server].
Qed.

Lemma atomics_server x y : rtc atomic x y → rtc server_step x.1 y.1.
Proof. induction 1; [done|]. eapply rtc_l; [by apply atomic_server|done]. Qed.

(** ** What steps leave as it was *)

(** The same subnets, with other caches. *)
Definition nets_kept (m m' : gmap string Subnet) : Prop :=
  ∀ k, option_relation subnet_frame (λ _, False) (λ _, False) (m !! k) (m' !! k).

Lemma nets_kept_refl m : nets_kept m m.
Proof. intros k. destruct (m !! k); [apply subnet_frame_refl|done]. Qed.

Lemma nets_kept_insert m k sn sn' : m !! k = Some sn → subnet_frame sn sn' → nets_kept m (<[k := sn']> m).
Proof.
  intros Hk Hf k'. rewrite lookup_insert. case_decide as E; [by rewrite <- E, Hk|apply nets_kept_refl].
Qed.

Lemma nets_kept_back m m' k sn' :
  nets_kept m m' → m' !! k = Some sn' → ∃ sn, m !! k = Some sn ∧ subnet_frame sn sn'.
Proof. intros H E. specialize (H k). rewrite E in H. destruct (m !! k) as [sn|]; [by exists sn|done]. Qed.

Lemma nets_kept_dom m m' order : nets_kept m m' → range_order order m → range_order order m'.
Proof.
  unfold range_order. intros H ->. apply NoDup_Permutation; [apply NoDup_fst_map_to_list..|].
  intros k. rewrite !list_elem_of_fmap. split; intros ([k' x] & -> & Hx); apply elem_of_map_to_list in Hx.
  - specialize (H k'). rewrite Hx in H. destruct (m' !! k') as [y|] eqn:E; [|done].
    exists (k', y). split; [done|by apply elem_of_map_to_list].
  - destruct (nets_kept_back _ _ _ _ H Hx) as (y & Hy & _). exists (k', y). split; [done|by apply elem_of_map_to_list].
Qed.

Lemma nets_kept_none m m' ip :
  nets_kept m m' → (∀ k sn, m !! k = Some sn → Contains sn ip = false) →
  ∀ k sn, m' !! k = Some sn → Contains sn ip = false.
Proof.
  intros H Hn k sn' Hk. destruct (nets_kept_back _ _ _ _ H Hk) as (sn & Hs & Hf).
  rewrite (Contains_frame _ _ _ Hf). by eapply Hn.
Qed.

Lemma first_match_kept m m' ips k sn :
  nets_kept m m' → first_match m ips (Some (k, sn)) → ∃ sn', first_match m' ips (Some (k, sn')).
Proof.
  intros H Hm. remember (Some (k, sn)) as r eqn:E. induction Hm as [|ip ips k1 sn1 H1 Hc|ip ips r Hn Hr IH]; [done| |].
  - injection E as -> ->. pose proof (H k) as Hk. rewrite H1 in Hk. destruct (m' !! k) as [sn'|] eqn:E'; [|done].
    exists sn'. apply fm_here; [done|]. by rewrite (Contains_frame _ _ _ Hk).
  - destruct (IH E) as [sn' Hs]. exists sn'. apply fm_next; [|done]. by apply (nets_kept_none m).
Qed.

(** A match is what the search finds in a suitable order. *)
Lemma first_match_order s ips k sn :
  first_match (subnets s) ips (Some (k, sn)) →
  ∃ order, range_order order (subnets s) ∧ ∀ i, find_local_subnet (λ _, order) i s ips = Some (k, sn).
Proof.
  intros Hm. assert (k ∈ (map_to_list (subnets s)).*1) as Hk.
  { assert (subnets s !! k = Some sn) as Hs.
    { remember (Some (k, sn)) as r eqn:E. induction Hm; simplify_eq; auto. }
    apply list_elem_of_fmap. exists (k, sn). split; [done|]. by apply elem_of_map_to_list. }
  apply elem_of_Permutation in Hk as [rest Hp]. exists (k :: rest). split; [unfold range_order; by symmetry|].
  remember (Some (k, sn)) as r eqn:E.
  induction Hm as [|ip ips k1 sn1 H1 Hc|ip ips r Hn Hr IH]; intros i; cbn [find_local_subnet]; [done| |].
  - injection E as -> ->. unfold getSubnetForIp. cbn [find_subnet]. by rewrite H1, Hc.
  - destruct (getSubnetForIp (k :: rest) s ip) as [[k1 sn1]|] eqn:Eg; [|by apply IH].
    unfold getSubnetForIp in Eg. apply find_subnet_Some in Eg as (_ & H1 & Hc). by rewrite (Hn _ _ H1) in Hc.
Qed.

Lemma getSubnet_find orders s req : getSubnet orders s req = find_local_subnet orders 0 s (lookup_addresses s req).
Proof.
  unfold getSubnet, lookup_addresses. case_match; [done|]. cbn [find_local_subnet].
  by destruct (getSubnetForIp _ _ _).
Qed.

(** A later server, with the same addresses and subnets. *)
Record later (c c' : Server) : Prop := {
  la_local : localIpAddresses c' = localIpAddresses c;
  la_ids : serverIds c' = serverIds c;
  la_nets : nets_kept (subnets c) (subnets c');
  la_leases : grows (leases c) (leases c');
}.

Lemma la_refl c : later c c.
Proof. split; [done|done|apply nets_kept_refl|done]. Qed.

Lemma host_step_later c c' : host_step c c' → later c c'.
Proof.
  intros Hst. destruct Hst as [p b|order host e s' _ _ E|order host e s' _ _ E|factory listen e s' E|name e s' E].
  - split; [done|done|apply nets_kept_refl|]. apply alike_grows. symmetry. apply alike_AckSent.
  - unfold Server_AddHost in E. destruct (getSubnetForIp _ _ _) as [[k sn]|] eqn:Eg; [|injection E as _ <-; apply la_refl].
    unfold getSubnetForIp in Eg. apply find_subnet_Some in Eg as (_ & Hk & _). cbn [AddHost new_lease] in E.
    injection E as _ <-. split; [done|done| |apply grows_app].
    eapply nets_kept_insert; [done|apply subnet_frame_cache].
  - unfold Server_DeleteHost in E. destruct (getSubnetForIp _ _ _) as [[k sn]|] eqn:Eg; injection E as _ <-; [|apply la_refl].
    unfold getSubnetForIp in Eg. apply find_subnet_Some in Eg as (_ & Hk & _).
    split; [done|done| |done]. eapply nets_kept_insert; [done|apply subnet_frame_cache].
  - unfold AddListen in E. repeat case_match; injection E as _ <-; apply la_refl || (split; [done|done|apply nets_kept_refl|done]).
  - unfold DeleteListen in E. repeat case_match; injection E as _ <-; apply la_refl || (split; [done|done|apply nets_kept_refl|done]).
Qed.

(** ** The simulation *)

(** The same server, with another store that is alike. *)
Definition same (s c : Server) : Prop := ∃ h, c = set_leases h s ∧ alike (leases s) h.

Lemma same_refl s : same s s.
Proof. exists (leases s). split; [by destruct s|done]. Qed.

Lemma same_set_leases s c h1 h2 : same s c → alike h1 h2 → same (set_leases h1 s) (set_leases h2 c).
Proof. intros (h & -> & _) Ha. by exists h2. Qed.

Lemma host_step_same s s' c : host_step s s' → same s c → ∃ c', host_step c c' ∧ same s' c'.
Proof.
  intros Hst (h & -> & Ha). destruct Hst as [p b|order host e s' Hv Hm E|order host e s' Hm Hown E|factory listen e s' E|name e s' E].
  - eexists. split; [apply (hs_ack _ p b)|]. eapply same_set_leases; [by exists h|].
    cbn. by rewrite !alike_AckSent.
  - eexists. split; [by eapply (hs_add_host _ order host _ _ Hv Hm), surjective_pairing|].
    unfold Server_AddHost in *. change (getSubnetForIp order (set_leases h s)) with (getSubnetForIp order s).
    destruct (getSubnetForIp _ _ _) as [[k sn]|]; [|injection E as _ <-; by exists h].
    cbn [AddHost new_lease] in *. injection E as _ <-. cbn [snd leases set_leases].
    pose proof (alike_app _ _ (host_lease sn host) Ha) as Ha'. rewrite (AddLease_alike _ _ Ha' sn sn eq_refl _ _ (alike_length _ _ Ha)).
    by exists (h ++ [host_lease sn host]).
  - eexists. split.
    { eapply (hs_delete_host _ order host _ _ Hm); [|apply surjective_pairing]. intros k sn Hk q Hq.
      cbn [leases set_leases]. rewrite <- (alike_MAC _ _ q Ha). by eapply Hown. }
    unfold Server_DeleteHost in *. change (getSubnetForIp order (set_leases h s)) with (getSubnetForIp order s).
    destruct (getSubnetForIp _ _ _) as [[k sn]|]; injection E as _ <-; by exists h.
  - eexists. split; [eapply (hs_add_listen _ factory listen), surjective_pairing|].
    unfold AddListen in *. cbn [listeners set_leases]. destruct (listeners s !! _); [injection E as _ <-; by exists h|].
    destruct (factory _ _); injection E as _ <-; by exists h.
  - eexists. split; [eapply (hs_delete_listen _ name), surjective_pairing|].
    unfold DeleteListen in *. cbn [listeners set_leases]. destruct (listeners s !! _); injection E as _ <-; by exists h.
Qed.

Lemma net_step_same s s' c : net_step s s' → same s c → ∃ c', net_step c c' ∧ same s' c' ∧ grows (leases c) (leases c').
Proof.
  intros Hst (h & -> & Ha). destruct Hst as [addrOrder order cfg e s' Hc E|k e s' E].
  - eexists. split; [eapply (ns_add _ addrOrder order cfg _ _ Hc), surjective_pairing|].
    unfold AddSubnet in *. cbn [localIpAddresses subnets set_leases].
    destruct (InitializeSubnet _ _ _); [|injection E as _ <-; by split; [exists h|]].
    destruct (find_overlap _ _); injection E as _ <-; by split; [exists h|].
  - eexists. split; [eapply (ns_delete _ k), surjective_pairing|].
    unfold DeleteSubnet in *. cbn [subnets set_leases].
    destruct (subnets s !! k); injection E as _ <-; by split; [exists h|].
Qed.

(** How a worker of the program stands to its answers in the atomic run: the answer to
    a request is there from the choice of the lease on. *)
Definition worker_ok (c : Server) (w : task * list answered) (o : list answered) : Prop :=
  let good req := client_ok (Request_DHCPv4 req) ∧ for_other_server c (Request_DHCPv4 req) = false in
  match w.1 with
  | Idle => o = w.2
  | Searching req ips =>
      o = w.2 ∧ good req ∧ ∃ pre, lookup_addresses c req = pre ++ ips ∧
        ∀ ip k sn, ip ∈ pre → subnets c !! k = Some sn → Contains sn ip = false
  | Holding req k => o = w.2 ∧ good req ∧ ∃ sn, first_match (subnets c) (lookup_addresses c req) (Some (k, sn))
  | Filling req addr r =>
      o = w.2 ++ [(req, (fill addr (leases c) req r).1)] ∧ ∀ p, r = Some p → is_Some (leases c !! p)
  end.

Lemma worker_ok_filling c c' req addr r done_ o :
  grows (leases c) (leases c') → worker_ok c (Filling req addr r, done_) o → worker_ok c' (Filling req addr r, done_) o.
Proof.
  intros Hg [-> Hp]. split.
  - destruct r as [p|]; [|done]. destruct (Hp p eq_refl) as [l Hl]. destruct (Hg _ _ Hl) as (l' & Hl' & E).
    cbn. by rewrite (fill_entry addr (leases c) (leases c') req p l l' Hl Hl' (eq_sym E)).
  - intros p Hr. destruct (Hp p Hr) as [l Hl]. destruct (Hg _ _ Hl) as (l' & Hl' & _). eauto.
Qed.

Lemma worker_ok_later c c' w o : later c c' → worker_ok c w o → worker_ok c' w o.
Proof.
  intros [Hl Hi Hn Hg]. assert (∀ pkt, for_other_server c' pkt = for_other_server c pkt) as Ef
    by (intros pkt; unfold for_other_server; by rewrite Hi).
  assert (∀ req, lookup_addresses c' req = lookup_addresses c req) as Ea
    by (intros req; unfold lookup_addresses; by rewrite Hl).
  destruct w as [[|req ips|req k|req addr r] done_]; [done| | |by apply worker_ok_filling];
    unfold worker_ok; cbn; rewrite !Ef, !Ea.
  - intros (-> & ? & pre & E & Hpre). split; [done|split; [done|]]. exists pre. split; [done|].
    intros ip k sn Hip. eapply (nets_kept_none _ _ ip Hn). intros k' sn'. by apply Hpre.
  - intros (-> & ? & sn & Hm). split; [done|split; [done|]]. by eapply first_match_kept.
Qed.

(** The same lease, with the same result, in a store that is alike. *)
Lemma fill_same addr h1 h2 req r :
  alike h1 h2 → (∀ p, r = Some p → is_Some (h1 !! p)) → (fill addr h1 req r).1 = (fill addr h2 req r).1.
Proof.
  intros Ha Hp. destruct r as [p|]; [|done]. destruct (Hp p eq_refl) as [l Hl].
  destruct (alike_grows _ _ Ha _ _ Hl) as (l' & Hl' & E). by apply (fill_entry addr _ _ req p l l').
Qed.

(** The choice of the lease is where the request is answered. *)
Lemma lease_step_atomic s c o req k sn tExp tNew r h' sn' :
  same s c → server_inv c → worker_ok c (Holding req k, o) o → served_type req = true →
  subnets s !! k = Some sn →
  GetLeaseForRequest tExp tNew (leases s) sn (Request_DHCPv4 req) = Some (r, h', sn') →
  ∃ c' orders res, same (set_leases h' (set_subnets (<[k := sn']> (subnets s)) s)) c' ∧ later c c' ∧
    worker_ok c' (Filling req (Subnet_serverIPAddress sn') r, o) (o ++ [(req, res)]) ∧
    (∀ j, range_order (orders j) (subnets c)) ∧ client_ok (Request_DHCPv4 req) ∧
    GetResponse tExp tNew orders c req = Ret (res, c').
Proof.
  intros (h & -> & Ha) Hinv (_ & [Hc Hf] & sn0 & Hm) Ht Hk Hl.
  destruct (first_match_order (set_leases h s) _ _ _ Hm) as (order & Hord & Hfind).
  pose proof (Hfind 0%nat) as Hget. rewrite <- (getSubnet_find (λ _, order)) in Hget.
  assert (sn0 = sn) as ->.
  { apply getSubnet_Some in Hget; [|done]. cbn in Hget. congruence. }
  pose proof (GetLeaseForRequest_alike tExp tNew (leases s) h sn (Request_DHCPv4 req) Ha) as Hal. rewrite Hl in Hal.
  destruct (GetLeaseForRequest tExp tNew h sn (Request_DHCPv4 req)) as [[[r2 h2] sn2]|] eqn:El; [|done].
  destruct Hal as (Er & Hal & Es). cbn in Er, Hal, Es. subst r2 sn2.
  pose proof (GetResponse_split tExp tNew (λ _, order) (set_leases h s) req k sn r h2 sn' Hf Hget Ht El) as E.
  destruct (Hinv k sn Hk) as [_ Hsn]. cbn in Hsn.
  assert (∀ p, r = Some p → is_Some (h2 !! p)) as Hvalid.
  { intros p ->. exact (GetLeaseForRequest_valid tExp tNew h sn (Request_DHCPv4 req) p h2 sn' Hsn El). }
  set (addr := Subnet_serverIPAddress sn') in *. pose proof (fill_alike addr h2 req r) as Hfa.
  eexists _, (λ _, order), _. split_and!; [| | | |done|exact E].
  - eexists. split; [reflexivity|]. cbn. by rewrite Hal, Hfa.
  - split; [done|done| |].
    + eapply nets_kept_insert; [done|]. by eapply GetLeaseForRequest_frame; [apply Hsn|].
    + etrans; [by eapply (GetLeaseForRequest_grows tExp tNew h)|]. apply alike_grows. by symmetry.
  - split; cbn [leases set_leases fst snd].
    + by rewrite (fill_same addr h2 (fill addr h2 req r).2) by (by symmetry || done).
    + intros p Hp. destruct (Hvalid p Hp) as [l Hlp].
      destruct (alike_grows h2 (fill addr h2 req r).2 ltac:(by symmetry) p l Hlp) as (l' & ? & _). by exists l'.
  - done.
Qed.

(** Addresses that are in no subnet do not matter. *)
Lemma first_match_skip (m : gmap string Subnet) pre ips r :
  (∀ ip k sn, ip ∈ pre → m !! k = Some sn → Contains sn ip = false) →
  first_match m ips r → first_match m (pre ++ ips) r.
Proof.
  intros Hpre Hm. induction pre as [|ip pre IH]; cbn [app]; [done|].
  apply fm_next; [intros k sn; apply Hpre; by left|]. apply IH. intros ip' k sn Hin. apply Hpre. by right.
Qed.

(** The refusals, in one step. *)
Lemma refused_unknown orders s req ips :
  for_other_server s (Request_DHCPv4 req) = false → lookup_addresses s req = ips →
  (∀ ip k sn, ip ∈ ips → subnets s !! k = Some sn → Contains sn ip = false) →
  GetResponse 0 0 orders s req = Ret (Err (EUnknownSubnet (GatewayIPAddr (Request_DHCPv4 req)) (Request_InterfaceName req)), s).
Proof.
  intros Hf Ea Hips. unfold GetResponse. rewrite Hf, getSubnet_find, Ea.
  assert (∀ i, find_local_subnet orders i s ips = None) as ->; [|done].
  clear Ea. induction ips as [|ip ips IH]; intros i; cbn [find_local_subnet]; [done|].
  destruct (getSubnetForIp _ s ip) as [[k sn]|] eqn:E.
  - unfold getSubnetForIp in E. apply find_subnet_Some in E as (_ & Hk & Hcon).
    by rewrite (Hips ip k sn ltac:(left) Hk) in Hcon.
  - apply IH. intros ip' k sn Hin. apply Hips. by right.
Qed.

Lemma refused_type s req k sn :
  for_other_server s (Request_DHCPv4 req) = false → served_type req = false →
  first_match (subnets s) (lookup_addresses s req) (Some (k, sn)) →
  ∃ orders, (∀ j, range_order (orders j) (subnets s)) ∧
    GetResponse 0 0 orders s req = Ret (Err (EUnknownPacketType (MessageType (Request_DHCPv4 req))), s).
Proof.
  intros Hf Ht Hm. destruct (first_match_order s _ _ _ Hm) as (order & Hord & Hfind).
  exists (λ _, order). split; [done|]. unfold GetResponse. rewrite Hf, getSubnet_find, Hfind.
  unfold served_type in Ht. by rewrite Ht.
Qed.

(** A step of a worker is no step, or an answer, of the atomic run. *)
Lemma worker_step_atomic s t s' t' a o c oc :
  worker_step s t s' t' a → same s c → server_inv c → worker_ok c (t, o) oc →
  ∃ c' oc', same s' c' ∧ later c c' ∧ worker_ok c' (t', log o a) oc' ∧
    (c' = c ∧ oc' = oc ∨
     ∃ tExp tNew orders req r, (∀ j, range_order (orders j) (subnets c)) ∧ client_ok (Request_DHCPv4 req) ∧
       GetResponse tExp tNew orders c req = Ret (r, c') ∧ oc' = oc ++ [(req, r)]).
Proof.
  intros Hst Hsame Hinv Hok. pose proof Hsame as (h & Ec & Ha).
  assert (subnets c = subnets s) as En by by subst c.
  assert (∀ ip order, getSubnetForIp order c ip = getSubnetForIp order s ip) as Eg
    by (intros; subst c; done).
  assert (∀ pkt, for_other_server c pkt = for_other_server s pkt) as Ef by by subst c.
  assert (∀ req, lookup_addresses c req = lookup_addresses s req) as Ea by by subst c.
  destruct Hst as [req Hc Hf|req Hc Hf|req ip ips order Ho Hg|req ip ips order k sn Ho Hg|req|req k Ht
    |req k sn tExp tNew r h' sn' Ht Hk Hl|req addr r]; unfold worker_ok in Hok; cbn in Hok.
  - (* refused *) subst oc. exists c, (o ++ [(req, Err (EUnknownServerId (IP_String (ServerIdentifier (Request_DHCPv4 req)))))]).
    split_and!; [done|apply la_refl|done|]. right.
    exists 0, 0, (λ _, (map_to_list (subnets c)).*1), req, (Err (EUnknownServerId (IP_String (ServerIdentifier (Request_DHCPv4 req))))).
    split_and!; [intros _; apply range_order_self|done| |done]. unfold GetResponse. by rewrite Ef, Hf.
  - (* starts *) subst oc. exists c, o. split_and!; [done|apply la_refl| |by left].
    cbn. unfold log. rewrite app_nil_r, Ef, Ea. split; [done|split; [done|]]. exists [].
    split; [done|]. by intros ??? ?%not_elem_of_nil.
  - (* no subnet for this address *) destruct Hok as (-> & Hgood & pre & Epre & Hpre).
    exists c, o. split_and!; [done|apply la_refl| |by left].
    cbn. unfold log. rewrite app_nil_r. split; [done|split; [done|]]. exists (pre ++ [ip]).
    split; [by rewrite Epre, <- (assoc_L (++))|]. intros ip' k sn [Hin|Hin%list_elem_of_singleton]%elem_of_app Hk.
    + by eapply Hpre.
    + subst ip'. rewrite En in Hk. pose proof (getSubnetForIp_spec order s ip Ho) as Hs. rewrite Hg in Hs. by eapply Hs.
  - (* a subnet for this address *) destruct Hok as (-> & Hgood & pre & Epre & Hpre).
    exists c, o. split_and!; [done|apply la_refl| |by left].
    cbn. unfold log. rewrite app_nil_r. split; [done|split; [done|]]. exists sn. rewrite Epre.
    pose proof (getSubnetForIp_spec order s ip Ho) as Hs. rewrite Hg in Hs. destruct Hs as [Hk Hcon].
    apply first_match_skip; [done|]. apply fm_here; [by rewrite En|done].
  - (* no subnet at all *) destruct Hok as (-> & [Hc Hf] & pre & Epre & Hpre). rewrite app_nil_r in Epre.
    set (e := Err (EUnknownSubnet _ _)). exists c, (o ++ [(req, e)]).
    split_and!; [done|apply la_refl|done|]. right.
    exists 0, 0, (λ _, (map_to_list (subnets c)).*1), req, e.
    split_and!; [intros _; apply range_order_self|done|by apply (refused_unknown _ c req pre)|done].
  - (* another type *) destruct Hok as (-> & [Hc Hf] & sn & Hm).
    set (e := Err (EUnknownPacketType _)). exists c, (o ++ [(req, e)]).
    split_and!; [done|apply la_refl|done|]. right.
    destruct (refused_type c req k sn Hf Ht Hm) as (orders & Hord & E). by exists 0, 0, orders, req, e.
  - (* the lease *) pose proof Hok as (-> & _).
    destruct (lease_step_atomic _ _ _ _ _ _ _ _ _ _ _ Hsame Hinv Hok Ht Hk Hl)
      as (c' & orders & res & Hs' & Hl' & Hw & Hord & Hc & E).
    exists c', (o ++ [(req, res)]). split_and!; [done|done|by unfold log; rewrite app_nil_r|].
    right. by exists tExp, tNew, orders, req, res.
  - (* the response *) destruct Hok as [-> Hp]. exists c, (o ++ [(req, (fill addr (leases c) req r).1)]).
    assert ((fill addr (leases c) req r).1 = (fill addr (leases s) req r).1) as Er
      by (apply fill_same; [by subst c|done]).
    split_and!; [|apply la_refl|by rewrite Er|by left].
    subst c. exists h. split; [done|]. cbn. by rewrite fill_alike.
Qed.

(** ** Runs *)

Definition simulates (x : Server * list (task * list answered)) (y : Server * list (list answered)) : Prop :=
  same x.1 y.1 ∧ server_inv y.1 ∧ Forall2 (worker_ok y.1) x.2 y.2.

Lemma interleaved_atomic x x' y :
  interleaved x x' → simulates x y → ∃ y', rtc atomic y y' ∧ simulates x' y'.
Proof.
  intros Hst. destruct y as [c outs]. destruct Hst as [i t o s s' t' a ws Hi Hw|s s' ws Hst|s s' ws Hst Hq];
    intros (Hs & Hinv & Hws); cbn [fst snd] in *.
  - destruct (Forall2_lookup_l _ _ _ _ _ Hws Hi) as (oc & Hoc & Hok).
    destruct (worker_step_atomic _ _ _ _ _ _ _ _ Hw Hs Hinv Hok) as (c' & oc' & Hs' & Hlater & Hok' & Hstep).
    exists (c', <[i := oc']> outs).
    assert (rtc atomic (c, outs) (c', <[i := oc']> outs)) as Hr.
    { destruct Hstep as [[-> ->]|(tExp & tNew & orders & req & r & Hord & Hc & E & ->)].
      - by rewrite list_insert_id.
      - apply rtc_once. by eapply at_answer. }
    split; [exact Hr|]. split_and!; cbn [fst snd]; [done| |].
    + exact (server_reachable_inv _ _ (atomics_server _ _ Hr) Hinv).
    + apply Forall2_insert; [|done]. eapply Forall2_impl; [|exact Hws]. intros w o'. by apply worker_ok_later.
  - destruct (host_step_same _ _ _ Hst Hs) as (c' & Hst' & Hs'). exists (c', outs).
    split; [apply rtc_once; by apply at_host|]. split_and!; cbn [fst snd]; [done| |].
    + exact (server_step_inv _ _ (host_step_server _ _ Hst') Hinv).
    + eapply Forall2_impl; [|exact Hws]. intros w o'. by apply worker_ok_later, host_step_later.
  - destruct (net_step_same _ _ _ Hst Hs) as (c' & Hst' & Hs' & Hg). exists (c', outs).
    split; [apply rtc_once; by apply at_net|]. split_and!; cbn [fst snd]; [done| |].
    + exact (server_step_inv _ _ (net_step_server _ _ Hst') Hinv).
    + apply Forall2_same_length_lookup. split; [by eapply Forall2_length|].
      intros j [t o] o' Hj Hj'. pose proof (proj1 (Forall_lookup _ _) Hq j _ Hj) as Hn.
      pose proof (Forall2_lookup_lr _ _ _ _ _ _ Hws Hj Hj') as Hok.
      destruct t; try done. by eapply worker_ok_filling.
Qed.

Lemma interleaved_run x x' y : rtc interleaved x x' → simulates x y → ∃ y', rtc atomic y y' ∧ simulates x' y'.
Proof.
  intros Hr. revert y. induction Hr as [|x x1 x2 Hst _ IH]; intros y Hs; [by exists y|].
  destruct (interleaved_atomic _ _ _ Hst Hs) as (y1 & H1 & Hs1). destruct (IH y1 Hs1) as (y2 & H2 & Hs2).
  exists y2. split; [by etrans|done].
Qed.

Lemma worker_ok_prefix c w o : worker_ok c w o → w.2 `prefix_of` o ∧ (w.1 = Idle → o = w.2).
Proof.
  destruct w as [[|req ips|req k|req addr r] d]; cbn; [intros ->; done|..].
  - by intros (-> & _).
  - by intros (-> & _).
  - intros [-> _]. split; [by eexists|done].
Qed.
End steps.

(** C6: requests that are handled at the same time are answered as if they were handled one
    after the other.  The workers of any number of listeners run together with the reconcilers,
    in steps as small as the mutexes make them.  However the steps interleave, there
    is a run of the same server in which every request is answered in one step: each worker
    gives the same answers in it, and in the end the subnets and their caches are
    the same, and the leases too, but for the two fields that are written to a
    lease after it is made.  Subnets are added and deleted only while no worker is between
    the lookup of a subnet and the choice of a lease. *)
Theorem requests_are_atomic (D : Dhcpv4) n s0 s ws :
  server_inv s0 →
  rtc interleaved (s0, replicate n (Idle, [])) (s, ws) →
  ∃ c outs h, rtc atomic (s0, replicate n []) (c, outs) ∧ rtc server_step s0 c ∧
    c = set_leases h s ∧ alike (leases s) h ∧
    Forall2 (λ w o, w.2 `prefix_of` o ∧ (w.1 = Idle → o = w.2)) ws outs.
Proof.
  intros Hinv Hr.
  destruct (interleaved_run _ _ (s0, replicate n []) Hr) as ([c outs] & Ha & (h & Ec & Hh) & _ & Hws).
  { split_and!; [apply same_refl|done|]. cbn. apply Forall2_replicate. done. }
  exists c, outs, h. split_and!; [done|exact (atomics_server _ _ Ha)|done|done|].
  eapply Forall2_impl; [|exact Hws]. apply worker_ok_prefix.
Qed.

(** ** A run *)

Section run.
Context `{D : Dhcpv4} (now : Time).

(** The next step of a worker, which takes up [req] when it is idle. *)
Definition worker_next (req : Request) (s : Server) (t : task) : option (Server * task * option (Request * result error Response)) :=
  match t with
  | Idle =>
      Some (if for_other_server s (Request_DHCPv4 req)
            then (s, Idle, Some (req, Err (EUnknownServerId (IP_String (ServerIdentifier (Request_DHCPv4 req))))))
            else (s, Searching req (lookup_addresses s req), None))
  | Searching req [] =>
      Some (s, Idle, Some (req, Err (EUnknownSubnet (GatewayIPAddr (Request_DHCPv4 req)) (Request_InterfaceName req))))
  | Searching req (ip :: ips) =>
      Some (s, match getSubnetForIp (map_to_list (subnets s)).*1 s ip with
               | Some (k, _) => Holding req k
               | None => Searching req ips
               end, None)
  | Holding req k =>
      if served_type req then
        sn ← subnets s !! k;
        '(r, h', sn') ← GetLeaseForRequest now now (leases s) sn (Request_DHCPv4 req);
        Some (set_leases h' (set_subnets (<[k := sn']> (subnets s)) s), Filling req (Subnet_serverIPAddress sn') r, None)
      else Some (s, Idle, Some (req, Err (EUnknownPacketType (MessageType (Request_DHCPv4 req)))))
  | Filling req addr r =>
      let x := fill addr (leases s) req r in Some (set_leases x.2 s, Idle, Some (req, x.1))
  end.

Lemma worker_next_step req s t s' t' a :
  client_ok (Request_DHCPv4 req) → worker_next req s t = Some (s', t', a) → worker_step s t s' t' a.
Proof.
  intros Hc. destruct t as [|q [|ip ips]|q k|q addr r]; cbn [worker_next].
  - destruct (for_other_server _ _) eqn:E; intros [= <- <- <-]; by constructor.
  - intros [= <- <- <-]. constructor.
  - destruct (getSubnetForIp _ s ip) as [[k sn]|] eqn:E; intros [= <- <- <-].
    + eapply ws_found; [apply range_order_self|exact E].
    + eapply ws_next; [apply range_order_self|exact E].
  - destruct (served_type q) eqn:E; [|intros [= <- <- <-]; by constructor].
    intros (sn & Hk & ([[r h'] sn'] & Hl & [= <- <- <-])%bind_Some)%bind_Some. by eapply ws_lease.
  - intros [= <- <- <-]. apply ws_fill.
Qed.

(** A schedule: which worker is next, and the request it takes up if it is idle. *)
Fixpoint run_workers (s : Server) (ws : list (task * list (Request * result error Response))) (schedule : list (nat * Request))
    : option (Server * list (task * list (Request * result error Response))) :=
  match schedule with
  | [] => Some (s, ws)
  | (i, req) :: schedule =>
      '(t, o) ← ws !! i;
      '(s', t', a) ← worker_next req s t;
      run_workers s' (<[i := (t', log o a)]> ws) schedule
  end.

Lemma run_workers_interleaved s ws schedule s' ws' :
  Forall (λ x, client_ok (Request_DHCPv4 x.2)) schedule →
  run_workers s ws schedule = Some (s', ws') → rtc interleaved (s, ws) (s', ws').
Proof.
  intros Hf. revert s ws. induction Hf as [|[i req] schedule Hc _ IH]; intros s ws; cbn [run_workers].
  - intros [= <- <-]. apply rtc_refl.
  - intros ([t o] & Hi & ([[s1 t1] a] & Hn & Hr)%bind_Some)%bind_Some.
    eapply rtc_l; [|exact (IH _ _ Hr)]. eapply il_worker; [exact Hi|by eapply worker_next_step].
Qed.
End run.

(** Two workers take turns: both find the subnet before either has a lease. *)
Definition two_workers : list (nat * Request) :=
  let other := test_request (demo_discover 7) "br1" in
  [(0%nat, test_discover); (1%nat, other); (0%nat, other); (1%nat, other);
   (1%nat, other); (0%nat, other); (0%nat, other); (1%nat, other)].

Lemma two_workers_ok : Forall (λ x, client_ok (Request_DHCPv4 x.2)) two_workers.
Proof.
  pose proof test_discover_ok as H1. pose proof (demo_discover_ok 7 ltac:(by unfold is_u8)) as H2.
  unfold two_workers. repeat (apply List.Forall_cons; [assumption|]). apply List.Forall_nil.
Qed.

Lemma requests_are_atomic_witness :
  ∃ s ws c outs, rtc (interleaved (D := rfc_lib)) (test_server, replicate 2 (Idle, [])) (s, ws) ∧
    Forall (λ w, w.1 = Idle ∧ length w.2 = 1%nat) ws ∧
    rtc (atomic (D := rfc_lib)) (test_server, replicate 2 []) (c, outs) ∧ outs = ws.*2.
Proof.
  destruct (run_workers (D := rfc_lib) test_now test_server (replicate 2 (Idle, [])) two_workers) as [[s ws]|] eqn:E;
    [|by vm_compute in E].
  assert (rtc (interleaved (D := rfc_lib)) (test_server, replicate 2 (Idle, [])) (s, ws)) as Hr.
  { exact (run_workers_interleaved (D := rfc_lib) test_now _ _ two_workers _ _ two_workers_ok E). }
  assert (Forall (λ w, w.1 = Idle ∧ length w.2 = 1%nat) ws) as Hws.
  { assert (match run_workers (D := rfc_lib) test_now test_server (replicate 2 (Idle, [])) two_workers with
      | Some (_, ws) => map (λ w, (match w.1 with Idle => true | _ => false end, length w.2)) ws | None => [] end =
      [(true, 1%nat); (true, 1%nat)]) as H by (vm_compute; reflexivity).
    rewrite E in H. clear E Hr. destruct ws as [|[t1 o1] [|[t2 o2] [|]]]; try done. cbn in H.
    repeat constructor; cbn; destruct t1, t2; congruence. }
  clear E. destruct (requests_are_atomic rfc_lib 2 test_server s ws test_server_inv Hr) as (c & outs & h & Ha & _ & _ & _ & Ho).
  exists s, ws, c, outs. split_and!; [exact Hr|exact Hws|exact Ha|].
  clear -Ho Hws. induction Ho as [|w o ws outs [_ Hw] _ IH]; [done|].
  inversion Hws as [|? ? [Hi _] Hws']; subst. cbn. by rewrite (Hw Hi), (IH Hws').
Defined.
