(* ===== verification/Moving.v ===== *)
(** * Subnets that come and go while requests are handled

    [getSubnet] gives a worker a pointer to a subnet, and no mutex keeps that subnet in
    the server's map until the lease is chosen.  Atomic.v lets the map change between
    requests only.  Here it changes at any time: a subnet that was deleted lives on for the
    workers that still have a pointer to it. *)

From S2P Require Import Prelude GoStrings GoNet Errors IPv4 Types Dhcpv4 Subnet.
From S2P Require Import LeaseCache Pool SubnetProps SubnetNet Server ServerProps.
From S2P Require Import Responses ServerGuarantees ServerReach RequestProcessor Pipeline Atomic.
Open Scope string_scope.
Open Scope list_scope.
Open Scope Z_scope.

(** ** The machine *)

(** A [*Subnet] in the hands of a worker: the one that is filed under a key, or one that was
    deleted. *)
Inductive held :=
  | Filed (k : string)
  | Gone (j : nat).

(** The server, and the subnets that were deleted from its map. *)
Record yard := { srv : Server; gone : list Subnet }.

(** A task, as in Atomic.v, but for what it holds. *)
Inductive errand :=
  | Resting
  | Looking (req : Request) (ips : list net_IP)
  | Found (req : Request) (p : held)
  | Writing (req : Request) (addr : net_IP) (lease : option lease_ptr).

Definition errand_of (t : task) : errand :=
  match t with
  | Idle => Resting
  | Searching req ips => Looking req ips
  | Holding req k => Found req (Filed k)
  | Filling req addr r => Writing req addr r
  end.

Definition request_of (t : errand) : option Request :=
  match t with Resting => None | Looking req _ | Found req _ | Writing req _ _ => Some req end.

(** What a pointer is after the subnet filed under [k] has become the [j]-th deleted one. *)
Definition detach (k : string) (j : nat) (t : errand) : errand :=
  match t with
  | Found req (Filed k') => if String.eqb k' k then Found req (Gone j) else t
  | _ => t
  end.

Abbreviation answered := (Request * result error Response)%type.

Section machine.
Context `{D : Dhcpv4}.

(** A step of a worker.  The two that are not in Atomic.v are those with a deleted subnet. *)
Inductive errand_step (y : yard) : errand → yard → errand → option answered → Prop :=
  | es_filed t s' t' a :
      worker_step (srv y) t s' t' a →
      errand_step y (errand_of t) {| srv := s'; gone := gone y |} (errand_of t') a
  | es_type req j :
      served_type req = false →
      errand_step y (Found req (Gone j)) y Resting
        (Some (req, Err (EUnknownPacketType (MessageType (Request_DHCPv4 req)))))
  | es_lease req j sn tExp tNew r h' sn' :
      served_type req = true → gone y !! j = Some sn →
      GetLeaseForRequest tExp tNew (leases (srv y)) sn (Request_DHCPv4 req) = Some (r, h', sn') →
      errand_step y (Found req (Gone j))
        {| srv := set_leases h' (srv y); gone := <[j := sn']> (gone y) |}
        (Writing req (Subnet_serverIPAddress sn') r) None.

(** The server and its workers, each with what it answered so far. *)
Abbreviation world := (yard * list (errand * list answered))%type.

(** The reconcilers add and delete subnets whatever the workers are doing. *)
Inductive moving : world → world → Prop :=
  | mv_worker i t o y y' t' a ws :
      ws !! i = Some (t, o) → errand_step y t y' t' a →
      moving (y, ws) (y', <[i := (t', log o a)]> ws)
  | mv_host y s' ws : host_step (srv y) s' → moving (y, ws) ({| srv := s'; gone := gone y |}, ws)
  | mv_add addrOrder order cfg e y s' ws :
      cfg_ok cfg → AddSubnet addrOrder order (srv y) cfg = (e, s') →
      moving (y, ws) ({| srv := s'; gone := gone y |}, ws)
  | mv_delete k sn e y s' ws :
      subnets (srv y) !! k = Some sn → DeleteSubnet (srv y) k = (e, s') →
      moving (y, ws) ({| srv := s'; gone := gone y ++ [sn] |}, prod_map (detach k (length (gone y))) id <$> ws)
  | mv_no_delete k e y s' ws :
      subnets (srv y) !! k = None → DeleteSubnet (srv y) k = (e, s') → moving (y, ws) (y, ws).

(** ** What every state has *)

Definition errand_ok (y : yard) (t : errand) : Prop :=
  match t with
  | Resting => True
  | Looking req _ => client_ok (Request_DHCPv4 req)
  | Found req (Filed k) => client_ok (Request_DHCPv4 req) ∧ is_Some (subnets (srv y) !! k)
  | Found req (Gone j) => client_ok (Request_DHCPv4 req) ∧ is_Some (gone y !! j)
  | Writing _ _ r => ∀ p, r = Some p → is_Some (leases (srv y) !! p)
  end.

(** What was answered is about a lease that exists, with its address. *)
Definition answer_ok (h : lease_store) (a : answered) : Prop :=
  ∀ r, a.2 = Ok r → address_ok h r.

Definition worker_fine (y : yard) (w : errand * list answered) : Prop :=
  errand_ok y w.1 ∧ Forall (answer_ok (leases (srv y))) w.2.

Definition yard_ok (y : yard) : Prop :=
  server_inv (srv y) ∧ Forall (subnet_inv (leases (srv y))) (gone y).

Definition world_ok (x : world) : Prop := yard_ok x.1 ∧ Forall (worker_fine x.1) x.2.

(** A later yard: nothing that a worker may point to has vanished. *)
Record keeps (y y' : yard) : Prop := {
  keeps_nets : ∀ k, is_Some (subnets (srv y) !! k) → is_Some (subnets (srv y') !! k);
  keeps_gone : (length (gone y) <= length (gone y'))%nat;
  keeps_leases : grows (leases (srv y)) (leases (srv y'));
}.

Lemma grows_store_le h h' : grows h h' → store_le h h'.
Proof.
  intros H p l Hl. destruct (H p l Hl) as (l' & Hl' & E). exists l'. split; [done|].
  split_and!; [exact (f_equal Lease_MAC E)|exact (f_equal Lease_IP E)|exact (f_equal Lease_Subnet E)
    |exact (f_equal Lease_LastUpdate E)].
Qed.

Lemma grows_Some h h' p : grows h h' → is_Some (h !! p) → is_Some (h' !! p).
Proof. intros H [l Hl]. destruct (H p l Hl) as (l' & ? & _). by exists l'. Qed.

Lemma errand_ok_keeps y y' t : keeps y y' → errand_ok y t → errand_ok y' t.
Proof.
  intros [Hn Hg Hl]. destruct t as [|req ips|req [k|j]|req addr r]; cbn; [done|done| | |].
  - intros [? ?]. auto.
  - rewrite !lookup_lt_is_Some. intros [? ?]. split; [done|lia].
  - intros Hp p Hr. eapply grows_Some; eauto.
Qed.

Lemma answers_grow h h' o : grows h h' → Forall (answer_ok h) o → Forall (answer_ok h') o.
Proof.
  intros Hg. apply Forall_impl. intros a Ha r Hr. eapply address_ok_mono; [by apply grows_store_le|by apply Ha].
Qed.

Lemma worker_fine_keeps y y' w : keeps y y' → worker_fine y w → worker_fine y' w.
Proof.
  intros Hk [Ht Ho]. split; [by eapply errand_ok_keeps|]. eapply answers_grow; [by apply Hk|done].
Qed.

Lemma gone_grow h h' l : grows h h' → Forall (subnet_inv h) l → Forall (subnet_inv h') l.
Proof. intros Hg. apply Forall_impl. intros s. by apply subnet_inv_mono, grows_store_le. Qed.

Lemma server_inv_leases s h : server_inv s → grows (leases s) h → server_inv (set_leases h s).
Proof.
  intros Hs Hg k sn Hk. destruct (Hs k sn Hk) as [E Hi]. split; [done|].
  by eapply subnet_inv_mono; [apply grows_store_le|].
Qed.

(** ** The steps keep it *)

(** The choice of a lease, in whatever subnet. *)
Lemma lease_kept tExp tNew h sn req r h' sn' :
  subnet_inv h sn → client_ok req → GetLeaseForRequest tExp tNew h sn req = Some (r, h', sn') →
  subnet_inv h' sn' ∧ grows h h' ∧ (∀ p, r = Some p → is_Some (h' !! p)) ∧ Subnet_Subnet sn' = Subnet_Subnet sn.
Proof.
  intros Hsn Hc E. destruct (GetLeaseForRequest_returns D tExp tNew h sn req Hsn Hc) as (r1 & h1 & s1 & E1 & Hi & _ & Hp).
  rewrite E in E1. injection E1 as <- <- <-. split_and!; [done|by eapply GetLeaseForRequest_grows|done|].
  by destruct (GetLeaseForRequest_frame _ _ _ _ _ _ _ _ (proj1 Hsn) E) as (i & c & ->).
Qed.

Context (L : Dhcpv4Laws D).

(** The response that is filled in has the address of its lease. *)
Lemma fill_address addr h req r rsp :
  (∀ p, r = Some p → is_Some (h !! p)) → (fill addr h req r).1 = Ok rsp → address_ok (fill addr h req r).2 rsp.
Proof.
  intros Hp. unfold fill. destruct r as [p|]; [|done]. destruct (Hp p eq_refl) as [l Hl].
  destruct (NewReplyFromRequest _) as [[resp|] [e|]]; try done. cbv zeta.
  rewrite (deref_alter _ _ _ _ Hl), (deref_Some _ _ _ Hl).
  match goal with |- context [apply_options ?o ?x] => pose proof (apply_options_spec o x) as Ha; destruct (apply_options o x) end;
    [|done]. destruct Ha as [_ ->]. cbn [fst snd]. intros [= <-].
  exists (set_ServerId addr (set_ServerId addr l)). cbn [Response_Lease Response_Response].
  rewrite !list_lookup_alter_eq, Hl. split; [done|]. by rewrite finish_response_eq, !UpdateOption_set.
Qed.

Lemma errand_step_ok y t y' t' a :
  errand_step y t y' t' a → yard_ok y → errand_ok y t →
  yard_ok y' ∧ keeps y y' ∧ errand_ok y' t' ∧ Forall (answer_ok (leases (srv y'))) (option_list a).
Proof.
  intros Hst [Hs Hg] Ht.
  assert (keeps y y) as Hrefl by (split; [done|lia|done]).
  assert (∀ q e, Forall (answer_ok (leases (srv y))) (option_list (Some (q, Err e)))) as Herr
    by (intros q e; constructor; [done|constructor]).
  destruct Hst as [t s' t' a Hw|req j Hty|req j sn tExp tNew r h' sn' Hty Hj El].
  - destruct Hw as [req Hc Hf|req Hc Hf|req ip ips order Ho E|req ip ips order k sn Ho E|req|req k Hty
      |req k sn tExp tNew r h' sn' Hty Hk El|req addr r]; destruct y as [s g]; cbn [srv gone errand_of] in *.
    + split_and!; [by split|done|done|apply Herr].
    + split_and!; [by split|done|done|constructor].
    + split_and!; [by split|done|done|constructor].
    + unfold getSubnetForIp in E. apply find_subnet_Some in E as (_ & Hk & _).
      split_and!; [by split|done|split; [done|by exists sn]|constructor].
    + split_and!; [by split|done|done|apply Herr].
    + split_and!; [by split|done|done|apply Herr].
    + destruct Ht as [Hc _]. destruct (Hs k sn Hk) as [Hname Hsn].
      destruct (lease_kept _ _ _ _ _ _ _ _ Hsn Hc El) as (Hsn' & Hgr & Hp & Hk').
      split_and!; [split| |done|constructor].
      * apply server_inv_update; [done|by apply grows_store_le|congruence|done].
      * by eapply gone_grow.
      * split; [|done|done]. intros k2 Hk2. cbn. destruct (decide (k = k2)) as [->|].
        -- rewrite lookup_insert_eq. by eexists.
        -- by rewrite lookup_insert_ne.
    + assert (grows (leases s) (fill addr (leases s) req r).2) as Hgr by (apply alike_grows; symmetry; apply fill_alike).
      split_and!; [split; [by apply server_inv_leases|by eapply gone_grow]|by split|done|].
      constructor; [|constructor]. intros rsp E. by apply fill_address.
  - split_and!; [by split|done|done|apply Herr].
  - destruct Ht as [Hc _]. pose proof (proj1 (Forall_lookup _ _) Hg j sn Hj) as Hsn.
    destruct (lease_kept _ _ _ _ _ _ _ _ Hsn Hc El) as (Hsn' & Hgr & Hp & _).
    split_and!; [split| |done|constructor]; cbn.
    + by apply server_inv_leases.
    + apply Forall_insert; [by eapply gone_grow|done].
    + split; cbn; [done|by rewrite length_insert|done].
Qed.

Lemma host_step_keeps y s' : host_step (srv y) s' → keeps y {| srv := s'; gone := gone y |}.
Proof.
  intros [_ _ Hn Hg]%host_step_later. split; [|done|done]. intros k [sn Hk]. specialize (Hn k). rewrite Hk in Hn. cbn.
  destruct (subnets s' !! k); [by eexists|done].
Qed.

Lemma AddSubnet_keeps addrOrder order cfg e y s' :
  AddSubnet addrOrder order (srv y) cfg = (e, s') → keeps y {| srv := s'; gone := gone y |}.
Proof.
  intros E. unfold AddSubnet in E. destruct (InitializeSubnet _ _ _) as [sn|]; [destruct (find_overlap _ _)|];
    injection E as _ <-; split; try done. cbn. intros k Hk.
  destruct (decide (Subnet_Subnet sn = k)) as [->|]; [rewrite lookup_insert_eq; by eexists|by rewrite lookup_insert_ne].
Qed.

Lemma detach_ok k sn y s' t :
  subnets s' = delete k (subnets (srv y)) → leases s' = leases (srv y) →
  errand_ok y t → errand_ok {| srv := s'; gone := gone y ++ [sn] |} (detach k (length (gone y)) t).
Proof.
  intros En El. destruct t as [|req ips|req [k'|j]|req addr r]; cbn [errand_ok detach]; [done|done| | |cbn; by rewrite El].
  - intros [Hc Hk]. destruct (String.eqb_spec k' k) as [->|Hne]; cbn; (split; [done|]).
    + rewrite lookup_app_r, Nat.sub_diag by done. by eexists.
    + by rewrite En, lookup_delete_ne.
  - cbn. rewrite !lookup_lt_is_Some, length_app. intros [? ?]. split; [done|lia].
Qed.

Lemma moving_ok x x' : moving x x' → world_ok x → world_ok x'.
Proof.
  intros Hst [[Hs Hg] Hw]. destruct Hst as [i t o y y' t' a ws Hi Hst|y s' ws Hst|addrOrder order cfg e y s' ws Hc E
    |k sn e y s' ws Hk E|k e y s' ws Hk E]; cbn [fst snd] in *.
  - pose proof (proj1 (Forall_lookup _ _) Hw i _ Hi) as [Ht Ho].
    destruct (errand_step_ok _ _ _ _ _ Hst ltac:(by split) Ht) as (Hy & Hk & Ht' & Ha). split; [exact Hy|]. cbn.
    apply Forall_insert; [eapply Forall_impl; [|exact Hw]; intros w; by apply worker_fine_keeps|].
    split; [done|]. cbn. unfold log. apply Forall_app. split; [|done]. by eapply answers_grow; [apply Hk|].
  - pose proof (host_step_keeps y s' Hst) as Hk. split.
    + split; cbn; [exact (server_step_inv _ _ (host_step_server _ _ Hst) Hs)|by eapply gone_grow; [apply Hk|]].
    + eapply Forall_impl; [|exact Hw]. intros w. by apply worker_fine_keeps.
  - pose proof (AddSubnet_keeps _ _ _ _ _ _ E) as Hk. split.
    + split; cbn; [by eapply AddSubnet_inv|by eapply gone_grow; [apply Hk|]].
    + eapply Forall_impl; [|exact Hw]. intros w. by apply worker_fine_keeps.
  - pose proof (DeleteSubnet_inv _ _ _ _ Hs E) as Hs'. unfold DeleteSubnet in E. rewrite Hk in E. injection E as _ <-.
    split.
    + split; cbn; [done|]. apply Forall_app. split; [done|]. constructor; [apply (Hs k sn Hk)|constructor].
    + cbn. apply Forall_fmap. eapply Forall_impl; [|exact Hw]. intros [t o] [Ht Ho]. split; [|exact Ho].
      by apply detach_ok.
  - done.
Qed.

Lemma moving_run_ok x x' : rtc moving x x' → world_ok x → world_ok x'.
Proof. induction 1; eauto using moving_ok. Qed.

(** ** Every request in hand is answered *)

(** A worker that goes on until it has an answer. *)
Inductive errand_run (y : yard) (t : errand) : yard → answered → Prop :=
  | er_last y' a : errand_step y t y' Resting (Some a) → errand_run y t y' a
  | er_next y1 t1 y' a : errand_step y t y1 t1 None → errand_run y1 t1 y' a → errand_run y t y' a.

Lemma errand_run_moving y t y' a i o ws :
  errand_run y t y' a → ws !! i = Some (t, o) →
  rtc moving (y, ws) (y', <[i := (Resting, o ++ [a])]> ws).
Proof.
  intros Hr. revert ws. induction Hr as [y t y' a Hst|y t y1 t1 y' a Hst _ IH]; intros ws Hi.
  - apply rtc_once. exact (mv_worker _ _ _ _ _ _ _ _ Hi Hst).
  - eapply rtc_l; [exact (mv_worker _ _ _ _ _ _ _ _ Hi Hst)|]. unfold log. cbn [option_list]. rewrite app_nil_r.
    rewrite <- (list_insert_insert_eq ws i (Resting, o ++ [a]) (t1, o)). apply IH.
    apply list_lookup_insert_eq. by eapply lookup_lt_Some.
Qed.

Lemma writing_finishes y req addr r : ∃ y' res, errand_run y (Writing req addr r) y' (req, res).
Proof. do 2 eexists. apply er_last. eapply (es_filed y (Filling req addr r) _ Idle). apply ws_fill. Qed.

Lemma found_finishes y req p :
  yard_ok y → errand_ok y (Found req p) → ∃ y' res, errand_run y (Found req p) y' (req, res).
Proof.
  intros [Hs Hg] Ht. destruct (served_type req) eqn:Hty.
  - destruct p as [k|j]; destruct Ht as [Hc [sn Hk]].
    + destruct (Hs k sn Hk) as [_ Hsn]. destruct (GetLeaseForRequest_inv 0 0 _ _ _ Hsn Hc) as (r & h' & sn' & E & _).
      destruct (writing_finishes {| srv := set_leases h' (set_subnets (<[k := sn']> (subnets (srv y))) (srv y)); gone := gone y |}
        req (Subnet_serverIPAddress sn') r) as (y' & res & Hr).
      exists y', res. eapply er_next, Hr. eapply (es_filed y (Holding req k) _ (Filling req _ r)). by eapply ws_lease.
    + pose proof (proj1 (Forall_lookup _ _) Hg j sn Hk) as Hsn.
      destruct (GetLeaseForRequest_inv 0 0 _ _ _ Hsn Hc) as (r & h' & sn' & E & _).
      destruct (writing_finishes {| srv := set_leases h' (srv y); gone := <[j := sn']> (gone y) |}
        req (Subnet_serverIPAddress sn') r) as (y' & res & Hr).
      exists y', res. eapply er_next, Hr. by eapply es_lease.
  - destruct p as [k|j]; do 2 eexists; apply er_last.
    + eapply (es_filed y (Holding req k) _ Idle). by apply ws_type.
    + by apply es_type.
Qed.

Lemma looking_finishes y req ips :
  yard_ok y → client_ok (Request_DHCPv4 req) → ∃ y' res, errand_run y (Looking req ips) y' (req, res).
Proof.
  intros Hy Hc. induction ips as [|ip ips (y' & res & IH)].
  - do 2 eexists. apply er_last. eapply (es_filed y (Searching req []) _ Idle). apply ws_unknown.
  - pose proof (range_order_self (subnets (srv y))) as Ho.
    destruct (getSubnetForIp (map_to_list (subnets (srv y))).*1 (srv y) ip) as [[k sn]|] eqn:E.
    + assert (is_Some (subnets (srv y) !! k)) as Hk.
      { unfold getSubnetForIp in E. apply find_subnet_Some in E as (_ & Hk & _). by exists sn. }
      destruct (found_finishes y req (Filed k) Hy ltac:(by split)) as (y1 & res1 & Hr).
      exists y1, res1. eapply er_next, Hr. destruct y as [s g].
      eapply (es_filed {| srv := s; gone := g |} (Searching req (ip :: ips)) s (Holding req k)). by eapply ws_found.
    + exists y', res. eapply er_next, IH. destruct y as [s g].
      eapply (es_filed {| srv := s; gone := g |} (Searching req (ip :: ips)) s (Searching req ips)). by eapply ws_next.
Qed.

Lemma errand_finishes y t req :
  yard_ok y → errand_ok y t → request_of t = Some req → ∃ y' res, errand_run y t y' (req, res).
Proof.
  intros Hy Ht. destruct t as [|q ips|q p|q addr r]; [done|intros [= ->]..];
    [by apply looking_finishes|by apply found_finishes|apply writing_finishes].
Qed.
End machine.

Abbreviation world := (yard * list (errand * list answered))%type.

(** [n] workers, none with a request, and no subnet deleted yet. *)
Definition all_resting (s : Server) (n : nat) : world := ({| srv := s; gone := [] |}, replicate n (Resting, [])).

Lemma all_resting_ok `{D : Dhcpv4} s n : server_inv s → world_ok (all_resting s n).
Proof.
  intros Hs. split; [split; [exact Hs|constructor]|]. apply Forall_replicate. split; [done|constructor].
Qed.

(** C7: subnets may be added and deleted whatever the workers of the listeners are doing.  In
    every state of such a run, first, each request in the hands of a worker is answered, if its
    worker goes on: nothing panics, also when the subnet that it found was deleted
    meanwhile.  Second, in every subnet, in the map or deleted, no two clients of the cache have the
    same address.  Third, each response that was given has the address of its lease, a
    lease that exists. *)
Theorem changing_subnets_safe (D : Dhcpv4) (L : Dhcpv4Laws D) n s0 y ws :
  server_inv s0 → rtc moving (all_resting s0 n) (y, ws) →
  (∀ i t o req, ws !! i = Some (t, o) → request_of t = Some req →
     ∃ y' res, rtc moving (y, ws) (y', <[i := (Resting, o ++ [(req, res)])]> ws)) ∧
  (∀ sn m1 m2 p1 p2,
     sn ∈ gone y ∨ (∃ k, subnets (srv y) !! k = Some sn) →
     contains_char "." m1 = false → contains_char "." m2 = false →
     Subnet_leaseCache sn !! m1 = Some p1 → Subnet_leaseCache sn !! m2 = Some p2 →
     m1 ≠ m2 → To4 (Lease_IP (deref (leases (srv y)) p1)) ≠ To4 (Lease_IP (deref (leases (srv y)) p2))) ∧
  (∀ i t o req r, ws !! i = Some (t, o) → (req, Ok r) ∈ o →
     ∃ l, leases (srv y) !! Response_Lease r = Some l ∧ YourIPAddr (Response_Response r) = Lease_IP l).
Proof.
  intros H0 Hr. destruct (moving_run_ok L _ _ Hr (all_resting_ok s0 n H0)) as [[Hs Hg] Hw]. cbn in Hs, Hg, Hw.
  split_and!.
  - intros i t o req Hi Hreq. destruct (proj1 (Forall_lookup _ _) Hw i _ Hi) as [Ht _].
    destruct (errand_finishes y t req ltac:(by split) Ht Hreq) as (y' & res & Hrun).
    exists y', res. by eapply errand_run_moving.
  - intros sn m1 m2 p1 p2 Hsn N1 N2 H1 H2 Hne E. apply Hne.
    assert (subnet_inv (leases (srv y)) sn) as [_ Hok].
    { destruct Hsn as [Hsn|[k Hk]]; [|apply (Hs k sn Hk)].
      apply list_elem_of_lookup in Hsn as [j Hj]. exact (proj1 (Forall_lookup _ _) Hg j _ Hj). }
    by destruct (cache_ok_unique _ _ _ _ _ _ Hok N1 N2 H1 H2 E).
  - intros i t o req r Hi Ho. destruct (proj1 (Forall_lookup _ _) Hw i _ Hi) as [_ Ha].
    apply list_elem_of_lookup in Ho as [j Hj]. exact (proj1 (Forall_lookup _ _) Ha j _ Hj r eq_refl).
Qed.

(** ** Runs *)

Section run.
Context `{D : Dhcpv4} (now : Time).

Definition task_of (t : errand) : option task :=
  match t with
  | Resting => Some Idle
  | Looking req ips => Some (Searching req ips)
  | Found req (Filed k) => Some (Holding req k)
  | Found req (Gone _) => None
  | Writing req addr r => Some (Filling req addr r)
  end.

Lemma task_of_errand t u : task_of t = Some u → t = errand_of u.
Proof. destruct t as [|?|? []|]; by intros [= <-]. Qed.

(** The next step of a worker, which takes up [req] when it rests. *)
Definition errand_next (req : Request) (y : yard) (t : errand) : option (yard * errand * option answered) :=
  match t with
  | Found q (Gone j) =>
      if served_type q then
        sn ← gone y !! j;
        '(r, h', sn') ← GetLeaseForRequest now now (leases (srv y)) sn (Request_DHCPv4 q);
        Some ({| srv := set_leases h' (srv y); gone := <[j := sn']> (gone y) |}, Writing q (Subnet_serverIPAddress sn') r, None)
      else Some (y, Resting, Some (q, Err (EUnknownPacketType (MessageType (Request_DHCPv4 q)))))
  | _ =>
      u ← task_of t;
      '(s', u', a) ← worker_next now req (srv y) u;
      Some ({| srv := s'; gone := gone y |}, errand_of u', a)
  end.

Lemma errand_next_step req y t y' t' a :
  client_ok (Request_DHCPv4 req) → errand_next req y t = Some (y', t', a) → errand_step y t y' t' a.
Proof.
  intros Hc. assert (∀ u, task_of t = Some u →
    ('(s', u', a) ← worker_next now req (srv y) u; Some ({| srv := s'; gone := gone y |}, errand_of u', a)) = Some (y', t', a) →
    errand_step y t y' t' a) as Hfiled.
  { intros u ->%task_of_errand ([[s' u'] a'] & Hn & [= <- <- <-])%bind_Some. apply es_filed. by eapply worker_next_step. }
  destruct t as [|q ips|q [k|j]|q addr r]; cbn [errand_next]; try by apply Hfiled.
  destruct (served_type q) eqn:Hty; [|intros [= <- <- <-]; by apply es_type].
  intros (sn & Hj & ([[r h'] sn'] & El & [= <- <- <-])%bind_Some)%bind_Some. by eapply es_lease.
Qed.

(** What happens next: a worker goes on, or a reconciler adds or deletes a subnet. *)
Inductive event :=
  | Work (i : nat) (req : Request)
  | AddNet (cfg : Subnet)
  | DeleteNet (k : string).

Definition event_next (e : event) (x : world) : option world :=
  let '(y, ws) := x in
  match e with
  | Work i req =>
      '(t, o) ← ws !! i;
      '(y', t', a) ← errand_next req y t;
      Some (y', <[i := (t', log o a)]> ws)
  | AddNet cfg =>
      let order {A} (m : gmap string A) := (map_to_list m).*1 in
      Some ({| srv := (AddSubnet (order (localIpAddresses (srv y))) (order (subnets (srv y))) (srv y) cfg).2; gone := gone y |}, ws)
  | DeleteNet k =>
      match subnets (srv y) !! k with
      | Some sn => Some ({| srv := (DeleteSubnet (srv y) k).2; gone := gone y ++ [sn] |},
                         prod_map (detach k (length (gone y))) id <$> ws)
      | None => Some x
      end
  end.

Definition event_ok (e : event) : Prop :=
  match e with Work _ req => client_ok (Request_DHCPv4 req) | AddNet cfg => cfg_ok cfg | DeleteNet _ => True end.

Lemma event_next_moving e x x' : event_ok e → event_next e x = Some x' → moving x x'.
Proof.
  destruct x as [y ws], e as [i req|cfg|k]; cbn [event_next event_ok].
  - intros Hc ([t o] & Hi & ([[y' t'] a] & Hn & [= <-])%bind_Some)%bind_Some.
    eapply mv_worker; [exact Hi|by eapply errand_next_step].
  - intros Hc [= <-]. eapply mv_add; [exact Hc|apply surjective_pairing].
  - intros _. destruct (subnets (srv y) !! k) as [sn|] eqn:Hk; intros [= <-].
    + eapply mv_delete; [exact Hk|apply surjective_pairing].
    + eapply mv_no_delete; [exact Hk|apply surjective_pairing].
Qed.

(** The worlds after each event. *)
Fixpoint run_events (es : list event) (x : world) : option (list world) :=
  match es with
  | [] => Some []
  | e :: es => x' ← event_next e x; xs ← run_events es x'; Some (x' :: xs)
  end.

(** A run, world by world. *)
Fixpoint chain (x : world) (xs : list world) : Prop :=
  match xs with [] => True | x' :: xs => moving x x' ∧ chain x' xs end.

Lemma run_events_chain es x xs : Forall event_ok es → run_events es x = Some xs → chain x xs.
Proof.
  intros Hes. revert x xs. induction Hes as [|e es He _ IH]; intros x xs; cbn [run_events]; [by intros [= <-]|].
  intros (x' & Hx & (xs' & Hxs & [= <-])%bind_Some)%bind_Some. split; [by eapply event_next_moving|by apply IH].
Qed.

Definition run_of (es : list event) (x : world) : list world := default [] (run_events es x).

Lemma run_of_chain es x : Forall event_ok es → is_Some (run_events es x) → chain x (run_of es x).
Proof. intros Hes [xs E]. unfold run_of. rewrite E. by eapply run_events_chain. Qed.

(** Where a run ends. *)
Definition final (x : world) (xs : list world) : world := foldl (λ _ x', x') x xs.

Lemma chain_rtc x xs : chain x xs → rtc moving x (final x xs).
Proof.
  revert x. induction xs as [|x' xs IH]; intros x; [done|]. intros [Hst Hc]. eapply rtc_l; [exact Hst|by apply IH].
Qed.
End run.

(** A decidable fact about a concrete run. *)
Ltac runs := refine (bool_decide_unpack _ _); vm_compute; exact I.

(** ** The machine of Atomic.v

    It takes part of these steps: it is this machine while no worker is between the lookup of a
    subnet and the choice of a lease when the map changes. *)

Definition embed (g : list Subnet) (x : Server * list (task * list answered)) : world :=
  ({| srv := x.1; gone := g |}, prod_map errand_of id <$> x.2).

Lemma detach_idle k j t : in_search t = false → detach k j (errand_of t) = errand_of t.
Proof. by destruct t. Qed.

Lemma interleaved_moving `{D : Dhcpv4} x x' g : interleaved x x' → ∃ g', moving (embed g x) (embed g' x').
Proof.
  intros Hst. destruct Hst as [i t o s s' t' a ws Hi Hw|s s' ws Hst|s s' ws Hst Hq]; unfold embed; cbn [fst snd].
  - exists g. rewrite list_fmap_insert. apply (mv_worker i (errand_of t) o {| srv := s; gone := g |} _ (errand_of t') a).
    + by rewrite list_lookup_fmap, Hi.
    + by apply es_filed.
  - exists g. by apply (mv_host {| srv := s; gone := g |}).
  - destruct Hst as [addrOrder order cfg e s' Hc E|k e s' E].
    + exists g. by apply (mv_add addrOrder order cfg e {| srv := s; gone := g |}).
    + destruct (subnets s !! k) as [sn|] eqn:Hk.
      * exists (g ++ [sn]).
        assert (prod_map errand_of id <$> ws = prod_map (detach k (length g)) id <$> (prod_map errand_of id <$> ws)) as Eq.
        { clear E. rewrite <- list_fmap_compose. induction Hq as [|[t o] ws Ht _ IH]; [done|]. rewrite !fmap_cons, <- IH.
          cbn. by rewrite detach_idle. }
        rewrite Eq at 2. by apply (mv_delete k sn e {| srv := s; gone := g |}).
      * exists g. replace s' with s; [by apply (mv_no_delete k e {| srv := s; gone := g |} s')|].
        unfold DeleteSubnet in E. rewrite Hk in E. by injection E.
Qed.

(** ** A subnet replaced while a request looks for it *)

(** The server can tell which subnet serves the request. *)
Definition served (s : Server) (req : Request) : bool :=
  negb (for_other_server (D := rfc_lib) s (Request_DHCPv4 req)) &&
  match getSubnet (λ _, (map_to_list (subnets s)).*1) s req with Some _ => true | None => false end.

Definition refusal (req : Request) : list answered :=
  [(req, Err (EUnknownSubnet (GatewayIPAddr (Request_DHCPv4 req)) (Request_InterfaceName req)))].

(** The interface has two addresses.  While a worker has looked for a subnet with the first
    and not yet with the second, a subnet for the first is added and the one for the
    second is deleted. *)
Definition first_net : Subnet := test_cfg "10.1.1.0/24" "10.1.1.10" "10.1.1.13" "10.1.1.254".
Definition second_net : Subnet := test_cfg "10.2.1.0/24" "10.2.1.10" "10.2.1.13" "10.2.1.254".
Definition br0_discover : Request := test_request (client_packet MessageTypeDiscover test_mac None) "br0".
Definition br0_server : Server := (AddSubnet ifaces keys12 test_server second_net).2.
Definition replacing : list event :=
  [Work 0 br0_discover; Work 0 br0_discover; AddNet first_net; DeleteNet "10.2.1.0/24"; Work 0 br0_discover; Work 0 br0_discover].

Lemma replacing_ok : Forall event_ok replacing.
Proof.
  assert (event_ok (Work 0 br0_discover)) by exact test_discover_ok.
  assert (event_ok (AddNet first_net)) by (apply (cfg_ok_intro _ 167837965); [done|vm_compute; reflexivity|lia]).
  repeat (apply List.Forall_cons; [assumption || exact I|]). apply List.Forall_nil.
Qed.

(** A request is refused because its subnet is unknown, although the server has a subnet for it at
    every moment: when the request comes, after every step, and when it is refused.
    Answered in one step it could not be. *)
Theorem refused_while_served :
  ∃ xs, chain (D := rfc_lib) (all_resting br0_server 1) xs ∧
    served br0_server br0_discover = true ∧
    Forall (λ x, served (srv x.1) br0_discover = true) xs ∧
    (final (all_resting br0_server 1) xs).2 = [(Resting, refusal br0_discover)].
Proof.
  exists (run_of (D := rfc_lib) test_now replacing (all_resting br0_server 1)). split_and!.
  - apply run_of_chain; [apply replacing_ok|runs].
  - vm_compute. reflexivity.
  - runs.
  - vm_compute. reflexivity.
Qed.

(** ** A subnet created again while a request is in hand *)

(** Who was acknowledged which address, if a worker answered once. *)
Definition acked (w : errand * list answered) : option (HardwareAddr * net_IP) :=
  match w.2 with
  | [(req, Ok r)] =>
      if MessageType (Dhcpv4 := rfc_lib) (Response_Response r) =? MessageTypeAck
      then Some (ClientHWAddr (Request_DHCPv4 req), YourIPAddr (Response_Response r)) else None
  | _ => None
  end.

Definition br1_request (n : Z) : Request := test_request (client_packet MessageTypeRequest [2; 0; 0; 0; 0; n] None) "br1".
Definition recreating : list event :=
  replicate 2 (Work 0 (br1_request 1)) ++ [DeleteNet "10.3.1.0/24"; AddNet test_sn2].
Definition both_answered : list event :=
  replicate 4 (Work 1 (br1_request 2)) ++ replicate 2 (Work 0 (br1_request 1)).

Lemma works_ok n i m : is_u8 m → Forall event_ok (replicate n (Work i (br1_request m))).
Proof.
  intros Hm. apply Forall_replicate. cbn. unfold client_ok.
  repeat (apply List.Forall_cons; [by unfold is_u8 || exact Hm|]). apply List.Forall_nil.
Qed.

Lemma recreating_ok : Forall event_ok recreating.
Proof.
  apply Forall_app. split; [by apply works_ok; unfold is_u8|].
  apply List.Forall_cons; [exact I|]. apply List.Forall_cons; [apply test_sn2_ok|apply List.Forall_nil].
Qed.

(** A worker holds a subnet that is deleted and created again.  Nobody has an address in the
    new subnet, and nothing happens any more but that two requests are answered: both
    clients are acknowledged the same address. *)
Theorem recreated_subnet_acks_twice :
  ∃ x1 x2 mac1 mac2 ip,
    rtc (moving (D := rfc_lib)) (all_resting test_server 2) x1 ∧ acked <$> x1.2 = [None; None] ∧
    (∃ sn, subnets (srv x1.1) !! "10.3.1.0/24" = Some sn ∧ Subnet_leaseCache sn = ∅) ∧
    rtc (moving (D := rfc_lib)) x1 x2 ∧ length (gone x2.1) = length (gone x1.1) ∧
    acked <$> x2.2 = [Some (mac1, ip); Some (mac2, ip)] ∧ mac1 ≠ mac2.
Proof.
  set (x1 := final (all_resting test_server 2) (run_of (D := rfc_lib) test_now recreating (all_resting test_server 2))).
  set (x2 := final x1 (run_of (D := rfc_lib) test_now both_answered x1)).
  exists x1, x2, [2; 0; 0; 0; 0; 1], [2; 0; 0; 0; 0; 2], (ParseIP "10.3.1.10"). split_and!.
  - apply chain_rtc, run_of_chain; [apply recreating_ok|runs].
  - vm_compute. reflexivity.
  - eexists. split; vm_compute; reflexivity.
  - apply chain_rtc, run_of_chain; [|runs].
    apply Forall_app. split; apply works_ok; by unfold is_u8.
  - vm_compute. reflexivity.
  - vm_compute. reflexivity.
  - done.
Qed.

(** The worker whose subnet was deleted still answers. *)
Lemma changing_subnets_safe_witness :
  ∃ y ws y' res, rtc (moving (D := rfc_lib)) (all_resting test_server 2) (y, ws) ∧ length (gone y) = 1%nat ∧
    (fst <$> ws !! 0%nat) = Some (Found (br1_request 1) (Gone 0)) ∧
    rtc (moving (D := rfc_lib)) (y, ws) (y', <[0%nat := (Resting, [] ++ [(br1_request 1, res)])]> ws).
Proof.
  set (x1 := final (all_resting test_server 2) (run_of (D := rfc_lib) test_now recreating (all_resting test_server 2))).
  assert (rtc (moving (D := rfc_lib)) (all_resting test_server 2) (x1.1, x1.2)) as Hr.
  { rewrite <- surjective_pairing. apply chain_rtc, run_of_chain; [apply recreating_ok|runs]. }
  destruct (changing_subnets_safe rfc_lib rfc_lib_laws 2 test_server x1.1 x1.2 test_server_inv Hr) as (Hfin & _).
  destruct (Hfin 0%nat (Found (br1_request 1) (Gone 0)) [] (br1_request 1)) as (y' & res & H);
    [vm_compute; reflexivity|reflexivity|].
  exists x1.1, x1.2, y', res. split_and!; [exact Hr|vm_compute; reflexivity|vm_compute; reflexivity|exact H].
Defined.
