(* ===== verification/Locks.v ===== *)
(** * Goroutines and mutexes

    The synchronisation of a program, apart from what it computes: code that locks
    mutexes, reads and writes shared variables, starts goroutines, and chooses
    and repeats without our knowing why.  A pool of goroutines runs such code in
    every interleaving.  Two disciplines are checked by evaluation: that a variable
    is only touched under its mutex, or by one goroutine; and that mutexes are taken
    in an order.  The first excludes data races, the second deadlocks. *)

From S2P Require Import Prelude.
Open Scope list_scope.

Section locks.
Context {lock var : Type} `{EqDecision lock, EqDecision var}.

(** ** Code *)

(** [Sync m c] is [m.Lock(); defer m.Unlock(); c]: every path through [c] ends with
    the unlock. *)
Inductive code :=
  | Skip
  | Access (v : var) (write : bool)
  | Then (c d : code)
  | Or (c d : code)
  | Loop (c : code)
  | Sync (m : lock) (c : code)
  | Go (c : code).

(** What a goroutine has still to do: the code it runs, the mutexes to unlock on
    the way out. *)
Inductive frame := Run (c : code) | Unlock (m : lock).

Abbreviation goroutine := (list frame).
Abbreviation pool := (list goroutine).

Definition held (t : goroutine) : list lock :=
  omap (λ f, match f with Unlock m => Some m | Run _ => None end) t.

Definition free (P : pool) (m : lock) : Prop := Forall (λ t, m ∉ held t) P.

#[global] Instance free_dec P m : Decision (free P m).
Proof. unfold free. apply _. Defined.

(** ** Steps *)

(** A step of one goroutine, where [avail] says which mutexes can be locked; beside it
    the goroutines that it starts. *)
Inductive go_step (avail : lock → Prop) : goroutine → goroutine → list goroutine → Prop :=
  | go_skip k : go_step avail (Run Skip :: k) k []
  | go_access v w k : go_step avail (Run (Access v w) :: k) k []
  | go_then c d k : go_step avail (Run (Then c d) :: k) (Run c :: Run d :: k) []
  | go_left c d k : go_step avail (Run (Or c d) :: k) (Run c :: k) []
  | go_right c d k : go_step avail (Run (Or c d) :: k) (Run d :: k) []
  | go_leave c k : go_step avail (Run (Loop c) :: k) k []
  | go_again c k : go_step avail (Run (Loop c) :: k) (Run c :: Run (Loop c) :: k) []
  | go_lock m c k : avail m → go_step avail (Run (Sync m c) :: k) (Run c :: Unlock m :: k) []
  | go_unlock m k : go_step avail (Unlock m :: k) k []
  | go_start c k : go_step avail (Run (Go c) :: k) k [ [Run c] ].

Inductive pool_step (P : pool) : pool → Prop :=
  | pool_one i t t' new :
      P !! i = Some t → go_step (free P) t t' new → pool_step P (<[i := t']> P ++ new).

(** Two goroutines are about to touch a variable, and one of them to write it. *)
Definition race (P : pool) (v : var) : Prop :=
  ∃ i j wi wj ki kj, i ≠ j ∧ P !! i = Some (Run (Access v wi) :: ki) ∧
    P !! j = Some (Run (Access v wj) :: kj) ∧ wi || wj = true.

(** ** Goroutine-wise invariants *)

(** A property of goroutines that every step keeps, and that new ones have. *)
Definition kept (I : goroutine → Prop) : Prop :=
  ∀ avail t t' new, I t → go_step avail t t' new → I t' ∧ Forall I new.

Lemma kept_pool I P P' : kept I → Forall I P → rtc pool_step P P' → Forall I P'.
Proof.
  intros HI HP. induction 1 as [|P P1 P2 Hst _ IH]; [done|]. apply IH.
  destruct Hst as [i t t' new Hi Hst]. pose proof (proj1 (Forall_lookup _ _) HP i t Hi) as Ht.
  destruct (HI _ _ _ _ Ht Hst) as [Ht' Hn]. apply Forall_app. split; [|done]. by apply Forall_insert.
Qed.

(** ** Mutual exclusion *)

Definition exclusive (P : pool) : Prop :=
  ∀ i j ti tj m, P !! i = Some ti → P !! j = Some tj → m ∈ held ti → m ∈ held tj → i = j.

(** A step locks nothing but what was free. *)
Lemma go_step_held avail t t' new m :
  go_step avail t t' new → m ∈ held t' → m ∈ held t ∨ avail m.
Proof.
  destruct 1; cbn; rewrite ?elem_of_cons; try by left.
  - intros [->|?]; [by right|by left].
  - intros ?. left. by right.
Qed.

Lemma go_step_new avail t t' new m : go_step avail t t' new → Forall (λ u, m ∉ held u) new.
Proof. destruct 1; repeat constructor. cbn. apply not_elem_of_nil. Qed.

Lemma pool_step_exclusive P P' : exclusive P → pool_step P P' → exclusive P'.
Proof.
  intros He [a t t' new Ha Hst]. assert (∀ i u m, (<[a := t']> P ++ new) !! i = Some u → m ∈ held u →
    (∃ u', P !! i = Some u' ∧ m ∈ held u') ∨ (i = a ∧ free P m)) as Hold.
  { intros i u m Hi Hm. apply lookup_app_Some in Hi as [Hi|[_ Hi]].
    - rewrite list_lookup_insert in Hi. case_decide as E; [|left; by exists u].
      destruct E as [-> _]. injection Hi as ->.
      destruct (go_step_held _ _ _ _ m Hst Hm) as [?|?]; [left; by exists t|by right].
    - exfalso. exact (proj1 (Forall_lookup _ _) (go_step_new _ _ _ _ m Hst) _ _ Hi Hm). }
  intros i j ti tj m Hi Hj Hmi Hmj.
  destruct (Hold i ti m Hi Hmi) as [(ui & Hui & Mi)|[-> Fi]],
    (Hold j tj m Hj Hmj) as [(uj & Huj & Mj)|[-> Fj]]; [by eapply He| | |done].
  - by destruct (proj1 (Forall_lookup _ _) Fj i ui Hui).
  - by destruct (proj1 (Forall_lookup _ _) Fi j uj Huj).
Qed.

Lemma exclusive_start P : Forall (λ t, held t = []) P → exclusive P.
Proof.
  intros HP i j ti tj m Hi _ Hm. rewrite (proj1 (Forall_lookup _ _) HP i ti Hi) in Hm.
  by apply not_elem_of_nil in Hm.
Qed.

Lemma pool_exclusive P P' : exclusive P → rtc pool_step P P' → exclusive P'.
Proof. induction 2; eauto using pool_step_exclusive. Qed.

(** ** Data races *)

(** [v] is touched only where [m] is held; [h] says whether it is already.  A new
    goroutine starts without it. *)
Fixpoint guards (v : var) (m : lock) (h : bool) (c : code) : bool :=
  match c with
  | Skip => true
  | Access v' _ => h || negb (bool_decide (v = v'))
  | Then c d | Or c d => guards v m h c && guards v m h d
  | Loop c => guards v m h c
  | Sync m' c => guards v m (h || bool_decide (m = m')) c
  | Go c => guards v m false c
  end.

Fixpoint guarded (v : var) (m : lock) (t : goroutine) : Prop :=
  match t with
  | [] => True
  | Run c :: k => guards v m (bool_decide (m ∈ held k)) c = true ∧ guarded v m k
  | Unlock _ :: k => guarded v m k
  end.

Lemma guarded_kept v m : kept (guarded v m).
Proof.
  intros avail t t' new Hg Hst. destruct Hst; cbn [guarded guards] in *;
    rewrite ?andb_true_iff in Hg; try (split; [tauto|by constructor]).
  - destruct Hg as [Hg Hk]. split; [|constructor]. split; [|done]. cbn [held omap list_omap].
    rewrite <- Hg. f_equal. change (omap _ k) with (held k).
    rewrite (bool_decide_ext (m ∈ m0 :: held k) (m = m0 ∨ m ∈ held k)) by apply elem_of_cons.
    rewrite bool_decide_or. apply orb_comm.
  - destruct Hg as [Hg Hk]. split; [done|]. apply Forall_singleton. split; [|done].
    by rewrite bool_decide_eq_false_2 by apply not_elem_of_nil.
Qed.

(** A variable that is always touched under the same mutex has no races. *)
Lemma guarded_no_race v m P P' :
  Forall (λ t, held t = []) P → Forall (guarded v m) P → rtc pool_step P P' → ¬ race P' v.
Proof.
  intros Hh Hg Hr (i & j & wi & wj & ki & kj & Hne & Hi & Hj & _).
  pose proof (pool_exclusive _ _ (exclusive_start _ Hh) Hr) as He.
  pose proof (kept_pool _ _ _ (guarded_kept v m) Hg Hr) as Hg'.
  assert (∀ a w k, P' !! a = Some (Run (Access v w) :: k) → m ∈ held (Run (Access v w) :: k)) as Hm.
  { intros a w k Ha. pose proof (proj1 (Forall_lookup _ _) Hg' a _ Ha) as [Hx _].
    cbn in Hx. rewrite (bool_decide_eq_true_2 (v = v)), orb_false_r in Hx by done.
    by apply bool_decide_eq_true in Hx. }
  apply Hne. exact (He i j _ _ m Hi Hj (Hm _ _ _ Hi) (Hm _ _ _ Hj)).
Qed.

(** Who touches [v], for a goroutine that may ([own]) and for the ones it starts,
    which may not; [w] says whether reading counts. *)
Fixpoint confines (v : var) (own : bool) (c : code) : bool :=
  match c with
  | Skip => true
  | Access v' _ => own || negb (bool_decide (v = v'))
  | Then c d | Or c d => confines v own c && confines v own d
  | Loop c | Sync _ c => confines v own c
  | Go c => confines v false c
  end.

Definition confined (v : var) (own : bool) (t : goroutine) : Prop :=
  Forall (λ f, match f with Run c => confines v own c = true | Unlock _ => True end) t.

Lemma confined_step v own avail t t' new :
  confined v own t → go_step avail t t' new → confined v own t' ∧ Forall (confined v false) new.
Proof.
  unfold confined. intros Hc Hst. destruct Hst; inversion Hc as [|? ? H1 H2]; subst; cbn in H1;
    rewrite ?andb_true_iff in H1; (split; [|repeat constructor; tauto]); repeat constructor; tauto.
Qed.

Lemma confined_pool v a P P' :
  (∀ i t, P !! i = Some t → confined v (bool_decide (i = a)) t) → rtc pool_step P P' →
  (a < length P)%nat → ∀ i t, P' !! i = Some t → confined v (bool_decide (i = a)) t.
Proof.
  intros HP Hr. revert HP. induction Hr as [|P P1 P2 Hst _ IH]; intros HP Ha; [exact HP|].
  destruct Hst as [b t t' new Hb Hst]. destruct (confined_step _ _ _ _ _ _ (HP b t Hb) Hst) as [Ht' Hn].
  apply IH; [|rewrite length_app, length_insert; lia].
  intros i u Hi. apply lookup_app_Some in Hi as [Hi|[Hl Hi]].
  - rewrite list_lookup_insert in Hi. case_decide as E; [|by apply HP].
    destruct E as [-> _]. by injection Hi as <-.
  - rewrite length_insert in Hl. rewrite bool_decide_eq_false_2 by lia.
    exact (proj1 (Forall_lookup _ _) Hn _ _ Hi).
Qed.

(** A variable that one goroutine alone touches has no races. *)
Lemma confined_no_race v a P P' :
  (∀ i t, P !! i = Some t → confined v (bool_decide (i = a)) t) → (a < length P)%nat →
  rtc pool_step P P' → ¬ race P' v.
Proof.
  intros HP Ha Hr (i & j & wi & wj & ki & kj & Hne & Hi & Hj & _).
  assert (∀ b w k, P' !! b = Some (Run (Access v w) :: k) → b = a) as Hown.
  { intros b w k Hb. pose proof (confined_pool v a P P' HP Hr Ha b _ Hb) as Hc.
    inversion Hc as [|? ? H1 _]; subst. cbn in H1.
    rewrite (bool_decide_eq_true_2 (v = v)), orb_false_r in H1 by done. by apply bool_decide_eq_true in H1. }
  apply Hne. by rewrite (Hown _ _ _ Hi), (Hown _ _ _ Hj).
Qed.

(** A variable that is only read has no races. *)
Fixpoint reads_only (v : var) (c : code) : bool :=
  match c with
  | Skip => true
  | Access v' w => negb w || negb (bool_decide (v = v'))
  | Then c d | Or c d => reads_only v c && reads_only v d
  | Loop c | Sync _ c | Go c => reads_only v c
  end.

Definition reading (v : var) (t : goroutine) : Prop :=
  Forall (λ f, match f with Run c => reads_only v c = true | Unlock _ => True end) t.

Lemma reading_kept v : kept (reading v).
Proof.
  unfold reading. intros avail t t' new Hc Hst. destruct Hst; inversion Hc as [|? ? H1 H2]; subst; cbn in H1;
    rewrite ?andb_true_iff in H1; (split; [|repeat constructor; tauto]); repeat constructor; tauto.
Qed.

Lemma reading_no_race v P P' : Forall (reading v) P → rtc pool_step P P' → ¬ race P' v.
Proof.
  intros HP Hr (i & j & wi & wj & ki & kj & _ & Hi & Hj & Hw).
  pose proof (kept_pool _ _ _ (reading_kept v) HP Hr) as HP'.
  assert (∀ b w k, P' !! b = Some (Run (Access v w) :: k) → w = false) as Hread.
  { intros b w k Hb. pose proof (proj1 (Forall_lookup _ _) HP' b _ Hb) as Hc.
    inversion Hc as [|? ? H1 _]; subst. cbn in H1.
    rewrite (bool_decide_eq_true_2 (v = v)), orb_false_r in H1 by done. by destruct w. }
  by rewrite (Hread _ _ _ Hi), (Hread _ _ _ Hj) in Hw.
Qed.

(** ** Deadlocks *)

(** Mutexes have ranks, and are taken in increasing order; [n] is the highest rank that
    is held. *)
Context (rank : lock → nat).

Fixpoint ordered (n : nat) (c : code) : bool :=
  match c with
  | Skip | Access _ _ => true
  | Then c d | Or c d => ordered n c && ordered n d
  | Loop c => ordered n c
  | Sync m c => (n <? rank m)%nat && ordered (rank m) c
  | Go c => ordered 0 c
  end.

(** The rank of the mutex that was locked last. *)
Definition top (t : goroutine) : nat := match held t with [] => 0 | m :: _ => rank m end.

Fixpoint in_order (t : goroutine) : Prop :=
  match t with
  | [] => True
  | Run c :: k => ordered (top k) c = true ∧ in_order k
  | Unlock m :: k => (top k < rank m)%nat ∧ in_order k
  end.

Lemma in_order_kept : kept in_order.
Proof.
  intros avail t t' new Ho Hst. destruct Hst; cbn [in_order ordered] in *;
    rewrite ?andb_true_iff in Ho; try (split; [tauto|by constructor]).
  - destruct Ho as [[Hlt%Nat.ltb_lt Hc] Hk]. split; [|constructor]. by split_and!.
  - split; [tauto|]. repeat constructor. by destruct Ho.
Qed.

(** What is held is not above the top. *)
Lemma in_order_top t m : in_order t → m ∈ held t → (rank m <= top t)%nat.
Proof.
  induction t as [|[c|m'] t IH]; cbn [in_order].
  - by intros _ ?%not_elem_of_nil.
  - intros [_ Ho]. change (held (Run c :: t)) with (held t). by apply IH.
  - intros [Hlt Ho]. change (held (Unlock m' :: t)) with (m' :: held t).
    intros [->|Hm]%elem_of_cons; [done|]. specialize (IH Ho Hm). unfold top in *. cbn. lia.
Qed.

(** [i] wants a mutex that [j] holds. *)
Definition waits_for (P : pool) (i j : nat) : Prop :=
  ∃ m c k t, P !! i = Some (Run (Sync m c) :: k) ∧ P !! j = Some t ∧ m ∈ held t.

Definition can_step (P : pool) (i : nat) : Prop :=
  ∃ t t' new, P !! i = Some t ∧ go_step (free P) t t' new.

(** A goroutine that is not done can step, or wants a mutex that another has. *)
Lemma step_or_wait P i f k :
  P !! i = Some (f :: k) →
  can_step P i ∨ ∃ m c j t, f = Run (Sync m c) ∧ P !! j = Some t ∧ m ∈ held t.
Proof.
  intros Hi. destruct f as [[| | | | |m c|]|m];
    try (left; eexists _, _, _; split; [exact Hi|solve [constructor]]).
  destruct (decide (free P m)) as [Hf|Hn].
  { left. eexists _, _, _. split; [exact Hi|exact (go_lock _ m c k Hf)]. }
  right. apply not_Forall_Exists in Hn; [|apply _]. apply Exists_exists in Hn as (t & Ht & Hm).
  apply list_elem_of_In, list_elem_of_lookup in Ht as [j Hj].
  exists m, c, j, t. split_and!; [done|done|]. by apply dec_stable.
Qed.

(** Whoever waits, waits in the end for a goroutine that can go on. *)
Lemma in_order_no_deadlock N P i f k :
  (∀ m, (rank m <= N)%nat) → Forall in_order P → P !! i = Some (f :: k) →
  ∃ j, rtc (waits_for P) i j ∧ can_step P j.
Proof.
  intros HN HP. remember (S (N - top (f :: k))) as n eqn:En.
  assert (N - top (f :: k) < n)%nat as Hn by lia. clear En. revert i f k Hn.
  induction n as [|n IH]; intros i f k Hn Hi; [lia|].
  destruct (step_or_wait P i f k Hi) as [Hc|(m & c & j & t & -> & Hj & Hm)]; [by exists i|].
  destruct (proj1 (Forall_lookup _ _) HP i _ Hi) as [Ho _]. cbn in Ho.
  apply andb_true_iff in Ho as [Hlt%Nat.ltb_lt _].
  pose proof (in_order_top _ _ (proj1 (Forall_lookup _ _) HP j _ Hj) Hm) as Htop.
  change (top (Run (Sync m c) :: k)) with (top k) in Hn. pose proof (HN m).
  destruct t as [|f' k']; [by apply not_elem_of_nil in Hm|].
  destruct (IH j f' k' ltac:(lia) Hj) as (j' & Hr & Hs). exists j'. split; [|done].
  eapply rtc_l; [|exact Hr]. by exists m, c, k, (f' :: k').
Qed.

(** ** Running a pool *)

(** One step of a goroutine, if it has one; [b] chooses. *)
Definition go_next (P : pool) (b : bool) (t : goroutine) : option (goroutine * list goroutine) :=
  match t with
  | [] => None
  | Run Skip :: k | Run (Access _ _) :: k | Unlock _ :: k => Some (k, [])
  | Run (Then c d) :: k => Some (Run c :: Run d :: k, [])
  | Run (Or c d) :: k => Some (Run (if b then c else d) :: k, [])
  | Run (Loop c) :: k => Some (if b then Run c :: Run (Loop c) :: k else k, [])
  | Run (Sync m c) :: k => if decide (free P m) then Some (Run c :: Unlock m :: k, []) else None
  | Run (Go c) :: k => Some (k, [ [Run c] ])
  end.

(** A schedule: whose turn it is, and what it chooses. *)
Fixpoint pool_run (P : pool) (schedule : list (nat * bool)) : option pool :=
  match schedule with
  | [] => Some P
  | (i, b) :: schedule =>
      t ← P !! i;
      '(t', new) ← go_next P b t;
      pool_run (<[i := t']> P ++ new) schedule
  end.

Lemma go_next_step P b t t' new : go_next P b t = Some (t', new) → go_step (free P) t t' new.
Proof.
  destruct t as [|[[| | | | | |]|] k]; cbn; try done; try (intros [= <- <-]; by constructor).
  - intros [= <- <-]. destruct b; constructor.
  - intros [= <- <-]. destruct b; constructor.
  - case_decide; [|done]. intros [= <- <-]. by apply go_lock.
Qed.

Lemma pool_run_steps P schedule P' : pool_run P schedule = Some P' → rtc pool_step P P'.
Proof.
  revert P. induction schedule as [|[i b] schedule IH]; intros P; cbn [pool_run].
  - intros [= <-]. apply rtc_refl.
  - intros (t & Hi & ([t' new] & Hn & Hr)%bind_Some)%bind_Some.
    eapply rtc_l; [|exact (IH _ Hr)]. eapply pool_one; [done|by eapply go_next_step].
Qed.
End locks.
#[global] Arguments code : clear implicits.
#[global] Arguments frame : clear implicits.
