(* ===== verification/Goroutines.v ===== *)
(** * The goroutines of the program

    What each method locks, reads, writes and starts, as code of [Locks.v]: the
    mutexes are the program's, the variables are the maps and fields that more than
    one goroutine can reach, branches and loops are free choices.  Left out are
    objects that one goroutine alone can reach: a new subnet before it is in the
    map, the socket of a listener with its broadcast responders (used by the
    listener's response processor only) and the channels, which synchronise by
    themselves.

    The framework runs one goroutine for each controller.  The host reconciler that
    [main] registers without a server is left out: it ends the program. *)

From S2P Require Import Prelude Locks.
Open Scope list_scope.

(** The mutexes; each subnet has its own for its lease cache. *)
Inductive mutex :=
  | ListensLock | listenMutex | subnetMutex | leaseCacheMutex (k : nat) | objectsLock.

(** The variables.  [leaseFields] are the fields of a lease that are written after it
    is made, [ServerId] and [AckSent]; [localAddresses] and [serverIds] are the maps
    that [NewServer] fills. *)
Inductive shared :=
  | subnetsMap | leaseCacheMap (k : nat) | currentIP (k : nat) | leaseFields
  | listenersMap | localAddresses | serverIdsMap
  | knownSubnetsMap | unknownHostsMap | knownListensMap
  | subnetCacheMap | subnetToObjectKeyMap | hostsCacheMap.

#[global] Instance mutex_eq_dec : EqDecision mutex.
Proof. solve_decision. Defined.
#[global] Instance shared_eq_dec : EqDecision shared.
Proof. solve_decision. Defined.

Abbreviation proc := (code mutex shared).

Declare Scope sync_scope.
Delimit Scope sync_scope with sync.
Infix "⨟" := Then (at level 58, right associativity) : sync_scope.
Infix "<|>" := Or (at level 59, right associativity) : sync_scope.


Open Scope sync_scope.

Definition rd (v : shared) : proc := Access v false.
Definition wr (v : shared) : proc := Access v true.

(** Perhaps. *)
Definition maybe (c : proc) : proc := Skip <|> c.

(** What may differ between deployments: the number of subnets, whether the host
    reconciler knows a host, whether an option has a type that the server does not
    know. *)
Record deployment := { subnet_count : nat; hosts_known : bool; unknown_options : bool }.

Section skeleton.
Context (d : deployment).

(** For one of the subnets. *)
Definition any (f : nat → proc) : proc := foldr (λ k c, f k <|> c) Skip (seq 0 (subnet_count d)).

(** ** [subnet.go] *)

Definition sync_Subnet_AddLease (k : nat) : proc :=
  rd (leaseCacheMap k) ⨟ maybe (wr (leaseCacheMap k)) ⨟ wr (leaseCacheMap k) ⨟ wr (leaseCacheMap k).

Definition sync_Subnet_DeleteHost (k : nat) : proc := wr (leaseCacheMap k) ⨟ wr (leaseCacheMap k).

Definition sync_Subnet_AddHost (k : nat) : proc := Sync (leaseCacheMutex k) (sync_Subnet_AddLease k).

Definition sync_GetLeaseForRequest (k : nat) : proc :=
  Sync (leaseCacheMutex k) (
    rd (leaseCacheMap k) ⨟
    (Skip <|>
     rd (leaseCacheMap k) ⨟ maybe (sync_Subnet_AddLease k) <|>
     rd (currentIP k) ⨟ wr (currentIP k) ⨟
       Loop (rd (currentIP k) ⨟ rd (leaseCacheMap k) ⨟ wr (currentIP k)) ⨟
       maybe (rd (currentIP k) ⨟ rd (leaseCacheMap k) ⨟ sync_Subnet_AddLease k))).

(** ** [server.go] *)

Definition sync_AddSubnet : proc :=
  rd localAddresses ⨟ maybe (Sync subnetMutex (Loop (rd subnetsMap) ⨟ maybe (wr subnetsMap))).

Definition sync_DeleteSubnet : proc := Sync subnetMutex (rd subnetsMap ⨟ maybe (wr subnetsMap)).

Definition sync_AddHost : proc := Sync subnetMutex (Loop (rd subnetsMap) ⨟ any sync_Subnet_AddHost).

Definition sync_DeleteHost : proc := Sync subnetMutex (Loop (rd subnetsMap) ⨟ any sync_Subnet_DeleteHost).

Definition sync_DeleteListen : proc := Sync listenMutex (rd listenersMap ⨟ maybe (wr listenersMap)).

Definition sync_getSubnetForIp : proc := Sync subnetMutex (Loop (rd subnetsMap)).

Definition sync_getSubnet : proc :=
  rd localAddresses ⨟ Loop sync_getSubnetForIp <|> sync_getSubnetForIp.

(** What follows a call only when it returns no error is its argument [ok].  An option of
    an unknown type is logged with the subnet, [%v]: the whole struct is read, with its
    cache, and no mutex. *)
Definition sync_getResponse (k : nat) (ok : proc) : proc :=
  sync_GetLeaseForRequest k ⨟
  maybe (wr leaseFields ⨟
    ((if unknown_options d then rd (currentIP k) ⨟ rd (leaseCacheMap k) else Skip) <|>
     rd leaseFields ⨟ maybe ok)).

Definition sync_GetResponse (ok : proc) : proc :=
  rd serverIdsMap ⨟
  maybe (sync_getSubnet ⨟ maybe (any (λ k, sync_getResponse k (wr leaseFields ⨟ ok)))).

(** ** The callback and the request processor *)

Definition sync_CallbackSaveLeases : proc := Loop (rd leaseFields) ⨟ Loop (rd subnetToObjectKeyMap).

Definition sync_runResponseProcessor : proc := Loop (maybe sync_CallbackSaveLeases).

Definition sync_runRequestProcessor : proc :=
  Go sync_runResponseProcessor ⨟ Loop (sync_GetResponse (maybe (wr leaseFields))).

Definition sync_Serve : proc := Loop Skip.

Definition sync_AddListen : proc :=
  rd listenersMap ⨟
  maybe (Go sync_runRequestProcessor ⨟ wr listenersMap ⨟ Go sync_Serve).

(** ** [storage.go] *)

Definition sync_AddHostIfNotKnown : proc :=
  Sync objectsLock (rd knownSubnetsMap ⨟ maybe (rd unknownHostsMap ⨟ wr unknownHostsMap)).

Definition sync_AddSubnetIfNotKnown : proc := Sync objectsLock (rd knownSubnetsMap ⨟ maybe (wr knownSubnetsMap)).

Definition sync_PopUnknownHosts : proc := Sync objectsLock (rd unknownHostsMap ⨟ wr unknownHostsMap).

(** ** The reconcilers *)

Definition sync_HostReconcile : proc :=
  rd hostsCacheMap ⨟ (if hosts_known d then maybe sync_DeleteHost else Skip) <|>
  Skip <|>
  sync_AddHostIfNotKnown ⨟ maybe sync_AddHost.

Definition sync_SubnetReconcile : proc :=
  rd subnetCacheMap ⨟ maybe (wr subnetToObjectKeyMap ⨟ sync_DeleteSubnet) <|>
  Skip <|>
  wr subnetToObjectKeyMap ⨟ sync_AddSubnetIfNotKnown ⨟
    maybe (wr subnetCacheMap ⨟ sync_AddSubnet ⨟ maybe (sync_PopUnknownHosts ⨟ Loop sync_AddHost)).

Definition sync_Initialize : proc := Loop sync_AddSubnet.

Definition sync_ServerReconcile : proc :=
  Sync ListensLock (
    sync_DeleteListen ⨟ wr knownListensMap <|>
    Skip <|>
    rd knownListensMap ⨟ maybe sync_DeleteListen ⨟
      maybe (sync_AddListen ⨟ maybe (wr knownListensMap) ⨟ rd knownListensMap ⨟ maybe sync_Initialize)).

(** ** The program *)

(** The controllers; the listeners' goroutines are started by the first. *)
Definition goroutines : list (list (frame mutex shared)) :=
  [ [Run (Loop sync_ServerReconcile)]; [Run (Loop sync_SubnetReconcile)]; [Run (Loop sync_HostReconcile)] ].
End skeleton.

Create HintDb sync.
#[export] Hint Unfold sync_Subnet_AddLease sync_Subnet_DeleteHost sync_Subnet_AddHost : sync.
#[export] Hint Unfold sync_GetLeaseForRequest sync_AddSubnet : sync.
#[export] Hint Unfold sync_DeleteSubnet sync_AddHost sync_DeleteHost sync_DeleteListen : sync.
#[export] Hint Unfold sync_getSubnetForIp sync_getSubnet sync_getResponse sync_GetResponse : sync.
#[export] Hint Unfold sync_CallbackSaveLeases sync_runResponseProcessor sync_runRequestProcessor : sync.
#[export] Hint Unfold sync_Serve sync_AddListen sync_AddHostIfNotKnown sync_AddSubnetIfNotKnown : sync.
#[export] Hint Unfold sync_PopUnknownHosts sync_HostReconcile sync_SubnetReconcile sync_Initialize : sync.
#[export] Hint Unfold sync_ServerReconcile rd wr maybe : sync.
