(* ===== verification/RaceFree.v ===== *)
(** * Races and deadlocks of the program

    Which shared variables the goroutines can race on, and that they never block one
    another for good. *)

From S2P Require Import Prelude Locks Goroutines.
Open Scope list_scope.
Open Scope sync_scope.

(** ** The disciplines, for a choice among subnets *)

Section any.
Context (d : deployment) (f : nat → proc).

(** What holds of every subnet's code and of [Skip], and is closed under choice. *)
Lemma any_ind (P : proc → Prop) :
  P Skip → (∀ c e, P c → P e → P (c <|> e)) →
  (∀ k, (k < subnet_count d)%nat → P (f k)) → P (any d f).
Proof.
  intros H0 HOr Hf. unfold any. assert (∀ k, k ∈ seq 0 (subnet_count d) → P (f k)) as Hk.
  { intros k [_ ?]%elem_of_seq. apply Hf. lia. }
  revert Hk. induction (seq 0 (subnet_count d)) as [|k ks IH]; intros Hk; [done|].
  cbn. apply HOr; [apply Hk; left|apply IH; intros; apply Hk; by right].
Qed.

Lemma guards_any v m h :
  (∀ k, (k < subnet_count d)%nat → guards v m h (f k) = true) → guards v m h (any d f) = true.
Proof.
  apply (any_ind (λ c, guards v m h c = true)); [done|]. intros c e Hc He. cbn. by rewrite Hc, He.
Qed.

Lemma confines_any v own :
  (∀ k, (k < subnet_count d)%nat → confines v own (f k) = true) → confines v own (any d f) = true.
Proof.
  apply (any_ind (λ c, confines v own c = true)); [done|]. intros c e Hc He. cbn. by rewrite Hc, He.
Qed.

Lemma reads_only_any v :
  (∀ k, (k < subnet_count d)%nat → reads_only v (f k) = true) → reads_only v (any d f) = true.
Proof.
  apply (any_ind (λ c, reads_only v c = true)); [done|]. intros c e Hc He. cbn. by rewrite Hc, He.
Qed.

Lemma ordered_any rank n :
  (∀ k, (k < subnet_count d)%nat → ordered rank n (f k) = true) → ordered rank n (any d f) = true.
Proof.
  apply (any_ind (λ c, ordered rank n c = true)); [done|]. intros c e Hc He. cbn. by rewrite Hc, He.
Qed.
End any.

(** Check a discipline by evaluation. *)
Ltac discipline :=
  autounfold with sync; cbn [guards confines reads_only ordered];
  repeat first
    [ reflexivity
    | apply andb_true_intro; split
    | apply guards_any; intros ? ?; autounfold with sync; cbn [guards]
    | apply confines_any; intros ? ?; autounfold with sync; cbn [confines]
    | apply reads_only_any; intros ? ?; autounfold with sync; cbn [reads_only]
    | apply ordered_any; intros ? ?; autounfold with sync; cbn [ordered]
    | match goal with |- context [if ?b then _ else _] => destruct b; cbn [guards confines reads_only ordered] end ];
  repeat case_bool_decide; simplify_eq/=; first [done|lia].

(** The three controllers of the pool. *)
Ltac controllers_tac := unfold goroutines; repeat (apply List.Forall_cons; [cbn [guarded in_order]; split; [|done]|]); [..|apply List.Forall_nil].

Section program.
Context (d : deployment).

Lemma goroutines_unlocked : Forall (λ t, held t = []) (goroutines d).
Proof. by repeat constructor. Qed.

(** Which mutex guards which variable. *)
Lemma subnets_guarded : Forall (guarded subnetsMap subnetMutex) (goroutines d).
Proof. controllers_tac; discipline. Qed.

Lemma listeners_guarded : Forall (guarded listenersMap ListensLock) (goroutines d).
Proof. controllers_tac; discipline. Qed.

Lemma knownListens_guarded : Forall (guarded knownListensMap ListensLock) (goroutines d).
Proof. controllers_tac; discipline. Qed.

Lemma knownSubnets_guarded : Forall (guarded knownSubnetsMap objectsLock) (goroutines d).
Proof. controllers_tac; discipline. Qed.

Lemma unknownHosts_guarded : Forall (guarded unknownHostsMap objectsLock) (goroutines d).
Proof. controllers_tac; discipline. Qed.

Lemma leaseCache_guarded k :
  hosts_known d = false → unknown_options d = false →
  Forall (guarded (leaseCacheMap k) (leaseCacheMutex k)) (goroutines d).
Proof. intros Hh Hu. controllers_tac; autounfold with sync; rewrite ?Hh, ?Hu; discipline. Qed.

Lemma currentIP_guarded k :
  unknown_options d = false → Forall (guarded (currentIP k) (leaseCacheMutex k)) (goroutines d).
Proof. intros Hu. controllers_tac; autounfold with sync; rewrite ?Hu; discipline. Qed.

(** What is not guarded, but read only, or touched by one controller. *)
Lemma never_written v :
  v = localAddresses ∨ v = serverIdsMap ∨ v = hostsCacheMap → Forall (reading v) (goroutines d).
Proof. intros [->|[->| ->]]; repeat (constructor; [constructor; [discipline|constructor]|]); constructor. Qed.

(** Nor does anything reach the cache of a subnet that is not there. *)
Lemma no_such_subnet v :
  (∃ k, (v = leaseCacheMap k ∨ v = currentIP k) ∧ (subnet_count d <= k)%nat) ∨
  v = leaseFields ∧ subnet_count d = 0%nat → Forall (reading v) (goroutines d).
Proof.
  intros [(k & [->| ->] & Hk)|[-> H0]];
    repeat (constructor; [constructor; [discipline|constructor]|]); constructor.
Qed.

Lemma subnetCache_confined i t :
  goroutines d !! i = Some t → confined subnetCacheMap (bool_decide (i = 1%nat)) t.
Proof.
  intros Hi. destruct i as [|[|[|i]]]; [..|done]; injection Hi as <-;
    (constructor; [|constructor]); discipline.
Qed.

(** ** The order of the mutexes *)

Definition rank (m : mutex) : nat :=
  match m with
  | ListensLock => 1
  | listenMutex => 2
  | subnetMutex => 3
  | leaseCacheMutex _ => 4
  | objectsLock => 5
  end.

Lemma goroutines_in_order : Forall (in_order rank) (goroutines d).
Proof. controllers_tac; discipline. Qed.
End program.
