(* ===== verification/Races.v ===== *)
(** * The data races of the program

    Schedules that lead to a race, and with the disciplines of [RaceFree.v] the exact
    list of the shared variables that have one. *)

From S2P Require Import Prelude Locks Goroutines RaceFree.
Open Scope list_scope.
Open Scope sync_scope.

(** Turns of one goroutine. *)
Definition turns (i : nat) (bs : list bool) : list (nat * bool) := (λ b, (i, b)) <$> bs.

(** What goroutine [i] is about to touch. *)
Definition about (P : list (list (frame mutex shared))) (i : nat) : option (shared * bool) :=
  match P !! i with Some (Run (Access v w) :: _) => Some (v, w) | _ => None end.

Lemma about_race P i j v wi wj :
  about P i = Some (v, wi) → about P j = Some (v, wj) → wi || wj = true → i ≠ j → race P v.
Proof.
  unfold about. intros Hi Hj Hw Hne.
  destruct (P !! i) as [[|[[]|] ki]|] eqn:Ei; simplify_eq/=.
  destruct (P !! j) as [[|[[]|] kj]|] eqn:Ej; simplify_eq/=. by exists i, j, wi, wj, ki, kj.
Qed.

Section program.
Context (d : deployment).

(** The code of subnet [k] is one of the choices. *)
Lemma any_steps f k K P i :
  (k < subnet_count d)%nat → P !! i = Some (Run (any d f) :: K) →
  rtc pool_step P (<[i := Run (f k) :: K]> P).
Proof.
  intros Hk. unfold any. assert (0 <= k < 0 + subnet_count d)%nat as Hks by lia. clear Hk.
  revert P Hks. generalize 0%nat as s. induction (subnet_count d) as [|n IH]; intros s P Hks HP; [lia|].
  cbn [seq foldr] in HP. destruct (decide (k = s)) as [->|Hne].
  - apply rtc_once. rewrite <- (app_nil_r (<[_ := _]> P)). eapply pool_one; [exact HP|apply go_left].
  - eapply rtc_l.
    { eapply pool_one; [exact HP|apply go_right]. }
    rewrite app_nil_r. erewrite <- (list_insert_insert_eq P i (Run (f k) :: K)).
    apply (IH (S s)); [lia|]. rewrite list_lookup_insert_eq; [done|by eapply lookup_lt_Some].
Qed.

(** The goroutines of a listener: it answers requests, reads them, sends the answers. *)
Definition worker : list (frame mutex shared) := [Run (Loop (sync_GetResponse d (maybe (wr leaseFields))))].

Definition listener : list (list (frame mutex shared)) := [worker; [Run sync_Serve]; [Run sync_runResponseProcessor]].

Definition serving : list (list (frame mutex shared)) := goroutines d ++ listener ++ listener.

Definition add_listen : list bool :=
  [true; true; false; false; true; true; true; true; true; false; true; true; true; false; true; true]
  ++ replicate 11 true.

(** Two listeners are added; their goroutines are 3 to 8. *)
Lemma two_listeners : rtc pool_step (goroutines d) serving.
Proof.
  apply (pool_run_steps _ (turns 0 add_listen ++ turns 3 [true; true] ++
    turns 0 add_listen ++ turns 6 [true; true])). vm_compute. reflexivity.
Qed.

(** A worker that answers a request from a client of subnet [k]. *)
Definition answering (k : nat) : list (frame mutex shared) :=
  Run (sync_getResponse d k (wr leaseFields ⨟ maybe (wr leaseFields))) :: worker.

Definition find_subnet : list bool :=
  [true; true; true; false; true; false; true; false; true; false].

(** The host reconciler that deletes a host of subnet [k]. *)
Definition deleting (k : nat) : list (frame mutex shared) :=
  [Run (sync_Subnet_DeleteHost k); Unlock subnetMutex; Run (Loop (sync_HostReconcile d))].

(** A schedule of one goroutine, and the choice of a subnet where it ends. *)
Lemma run_any_steps f k K P i bs :
  (k < subnet_count d)%nat → (i < length P)%nat →
  pool_run P (turns i bs) = Some (<[i := Run (any d f) :: K]> P) →
  rtc pool_step P (<[i := Run (f k) :: K]> P).
Proof.
  intros Hk Hi Hr. etransitivity; [by eapply pool_run_steps|].
  rewrite <- (list_insert_insert_eq P i (Run (f k) :: K) (Run (any d f) :: K)).
  apply any_steps; [done|]. by apply list_lookup_insert_eq.
Qed.

Lemma one_answering k :
  (k < subnet_count d)%nat → rtc pool_step (goroutines d) (<[3%nat := answering k]> serving).
Proof.
  intros Hk. etransitivity; [apply two_listeners|].
  refine (run_any_steps (λ k, sync_getResponse d k (wr leaseFields ⨟ maybe (wr leaseFields)))
    k worker _ 3 find_subnet Hk _ _); [cbn; lia|vm_compute; reflexivity].
Qed.

Lemma two_answering k :
  (k < subnet_count d)%nat →
  rtc pool_step (goroutines d) (<[6%nat := answering k]> (<[3%nat := answering k]> serving)).
Proof.
  intros Hk. etransitivity; [by apply one_answering|].
  refine (run_any_steps (λ k, sync_getResponse d k (wr leaseFields ⨟ maybe (wr leaseFields)))
    k worker _ 6 find_subnet Hk _ _); [cbn; lia|vm_compute; reflexivity].
Qed.
End program.

Lemma answering_deleting d k :
  (k < subnet_count d)%nat → hosts_known d = true →
  rtc pool_step (goroutines d) (<[2%nat := deleting d k]> (<[3%nat := answering d k]> (serving d))).
Proof.
  intros Hk Hh. etransitivity; [by apply one_answering|].
  refine (run_any_steps d sync_Subnet_DeleteHost k [Unlock subnetMutex; Run (Loop (sync_HostReconcile d))]
    _ 2 [true; true; true; true; false; true; true; false] Hk _ _); [cbn; lia|].
  destruct d as [n [] u]; [|done]. vm_compute. reflexivity.
Qed.

(** ** The races *)

Definition racy (d : deployment) (v : shared) : Prop := ∃ P, rtc pool_step (goroutines d) P ∧ race P v.

(** From a reachable pool, a schedule that brings two goroutines to the variable. *)
Lemma schedule_racy d P s i j v wi wj :
  rtc pool_step (goroutines d) P → i ≠ j →
  (pool_run P s ≫= λ P', about P' i) = Some (v, wi) →
  (pool_run P s ≫= λ P', about P' j) = Some (v, wj) → wi || wj = true → racy d v.
Proof.
  intros HP Hne Hi Hj Hw. destruct (pool_run P s) as [P'|] eqn:Hr; [|done]. cbn in Hi, Hj.
  exists P'. split; [|exact (about_race _ _ _ _ _ _ Hi Hj Hw Hne)].
  etransitivity; [exact HP|by eapply pool_run_steps].
Qed.

(** A worker gets past the lookup of its lease, and is about to fill in the lease. *)
Definition found_lease : list bool := [true; true; true; true; true; true; true; false; true].

Lemma object_keys_racy d : racy d subnetToObjectKeyMap.
Proof.
  apply (schedule_racy d (serving d) (turns 5 [true; false; true; false; true] ++ turns 1 [true; false; false; true])
    5 1 _ false true); [apply two_listeners|done|done|done|done].
Qed.

Lemma lease_fields_racy d : (0 < subnet_count d)%nat → racy d leaseFields.
Proof.
  intros Hk. apply (schedule_racy d (<[3%nat := answering d 0]> (serving d))
    (turns 3 found_lease ++ turns 5 [true; false; true; true]) 3 5 _ true false); [by apply one_answering|done|done|done|done].
Qed.

Lemma lease_cache_racy d k :
  (k < subnet_count d)%nat → hosts_known d = true ∨ unknown_options d = true → racy d (leaseCacheMap k).
Proof.
  intros Hk [Hh|Hu].
  - apply (schedule_racy d (<[2%nat := deleting d k]> (<[3%nat := answering d k]> (serving d)))
      (turns 3 [true; true; true] ++ turns 2 [true]) 3 2 _ false true); [by apply answering_deleting|done|done|done|done].
  - eapply (schedule_racy d (<[6%nat := answering d k]> (<[3%nat := answering d k]> (serving d)))
      (turns 3 (found_lease ++ [true; true; true; true]) ++
       turns 6 [true; true; true; true; false; true; true; true; false; true; true; true; true; true; true])
      3 6 _ false true); [by apply two_answering|done|..|done]; destruct d as [n h []]; done.
Qed.

Lemma current_ip_racy d k :
  (k < subnet_count d)%nat → unknown_options d = true → racy d (currentIP k).
Proof.
  intros Hk Hu. eapply (schedule_racy d (<[6%nat := answering d k]> (<[3%nat := answering d k]> (serving d)))
    (turns 3 (found_lease ++ [true; true; true]) ++
     turns 6 [true; true; true; true; false; false; true; true; true])
    3 6 _ false true); [by apply two_answering|done|..|done]; destruct d as [n h []]; done.
Qed.

(** The variables that have a race. *)
Definition unprotected (d : deployment) (v : shared) : Prop :=
  match v with
  | subnetToObjectKeyMap => True
  | leaseFields => (0 < subnet_count d)%nat
  | leaseCacheMap k => (k < subnet_count d)%nat ∧ (hosts_known d = true ∨ unknown_options d = true)
  | currentIP k => (k < subnet_count d)%nat ∧ unknown_options d = true
  | _ => False
  end.

Lemma racy_unprotected d v : racy d v → unprotected d v.
Proof.
  intros (P & Hr & Hrace).
  assert (∀ m, Forall (guarded v m) (goroutines d) → False) as Hg.
  { intros m Hm. exact (guarded_no_race v m _ P (goroutines_unlocked d) Hm Hr Hrace). }
  assert (Forall (reading v) (goroutines d) → False) as Hro.
  { intros Hm. exact (reading_no_race v _ P Hm Hr Hrace). }
  destruct v as [|k|k| | | | | | | | | |]; cbn; try done;
    try (by eapply Hg; eauto using subnets_guarded, listeners_guarded, knownListens_guarded,
           knownSubnets_guarded, unknownHosts_guarded);
    try (by apply Hro, never_written; tauto).
  - split.
    + destruct (decide (k < subnet_count d)%nat); [done|]. destruct Hro. apply no_such_subnet.
      left. exists k. split; [by left|lia].
    + destruct (hosts_known d) eqn:Hh, (unknown_options d) eqn:Hu; try tauto.
      destruct (Hg _ (leaseCache_guarded d k Hh Hu)).
  - split.
    + destruct (decide (k < subnet_count d)%nat); [done|]. destruct Hro. apply no_such_subnet.
      left. exists k. split; [by right|lia].
    + destruct (unknown_options d) eqn:Hu; [done|]. destruct (Hg _ (currentIP_guarded d k Hu)).
  - destruct (subnet_count d) eqn:Hn; [|lia]. destruct Hro. apply no_such_subnet. by right.
  - exact (confined_no_race subnetCacheMap 1 _ P (subnetCache_confined d) ltac:(cbn; lia) Hr Hrace).
Qed.

(** C10: which of the maps and fields that goroutines share have a data race, whatever the
    interleaving, as far as locks and the start of goroutines protect them.  The reconciler's
    map of object keys does (written for every subnet event, read unlocked by the callback
    that saves leases), and so do the fields of a lease that are written after it is made
    (the worker fills them in without a mutex, the callback copies the lease).  The cache
    of a subnet does where [Server.DeleteHost] is reached, which takes no cache mutex
    (today it is not: the host reconciler's cache is never filled), or where an option has an unknown
    type, which logs the subnet unlocked; its current address, only in the latter case.
    Everything else, the server's subnets and listeners and the objects cache among
    them, has none. *)
Theorem program_races d v : racy d v ↔ unprotected d v.
Proof.
  split; [apply racy_unprotected|].
  destruct v as [|k|k| | | | | | | | | |]; cbn; try done.
  - intros [??]. by apply lease_cache_racy.
  - intros [??]. by apply current_ip_racy.
  - apply lease_fields_racy.
  - intros _. apply object_keys_racy.
Qed.

(** C11: the mutexes never lock the program up.  Whatever the goroutines have done, one
    that is not finished can go on, or waits, through other goroutines at most,
    for one that can: [ListensLock], [listenMutex], [subnetMutex], a subnet's cache mutex
    and the objects' lock are always taken in this order. *)
Theorem no_deadlock d P i f k :
  rtc pool_step (goroutines d) P → P !! i = Some (f :: k) →
  ∃ j, rtc (waits_for P) i j ∧ can_step P j.
Proof.
  intros Hr Hi. apply (in_order_no_deadlock rank 5 P i f k); [by intros []; cbn; lia| |done].
  exact (kept_pool _ _ _ (in_order_kept rank) (goroutines_in_order d) Hr).
Qed.

(** A worker waits for the host reconciler, which is at work under the subnets' mutex. *)
Lemma no_deadlock_witness :
  let d := {| subnet_count := 1; hosts_known := true; unknown_options := false |} in
  ∃ P f k j, rtc pool_step (goroutines d) P ∧ P !! 3%nat = Some (f :: k) ∧ ¬ can_step P 3 ∧
    rtc (waits_for P) 3 j ∧ can_step P j.
Proof.
  intros d.
  pose (s := turns 0 add_listen ++ turns 3 [true; true] ++
    turns 2 [true; true; true; true; false; true; true; false; true] ++
    turns 3 [true; true; true; false; true; false]).
  destruct (pool_run (goroutines d) s) as [P|] eqn:Hs; [|by vm_compute in Hs].
  pose proof (pool_run_steps _ _ _ Hs) as Hr. vm_compute in Hs. injection Hs as HP.
  assert (∃ m c k, P !! 3%nat = Some (Run (Sync m c) :: k) ∧ ¬ free P m) as (m & c & k & Hi & Hf).
  { subst P. eexists _, _, _. split; [reflexivity|]. intros Hf.
    exact (proj1 (Forall_lookup _ _) Hf 2%nat _ eq_refl ltac:(left)). }
  destruct (no_deadlock d P 3 _ k Hr Hi) as (j & Hj & Hs).
  exists P, (Run (Sync m c)), k, j. split_and!; [done|done| |done|done].
  intros (t & t' & new & Ht & Hst). rewrite Hi in Ht. injection Ht as <-. by inversion Hst.
Defined.
