(* ===== verification/Logger.v ===== *)
(** * [dhcp/logger.go], the [Logger] of [main.go] and [Request.ToString]

    What is logged, and the one line that is made of what a client sent: every request is
    turned into text (api.go), and that text is the format of a log line (socket.go). *)

From S2P Require Import Prelude GoStrings GoNet GoFmt Types Dhcpv4 Server.
Open Scope string_scope.
Open Scope list_scope.
Open Scope Z_scope.

(** ** The interface and its two implementations

    [L] are the loggers and [E] what they write.  [None]: see [Sprintf].  An error is
    given by its text. *)
Class RLogger (L E : Type) : Type := {
  Errorf : L → string → string → list string → option E;
  Infof : L → string → list string → option E;
  Debugf : L → string → list string → option E;
  WithName : L → string → L;
}.

(** The standard logger, [log], prefixes the time and adds the end of the line. *)
Inductive GenericLogger := TheGenericLogger.

Definition generic_Errorf (s : GenericLogger) (err format : string) (args : list string) : option string :=
  msg ← Sprintf format args;
  Sprintf ("ERROR: %s" +:+ String "010" "%s") [err; msg].

Definition generic_Infof (s : GenericLogger) (format : string) (args : list string) : option string :=
  Sprintf format args.

Definition generic_Debugf (s : GenericLogger) (format : string) (args : list string) : option string :=
  Sprintf format args.

Definition generic_WithName (s : GenericLogger) (_ : string) : GenericLogger := TheGenericLogger.

#[global] Instance GenericLogger_RLogger : RLogger GenericLogger string := {
  Errorf := generic_Errorf; Infof := generic_Infof; Debugf := generic_Debugf; WithName := generic_WithName }.

(** [logr.Logger], which is not part of the repository. *)
Class Logr (R E : Type) : Type := {
  V : R → Z → R;
  logr_Info : R → string → E;
  logr_Error : R → string → string → E;
  logr_WithName : R → string → R;
}.

Record Logger (R : Type) := { rlog : R }.
Arguments rlog {R}.

Section LogrLogger.
Context {R E : Type} `{!Logr R E}.

Definition logger_Infof (l : Logger R) (format : string) (args : list string) : option E :=
  msg ← Sprintf format args; Some (logr_Info (V (rlog l) 0) msg).

Definition logger_Debugf (l : Logger R) (format : string) (args : list string) : option E :=
  msg ← Sprintf format args; Some (logr_Info (V (rlog l) 1) msg).

Definition logger_Errorf (l : Logger R) (err format : string) (args : list string) : option E :=
  msg ← Sprintf format args; Some (logr_Error (rlog l) err msg).

Definition logger_WithName (l : Logger R) (name : string) : Logger R :=
  {| rlog := logr_WithName (rlog l) name |}.

#[global] Instance Logger_RLogger : RLogger (Logger R) E := {
  Errorf := logger_Errorf; Infof := logger_Infof; Debugf := logger_Debugf; WithName := logger_WithName }.
End LogrLogger.

(** ** A request as text *)

(** [string(opt)]. *)
Definition go_string (b : list Z) : string :=
  foldr (λ x s, String (ascii_of_nat (Z.to_nat x)) s) "" b.

(** One turn of the loop of [ToString]. *)
Definition add_opt (opts : string) (kv : Z * list Z) : option string :=
  Sprintf "%d:%s %s" [itoa kv.1; QuoteToASCII (go_string kv.2); opts].

Fixpoint opts_loop (opts : string) (options : list (Z * list Z)) : option string :=
  match options with
  | [] => Some opts
  | kv :: options => opts ← add_opt opts kv; opts_loop opts options
  end.

Section RequestText.
(** [DHCPv4.String] of the packet library. *)
Context (pkt_String : DHCPv4 → string).

(** [options] is the map of the options in the order of its iteration. *)
Definition ToString (options : list (Z * list Z)) (s : Request) : option string :=
  opts ← opts_loop "" options;
  Sprintf "%s <%s>" [pkt_String (Request_DHCPv4 s); opts].

(** The call at the end of [GetRequest]: the text of the request is the format. *)
Definition log_request {L E} `{!RLogger L E} (l : L) (options : list (Z * list Z)) (req : Request) : option E :=
  format ← ToString options req; Infof l format [].
End RequestText.

(** ** What both loggers promise *)

(** Information is written as [Sprintf] makes it, whatever the name of the logger. *)
Class RLoggerLaws {L E} (R : RLogger L E) : Type := {
  written : L → string → E;
  Infof_written l format args : Infof l format args = (msg ← Sprintf format args; Some (written l msg));
}.

#[global] Instance GenericLogger_laws : RLoggerLaws GenericLogger_RLogger.
Proof.
  refine {| written _ msg := msg |}. intros l f a.
  change (Sprintf f a = (msg ← Sprintf f a; Some msg)). by destruct (Sprintf f a).
Defined.

#[global] Instance Logger_laws {R E} `{!Logr R E} : RLoggerLaws (@Logger_RLogger R E _).
Proof. refine {| written l msg := logr_Info (V (rlog l) 0) msg |}. done. Defined.

(** ** The text of the options *)

Definition opt_text (kv : Z * list Z) : string := itoa kv.1 +:+ (":" +:+ (QuoteToASCII (go_string kv.2) +:+ " ")).

(** The last option of the iteration comes first. *)
Definition opts_text (options : list (Z * list Z)) : string :=
  foldl (λ opts kv, opt_text kv +:+ opts) "" options.

Lemma add_opt_text opts kv : add_opt opts kv = Some (opt_text kv +:+ opts).
Proof.
  unfold opt_text. rewrite !string_app_assoc. rewrite <-(append_nil_r opts) at 2. reflexivity.
Qed.

Lemma opts_loop_text opts options :
  opts_loop opts options = Some (foldl (λ opts kv, opt_text kv +:+ opts) opts options).
Proof.
  revert opts. induction options as [|kv options IH]; intros opts; [done|].
  cbn [opts_loop foldl]. rewrite add_opt_text. apply IH.
Qed.

Lemma ToString_text pkt_String options req :
  ToString pkt_String options req =
    Some (pkt_String (Request_DHCPv4 req) +:+ (" <" +:+ (opts_text options +:+ ">"))).
Proof. unfold ToString. rewrite opts_loop_text. reflexivity. Qed.

(** Every option is somewhere in the text. *)
Lemma opts_text_elem options kv opts : kv ∈ options →
  ∃ pre post, foldl (λ opts kv, opt_text kv +:+ opts) opts options = pre +:+ (opt_text kv +:+ post).
Proof.
  assert (∀ options opts, ∃ pre, foldl (λ opts kv, opt_text kv +:+ opts) opts options = pre +:+ opts) as Hend.
  { induction options0 as [|x options0 IH]; intros o; [by exists ""|]. cbn [foldl].
    destruct (IH (opt_text x +:+ o)) as [pre ->]. exists (pre +:+ opt_text x). by rewrite string_app_assoc. }
  intros Hkv. revert opts. induction Hkv as [kv options|kv x options _ IH]; intros opts; cbn [foldl].
  - destruct (Hend options (opt_text kv +:+ opts)) as [pre ->]. by exists pre, opts.
  - apply IH.
Qed.

Lemma opts_text_printable options :
  Forall (λ kv, 0 <= kv.1) options → all_chars printable (opts_text options) = true.
Proof.
  intros H. unfold opts_text.
  assert (∀ opts, all_chars printable opts = true →
    all_chars printable (foldl (λ opts kv, opt_text kv +:+ opts) opts options) = true) as Hf; [|by apply Hf].
  induction H as [|[k v] options Hk _ IH]; intros opts Ho; [done|]. cbn [foldl]. apply IH.
  unfold opt_text, itoa. rewrite !all_chars_app, QuoteToASCII_printable, itoa_loop_printable, Ho by done. done.
Qed.

(** ** The line of a request *)

(** What the loop over the options and the format make of a request, for any logger. *)
Lemma log_request_written pkt_String {L E} `{R : !RLogger L E, !RLoggerLaws R} (l : L) options req text :
  ToString pkt_String options req = Some text →
  log_request pkt_String l options req = (line ← Sprintf text []; Some (written l line)).
Proof. intros H. unfold log_request. rewrite H. apply Infof_written. Qed.

(** C33: each request that is read is logged as one line, by either logger: its text holds the
    code and the quoted value of every option, in whatever order Go goes through
    them, and whatever the bytes of the options are, nothing in the line is a
    control character or outside ASCII, so a client cannot end the line and begin another.  The line
    is the text of the request if there is no percent sign in it. *)
Theorem request_is_one_line pkt_String {L E} `{R : !RLogger L E, !RLoggerLaws R} (l : L) options req :
  options ≡ₚ map_to_list (Options (Request_DHCPv4 req)) →
  (∀ code v, Options (Request_DHCPv4 req) !! code = Some v → is_u8 code) →
  all_chars printable (pkt_String (Request_DHCPv4 req)) = true →
  ∃ text line,
    ToString pkt_String options req = Some text ∧
    log_request pkt_String l options req = Some (written l line) ∧
    all_chars printable line = true ∧
    (∀ code v, Options (Request_DHCPv4 req) !! code = Some v →
       ∃ pre post, text = pre +:+ (opt_text (code, v) +:+ post)) ∧
    (contains_char "%" text = false → line = text).
Proof.
  intros Ho Hu Hp. pose proof (ToString_text pkt_String options req) as Ht.
  set (text := _ +:+ (" <" +:+ _)) in Ht.
  destruct (Sprintf_noarg text) as (line & Hl & Hline). exists text, line. split_and!.
  - exact Ht.
  - by rewrite (log_request_written _ _ _ _ _ Ht), Hl.
  - apply Hline. subst text. rewrite !all_chars_app, Hp, opts_text_printable; [done|].
    apply Forall_forall. intros [code v] H. apply list_elem_of_In in H. rewrite Ho in H.
    apply elem_of_map_to_list, Hu in H. unfold is_u8 in H. cbn. lia.
  - intros code v H%elem_of_map_to_list. rewrite <-Ho in H.
    destruct (opts_text_elem options (code, v) "" H) as (pre & post & E0). subst text. unfold opts_text. rewrite E0.
    exists (pkt_String (Request_DHCPv4 req) +:+ (" <" +:+ pre)), (post +:+ ">"). by rewrite !string_app_assoc.
  - intros Hc. pose proof (Sprintf_plain_app text "" [] Hc) as H. rewrite append_nil_r, Sprintf_nil in H.
    cbn [mbind option_bind] in H. rewrite append_nil_r in H. congruence.
Qed.

(** Of a percent sign and a letter in an option, the line shows something else: the text of the
    request is taken for a format, and there are no arguments for it. *)
Theorem request_is_a_format pkt_String {L E} `{R : !RLogger L E, !RLoggerLaws R} (l : L) options req pre c post :
  contains_char "%" (pkt_String (Request_DHCPv4 req) +:+ (" <" +:+ pre)) = false →
  is_lower c = true →
  opts_text options = pre +:+ String "%" (String c post) →
  ∃ text line rest,
    ToString pkt_String options req = Some text ∧
    log_request pkt_String l options req = Some (written l line) ∧
    line = pkt_String (Request_DHCPv4 req) +:+ (" <" +:+ (pre +:+ ("%!" +:+ String c ("(MISSING)" +:+ rest)))) ∧
    line ≠ text.
Proof.
  intros Hn Hc He. pose proof (ToString_text pkt_String options req) as Ht.
  set (head := pkt_String _ +:+ (" <" +:+ pre)) in *.
  assert (pkt_String (Request_DHCPv4 req) +:+ (" <" +:+ (opts_text options +:+ ">")) =
          head +:+ String "%" (String c (post +:+ ">"))) as Eq.
  { rewrite He. subst head. by rewrite !string_app_assoc. }
  rewrite Eq in Ht. destruct (Sprintf_noarg (post +:+ ">")) as (rest & Hr & _).
  eexists _, _, rest. split_and!; [exact Ht| |reflexivity|].
  - rewrite (log_request_written _ _ _ _ _ Ht), Sprintf_plain_app, Sprintf_missing_arg, Hr by done.
    cbn [mbind option_bind]. subst head. by rewrite !string_app_assoc.
  - replace (pkt_String _ +:+ _) with (head +:+ ("%!" +:+ String c ("(MISSING)" +:+ rest)))
      by (subst head; by rewrite !string_app_assoc).
    intros H. clear -H Hc. induction head as [|x head IH]; [|injection H; exact IH].
    injection H as <- _. discriminate Hc.
Qed.

(** A client names itself [50%s off], in the option for the name of the host. *)
Definition percent_request : Request := {|
  Request_DHCPv4 := set_Options {[12 := [53; 48; 37; 115; 32; 10]; 53 := [1]]} (client_packet 1 [2; 0; 0; 0; 0; 1] None);
  Request_Src := "0.0.0.0:68"; Request_InterfaceName := "br1"; Request_Dst := IPv4bcast; Request_socket := 0%nat |}.

Definition short_String (p : DHCPv4) : string := "DHCPv4(xid=0)".

Example percent_request_line :
  log_request short_String TheGenericLogger (map_to_list (Options (Request_DHCPv4 percent_request))) percent_request =
  Some ("DHCPv4(xid=0) <12:" +:+ String quote ("50%!s(MISSING) " +:+ String backslash ("n" +:+ String quote
        (" 53:" +:+ String quote (String backslash ("x01" +:+ String quote " >")))))).
Proof. vm_compute. reflexivity. Qed.

Lemma request_is_one_line_witness :
  ∃ text line,
    log_request short_String TheGenericLogger (map_to_list (Options (Request_DHCPv4 percent_request))) percent_request =
      Some line ∧
    all_chars printable line = true ∧
    ToString short_String (map_to_list (Options (Request_DHCPv4 percent_request))) percent_request = Some text ∧
    ∃ pre post, text = pre +:+ (opt_text (53, [1]) +:+ post).
Proof.
  destruct (request_is_one_line short_String TheGenericLogger
    (map_to_list (Options (Request_DHCPv4 percent_request))) percent_request) as (text & line & Ht & Hl & Hp & Ho & _).
  - reflexivity.
  - intros code v. cbn. rewrite lookup_insert_Some, lookup_singleton_Some. unfold is_u8. intros [[<- _]|[_ [<- _]]]; lia.
  - reflexivity.
  - exists text, line. split_and!; [exact Hl|exact Hp|exact Ht|apply Ho; reflexivity].
Defined.

Lemma request_is_a_format_witness :
  ∃ text line,
    ToString short_String (map_to_list (Options (Request_DHCPv4 percent_request))) percent_request = Some text ∧
    log_request short_String TheGenericLogger (map_to_list (Options (Request_DHCPv4 percent_request))) percent_request =
      Some line ∧
    line ≠ text.
Proof.
  destruct (request_is_a_format short_String TheGenericLogger
    (map_to_list (Options (Request_DHCPv4 percent_request))) percent_request
    ("12:" +:+ String quote "50") "s"
    (" " +:+ String backslash ("n" +:+ String quote (" 53:" +:+ String quote (String backslash ("x01" +:+ String quote " "))))))
    as (text & line & rest & Ht & Hl & _ & Hne); [reflexivity..|].
  exists text, line. by split_and!.
Defined.
